(* ===== verification/_CoqProject ===== *)
-Q . S2P
Prelude.v
CppString.v
CppNum.v
Http.v
Base64.v
Pipeline.v
Router.v
Kernel.v
Token.v
HttpServer.v
ServerPool.v
Websocket.v
WsServer.v
Database.v
Tables.v
Repository.v
DbQueue.v
QueueDrain.v
Session.v
Cache.v
Auth.v
HttpAuth.v
Container.v
ContainerTypes.v
Scheduler.v
Pat.v
Validation.v
Config.v
Migration.v
StaticFiles.v
Pbkdf2.v
View.v
Messaging.v
ViewTree.v
Livewire.v
Sqlite.v
SqliteTables.v
Facade.v
BlogModels.v
Blog.v
BlogBoot.v
BlogArticles.v
BlogLogin.v
BlogCounter.v
CocoWeb.v
CocoWire.v
Generators.v
Artisan.v
SqliteDemo.v
Hold.v
Smtp.v
Slice.v
SliceAgrees.v
Testing.v
Wasm.v
WasmCalls.v
WasmHost.v
Clang.v
Autowire.v
Genmodel.v
LivewireClient.v
CocoMain.v
BlogMain.v
HubThreads.v
WasmProgram.v
