(* ===== verification/Prelude.v ===== *)
(** * Laravel-in-C++: a verification development

    The program is a web framework in C++ (include/, src/): a request arrives at the HTTP
    server, is parsed, goes through the kernel's middleware and the router to a handler,
    and its response is printed back on the socket.  Around that path stand the services a
    handler uses: database connections and repositories, a database-backed queue, sessions,
    authentication and rate limiting, signed and stored API tokens, a cache, a service
    container, validation, scheduling, configuration, migrations, views, Livewire
    components, static files, events and mail; and a WebSocket endpoint that takes a
    connection over from the HTTP server.  Two applications come with it (examples/blog,
    examples/coco-web); what they do for a client is the composition of all that.  Beside
    them stand a copy of the framework in small (slice.cpp), its build as a WebAssembly
    module (wasm/), a browser script for the components, code generators and a test kit.

    ** Conventions
    A function that can throw returns a [res]; one that also changes state is a computation
    in [M S], which keeps the writes done before a throw.  Process state (the application a
    handler closes over) is a type parameter [W].  A C++ abstract class is a record of
    operations over a state (RouterOps, Connection, SessionStore, Cache, UserProvider), and
    what its clients rely on a type class of laws that the shipped implementation
    discharges (Database.ConnectionLaws by MemoryConnection, Tables.TableLaws by it and by
    SqliteConnection, Scheduler.Stamps by the in-memory map and by any such table).  std::unordered_map is [gmap]; where the source
    iterates one, the order is an argument ([MapOrder]) and the theorems hold for all.
    std::string is a byte string; integers are [Z] with their width's wrap-around written
    out, and the strto* family throws as the standard library does.  Clocks, random bytes,
    OpenSSL's digests, the local-time conversion and the file system are arguments.
    A mutex that guards a whole operation makes it one atomic step; where operations
    interleave (DbQueue, ServerPool) the steps are explicit.  A socket is a script of what recv and
    send return with a log of what was done to it.

    ** Files
    - Prelude: [res], [M], [MapOrder], automation, lemmas on lists and maps.
    - CppString, CppNum: std::string operations; fixed widths, to_string, stoi/stol/stoll.
    - Http (http.hpp): Request, Response, URL, form and cookie decoding.
    - Pipeline (pipeline.hpp/.cpp), Router (router.hpp/.cpp: the regex a pattern becomes, a
      backtracking matcher for that fragment, [match_request]), Kernel (kernel.hpp/.cpp,
      service_provider.hpp: [handle], [dispatch], two-phase registration).
    - HttpServer (http_server.hpp/.cpp): [read_request], [parse_http_request],
      [format_http_response], [handle_client], the accept loop.  ServerPool (http_server.cpp):
      [serve], its workers and [stop] as interleaved threads.  Hold: how long a client can
      keep a worker.
    - Base64, Token (token.hpp); Websocket (websocket.hpp), WsServer (websocket_server.hpp:
      handshake, [receive], the hub, the terminal bridge), HubThreads (the hub's broadcasts
      against the threads of its connections).
    - Database (database.hpp/.cpp), Tables (what both backends promise alike), Repository
      (repository.hpp, relations.hpp), DbQueue (db_queue.hpp; QueueDrain: it empties), Sqlite
      (sqlite_connection.cpp: the SQL text and the error behaviour), SqliteTables (its
      operations as operations on tables), SqliteDemo (a library that makes them so), Migration (schema.hpp, migration.hpp), Pat
      (personal_access_token.hpp), Scheduler (scheduler.hpp).
    - Session (session.hpp), Cache (cache.hpp), Auth (hash.hpp, auth.hpp, gate.hpp),
      HttpAuth (http_auth.hpp), Pbkdf2 (pbkdf2_hash.hpp).
    - Container (container.hpp; ContainerTypes: what [any_cast] meets), Facade
      (facade.hpp), Validation (validation.hpp), Config (config.hpp),
      StaticFiles (static_files.hpp), View (view.hpp; ViewTree: templates as trees),
      Livewire (livewire.hpp), Messaging (events.hpp, queue.hpp,
      broadcast.hpp, mail.hpp, mailable.hpp, the text of smtp.hpp), Smtp (its socket).
    - The blog (examples/blog/app): BlogModels (models, migrations.hpp), Blog (controllers,
      components, providers, [routes], [bootstrap]), BlogBoot (the booted application),
      BlogArticles, BlogLogin, BlogCounter (what a client sees of it), BlogMain (main.cpp),
      LivewireClient (livewire_client.hpp: the script's morph of a tree of nodes).
    - CocoWeb (examples/coco-web/app.hpp), CocoWire: the same from the socket, CocoMain
      (main.cpp: what it serves, the terminal endpoint).
    - Generators (generators.hpp, project_scaffold.hpp), Artisan (examples/blog/artisan.cpp:
      the commands, a process each), Clang (the cursors of libclang), Autowire
      (tools/autowire), Genmodel (tools/codegen).
    - Testing (test_harness.hpp, testing.hpp: the runner and the in-process client).
    - Slice (slice.cpp), SliceAgrees: its container and kernel are the library's.
    - Wasm (wasm/main.cpp), WasmCalls (what a host's calls answer), WasmHost, WasmProgram
      (wasm/host.cpp: strings in linear memory, the program).
    Definitions keep the names of the source; a method [f] of two classes of one file, or a
    name Rocq reserves, gets a prefix (mem_select, ws_send, bp_string).

    ** What the theorems show
    - The request path.  The kernel answers every request, with the handler's response, a
      404, a 405 with Allow, or a 500; the router picks the first matching route, and a
      route that was added takes exactly the paths its URI describes and binds the values
      under their names; middleware nest as an onion.  The
      server reads a request within its limits however the network cuts it, parses back
      what a client prints, answers exactly once and closes.
    - WebSocket.  Frame parsing is stream-safe and inverts framing; [receive] keeps
      its contract, a relation on the frames a peer sends ([session]), for every
      segmentation, is bounded, refuses oversize frames from their header; the handshake gates on key and origin; the terminal ends for
      every peer and answers every line once, from the upgrade request to the close frame.
    - Data.  [select] keeps the rows that satisfy the clauses, by the meaning of the operators,
      in a stable order and within the window; update, removal and transactions
      behave as one table of rows; compare-and-set is atomic; the store's invariant holds
      of every reachable store; pages partition a result; eager loading equals per-parent
      queries; no two of the queue's workers are inside one job at one moment under any
      interleaving, also with jobs pushed and stamps written meanwhile.  With SQL's meaning of its statements the
      SQLite connection is, for full rows, the table of rows the memory backend is, so what is
      shown over [TableLaws] (queue, scheduler, API tokens, the blog's articles) holds on both.
    - Security.  Tokens verify exactly when signature and expiry are right and round-trip
      their claims; stored tokens live until expiry or revocation; login changes the
      session id; guards block; the limiter admits at most max requests per window; escaped
      text holds no markup; below a root that resolves, answers are made of files under it
      only.
    - Services.  Autowired containers resolve to complete graphs and memoise; validation
      decides its rule language; ticks run exactly the due tasks; migrations apply once and
      in order; queued listeners equal direct ones; byte ranges select what they name; typed
      resolutions never meet a value of another type; templates mean their tree; a
      component's update is its action on the state the page holds.
    - Threads and time.  [stop] ends [serve] in a bounded number of turns under every
      schedule, clients are taken once, a broadcast comes once to each connection
      added and not removed when it started, the listening socket is closed once; workers that keep polling empty the queue; a request
      holds a worker for a bounded time only.
    - Applications.  In the booted blog no request without the token changes the database,
      stored articles are shown, login needs its form's token and moves to a fresh session,
      clicks count; save-states come back byte for byte, also over the wire.  What a tick
      of the schedule fires, a worker prints once; scaffolding overwrites nothing.  After a
      morph the browser shows the page of the answer; the WebAssembly host prints what
      the list of articles answers; a message reaches an SMTP server as it was composed if
      none of its lines begins with a dot.
    - Tools and copies.  The generated registrations and mappers are those of the header's
      declarations, resolve and round-trip; the two model generators agree where they can;
      the slice's kernel is the library's; a suite is green exactly when its kernel answers
      what it expects.
    Where modelling showed the code to deviate from its intent, a lemma exhibits it next to
    the component (stale_snapshot_loses_attempt, header_limit_depends_on_chunking,
    subject_exp_never_expires, unresolved_root_confines_nothing,
    failed_write_reports_success, leading_dot_is_lost, memory_rollback_forgets_nothing, unterminated_never_ends ...).

    ** Fuel
    Loops with a bounded number of steps (scans of a string, encoders, the reader's and
    [receive]'s loops over a script) take as fuel the length of what they consume plus one
    or more, and lemmas show the result does not depend on more.  Container.make_erased and
    View.render_impl can really diverge, so they return [None] without fuel; the theorems
    on the former give the fuel that is enough and show when none is (cycle_never_ends).
    A component's rendering takes the fuel of its template (BlogCounter gives enough).
    CocoMain gives its loop one turn for every byte still to come, which is enough since a
    message costs bytes.

    ** Not modelled
    OpenSSL, SQLite, libclang, the browser's HTML parser and Wasmtime are parameters; the SMTP server
    is what RFC 5321 says of one that accepts the commands (the class SmtpServer, which an
    executable server discharges), the generators' disk a record of what it answers; opening
    a SQLite handle and setting up a WebAssembly engine are calls of them only.  The text of
    the Livewire client script is a parameter of the blog (LivewireClient models what it
    does).  Handlers that change the routes, bindings or listeners while being run are not
    covered.  On SQLite the statements of the migrations and queries with an order, a limit or
    a comparison other than "=" are shown to have the right text only, and a database whose
    statements fail (a lock, a constraint) is left to the findings.  The PHP script in ffi/ and
    the test cases are not modelled. *)
From stdpp Require Export base gmap sets list strings.
From Stdlib Require Export ZArith Lia.
From Stdlib Require Ascii.
Export Stdlib.Strings.Ascii (ascii(..), N_of_ascii, ascii_of_N, N_ascii_bounded, N_ascii_embedding,
  ascii_N_embedding).
Export (notations) Stdlib.Strings.Ascii.

#[export] Set Default Goal Selector "!".

(** ** Exceptions and effects

    A C++ function that can throw returns a [res]; one that also changes state
    is a computation in [M S], which keeps the state reached when the exception
    left the function (C++ does not undo the writes done before a throw). *)

Inductive exn : Type :=
  | StdExn (what : string)   (* anything derived from std::exception *)
  | OtherExn.                (* a thrown value of any other type *)

Inductive res (A : Type) : Type :=
  | Ok (a : A)
  | Throw (e : exn).
Arguments Ok {_} _.
Arguments Throw {_} _.

#[export] Instance exn_eq_dec : EqDecision exn.
Proof. solve_decision. Defined.
#[export] Instance res_eq_dec `{EqDecision A} : EqDecision (res A).
Proof. solve_decision. Defined.

#[export] Instance res_ret : MRet res := @Ok.
#[export] Instance res_bind : MBind res := fun A B f r =>
  match r with Ok a => f a | Throw e => Throw e end.

#[export] Instance res_fmap : FMap res := fun A B f r =>
  match r with Ok a => Ok (f a) | Throw e => Throw e end.

Definition res_opt {A} (r : res A) : option A :=
  match r with Ok a => Some a | Throw _ => None end.

Definition M (S A : Type) : Type := S -> res A * S.

#[export] Instance M_ret {S} : MRet (M S) := fun A a s => (Ok a, s).
#[export] Instance M_bind {S} : MBind (M S) := fun A B f m s =>
  match m s with
  | (Ok a, s') => f a s'
  | (Throw e, s') => (Throw e, s')
  end.

Definition throw {S A} (e : exn) : M S A := fun s => (Throw e, s).
Definition get_state {S} : M S S := fun s => (Ok s, s).
Definition put_state {S} (s' : S) : M S unit := fun _ => (Ok tt, s').
Definition gets {S A} (f : S -> A) : M S A := fun s => (Ok (f s), s).
Definition modify {S} (f : S -> S) : M S unit := fun s => (Ok tt, f s).
Definition lift_res {S A} (r : res A) : M S A := fun s => (r, s).

(** [try { m } catch (...) { h e }]. *)
Definition try_catch {S A} (m : M S A) (h : exn -> M S A) : M S A := fun s =>
  match m s with
  | (Ok a, s') => (Ok a, s')
  | (Throw e, s') => h e s'
  end.

(** Lift a computation on a part of the state. *)
Definition on_part {S T A} (get : S -> T) (set : T -> S -> S) (m : M T A) : M S A :=
  fun s => match m (get s) with (r, t) => (r, set t s) end.

Section monad_laws.
Context {S A B C : Type}.

Lemma M_bind_ret (a : A) (f : A -> M S B) s : (mret a ≫= f) s = f a s.
Proof. reflexivity. Qed.

Lemma M_bind_assoc (m : M S A) (f : A -> M S B) (g : B -> M S C) s :
  ((m ≫= f) ≫= g) s = (m ≫= fun a => f a ≫= g) s.
Proof.
  unfold mbind, M_bind. by destruct (m s) as [[a|e] s'].
Qed.

Lemma try_catch_no_throw (m : M S A) (h : exn -> M S A) s :
  (forall e s', exists a s'', h e s' = (Ok a, s'')) ->
  exists a s', try_catch m h s = (Ok a, s').
Proof.
  intros Hh. unfold try_catch. destruct (m s) as [[a|e] s'] eqn:E; eauto.
Qed.
End monad_laws.

(** ** Iteration order of std::unordered_map

    The order in which a range-for visits an unordered_map is unspecified, so
    code that iterates over one is modelled against an arbitrary enumeration.
    [canonical_order] shows that one exists. *)
Class MapOrder (V : Type) := {
  iter_map : gmap string V -> list (string * V);
  iter_map_perm m : iter_map m ≡ₚ map_to_list m
}.
Arguments iter_map {_ _} _.

Definition canonical_order {V} : MapOrder V :=
  {| iter_map := map_to_list; iter_map_perm := fun m => Permutation_refl _ |}.

Section map_order.
Context {V : Type} `{MapOrder V}.

Lemma elem_of_iter_map (m : gmap string V) k v :
  (k, v) ∈ iter_map m <-> m !! k = Some v.
Proof. rewrite iter_map_perm. apply elem_of_map_to_list. Qed.

Lemma iter_map_nodup (m : gmap string V) : NoDup (iter_map m).*1.
Proof. rewrite iter_map_perm. apply NoDup_fst_map_to_list. Qed.

Lemma iter_map_list_to_map (m : gmap string V) : list_to_map (iter_map m) = m.
Proof.
  rewrite <- (list_to_map_to_list m) at 2.
  apply list_to_map_proper; [apply iter_map_nodup | apply iter_map_perm].
Qed.
End map_order.

(** ** Automation *)
Create HintDb cpp.

Ltac deexist :=
  repeat match goal with
  | H : exists _, _ |- _ => destruct H
  | H : _ /\ _ |- _ => destruct H
  end.

(** Case analysis on the innermost boolean test or match of the goal. *)
Ltac case_goal :=
  match goal with
  | |- context [ if ?b then _ else _ ] => destruct b eqn:?
  | |- context [ match ?x with _ => _ end ] => destruct x eqn:?
  end.

Ltac bools :=
  repeat match goal with
  | H : (_ && _)%bool = true |- _ => apply andb_true_iff in H as [? ?]
  | H : (_ || _)%bool = false |- _ => apply orb_false_iff in H as [? ?]
  | H : negb _ = true |- _ => apply negb_true_iff in H
  | H : negb _ = false |- _ => apply negb_false_iff in H
  | H : (_ =? _)%Z = true |- _ => apply Z.eqb_eq in H
  | H : (_ =? _)%Z = false |- _ => apply Z.eqb_neq in H
  | H : (_ <? _)%Z = true |- _ => apply Z.ltb_lt in H
  | H : (_ <? _)%Z = false |- _ => apply Z.ltb_ge in H
  | H : (_ <=? _)%Z = true |- _ => apply Z.leb_le in H
  | H : (_ <=? _)%Z = false |- _ => apply Z.leb_gt in H
  | H : (_ =? _)%nat = true |- _ => apply Nat.eqb_eq in H
  | H : (_ =? _)%nat = false |- _ => apply Nat.eqb_neq in H
  | H : (_ <? _)%nat = true |- _ => apply Nat.ltb_lt in H
  | H : (_ <? _)%nat = false |- _ => apply Nat.ltb_ge in H
  | H : (_ <=? _)%nat = true |- _ => apply Nat.leb_le in H
  | H : (_ <=? _)%nat = false |- _ => apply Nat.leb_gt in H
  | H : bool_decide _ = true |- _ => apply bool_decide_eq_true in H
  | H : bool_decide _ = false |- _ => apply bool_decide_eq_false in H
  end.
