(* ===== verification/CppString.v ===== *)
(** * std::string

    A std::string is modelled by [string]: a sequence of 8-bit characters, NUL
    included.  Positions and sizes are [nat]; [npos] is [None].  The operations
    are the ones the sources use ([find], [substr], [find_first_not_of], ...),
    with their out-of-range behaviour, and the lemmas about them are shared by
    every parser and printer of the development. *)
From S2P Require Import Prelude.

(** ** Characters and bytes *)
Definition byte_of (c : ascii) : Z := Z.of_N (N_of_ascii c).
(** static_cast<char>: keep the low eight bits. *)
Definition chr (z : Z) : ascii := ascii_of_N (Z.to_N (z mod 256)).

Lemma byte_of_bound c : (0 <= byte_of c < 256)%Z.
Proof.
  unfold byte_of. pose proof (N_ascii_bounded c). lia.
Qed.

Lemma byte_of_chr z : byte_of (chr z) = (z mod 256)%Z.
Proof.
  unfold byte_of, chr. pose proof (Z.mod_pos_bound z 256 ltac:(lia)).
  rewrite N_ascii_embedding by lia. lia.
Qed.

Lemma byte_of_chr_small z : (0 <= z < 256)%Z -> byte_of (chr z) = z.
Proof. intros. rewrite byte_of_chr. by apply Z.mod_small. Qed.

Lemma chr_byte_of c : chr (byte_of c) = c.
Proof.
  unfold chr, byte_of. rewrite Z.mod_small.
  - rewrite N2Z.id. apply ascii_N_embedding.
  - apply byte_of_bound.
Qed.

#[export] Instance byte_of_inj : Inj (=) (=) byte_of.
Proof. intros c d H. by rewrite <- (chr_byte_of c), H, chr_byte_of. Qed.

Definition in_range (lo hi c : ascii) : bool :=
  ((byte_of lo <=? byte_of c) && (byte_of c <=? byte_of hi))%Z.
Definition is_digit (c : ascii) : bool := in_range "0" "9" c.
Definition is_upper (c : ascii) : bool := in_range "A" "Z" c.
Definition is_lower (c : ascii) : bool := in_range "a" "z" c.
(** std::tolower / std::isspace in the "C" locale. *)
Definition tolower (c : ascii) : ascii := if is_upper c then chr (byte_of c + 32) else c.
Definition is_space (c : ascii) : bool :=
  bool_decide (byte_of c = 32%Z) || in_range (chr 9) (chr 13) c.

(** ** Characters of a string *)
Abbreviation chars := String.list_ascii_of_string.
Abbreviation implode := String.string_of_list_ascii.
Abbreviation len := String.length.

Definition quote : ascii := chr 34.
Definition backslash : ascii := chr 92.
Definition str1 (c : ascii) : string := String c "".

Lemma chars_implode l : chars (implode l) = l.
Proof. apply String.list_ascii_of_string_of_list_ascii. Qed.
Lemma implode_chars s : implode (chars s) = s.
Proof. apply String.string_of_list_ascii_of_string. Qed.

#[export] Instance chars_inj : Inj (=) (=) chars.
Proof. intros s t H. by rewrite <- (implode_chars s), H, implode_chars. Qed.

Lemma chars_app s t : chars (s +:+ t) = chars s ++ chars t.
Proof. induction s as [|c s IH]; [done|]. cbn. by rewrite <- IH. Qed.

Lemma length_chars s : length (chars s) = len s.
Proof. induction s; cbn; congruence. Qed.

Lemma s_app_cons c s t : String c s +:+ t = String c (s +:+ t).
Proof. reflexivity. Qed.
Lemma s_app_nil_l s : "" +:+ s = s.
Proof. reflexivity. Qed.
Lemma s_app_nil_r s : s +:+ "" = s.
Proof. apply (inj chars). by rewrite chars_app, app_nil_r. Qed.
Lemma s_app_assoc s t u : (s +:+ t) +:+ u = s +:+ (t +:+ u).
Proof. apply (inj chars). by rewrite !chars_app, app_assoc. Qed.
Lemma length_s_app s t : len (s +:+ t) = len s + len t.
Proof. by rewrite <- !length_chars, chars_app, length_app. Qed.
Lemma s_app_inj_l s t u : s +:+ t = s +:+ u -> t = u.
Proof. induction s as [|c s IH]; [done|]. rewrite !s_app_cons. intros [= E]. by apply IH. Qed.
Lemma s_app_inj_r s t u : s +:+ u = t +:+ u -> s = t.
Proof.
  intros H%(f_equal chars). rewrite !chars_app in H.
  by apply app_inv_tail in H; apply (inj chars).
Qed.

(** ** Taking and dropping *)
Fixpoint s_drop (n : nat) (s : string) : string :=
  match n, s with
  | S n', String _ s' => s_drop n' s'
  | _, _ => s
  end.
Fixpoint s_take (n : nat) (s : string) : string :=
  match n, s with
  | S n', String c s' => String c (s_take n' s')
  | _, _ => ""
  end.
Fixpoint s_at (s : string) (n : nat) : option ascii :=
  match s, n with
  | "", _ => None
  | String c _, 0 => Some c
  | String _ s', S n' => s_at s' n'
  end.

Lemma chars_drop n s : chars (s_drop n s) = drop n (chars s).
Proof. revert s; induction n; intros [|c s]; cbn; auto. Qed.
Lemma chars_take n s : chars (s_take n s) = take n (chars s).
Proof. revert s; induction n; intros [|c s]; cbn; f_equal; auto. Qed.
Lemma s_at_chars s n : s_at s n = chars s !! n.
Proof. revert n; induction s; intros [|n]; cbn; auto. Qed.

(** [str_eq] turns an equation between strings into one between their character
    lists, where the lemmas of stdpp apply. *)
Ltac str_eq :=
  apply (inj chars); rewrite ?chars_app, ?chars_drop, ?chars_take, ?chars_app; cbn.

Lemma length_s_drop n s : len (s_drop n s) = len s - n.
Proof. by rewrite <- !length_chars, chars_drop, length_drop. Qed.
Lemma length_s_take n s : len (s_take n s) = n `min` len s.
Proof. by rewrite <- !length_chars, chars_take, length_take. Qed.
Lemma s_take_drop n s : s_take n s +:+ s_drop n s = s.
Proof. str_eq. apply take_drop. Qed.
Lemma s_drop_app n s t : n = len s -> s_drop n (s +:+ t) = t.
Proof. intros ->. str_eq. by rewrite drop_app_length' by (symmetry; apply length_chars). Qed.
Lemma s_take_app n s t : n = len s -> s_take n (s +:+ t) = s.
Proof. intros ->. str_eq. by rewrite take_app_length' by (symmetry; apply length_chars). Qed.
Lemma s_drop_app_le n s t : n <= len s -> s_drop n (s +:+ t) = s_drop n s +:+ t.
Proof. intros. str_eq. rewrite drop_app_le; [done|]. by rewrite length_chars. Qed.
Lemma s_drop_app_ge n s t : len s <= n -> s_drop n (s +:+ t) = s_drop (n - len s) t.
Proof.
  intros. str_eq. rewrite drop_app_ge; rewrite ?length_chars; done.
Qed.
Lemma s_take_app_le n s t : n <= len s -> s_take n (s +:+ t) = s_take n s.
Proof. intros. str_eq. rewrite take_app_le; [done|]. by rewrite length_chars. Qed.
Lemma s_take_app_add n s t : s_take (len s + n) (s +:+ t) = s +:+ s_take n t.
Proof. induction s as [|c s IH]; [done|]. rewrite s_app_cons. cbn. by rewrite IH. Qed.
Lemma s_drop_drop n m s : s_drop n (s_drop m s) = s_drop (m + n) s.
Proof. str_eq. by rewrite drop_drop. Qed.
Lemma s_drop_ge n s : len s <= n -> s_drop n s = "".
Proof. intros. str_eq. by rewrite drop_ge by (by rewrite length_chars). Qed.
Lemma s_take_ge n s : len s <= n -> s_take n s = s.
Proof. intros. str_eq. by rewrite take_ge by (by rewrite length_chars). Qed.
Lemma s_drop_0 s : s_drop 0 s = s.
Proof. done. Qed.
Lemma s_at_app_l s t n : n < len s -> s_at (s +:+ t) n = s_at s n.
Proof. intros. rewrite !s_at_chars, chars_app, lookup_app_l; [done|]. by rewrite length_chars. Qed.
Lemma s_at_app_r s t n : s_at (s +:+ t) (len s + n) = s_at t n.
Proof.
  rewrite !s_at_chars, chars_app, lookup_app_r; rewrite length_chars; [|lia].
  f_equal. lia.
Qed.
Lemma s_at_lt s n : n < len s -> exists c, s_at s n = Some c.
Proof. rewrite s_at_chars, <- length_chars. intros H. by apply lookup_lt_is_Some_2. Qed.

(** [s.substr(pos, n)]; [substr_from] is the one-argument form.  A start past the
    end throws std::out_of_range: the callers that can reach it use [substr_exn]. *)
Definition substr (s : string) (pos n : nat) : string := s_take n (s_drop pos s).
Definition substr_from (s : string) (pos : nat) : string := s_drop pos s.
Definition out_of_range : exn := StdExn "std::out_of_range".
Definition substr_exn (s : string) (pos : nat) (n : option nat) : res string :=
  if len s <? pos then Throw out_of_range
  else Ok (match n with None => s_drop pos s | Some n => s_take n (s_drop pos s) end).

Arguments substr : simpl never.
Arguments substr_from : simpl never.

(** ** Searching *)
Fixpoint is_prefix (p s : string) : bool :=
  match p, s with
  | "", _ => true
  | String c p', String d s' => bool_decide (c = d) && is_prefix p' s'
  | String _ _, "" => false
  end.
Fixpoint find0 (p s : string) : option nat :=
  if is_prefix p s then Some 0
  else match s with
       | "" => None
       | String _ s' => S <$> find0 p s'
       end.
Fixpoint findp0 (p : ascii -> bool) (s : string) : option nat :=
  match s with
  | "" => None
  | String c s' => if p c then Some 0 else S <$> findp0 p s'
  end.

(** [s.find(p, pos)], [s.find(c, pos)]: positions are absolute. *)
Definition find_str (s p : string) (pos : nat) : option nat :=
  if len s <? pos then None else (fun k => pos + k) <$> find0 p (s_drop pos s).
Definition is_char (c d : ascii) : bool := bool_decide (c = d).
Definition find_chr (s : string) (c : ascii) (pos : nat) : option nat :=
  (fun k => pos + k) <$> findp0 (is_char c) (s_drop pos s).
Definition contains (s p : string) : bool := bool_decide (find_str s p 0 ≠ None).
(** [s.rfind(c)]: the last position holding [c]. *)
Fixpoint rfind_chr (s : string) (c : ascii) : option nat :=
  match s with
  | "" => None
  | String d s' =>
      match rfind_chr s' c with
      | Some k => Some (S k)
      | None => if is_char c d then Some 0 else None
      end
  end.

(** [s.find_first_not_of(set)] / [s.find_last_not_of(set)]. *)
Definition find_first_not (ws : ascii -> bool) (s : string) (pos : nat) : option nat :=
  (fun k => pos + k) <$> findp0 (fun c => negb (ws c)) (s_drop pos s).
Fixpoint find_last_not (ws : ascii -> bool) (s : string) : option nat :=
  match s with
  | "" => None
  | String c s' =>
      match find_last_not ws s' with
      | Some k => Some (S k)
      | None => if ws c then None else Some 0
      end
  end.

(** The trim helper that http.hpp, http_server.cpp, config.hpp and view.hpp each
    define over their own whitespace set. *)
Definition trim_set (ws : ascii -> bool) (s : string) : string :=
  match find_first_not ws s 0 with
  | None => ""
  | Some b =>
      match find_last_not ws s with
      | None => ""
      | Some e => substr s b (e - b + 1)
      end
  end.

(** Text in double quotes, and the end of a line. *)
Definition dq (s : string) : string := str1 quote +:+ s +:+ str1 quote.
Definition lf : string := str1 (chr 10).

Definition lower (s : string) : string := implode (map tolower (chars s)).

(** What a C function sees of [s.c_str()]. *)
Fixpoint c_str (s : string) : string :=
  match s with
  | "" => ""
  | String c s => if is_char (chr 0) c then "" else String c (c_str s)
  end.

(** ** Lemmas on searching *)
Definition s_all (p : ascii -> bool) (s : string) : Prop := Forall (fun c => p c = true) (chars s).
Definition no_chr (c : ascii) (s : string) : Prop := c ∉ chars s.

#[export] Instance s_all_dec p s : Decision (s_all p s).
Proof. apply _. Defined.
#[export] Instance no_chr_dec c s : Decision (no_chr c s).
Proof. apply _. Defined.

Lemma s_all_app p s t : s_all p (s +:+ t) <-> s_all p s /\ s_all p t.
Proof. unfold s_all. by rewrite chars_app, Forall_app. Qed.
Lemma s_all_cons p c s : s_all p (String c s) <-> p c = true /\ s_all p s.
Proof. unfold s_all. cbn. by rewrite Forall_cons. Qed.
Lemma no_chr_app c s t : no_chr c (s +:+ t) <-> no_chr c s /\ no_chr c t.
Proof. unfold no_chr. rewrite chars_app. apply not_elem_of_app. Qed.
Lemma no_chr_cons c d s : no_chr c (String d s) <-> c ≠ d /\ no_chr c s.
Proof. unfold no_chr. cbn. rewrite not_elem_of_cons. done. Qed.
Lemma no_chr_nil c : no_chr c "".
Proof. apply not_elem_of_nil. Qed.
Lemma no_chr_take c n s : no_chr c s -> no_chr c (s_take n s).
Proof.
  intros H. rewrite <- (s_take_drop n s) in H. by apply no_chr_app in H as [? _].
Qed.
Lemma no_chr_drop c n s : no_chr c s -> no_chr c (s_drop n s).
Proof.
  intros H. rewrite <- (s_take_drop n s) in H. by apply no_chr_app in H as [_ ?].
Qed.
Lemma c_str_id s : no_chr (chr 0) s -> c_str s = s.
Proof.
  induction s as [|c s IH]; [done|]. intros [Hc Hs]%no_chr_cons. cbn [c_str]. unfold is_char.
  rewrite bool_decide_eq_false_2 by done. by rewrite IH.
Qed.

Lemma s_all_nil p : s_all p "".
Proof. constructor. Qed.
#[export] Hint Resolve s_all_nil no_chr_nil : core.
#[export] Hint Resolve no_chr_take no_chr_drop : cpp.

Lemma findp0_hit p s c t :
  s_all (fun d => negb (p d)) s -> p c = true -> findp0 p (s +:+ String c t) = Some (len s).
Proof.
  intros Hs Hc. induction s as [|d s IH]; [by rewrite s_app_nil_l; cbn; rewrite Hc|].
  apply s_all_cons in Hs as [Hd Hs]. apply negb_true_iff in Hd.
  rewrite s_app_cons; cbn. rewrite Hd, IH; done.
Qed.

Lemma findp0_none p s : findp0 p s = None <-> s_all (fun d => negb (p d)) s.
Proof.
  induction s as [|d s IH]; cbn; [split; [constructor|done]|].
  rewrite s_all_cons, <- IH. destruct (p d); cbn; [split; [done|intros [? _]; done]|].
  rewrite fmap_None. tauto.
Qed.

Lemma findp0_Some p s k :
  findp0 p s = Some k ->
  exists c t, s = s_take k s +:+ String c t /\ p c = true /\ len (s_take k s) = k /\
    s_all (fun d => negb (p d)) (s_take k s).
Proof.
  revert k; induction s as [|d s IH]; cbn; intros k H; [done|].
  destruct (p d) eqn:Hd.
  - injection H as <-. exists d, s. repeat split; [done|constructor].
  - apply fmap_Some in H as (j & Hj & ->). destruct (IH _ Hj) as (c & t & E & Hc & Hl & Ha).
    exists c, t. cbn. rewrite s_app_cons, <- E, Hl. repeat split; auto.
    apply s_all_cons. by rewrite Hd.
Qed.

Lemma s_all_is_char c s : s_all (fun d => negb (is_char c d)) s <-> no_chr c s.
Proof.
  unfold no_chr. induction s as [|d s IH]; cbn.
  - split; [intros _; apply not_elem_of_nil | constructor].
  - rewrite s_all_cons, not_elem_of_cons, IH. unfold is_char.
    rewrite negb_true_iff, bool_decide_eq_false. done.
Qed.

Lemma find_chr_at s c pos u v w :
  s = u +:+ v +:+ String c w -> pos = len u -> no_chr c v ->
  find_chr s c pos = Some (len u + len v).
Proof.
  intros -> -> Hv. unfold find_chr. rewrite s_drop_app by done.
  rewrite findp0_hit; [done | by apply s_all_is_char | by apply bool_decide_eq_true].
Qed.

Lemma find_chr_none s c pos : find_chr s c pos = None <-> no_chr c (s_drop pos s).
Proof. unfold find_chr. by rewrite fmap_None, findp0_none, s_all_is_char. Qed.

Lemma find_chr_hit s c t : no_chr c s -> find_chr (s +:+ String c t) c 0 = Some (len s).
Proof. intros. by apply (find_chr_at _ _ _ "" s t). Qed.

(** Every successful search splits the string. *)
Lemma find_chr_split s c pos k :
  find_chr s c pos = Some k ->
  pos <= k < len s /\
  s_drop pos s = substr s pos (k - pos) +:+ String c (s_drop (S k) s) /\
  no_chr c (substr s pos (k - pos)).
Proof.
  unfold find_chr, substr. intros (j & Hj & ->)%fmap_Some.
  destruct (findp0_Some _ _ _ Hj) as (d & t & E & Hd & Hl & Ha).
  apply bool_decide_eq_true in Hd as <-. apply s_all_is_char in Ha.
  replace (pos + j - pos) with j by lia.
  assert (Ht : t = s_drop (S (pos + j)) s).
  { replace (S (pos + j)) with (pos + S j) by lia. rewrite <- s_drop_drop, E.
    rewrite s_drop_app_ge by lia. rewrite Hl. by replace (S j - j) with 1 by lia. }
  split; [|by rewrite <- Ht].
  apply (f_equal len) in E. rewrite length_s_app, length_s_drop in E. cbn in E. lia.
Qed.

Lemma is_prefix_iff p s : is_prefix p s = true <-> exists t, s = p +:+ t.
Proof.
  split.
  - revert s; induction p as [|c p IH]; intros [|d s]; cbn; intros H; try done; eauto.
    apply andb_true_iff in H as [<-%bool_decide_eq_true H].
    destruct (IH _ H) as [t ->]. eauto.
  - intros [t ->]. induction p as [|c p IH]; [done|].
    rewrite s_app_cons. cbn. by rewrite bool_decide_eq_true_2, IH.
Qed.

Lemma is_prefix_app p t : is_prefix p (p +:+ t) = true.
Proof. apply is_prefix_iff. eauto. Qed.

Lemma find0_Some p s k :
  find0 p s = Some k ->
  k + len p <= len s /\ s = s_take k s +:+ p +:+ s_drop (k + len p) s /\
  forall j, j < k -> is_prefix p (s_drop j s) = false.
Proof.
  revert k; induction s as [|d s IH]; intros k H; cbn in H.
  - destruct p as [|c p]; cbn in H; simplify_eq. cbn.
    split; [done|]. split; [done|]. intros; lia.
  - destruct (is_prefix p (String d s)) eqn:E; simplify_eq.
    + apply is_prefix_iff in E as [t E]. rewrite E. cbn.
      rewrite s_drop_app, length_s_app by done.
      split; [lia|]. split; [done|]. intros; lia.
    + apply fmap_Some in H as (j & Hj & ->). destruct (IH _ Hj) as (Hl & Es & Hn).
      cbn. rewrite s_app_cons, <- Es. split; [lia|]. split; [done|].
      intros [|i] Hi; [done|]. apply Hn. lia.
Qed.

Lemma find0_hit p s t :
  (forall j, j < len s -> is_prefix p (s_drop j (s +:+ p +:+ t)) = false) ->
  find0 p (s +:+ p +:+ t) = Some (len s).
Proof.
  induction s as [|d s IH]; intros H.
  - rewrite s_app_nil_l. pose proof (is_prefix_app p t) as E. cbn.
    destruct (p +:+ t); cbn; by rewrite E.
  - rewrite s_app_cons. cbn. pose proof (H 0 ltac:(cbn; lia)) as H0.
    rewrite s_app_cons in H0. cbn [s_drop] in H0. rewrite H0.
    rewrite IH; [done|]. intros j Hj. apply (H (S j)). cbn. lia.
Qed.

(** When the needle starts with a character that does not occur before it. *)
Lemma find0_chr_hit c p s t :
  no_chr c s -> find0 (String c p) (s +:+ String c p +:+ t) = Some (len s).
Proof.
  intros Hs. apply find0_hit. intros j Hj.
  rewrite s_drop_app_le by lia.
  destruct (s_drop j s) as [|d r] eqn:E.
  { apply (f_equal len) in E. rewrite length_s_drop in E. cbn in E. lia. }
  rewrite s_app_cons. cbn.
  pose proof (no_chr_drop c j s Hs) as H. rewrite E in H. apply no_chr_cons in H as [H _].
  by rewrite bool_decide_eq_false_2.
Qed.

Lemma find0_none_chr c p s : no_chr c s -> find0 (String c p) s = None.
Proof.
  intros Hs. destruct (find0 (String c p) s) as [k|] eqn:E; [|done].
  apply find0_Some in E as (Hk & E & _). rewrite E in Hs.
  rewrite s_app_cons in Hs. apply no_chr_app in Hs as [_ Hs].
  by apply no_chr_cons in Hs as [? _].
Qed.

Lemma is_prefix_app_true p s t : is_prefix p s = true -> is_prefix p (s +:+ t) = true.
Proof. rewrite !is_prefix_iff. intros [u ->]. exists (u +:+ t). apply s_app_assoc. Qed.

Lemma is_prefix_app_long p s t :
  len p <= len s -> is_prefix p (s +:+ t) = is_prefix p s.
Proof.
  intros Hl. destruct (is_prefix p s) eqn:E; [by apply is_prefix_app_true|].
  destruct (is_prefix p (s +:+ t)) eqn:E2; [|done].
  apply is_prefix_iff in E2 as [u E2]. rewrite <- E. symmetry. apply is_prefix_iff.
  exists (s_drop (len p) s). rewrite <- (s_take_drop (len p) s) at 1. f_equal.
  rewrite <- (s_take_app_le (len p) s t) by done. rewrite E2. by apply s_take_app.
Qed.

(** A match found in a prefix is the match found in the whole. *)
Lemma find0_app_mono p s t k : find0 p s = Some k -> find0 p (s +:+ t) = Some k.
Proof.
  intros H. apply find0_Some in H as (Hl & E & Hn).
  rewrite E, s_app_assoc, s_app_assoc. rewrite find0_hit.
  - f_equal. rewrite length_s_take. lia.
  - intros j Hj. rewrite length_s_take in Hj.
    rewrite <- (s_app_assoc p), <- s_app_assoc, <- E.
    rewrite s_drop_app_le by lia. rewrite is_prefix_app_long; [apply Hn; lia|].
    rewrite length_s_drop. lia.
Qed.

(** A string with no occurrence of the needle's first character past the prefix
    at which the needle stands. *)
Lemma find_str_at s p pos u v w c p' :
  p = String c p' -> s = u +:+ v +:+ p +:+ w -> pos = len u -> no_chr c v ->
  find_str s p pos = Some (len u + len v).
Proof.
  intros -> -> -> Hv. unfold find_str. rewrite !length_s_app.
  replace (_ <? _) with false by (symmetry; apply Nat.ltb_ge; lia).
  rewrite s_drop_app by done. by rewrite find0_chr_hit.
Qed.

Lemma find_str_bound s p pos k : find_str s p pos = Some k -> pos <= k /\ k + len p <= len s.
Proof.
  unfold find_str. destruct (len s <? pos) eqn:E; bools; [done|].
  intros (j & Hj & ->)%fmap_Some. apply find0_Some in Hj as (Hl & _).
  rewrite length_s_drop in Hl. lia.
Qed.

Lemma find_str_app_mono s p pos t k :
  find_str s p pos = Some k -> find_str (s +:+ t) p pos = Some k.
Proof.
  unfold find_str. rewrite length_s_app. destruct (len s <? pos) eqn:E; bools; [done|].
  replace (_ <? _) with false by (symmetry; apply Nat.ltb_ge; lia).
  rewrite s_drop_app_le by done. intros (j & Hj & ->)%fmap_Some.
  by rewrite (find0_app_mono _ _ _ _ Hj).
Qed.

(** ** Trimming *)
Lemma find_last_not_none ws s : find_last_not ws s = None <-> s_all ws s.
Proof.
  induction s as [|c s IH]; cbn; [split; [constructor|done]|].
  rewrite s_all_cons, <- IH. destruct (find_last_not ws s); [split; [done|intros [_ ?]; done]|].
  destruct (ws c); [tauto|]. split; [done|intros [? _]; done].
Qed.

Lemma find_last_not_app ws s c t :
  ws c = false -> s_all ws t -> find_last_not ws (s +:+ String c t) = Some (len s).
Proof.
  intros Hc Ht. induction s as [|d s IH].
  - rewrite s_app_nil_l. cbn. by rewrite (proj2 (find_last_not_none ws t) Ht), Hc.
  - rewrite s_app_cons. cbn. by rewrite IH.
Qed.

Lemma find_first_not_app ws s c t :
  s_all ws s -> ws c = false -> find_first_not ws (s +:+ String c t) 0 = Some (len s).
Proof.
  intros Hs Hc. unfold find_first_not. rewrite s_drop_0, findp0_hit; [done| |by rewrite Hc].
  unfold s_all in *. eapply Forall_impl; [done|]. cbn. intros a ->. done.
Qed.

Lemma s_snoc_cases s : s = "" \/ exists t c, s = t +:+ str1 c.
Proof.
  destruct (decide (s = "")) as [|Hs]; [by left|right].
  destruct (exists_last (l := chars s)) as (l & c & E).
  { intros E. apply Hs. by apply (inj chars). }
  exists (implode l), c. apply (inj chars). by rewrite chars_app, chars_implode.
Qed.

(** [ws]-padding is removed, the rest kept, when the ends are not padding. *)
Definition trimmed (ws : ascii -> bool) (s : string) : Prop :=
  match s with
  | "" => True
  | String c _ => ws c = false /\ exists t d, s = t +:+ str1 d /\ ws d = false
  end.

Lemma trim_set_pad ws pre s post :
  s_all ws pre -> s_all ws post -> trimmed ws s -> trim_set ws (pre +:+ s +:+ post) = s.
Proof.
  intros Hpre Hpost Hs. unfold trim_set, find_first_not. rewrite s_drop_0.
  destruct s as [|c s'].
  - rewrite s_app_nil_l. rewrite (proj2 (findp0_none _ _)); [done|].
    apply s_all_app; split; unfold s_all in *; eapply Forall_impl; try done; cbn;
      intros a ->; done.
  - destruct Hs as (Hc & t & d & E & Hd).
    rewrite s_app_cons, findp0_hit; [|unfold s_all in *; eapply Forall_impl; [done|];
      cbn; intros a ->; done| by rewrite Hc].
    rewrite <- s_app_cons, E. unfold str1. rewrite s_app_assoc, s_app_cons, s_app_nil_l.
    rewrite <- s_app_assoc, find_last_not_app by done. cbn.
    unfold substr. rewrite s_app_assoc, s_drop_app by done.
    replace (String d post) with (str1 d +:+ post) by done.
    rewrite <- s_app_assoc, s_take_app; [done|].
    rewrite !length_s_app. cbn. lia.
Qed.

Lemma trim_set_id ws s : trimmed ws s -> trim_set ws s = s.
Proof.
  intros H. pose proof (trim_set_pad ws "" s "" ltac:(constructor) ltac:(constructor) H) as E.
  by rewrite s_app_nil_l, s_app_nil_r in E.
Qed.

Lemma trimmed_of_none ws s : s_all (fun c => negb (ws c)) s -> trimmed ws s.
Proof.
  intros H. destruct s as [|c s]; [done|]. split.
  - apply s_all_cons in H as [H _]. by apply negb_true_iff.
  - destruct (s_snoc_cases (String c s)) as [|(t & d & E)]; [done|].
    exists t, d. split; [done|]. rewrite E in H. apply s_all_app in H as [_ H].
    apply s_all_cons in H as [H _]. by apply negb_true_iff.
Qed.

(** ** Splitting on a character

    Two loop shapes occur in the sources.  [pieces] is
    [while (i < s.size()) { next = s.find(sep, i); ... i = next + 1; }], which
    yields no piece after a trailing separator; [split_chr] is the
    [while (start <= s.size())] form, which does.  The fuel is the number of
    iterations the loop can make. *)
Fixpoint pieces_go (fuel : nat) (sep : ascii) (s : string) (i : nat) : list string :=
  match fuel with
  | 0 => []
  | S fuel =>
      if i <? len s then
        match find_chr s sep i with
        | None => [substr_from s i]
        | Some next => substr s i (next - i) :: pieces_go fuel sep s (next + 1)
        end
      else []
  end.
Definition pieces (sep : ascii) (s : string) : list string := pieces_go (S (len s)) sep s 0.

Fixpoint split_go (fuel : nat) (sep : ascii) (s : string) (i : nat) : list string :=
  match fuel with
  | 0 => []
  | S fuel =>
      if i <=? len s then
        match find_chr s sep i with
        | None => [substr_from s i]
        | Some next => substr s i (next - i) :: split_go fuel sep s (next + 1)
        end
      else []
  end.
Definition split_chr (sep : ascii) (s : string) : list string := split_go (S (len s)) sep s 0.

(** Reference: the separator-joined text of a list of pieces. *)
Fixpoint join_chr (sep : ascii) (l : list string) : string :=
  match l with
  | [] => ""
  | [p] => p
  | p :: l' => p +:+ String sep (join_chr sep l')
  end.

Lemma find_chr_shift s u sep i :
  find_chr (u +:+ s) sep (len u + i) = (fun k => len u + k) <$> find_chr s sep i.
Proof.
  unfold find_chr. rewrite s_drop_app_ge by lia.
  replace (len u + i - len u) with i by lia.
  destruct (findp0 _ _); cbn; [f_equal; lia|done].
Qed.

Lemma substr_shift s u i n : substr (u +:+ s) (len u + i) n = substr s i n.
Proof.
  unfold substr. rewrite s_drop_app_ge by lia. by replace (len u + i - len u) with i by lia.
Qed.

Lemma pieces_go_shift fuel sep u s i :
  pieces_go fuel sep (u +:+ s) (len u + i) = pieces_go fuel sep s i.
Proof.
  revert i; induction fuel as [|fuel IH]; intros i; [done|].
  cbn [pieces_go]. rewrite length_s_app, find_chr_shift.
  replace (len u + i <? len u + len s) with (i <? len s)
    by (destruct (i <? len s) eqn:?; symmetry; bools;
        [apply Nat.ltb_lt | apply Nat.ltb_ge]; lia).
  destruct (i <? len s); [|done]. destruct (find_chr s sep i) as [k|]; cbn.
  - replace (len u + k - (len u + i)) with (k - i) by lia.
    rewrite substr_shift. f_equal. by rewrite <- Nat.add_assoc, IH.
  - unfold substr_from. rewrite s_drop_app_ge by lia.
    by replace (len u + i - len u) with i by lia.
Qed.

Lemma split_go_shift fuel sep u s i :
  split_go fuel sep (u +:+ s) (len u + i) = split_go fuel sep s i.
Proof.
  revert i; induction fuel as [|fuel IH]; intros i; [done|].
  cbn [split_go]. rewrite length_s_app, find_chr_shift.
  replace (len u + i <=? len u + len s) with (i <=? len s)
    by (destruct (i <=? len s) eqn:?; symmetry; bools;
        [apply Nat.leb_le | apply Nat.leb_gt]; lia).
  destruct (i <=? len s); [|done]. destruct (find_chr s sep i) as [k|]; cbn.
  - replace (len u + k - (len u + i)) with (k - i) by lia.
    rewrite substr_shift. f_equal. by rewrite <- Nat.add_assoc, IH.
  - unfold substr_from. rewrite s_drop_app_ge by lia.
    by replace (len u + i - len u) with i by lia.
Qed.

Lemma substr_head p t : substr (p +:+ t) 0 (len p - 0) = p.
Proof. unfold substr. rewrite s_drop_0, Nat.sub_0_r. by apply s_take_app. Qed.

(** Splitting the joined text gives the pieces back. *)
Lemma split_go_join sep l fuel :
  l ≠ [] -> Forall (no_chr sep) l -> length l <= fuel ->
  split_go fuel sep (join_chr sep l) 0 = l.
Proof.
  revert fuel; induction l as [|p l IH]; intros fuel Hne Hl Hf; [done|].
  apply Forall_cons in Hl as [Hp Hl]. destruct fuel as [|fuel]; cbn in Hf; [lia|].
  cbn [split_go]. change (0 <=? len _) with true. cbn [negb].
  destruct l as [|q l].
  - cbn [join_chr]. rewrite (proj2 (find_chr_none p sep 0)) by done. done.
  - assert (E : join_chr sep (p :: q :: l) = p +:+ String sep (join_chr sep (q :: l))) by done.
    rewrite E, find_chr_hit by done. rewrite substr_head. f_equal.
    rewrite <- (IH fuel) at 2 by (try done; lia).
    replace (String sep (join_chr sep (q :: l))) with (str1 sep +:+ join_chr sep (q :: l)) by done.
    rewrite <- s_app_assoc.
    replace (len p + 1) with (len (p +:+ str1 sep) + 0) by (rewrite length_s_app; cbn; lia).
    apply split_go_shift.
Qed.

Lemma length_join sep l : length l <= S (len (join_chr sep l)).
Proof.
  induction l as [|p [|q l] IH]; cbn; [lia|lia|].
  cbn in IH. rewrite length_s_app. cbn. lia.
Qed.

Lemma split_chr_join sep l :
  l ≠ [] -> Forall (no_chr sep) l -> split_chr sep (join_chr sep l) = l.
Proof. intros. apply split_go_join; [done|done|apply length_join]. Qed.

Lemma pieces_go_join sep l fuel :
  Forall (no_chr sep) l -> Forall (fun p => p ≠ "") l -> length l < fuel ->
  pieces_go fuel sep (join_chr sep l) 0 = l.
Proof.
  revert fuel; induction l as [|p l IH]; intros fuel Hl Hne Hf.
  { by destruct fuel. }
  apply Forall_cons in Hl as [Hp Hl]. apply Forall_cons in Hne as [Hpe Hne].
  destruct fuel as [|fuel]; cbn in Hf; [lia|]. cbn [pieces_go].
  destruct p as [|c p]; [done|].
  destruct l as [|q l].
  - cbn [join_chr]. rewrite (proj2 (find_chr_none _ sep 0)) by done. done.
  - assert (E : join_chr sep (String c p :: q :: l)
                = String c p +:+ String sep (join_chr sep (q :: l))) by done.
    rewrite E, length_s_app. change (0 <? _) with true. cbn [negb].
    rewrite find_chr_hit by done. rewrite substr_head. f_equal.
    rewrite <- (IH fuel) at 2 by (try done; lia).
    replace (String sep (join_chr sep (q :: l))) with (str1 sep +:+ join_chr sep (q :: l)) by done.
    rewrite <- s_app_assoc.
    replace (len (String c p) + 1) with (len (String c p +:+ str1 sep) + 0)
      by (rewrite length_s_app; cbn; lia).
    apply pieces_go_shift.
Qed.

Lemma pieces_join sep l :
  Forall (no_chr sep) l -> Forall (fun p => p ≠ "") l -> pieces sep (join_chr sep l) = l.
Proof.
  intros Hl Hne. apply pieces_go_join; [done|done|].
  clear Hl. induction l as [|p [|q l] IH]; [cbn; lia| |].
  - apply Forall_cons in Hne as [Hp _]. destruct p; [done|]. cbn. lia.
  - apply Forall_cons in Hne as [Hp Hne]. specialize (IH Hne).
    destruct p; [done|]. cbn in *. rewrite length_s_app. cbn. lia.
Qed.

(** ** Prefixes and chunks *)
Lemma find0_hit_ne p s k : k <= len s -> is_prefix p (s_drop k s) = true -> find0 p s ≠ None.
Proof.
  revert k; induction s as [|c s IH]; intros k Hk H E.
  - cbn in Hk. replace k with 0 in * by lia. cbn in H, E. by rewrite H in E.
  - cbn in E. destruct (is_prefix p (String c s)) eqn:E2; [done|].
    destruct k as [|k]; [by rewrite s_drop_0 in H; congruence|]. cbn in H, Hk.
    apply fmap_None in E. by apply (IH k); [lia|..].
Qed.

(** Searching a prefix of a string finds what the search of the whole finds, as soon
    as the prefix holds all of it. *)
Lemma find0_prefix p s t :
  find0 p s = match find0 p (s +:+ t) with
              | Some k => if k + len p <=? len s then Some k else None
              | None => None
              end.
Proof.
  destruct (find0 p s) as [k|] eqn:E.
  - rewrite (find0_app_mono _ _ _ _ E). apply find0_Some in E as (H & _).
    by replace (_ <=? _) with true by (symmetry; by apply Nat.leb_le).
  - destruct (find0 p (s +:+ t)) as [k|] eqn:E2; [|done].
    destruct (k + len p <=? len s) eqn:E3; [|done]. bools.
    exfalso. apply (find0_hit_ne p s k); [lia| |done].
    apply find0_Some in E2 as (_ & E2 & _).
    rewrite <- (is_prefix_app_long p _ t) by (rewrite length_s_drop; lia).
    rewrite <- s_drop_app_le by lia. rewrite E2.
    rewrite s_drop_app; [apply is_prefix_app|]. rewrite length_s_take, length_s_app. lia.
Qed.

(** The bytes of a list of chunks. *)
Definition s_concat (l : list string) : string := foldr String.append "" l.

Lemma s_concat_app l l' : s_concat (l ++ l') = s_concat l +:+ s_concat l'.
Proof.
  induction l as [|s l IH]; [done|]. unfold s_concat in *. cbn [foldr app].
  by rewrite IH, s_app_assoc.
Qed.

(** [clear n s t]: no occurrence of [n] starts inside [s] when [t] follows it. *)
Definition clear (n s t : string) : Prop :=
  forall j, j < len s -> is_prefix n (s_drop j (s +:+ t)) = false.

Lemma clear_nil n t : clear n "" t.
Proof. intros j Hj. cbn in Hj. lia. Qed.

Lemma clear_cons n c s t :
  is_prefix n (String c (s +:+ t)) = false -> clear n s t -> clear n (String c s) t.
Proof.
  intros Hc Hs [|j] Hj; rewrite s_app_cons; [done|]. cbn [s_drop]. apply Hs. cbn in Hj. lia.
Qed.

Lemma clear_app n s1 s2 t : clear n s1 (s2 +:+ t) -> clear n s2 t -> clear n (s1 +:+ s2) t.
Proof.
  induction s1 as [|c s1 IH]; intros H1 H2; [done|]. rewrite s_app_cons. apply clear_cons.
  - pose proof (H1 0 ltac:(cbn; lia)) as H. rewrite s_app_cons in H. cbn [s_drop] in H.
    by rewrite s_app_assoc.
  - apply IH; [|done]. intros j Hj. pose proof (H1 (S j) ltac:(cbn; lia)) as H.
    by rewrite s_app_cons in H.
Qed.

Lemma clear_find n s t : clear n s (n +:+ t) -> find_str (s +:+ n +:+ t) n 0 = Some (len s).
Proof.
  intros H. unfold find_str. replace (_ <? 0)%nat with false by (symmetry; apply Nat.ltb_ge; lia).
  rewrite s_drop_0, find0_hit; done.
Qed.

Lemma clear_no_chr c n s t : no_chr c s -> clear (String c n) s t.
Proof.
  induction s as [|d s IH]; intros Hs; [apply clear_nil|]. apply no_chr_cons in Hs as [Hd Hs].
  apply clear_cons; [|by apply IH]. cbn [is_prefix]. by rewrite bool_decide_eq_false_2.
Qed.

(** Closed side conditions on literals ([no_chr], [s_all], ...) by evaluation. *)
Ltac by_eval := apply (bool_decide_unpack _); vm_compute; exact I.
