(* ===== verification/CppNum.v ===== *)
(** * Integers: fixed widths, std::to_string and the strto* family

    A w-bit integer is a [Z] with its wrap-around written out.  [to_string]
    prints decimals; [stoi]/[stol]/[stoll] parse a decimal prefix and throw on
    "no digits" and on overflow, as the standard library does. *)
From S2P Require Import Prelude CppString.

Local Open Scope Z_scope.

Definition u8 (z : Z) : Z := z mod 2 ^ 8.
Definition u64 (z : Z) : Z := z mod 2 ^ 64.
Definition s32 (z : Z) : Z := (z + 2 ^ 31) mod 2 ^ 32 - 2 ^ 31.
Definition s64 (z : Z) : Z := (z + 2 ^ 63) mod 2 ^ 64 - 2 ^ 63.
Definition in_s32 (z : Z) : bool := (- 2 ^ 31 <=? z) && (z <? 2 ^ 31).
Definition in_s64 (z : Z) : bool := (- 2 ^ 63 <=? z) && (z <? 2 ^ 63).

(** The size of a string as a 64-bit quantity. *)
Definition size (s : string) : Z := Z.of_nat (len s).

Lemma size_app s t : size (s +:+ t) = size s + size t.
Proof. unfold size. rewrite length_s_app. lia. Qed.
Lemma size_nonneg s : 0 <= size s.
Proof. unfold size. lia. Qed.
Lemma size_cons c s : size (String c s) = size s + 1.
Proof. unfold size. cbn [String.length]. lia. Qed.
#[export] Hint Resolve size_nonneg : cpp.

Lemma u64_small z : 0 <= z < 2 ^ 64 -> u64 z = z.
Proof. apply Z.mod_small. Qed.
Lemma s32_mod z : s32 z mod 2 ^ 32 = z mod 2 ^ 32.
Proof.
  unfold s32. rewrite Zminus_mod, Zmod_mod, <- Zminus_mod. f_equal. lia.
Qed.
Lemma s32_small z : - 2 ^ 31 <= z < 2 ^ 31 -> s32 z = z.
Proof. intros. unfold s32. rewrite Z.mod_small by lia. lia. Qed.

(** ** Decimal printing *)
Definition digit (n : Z) : ascii := chr (48 + n).

Fixpoint dec_go (fuel : nat) (n : Z) (acc : string) : string :=
  match fuel with
  | O => acc
  | S fuel =>
      let acc' := String (digit (n mod 10)) acc in
      if n <? 10 then acc' else dec_go fuel (n / 10) acc'
  end.
Definition dec (n : Z) : string := dec_go (S (Z.to_nat (Z.log2 n))) n "".
Definition to_string (z : Z) : string := if z <? 0 then "-" +:+ dec (- z) else dec z.

(** ** Decimal parsing *)
Definition digit_val (c : ascii) : Z := byte_of c - 48.

Fixpoint read_digits (acc : Z) (s : string) : Z :=
  match s with
  | "" => acc
  | String c s' => if is_digit c then read_digits (acc * 10 + digit_val c) s' else acc
  end.
Fixpoint skip_spaces (s : string) : string :=
  match s with
  | String c s' => if is_space c then skip_spaces s' else s
  | "" => ""
  end.
Definition starts_digit (s : string) : bool :=
  match s with String c _ => is_digit c | "" => false end.

(** The value strtol and friends read: blanks, a sign, then digits; [None] when
    there is no digit. *)
Definition parse_int (s : string) : option Z :=
  match skip_spaces s with
  | String c s' =>
      if is_char "-" c then if starts_digit s' then Some (- read_digits 0 s') else None
      else if is_char "+" c then if starts_digit s' then Some (read_digits 0 s') else None
      else if is_digit c then Some (read_digits 0 (String c s')) else None
  | "" => None
  end.

Definition invalid_argument : exn := StdExn "std::invalid_argument".

Definition stoll (s : string) : res Z :=
  match parse_int s with
  | None => Throw invalid_argument
  | Some z => if in_s64 z then Ok z else Throw out_of_range
  end.
(** [long] is 64 bits wide on the platforms the project builds for (LP64). *)
Definition stol (s : string) : res Z := stoll s.
Definition stoi (s : string) : res Z :=
  match parse_int s with
  | None => Throw invalid_argument
  | Some z => if in_s32 z then Ok z else Throw out_of_range
  end.
(** glibc: [(int)strtol(s, NULL, 10)], with strtol saturating at 64 bits. *)
Definition atoi (s : string) : Z :=
  match parse_int s with
  | None => 0
  | Some z => s32 (Z.max (- 2 ^ 63) (Z.min (2 ^ 63 - 1) z))
  end.

(** ** Round trip *)
Lemma byte_of_digit n : 0 <= n < 10 -> byte_of (digit n) = 48 + n.
Proof. intros. apply byte_of_chr_small. lia. Qed.

Lemma is_digit_byte c : is_digit c = true <-> 48 <= byte_of c <= 57.
Proof.
  unfold is_digit, in_range. change (byte_of "0") with 48. change (byte_of "9") with 57.
  rewrite andb_true_iff, !Z.leb_le. done.
Qed.

Lemma is_digit_digit n : 0 <= n < 10 -> is_digit (digit n) = true.
Proof. intros. apply is_digit_byte. rewrite byte_of_digit by done. lia. Qed.

Lemma digit_val_digit n : 0 <= n < 10 -> digit_val (digit n) = n.
Proof. intros. unfold digit_val. rewrite byte_of_digit by done. lia. Qed.

Lemma dec_go_acc fuel n acc : dec_go fuel n acc = dec_go fuel n "" +:+ acc.
Proof.
  revert n acc; induction fuel as [|fuel IH]; intros n acc; [done|]. cbn [dec_go].
  destruct (n <? 10); [done|].
  rewrite IH, (IH _ (String _ "")). rewrite s_app_assoc. done.
Qed.

Lemma dec_go_digits fuel n :
  0 <= n -> s_all is_digit (dec_go fuel n "").
Proof.
  revert n; induction fuel as [|fuel IH]; intros n Hn; [constructor|]. cbn [dec_go].
  assert (is_digit (digit (n mod 10)) = true).
  { apply is_digit_digit. apply Z.mod_pos_bound. lia. }
  destruct (n <? 10); [by apply s_all_cons|].
  rewrite dec_go_acc. apply s_all_app. split; [apply IH; by apply Z.div_pos|].
  by apply s_all_cons.
Qed.

Lemma read_digits_app acc s t :
  s_all is_digit s -> read_digits acc (s +:+ t) = read_digits (read_digits acc s) t.
Proof.
  revert acc; induction s as [|c s IH]; intros acc Hs; [done|].
  apply s_all_cons in Hs as [Hc Hs]. rewrite s_app_cons. cbn. rewrite Hc. by apply IH.
Qed.

Lemma read_digits_dec_go fuel n :
  0 <= n < 2 ^ Z.of_nat fuel -> (fuel ≠ 0)%nat -> read_digits 0 (dec_go fuel n "") = n.
Proof.
  revert n; induction fuel as [|fuel IH]; intros n Hn Hf; [done|]. cbn [dec_go].
  pose proof (Z.mod_pos_bound n 10 ltac:(lia)) as Hm.
  destruct (n <? 10) eqn:E; bools.
  - cbn. rewrite is_digit_digit, digit_val_digit by done. rewrite Z.mod_small; lia.
  - rewrite dec_go_acc.
    rewrite read_digits_app by (apply dec_go_digits; apply Z.div_pos; lia).
    pose proof (Z.div_mod n 10 ltac:(lia)).
    rewrite Nat2Z.inj_succ, Z.pow_succ_r in Hn by lia.
    rewrite IH.
    + cbn. rewrite is_digit_digit, digit_val_digit by done. lia.
    + split; [apply Z.div_pos; lia|]. apply Z.div_lt_upper_bound; lia.
    + intros ->. change (2 ^ Z.of_nat 0) with 1 in Hn. lia.
Qed.

Lemma dec_bound n : 0 <= n -> 0 <= n < 2 ^ Z.of_nat (S (Z.to_nat (Z.log2 n))).
Proof.
  intros Hn. split; [done|].
  rewrite Nat2Z.inj_succ, Z2Nat.id by apply Z.log2_nonneg.
  destruct (decide (n = 0)) as [->|]; [done|]. apply Z.log2_spec. lia.
Qed.

Lemma dec_all_digits n : 0 <= n -> s_all is_digit (dec n).
Proof. apply dec_go_digits. Qed.

Lemma read_digits_dec n : 0 <= n -> read_digits 0 (dec n) = n.
Proof. intros. apply read_digits_dec_go; [by apply dec_bound|done]. Qed.

Lemma dec_cons n : 0 <= n -> exists c s, dec n = String c s /\ is_digit c = true.
Proof.
  intros Hn. pose proof (dec_all_digits n Hn) as H.
  destruct (dec n) as [|c s] eqn:E.
  - exfalso. unfold dec in E. cbn [dec_go] in E.
    destruct (n <? 10); [done|]. rewrite dec_go_acc in E.
    apply (f_equal String.length) in E. rewrite length_s_app in E. cbn in E. lia.
  - apply s_all_cons in H as [? _]. eauto.
Qed.

Lemma read_digits_stop acc s : starts_digit s = false -> read_digits acc s = acc.
Proof. destruct s as [|c s]; cbn; [done|]. by intros ->. Qed.

Lemma digit_not_space c : is_digit c = true -> is_space c = false.
Proof.
  intros H%is_digit_byte. unfold is_space, in_range.
  change (byte_of (chr 9)) with 9. change (byte_of (chr 13)) with 13.
  rewrite bool_decide_eq_false_2 by lia.
  apply andb_false_iff. right. apply Z.leb_gt. lia.
Qed.

Lemma digit_not_char c d : is_digit c = true -> is_digit d = false -> is_char d c = false.
Proof. intros Hc Hd. apply bool_decide_eq_false. intros ->. congruence. Qed.

(** The decimal text of [z] reads back as [z], whatever non-digit follows. *)
Lemma parse_int_to_string z t :
  starts_digit t = false -> parse_int (to_string z +:+ t) = Some z.
Proof.
  intros Ht. unfold to_string, parse_int. destruct (z <? 0) eqn:E; bools.
  - rewrite s_app_assoc. change ("-" +:+ ?x) with (String "-" x). cbn [skip_spaces].
    change (is_space "-") with false. cbn [negb].
    change (is_char "-" "-") with true. cbn [negb].
    destruct (dec_cons (- z) ltac:(lia)) as (c & s & Es & Hc).
    replace (starts_digit (dec (- z) +:+ t)) with true by (by rewrite Es).
    rewrite read_digits_app by (apply dec_all_digits; lia).
    rewrite read_digits_dec by lia. rewrite read_digits_stop by done. f_equal. lia.
  - destruct (dec_cons z E) as (c & s & Es & Hc). rewrite Es, s_app_cons.
    cbn [skip_spaces]. rewrite digit_not_space by done.
    rewrite !digit_not_char by done. rewrite Hc, <- s_app_cons, <- Es.
    rewrite read_digits_app by by apply dec_all_digits.
    rewrite read_digits_dec by lia. by rewrite read_digits_stop.
Qed.

Lemma in_s64_iff z : in_s64 z = true <-> - 2 ^ 63 <= z < 2 ^ 63.
Proof. unfold in_s64. rewrite andb_true_iff, Z.leb_le, Z.ltb_lt. done. Qed.
Lemma in_s32_iff z : in_s32 z = true <-> - 2 ^ 31 <= z < 2 ^ 31.
Proof. unfold in_s32. rewrite andb_true_iff, Z.leb_le, Z.ltb_lt. done. Qed.

Lemma stoll_to_string z t :
  in_s64 z = true -> starts_digit t = false -> stoll (to_string z +:+ t) = Ok z.
Proof. intros Hz Ht. unfold stoll. by rewrite parse_int_to_string, Hz. Qed.
Lemma stoi_to_string z t :
  in_s32 z = true -> starts_digit t = false -> stoi (to_string z +:+ t) = Ok z.
Proof. intros Hz Ht. unfold stoi. by rewrite parse_int_to_string, Hz. Qed.

Lemma to_string_no_chr c z :
  is_digit c = false -> c ≠ "-"%char -> no_chr c (to_string z).
Proof.
  intros Hc Hm. assert (Hd : forall n, 0 <= n -> no_chr c (dec n)).
  { intros n Hn Hin. pose proof (dec_all_digits n Hn) as H.
    unfold s_all in H. rewrite Forall_forall in H. apply H in Hin. congruence. }
  unfold to_string. destruct (z <? 0) eqn:E; bools; [|by apply Hd].
  apply no_chr_app. split; [|apply Hd; lia]. apply no_chr_cons. by split.
Qed.

(** ** Hexadecimal *)
Definition hex_digit (n : Z) : ascii := if n <? 10 then chr (48 + n) else chr (87 + n).

Lemma hex_digit_cases (P : Z -> Prop) :
  P 0 -> P 1 -> P 2 -> P 3 -> P 4 -> P 5 -> P 6 -> P 7 -> P 8 -> P 9 -> P 10 -> P 11 ->
  P 12 -> P 13 -> P 14 -> P 15 -> forall n, 0 <= n < 16 -> P n.
Proof.
  intros. destruct n as [|p|p]; [done| |lia]. do 4 (destruct p as [p|p|]; try done; try lia).
Qed.

Lemma nibbles b : 0 <= b < 256 -> 0 <= Z.shiftr b 4 < 16 /\ 0 <= Z.land b 15 < 16.
Proof.
  intros. change 15 with (Z.ones 4). rewrite Z.land_ones, Z.shiftr_div_pow2 by lia.
  split; [|apply Z.mod_pos_bound; lia].
  split; [apply Z.div_pos; lia|]. apply Z.div_lt_upper_bound; lia.
Qed.

Lemma nibbles_join b : 0 <= b < 256 -> Z.lor (Z.shiftl (Z.shiftr b 4) 4) (Z.land b 15) = b.
Proof.
  intros. apply Z.bits_inj'. intros i Hi.
  rewrite Z.lor_spec, Z.land_spec. change 15 with (Z.ones 4).
  destruct (decide (i < 4)).
  - rewrite Z.shiftl_spec_low, Z.ones_spec_low by lia. by rewrite andb_true_r.
  - rewrite Z.shiftl_spec_high, Z.shiftr_spec, Z.ones_spec_high by lia.
    rewrite andb_false_r, orb_false_r. f_equal. lia.
Qed.

(** Two lower-case hex digits per byte, as the three hex encoders of the sources. *)
Fixpoint hex_string (s : string) : string :=
  match s with
  | "" => ""
  | String c s' =>
      String (hex_digit (Z.shiftr (byte_of c) 4))
        (String (hex_digit (Z.land (byte_of c) 15)) (hex_string s'))
  end.

Definition is_lower_hex (c : ascii) : bool := is_digit c || in_range "a" "f" c.

Lemma is_lower_hex_digit n : 0 <= n < 16 -> is_lower_hex (hex_digit n) = true.
Proof. revert n. apply hex_digit_cases; reflexivity. Qed.

Lemma hex_string_spec s : s_all is_lower_hex (hex_string s) /\ len (hex_string s) = (2 * len s)%nat.
Proof.
  induction s as [|c s [IHa IHl]]; [done|]. cbn [hex_string].
  pose proof (nibbles (byte_of c) (byte_of_bound c)) as [? ?].
  split; [rewrite !s_all_cons, !is_lower_hex_digit by done; done|]. cbn. lia.
Qed.

Lemma hex_digit_inj n m : 0 <= n < 16 -> 0 <= m < 16 -> hex_digit n = hex_digit m -> n = m.
Proof.
  intros Hn Hm H. apply (f_equal byte_of) in H. unfold hex_digit in H.
  destruct (n <? 10) eqn:E1, (m <? 10) eqn:E2; bools; rewrite !byte_of_chr_small in H; lia.
Qed.

#[export] Instance hex_string_inj : Inj (=) (=) hex_string.
Proof.
  intros s; induction s as [|c s IH]; intros [|d t] H; try done.
  cbn [hex_string] in H. injection H as H1 H2 H3.
  destruct (nibbles _ (byte_of_bound c)), (nibbles _ (byte_of_bound d)).
  apply hex_digit_inj in H1, H2; try done.
  f_equal; [|by apply IH]. apply (inj byte_of).
  rewrite <- (nibbles_join (byte_of c)), <- (nibbles_join (byte_of d)) by apply byte_of_bound.
  congruence.
Qed.
