(* ===== verification/Http.v ===== *)
(** * http.hpp: requests, responses and URL-encoded data

    [Request] and [Response] are the structs of include/http.hpp, with
    std::unordered_map as [gmap].  [url_decode] and [parse_pairs] are the decoders
    of form bodies, query strings and Cookie headers.  The reference encoders at
    the end exist only to state that decoding inverts them. *)
From S2P Require Import Prelude CppString CppNum.

(** ** Request and Response *)
Record Request : Type := mkRequest {
  method : string;
  path : string;
  route_params : gmap string string;
  headers : gmap string string;
  body : string;
  cookies : gmap string string;
  query : gmap string string;
  remote_addr : string
}.

Definition empty_request : Request := mkRequest "" "" ∅ ∅ "" ∅ ∅ "".

Definition set_route_params (p : gmap string string) (r : Request) : Request :=
  mkRequest (method r) (path r) p (headers r) (body r) (cookies r) (query r) (remote_addr r).
Definition set_cookies (c : gmap string string) (r : Request) : Request :=
  mkRequest (method r) (path r) (route_params r) (headers r) (body r) c (query r) (remote_addr r).
Definition set_remote_addr (a : string) (r : Request) : Request :=
  mkRequest (method r) (path r) (route_params r) (headers r) (body r) (cookies r) (query r) a.

Record Response : Type := mkResponse {
  status : Z;
  res_body : string;
  res_headers : gmap string string
}.

#[export] Instance Response_eq_dec : EqDecision Response.
Proof. solve_decision. Defined.

(** The default member initialisers, and [Response{status, body}]. *)
Definition default_headers : gmap string string := {["Content-Type" := "text/plain"]}.
Definition response (st : Z) (b : string) : Response := mkResponse st b default_headers.
Definition default_response : Response := response 200 "".

Definition set_res_header (k v : string) (r : Response) : Response :=
  mkResponse (status r) (res_body r) (<[k := v]> (res_headers r)).

Definition response_json (payload : string) (st : Z) : Response :=
  set_res_header "Content-Type" "application/json" (response st payload).
Definition response_redirect (url : string) : Response :=
  set_res_header "Location" url (response 302 "").
Definition response_bytes (data content_type : string) (st : Z) : Response :=
  set_res_header "Content-Type" content_type (response st data).

(** ** url_decode *)
Definition hex (c : ascii) : Z :=
  if in_range "0" "9" c then byte_of c - byte_of "0"
  else if in_range "a" "f" c then byte_of c - byte_of "a" + 10
  else if in_range "A" "F" c then byte_of c - byte_of "A" + 10
  else -1.

(** The loop over [i]: the argument is the suffix starting at [i]; the test
    [i + 2 < s.size()] is "two more characters follow". *)
Fixpoint url_decode (s : string) (plus_as_space : bool) : string :=
  match s with
  | "" => ""
  | String c s1 =>
      if is_char "+" c && plus_as_space then String " " (url_decode s1 plus_as_space)
      else if is_char "%" c then
        match s1 with
        | String h (String l s3) =>
            let hi := hex h in
            let lo := hex l in
            if (0 <=? hi)%Z && (0 <=? lo)%Z
            then String (chr (Z.lor (Z.shiftl hi 4) lo)) (url_decode s3 plus_as_space)
            else String c (url_decode s1 plus_as_space)
        | _ => String c (url_decode s1 plus_as_space)
        end
      else String c (url_decode s1 plus_as_space)
  end.

(** ** parse_pairs *)
Definition pairs_trim : string -> string := trim_set (is_char " ").
Definition cook (decode : bool) (v : string) : string :=
  if decode then url_decode v true else v.

(** One iteration of the loop body: a piece without '=' is ignored, a repeated
    key keeps its last value. *)
Definition parse_pair (decode : bool) (out : gmap string string) (pair : string)
    : gmap string string :=
  match find_chr pair "=" 0 with
  | None => out
  | Some eq =>
      <[cook decode (pairs_trim (substr pair 0 eq))
        := cook decode (pairs_trim (substr_from pair (eq + 1)))]> out
  end.
Definition parse_pairs (s : string) (sep : ascii) (decode : bool) : gmap string string :=
  fold_left (parse_pair decode) (pieces sep s) ∅.

Definition parse_form (b : string) : gmap string string := parse_pairs b "&" true.
Definition parse_cookies (header : string) : gmap string string := parse_pairs header ";" false.

(** ** Reference encoders (not part of the program) *)
Definition unreserved (c : ascii) : bool :=
  is_digit c || is_upper c || is_lower c || is_char "-" c || is_char "_" c || is_char "." c
  || is_char "~" c.

Fixpoint url_encode (s : string) : string :=
  match s with
  | "" => ""
  | String c s' =>
      if unreserved c then String c (url_encode s')
      else String "%" (String (hex_digit (Z.shiftr (byte_of c) 4))
             (String (hex_digit (Z.land (byte_of c) 15)) (url_encode s')))
  end.

(** key=value pieces, with any padding of spaces a sender may put around them. *)
Definition pair_text (enc : string -> string) (kv : string * string) : string :=
  enc kv.1 +:+ String "=" (enc kv.2).
Definition form_text (kvs : list (string * string)) : string :=
  join_chr "&" (map (pair_text url_encode) kvs).
Definition cookie_text (kvs : list (string * string)) : string :=
  join_chr ";" (map (fun kv => " " +:+ pair_text id kv) kvs).

(** Last write wins. *)
Definition last_wins (kvs : list (string * string)) : gmap string string :=
  fold_left (fun m kv => <[kv.1 := kv.2]> m) kvs ∅.

(** ** Decoding inverts encoding *)
Lemma hex_hex_digit n : (0 <= n < 16)%Z -> hex (hex_digit n) = n.
Proof. revert n. apply hex_digit_cases; reflexivity. Qed.

Lemma unreserved_plain c :
  unreserved c = true ->
  is_char "+" c = false /\ is_char "%" c = false /\ is_char " " c = false /\
  is_char "&" c = false /\ is_char "=" c = false.
Proof.
  intros H. assert (Hn : forall d, unreserved d = false -> is_char d c = false).
  { intros d Hd. apply bool_decide_eq_false. intros ->. congruence. }
  repeat split; by apply Hn.
Qed.

Lemma url_decode_encode_app s t :
  url_decode (url_encode s +:+ t) true = s +:+ url_decode t true.
Proof.
  induction s as [|c s IH]; [done|]. cbn [url_encode].
  destruct (unreserved c) eqn:E.
  - apply unreserved_plain in E as (H1 & H2 & _). rewrite !s_app_cons. cbn.
    by rewrite H1, H2, IH.
  - rewrite !s_app_cons. cbn [url_decode].
    change (is_char "+" "%" && true) with false. change (is_char "%" "%") with true. cbn [negb].
    pose proof (nibbles (byte_of c) (byte_of_bound c)) as [? ?].
    rewrite !hex_hex_digit by done.
    replace (0 <=? _)%Z with true by (symmetry; apply Z.leb_le; lia).
    replace (0 <=? _)%Z with true by (symmetry; apply Z.leb_le; lia). cbn [andb].
    by rewrite nibbles_join, chr_byte_of, IH by apply byte_of_bound.
Qed.

Lemma url_decode_encode_id s : url_decode (url_encode s) true = s.
Proof.
  pose proof (url_decode_encode_app s "") as H. by rewrite !s_app_nil_r in H.
Qed.

(** The characters of encoded text: none of them is a separator. *)
Definition url_safe (c : ascii) : bool := unreserved c || is_char "%" c.

Lemma hex_digit_safe n : (0 <= n < 16)%Z -> url_safe (hex_digit n) = true.
Proof. revert n. apply hex_digit_cases; reflexivity. Qed.

Lemma url_encode_safe s : s_all url_safe (url_encode s).
Proof.
  induction s as [|c s IH]; [done|]. cbn [url_encode].
  destruct (unreserved c) eqn:E.
  - apply s_all_cons. unfold url_safe. by rewrite E.
  - pose proof (nibbles (byte_of c) (byte_of_bound c)) as [? ?].
    rewrite !s_all_cons, !hex_digit_safe by done. by repeat split.
Qed.

Lemma s_all_no_chr p c s : s_all p s -> p c = false -> no_chr c s.
Proof.
  intros Hs Hc Hin. unfold s_all in Hs. rewrite Forall_forall in Hs.
  apply Hs in Hin. congruence.
Qed.

Lemma no_space_trim s : no_chr " " s -> pairs_trim s = s.
Proof. intros H. apply trim_set_id, trimmed_of_none. by apply s_all_is_char. Qed.

Lemma space_pad_trim s : no_chr " " s -> pairs_trim (" " +:+ s) = s.
Proof.
  intros H. rewrite <- (s_app_nil_r s) at 1. unfold pairs_trim. apply trim_set_pad; try done.
  - by apply s_all_cons.
  - apply trimmed_of_none. by apply s_all_is_char.
Qed.

(** What [parse_pair] does to one well-formed piece. *)
Lemma parse_pair_text decode out pre k v :
  no_chr "=" pre -> no_chr "=" k ->
  parse_pair decode out (pre +:+ k +:+ String "=" v)
  = <[cook decode (pairs_trim (pre +:+ k)) := cook decode (pairs_trim v)]> out.
Proof.
  intros Hp Hk. unfold parse_pair. rewrite <- s_app_assoc.
  rewrite find_chr_hit by by apply no_chr_app.
  f_equal; [|f_equal; f_equal].
  - f_equal. unfold substr. rewrite s_drop_0. by rewrite s_take_app.
  - f_equal. unfold substr_from.
    replace (String "=" v) with (str1 "=" +:+ v) by done.
    rewrite <- s_app_assoc. apply s_drop_app. rewrite !length_s_app. cbn. lia.
Qed.

Lemma form_text_ok kvs :
  Forall (no_chr "&") (map (pair_text url_encode) kvs) /\
  Forall (fun p => p ≠ "") (map (pair_text url_encode) kvs).
Proof.
  split; apply Forall_map, Forall_forall; intros [k v] _; unfold pair_text; cbn.
  - apply no_chr_app. rewrite no_chr_cons. repeat split; [|done|];
      by apply (s_all_no_chr url_safe); [apply url_encode_safe|].
  - intros H%(f_equal String.length). rewrite length_s_app in H. cbn in H. lia.
Qed.

(** Decoding a URL-encoded form gives back exactly the encoded key/value
    list (the last value of a repeated key wins), for arbitrary byte strings as
    keys and values: separators, '%', '+', NUL and high bytes included. *)
Theorem parse_form_encode kvs : parse_form (form_text kvs) = last_wins kvs.
Proof.
  destruct (form_text_ok kvs) as [Ha Hb].
  unfold parse_form, parse_pairs, form_text, last_wins. rewrite pieces_join by done.
  clear Ha Hb. generalize (∅ : gmap string string) as m.
  induction kvs as [|[k v] kvs IH]; intros m; [done|]. cbn [map fold_left].
  pose proof (url_encode_safe k) as Hk. pose proof (url_encode_safe v) as Hv.
  change (pair_text url_encode (k, v)) with ("" +:+ url_encode k +:+ String "=" (url_encode v)).
  rewrite parse_pair_text, s_app_nil_l; [|done|by apply (s_all_no_chr url_safe)].
  rewrite !no_space_trim by (by apply (s_all_no_chr url_safe)).
  unfold cook. by rewrite !url_decode_encode_id, IH.
Qed.

(** A cookie name or value as clients send it: no separator, no blank. *)
Definition cookie_token (s : string) : Prop := no_chr ";" s /\ no_chr "=" s /\ no_chr " " s.

(** A Cookie header "k=v; k2=v2" is taken verbatim (no percent-decoding), with
    the blanks after each ';' removed. *)
Theorem parse_cookies_text kvs :
  Forall (fun kv => cookie_token kv.1 /\ cookie_token kv.2) kvs ->
  parse_cookies (cookie_text kvs) = last_wins kvs.
Proof.
  intros H. unfold parse_cookies, parse_pairs, cookie_text, last_wins. rewrite pieces_join.
  - generalize (∅ : gmap string string) as m.
    induction kvs as [|[k v] kvs IH]; intros m; [done|]. cbn [map fold_left].
    apply Forall_cons in H as [[(?&?&?) (?&?&?)] H'].
    change (pair_text id (k, v)) with (k +:+ String "=" v). cbn in *.
    rewrite parse_pair_text by (done || by_eval).
    rewrite space_pad_trim, no_space_trim by done. unfold cook. by rewrite IH.
  - apply Forall_map. eapply Forall_impl; [exact H|]. intros [k v] [(?&?&?) (?&?&?)].
    unfold pair_text. cbn in *. apply no_chr_cons. split; [done|].
    apply no_chr_app. split; [done|]. by apply no_chr_cons.
  - apply Forall_map. eapply Forall_impl; [exact H|]. by intros [k v] _.
Qed.

Lemma parse_cookies_text_witness :
  parse_cookies " lwsid=abc; theme=dark" = {["lwsid" := "abc"; "theme" := "dark"]}.
Proof.
  transitivity (last_wins [("lwsid", "abc"); ("theme", "dark")]); [|vm_compute; reflexivity].
  apply (parse_cookies_text [("lwsid", "abc"); ("theme", "dark")]).
  repeat constructor; cbn; by_eval.
Defined.

Example decode_bad_escape : url_decode "100%+a%4" true = "100% a%4".
Proof. reflexivity. Qed.
Example parse_form_example :
  parse_form "a=1&&b=%41+x&a=2&c" = {["a" := "2"; "b" := "A x"]}.
Proof. vm_compute. reflexivity. Qed.
