(* ===== verification/Base64.v ===== *)
(** * The base64 codecs of token.hpp and websocket.hpp

    Both encoders run the same loop over an [int] accumulator [val] and a bit
    counter [bits]; they differ in the alphabet and in the '=' padding.  The
    accumulator is never masked by the code, so it wraps modulo 2^32: [s32].
    The main result is that the url decoder inverts the url encoder. *)
From S2P Require Import Prelude CppString CppNum.

Local Open Scope Z_scope.

Definition alphabet_url : string :=
  "ABCDEFGHIJKLMNOPQRSTUVWXYZabcdefghijklmnopqrstuvwxyz0123456789-_".
Definition alphabet_std : string :=
  "ABCDEFGHIJKLMNOPQRSTUVWXYZabcdefghijklmnopqrstuvwxyz0123456789+/".

(** [t[i]] for an index already masked with 0x3F. *)
Definition tbl (t : string) (i : Z) : ascii := default (chr 0) (s_at t (Z.to_nat i)).
Definition sextet (val bits : Z) : Z := Z.land (Z.shiftr val bits) 63.

(** [while (bits >= 0) { out.push_back(t[(val >> bits) & 0x3F]); bits -= 6; }];
    [bits] is at most 7 on entry, so two iterations are enough. *)
Fixpoint emit (fuel : nat) (t : string) (val bits : Z) : string * Z :=
  if 0 <=? bits then
    match fuel with
    | O => ("", bits)
    | S fuel => let '(o, b) := emit fuel t val (bits - 6) in (String (tbl t (sextet val bits)) o, b)
    end
  else ("", bits).

(** The loop over the input bytes and the final partial sextet. *)
Fixpoint enc_loop (t : string) (val bits : Z) (s : string) : string :=
  match s with
  | "" =>
      if -6 <? bits then str1 (tbl t (sextet (s32 (Z.shiftl val 8)) (bits + 8))) else ""
  | String c s' =>
      let val := s32 (Z.shiftl val 8) + byte_of c in
      let '(o, bits) := emit 2 t val (bits + 8) in
      o +:+ enc_loop t val bits s'
  end.

Definition b64url_encode (s : string) : string := enc_loop alphabet_url 0 (-6) s.

(** [while (out.size() % 4) out.push_back('=')]. *)
Fixpoint pad4 (fuel : nat) (o : string) : string :=
  match fuel with
  | O => o
  | S fuel => if (len o mod 4 =? 0)%nat then o else pad4 fuel (o +:+ "=")
  end.
Definition base64 (s : string) : string := pad4 3 (enc_loop alphabet_std 0 (-6) s).

Definition b64url_val (c : ascii) : Z :=
  if in_range "A" "Z" c then byte_of c - byte_of "A"
  else if in_range "a" "z" c then byte_of c - byte_of "a" + 26
  else if in_range "0" "9" c then byte_of c - byte_of "0" + 52
  else if is_char "-" c then 62
  else if is_char "_" c then 63
  else -1.

Fixpoint dec_loop (val bits : Z) (s : string) : string :=
  match s with
  | "" => ""
  | String c s' =>
      let d := b64url_val c in
      if d <? 0 then dec_loop val bits s'
      else
        let val := s32 (Z.shiftl val 6) + d in
        let bits := bits + 6 in
        if 0 <=? bits
        then String (chr (Z.land (Z.shiftr val bits) 255)) (dec_loop val (bits - 8) s')
        else dec_loop val bits s'
  end.
Definition b64url_decode (s : string) : string := dec_loop 0 (-8) s.

(** ** Facts about the accumulator *)
Ltac Zify.zify_post_hook ::= Z.to_euclidean_division_equations.

Lemma s32_mod_small z n : 0 <= n <= 32 -> s32 z mod 2 ^ n = z mod 2 ^ n.
Proof.
  intros Hn. assert (Hd : (2 ^ n | 2 ^ 32)).
  { exists (2 ^ (32 - n)). rewrite <- Z.pow_add_r by lia. f_equal. lia. }
  rewrite <- (Z.mod_mod_divide (s32 z) _ _ Hd), s32_mod. by apply Z.mod_mod_divide.
Qed.

Lemma acc8 v c : 0 <= c < 256 -> (s32 (Z.shiftl v 8) + c) mod 2 ^ 16 = (v mod 2 ^ 8) * 2 ^ 8 + c.
Proof.
  intros Hc. rewrite Z.add_mod, s32_mod_small, Z.shiftl_mul_pow2 by lia.
  change (2 ^ 8) with 256. change (2 ^ 16) with 65536. lia.
Qed.

Lemma acc8_low v c : 0 <= c < 256 -> (s32 (Z.shiftl v 8) + c) mod 2 ^ 8 = c.
Proof.
  intros Hc. pose proof (acc8 v c Hc) as H.
  change (2 ^ 8) with 256 in *. change (2 ^ 16) with 65536 in *. lia.
Qed.

Lemma acc6 v d : 0 <= d < 64 -> (s32 (Z.shiftl v 6) + d) mod 2 ^ 12 = (v mod 2 ^ 6) * 2 ^ 6 + d.
Proof.
  intros Hc. rewrite Z.add_mod, s32_mod_small, Z.shiftl_mul_pow2 by lia.
  change (2 ^ 6) with 64. change (2 ^ 12) with 4096. lia.
Qed.

Lemma acc6_low v d : 0 <= d < 64 -> (s32 (Z.shiftl v 6) + d) mod 2 ^ 6 = d.
Proof.
  intros Hc. pose proof (acc6 v d Hc) as H.
  change (2 ^ 6) with 64 in *. change (2 ^ 12) with 4096 in *. lia.
Qed.

Lemma land_shiftr_mod v k w n :
  0 <= k -> 0 <= w -> k + w <= n ->
  Z.land (Z.shiftr v k) (Z.ones w) = (v mod 2 ^ n) / 2 ^ k mod 2 ^ w.
Proof.
  intros. rewrite Z.land_ones, Z.shiftr_div_pow2 by lia.
  apply Z.bits_inj'. intros i Hi.
  destruct (decide (i < w)).
  - rewrite !Z.mod_pow2_bits_low, !Z.div_pow2_bits, Z.mod_pow2_bits_low by lia. done.
  - rewrite !Z.mod_pow2_bits_high by lia. done.
Qed.

Lemma sextet_mod v k : 0 <= k <= 10 -> sextet v k = (v mod 2 ^ 16) / 2 ^ k mod 64.
Proof. intros. apply (land_shiftr_mod v k 6 16); lia. Qed.
Lemma octet_mod v k : 0 <= k <= 4 -> Z.land (Z.shiftr v k) 255 = (v mod 2 ^ 12) / 2 ^ k mod 256.
Proof. intros. apply (land_shiftr_mod v k 8 12); lia. Qed.

Lemma sextet_bound v k : 0 <= sextet v k < 64.
Proof. unfold sextet. change 63 with (Z.ones 6). rewrite Z.land_ones by lia. lia. Qed.

(** ** The alphabet *)
Lemma alphabet_inverse :
  forallb (fun i => b64url_val (tbl alphabet_url (Z.of_nat i)) =? Z.of_nat i) (seq 0 64) = true.
Proof. vm_compute. reflexivity. Qed.

Lemma b64url_val_tbl i : 0 <= i < 64 -> b64url_val (tbl alphabet_url i) = i.
Proof.
  intros Hi. pose proof alphabet_inverse as H. rewrite forallb_forall in H.
  specialize (H (Z.to_nat i)). rewrite Z2Nat.id in H by lia.
  apply Z.eqb_eq, H, in_seq. lia.
Qed.

(** ** One group of bytes *)
Lemma emit_one t v k : 0 <= k < 6 -> emit 2 t v k = (str1 (tbl t (sextet v k)), k - 6).
Proof.
  intros. cbn [emit]. replace (0 <=? k) with true by (symmetry; apply Z.leb_le; lia).
  replace (0 <=? k - 6) with false by (symmetry; apply Z.leb_gt; lia). done.
Qed.
Lemma emit_two t v :
  emit 2 t v 6 = (String (tbl t (sextet v 6)) (str1 (tbl t (sextet v 0))), -6).
Proof. reflexivity. Qed.

Lemma dec_step val bits i s :
  0 <= i < 64 ->
  dec_loop val bits (String (tbl alphabet_url i) s) =
  let val := s32 (Z.shiftl val 6) + i in
  if 0 <=? bits + 6
  then String (chr (Z.land (Z.shiftr val (bits + 6)) 255)) (dec_loop val (bits + 6 - 8) s)
  else dec_loop val (bits + 6) s.
Proof.
  intros Hi. cbn [dec_loop]. rewrite b64url_val_tbl by done.
  by replace (i <? 0) with false by (symmetry; apply Z.ltb_ge; lia).
Qed.

(** Run the decoder over known alphabet characters; the bit counter is closed. *)
Ltac dec_run :=
  repeat (rewrite dec_step by done; cbv zeta;
    repeat match goal with
    | |- context [0 <=? ?k] =>
        let b := eval vm_compute in (0 <=? k) in change (0 <=? k) with b; cbn [negb]
    | |- context [dec_loop _ (?x + ?y) _] =>
        let k := eval vm_compute in (x + y) in change (x + y) with k
    | |- context [dec_loop _ (?x - ?y) _] =>
        let k := eval vm_compute in (x - y) in change (x - y) with k
    | |- context [Z.shiftr _ (?x + ?y)] =>
        let k := eval vm_compute in (x + y) in change (x + y) with k
    end).

(** The three-byte group a, b, c is four sextets; the decoder turns them back. *)
Definition sx1 (a : Z) : Z := a / 4.
Definition sx2 (a b : Z) : Z := (a mod 4) * 16 + b / 16.
Definition sx3 (b c : Z) : Z := (b mod 16) * 4 + c / 64.
Definition sx4 (c : Z) : Z := c mod 64.

Definition quad (t : string) (a b c : Z) (s : string) : string :=
  String (tbl t (sx1 a)) (String (tbl t (sx2 a b)) (String (tbl t (sx3 b c)) (String (tbl t (sx4 c)) s))).

Lemma enc_triple t v ca cb cc s :
  let v3 := s32 (Z.shiftl (s32 (Z.shiftl (s32 (Z.shiftl v 8) + byte_of ca) 8) + byte_of cb) 8)
            + byte_of cc in
  enc_loop t v (-6) (String ca (String cb (String cc s)))
  = quad t (byte_of ca) (byte_of cb) (byte_of cc) (enc_loop t v3 (-6) s).
Proof.
  pose proof (byte_of_bound ca). pose proof (byte_of_bound cb). pose proof (byte_of_bound cc).
  cbn [enc_loop]. change (-6 + 8) with 2. rewrite emit_one by lia.
  change (2 - 6 + 8) with 4. rewrite emit_one by lia.
  change (4 - 6 + 8) with 6. rewrite emit_two. cbn [fst snd].
  unfold quad, str1. rewrite !s_app_cons, !s_app_nil_l.
  rewrite !sextet_mod, !acc8, !acc8_low by lia.
  change (2 ^ 8) with 256. change (2 ^ 4) with 16. change (2 ^ 6) with 64. change (2 ^ 0) with 1.
  change (2 ^ 2) with 4.
  do 4 (apply (f_equal2 String); [apply (f_equal (tbl t)); unfold sx1, sx2, sx3, sx4; lia|]).
  done.
Qed.

Lemma sx_bounds a b c :
  0 <= a < 256 -> 0 <= b < 256 -> 0 <= c < 256 ->
  0 <= sx1 a < 64 /\ 0 <= sx2 a b < 64 /\ 0 <= sx3 b c < 64 /\ 0 <= sx4 c < 64.
Proof. unfold sx1, sx2, sx3, sx4. lia. Qed.

Lemma dec_quad v ca cb cc s :
  exists v', dec_loop v (-8) (quad alphabet_url (byte_of ca) (byte_of cb) (byte_of cc) s)
  = String ca (String cb (String cc (dec_loop v' (-8) s))).
Proof.
  pose proof (byte_of_bound ca) as Ha. pose proof (byte_of_bound cb) as Hb.
  pose proof (byte_of_bound cc) as Hc.
  destruct (sx_bounds _ _ _ Ha Hb Hc) as (?&?&?&?).
  unfold quad. dec_run.
  eexists. rewrite !octet_mod, !acc6, !acc6_low by lia.
  change (2 ^ 6) with 64. change (2 ^ 4) with 16. change (2 ^ 2) with 4. change (2 ^ 0) with 1.
  do 3 (apply (f_equal2 String); [apply (inj byte_of); rewrite byte_of_chr_small by lia;
                                  unfold sx1, sx2, sx3, sx4; lia|]). done.
Qed.

(** The one- and two-byte tails. *)
Lemma enc_tail1 t v ca :
  enc_loop t v (-6) (String ca "")
  = String (tbl t (sx1 (byte_of ca))) (str1 (tbl t (sx2 (byte_of ca) 0))).
Proof.
  pose proof (byte_of_bound ca). cbn [enc_loop].
  change (-6 + 8) with 2. rewrite emit_one by lia. change (-6 <? 2 - 6) with true. cbn [negb].
  change (2 - 6 + 8) with 4. unfold str1. rewrite s_app_cons, s_app_nil_l.
  pose proof (acc8 (s32 (Z.shiftl v 8) + byte_of ca) 0 ltac:(lia)) as E.
  rewrite Z.add_0_r in E. rewrite !sextet_mod, E, acc8, acc8_low by lia.
  change (2 ^ 8) with 256. change (2 ^ 4) with 16. change (2 ^ 2) with 4.
  do 2 (apply (f_equal2 String); [apply (f_equal (tbl t)); unfold sx1, sx2; lia|]). done.
Qed.

Lemma enc_tail2 t v ca cb :
  enc_loop t v (-6) (String ca (String cb ""))
  = String (tbl t (sx1 (byte_of ca))) (String (tbl t (sx2 (byte_of ca) (byte_of cb)))
      (str1 (tbl t (sx3 (byte_of cb) 0)))).
Proof.
  pose proof (byte_of_bound ca). pose proof (byte_of_bound cb). cbn [enc_loop].
  change (-6 + 8) with 2. rewrite emit_one by lia.
  change (2 - 6 + 8) with 4. rewrite emit_one by lia. change (-6 <? 4 - 6) with true. cbn [negb].
  change (4 - 6 + 8) with 6. unfold str1. rewrite !s_app_cons, !s_app_nil_l.
  pose proof (acc8 (s32 (Z.shiftl (s32 (Z.shiftl v 8) + byte_of ca) 8) + byte_of cb) 0
    ltac:(lia)) as E.
  rewrite Z.add_0_r in E. rewrite !sextet_mod, E, !acc8, !acc8_low by lia.
  change (2 ^ 8) with 256. change (2 ^ 4) with 16. change (2 ^ 2) with 4. change (2 ^ 6) with 64.
  do 3 (apply (f_equal2 String); [apply (f_equal (tbl t)); unfold sx1, sx2, sx3; lia|]). done.
Qed.

Lemma dec_tail1 v ca :
  dec_loop v (-8) (String (tbl alphabet_url (sx1 (byte_of ca)))
                     (str1 (tbl alphabet_url (sx2 (byte_of ca) 0)))) = str1 ca.
Proof.
  pose proof (byte_of_bound ca) as Ha. destruct (sx_bounds _ 0 0 Ha ltac:(lia) ltac:(lia)) as (?&?&_).
  unfold str1. dec_run. cbn [dec_loop]. rewrite octet_mod, acc6, acc6_low by lia.
  change (2 ^ 6) with 64. change (2 ^ 4) with 16.
  f_equal. apply (inj byte_of). rewrite byte_of_chr_small by lia. unfold sx1, sx2. lia.
Qed.

Lemma dec_tail2 v ca cb :
  dec_loop v (-8) (String (tbl alphabet_url (sx1 (byte_of ca)))
     (String (tbl alphabet_url (sx2 (byte_of ca) (byte_of cb)))
        (str1 (tbl alphabet_url (sx3 (byte_of cb) 0))))) = String ca (str1 cb).
Proof.
  pose proof (byte_of_bound ca) as Ha. pose proof (byte_of_bound cb) as Hb.
  destruct (sx_bounds _ _ 0 Ha Hb ltac:(lia)) as (?&?&?&_).
  unfold str1. dec_run. cbn [dec_loop]. rewrite !octet_mod, !acc6, !acc6_low by lia.
  change (2 ^ 6) with 64. change (2 ^ 4) with 16. change (2 ^ 2) with 4.
  do 2 (apply (f_equal2 String); [apply (inj byte_of); rewrite byte_of_chr_small by lia;
                                  unfold sx1, sx2, sx3; lia|]). done.
Qed.

Lemma b64_roundtrip_from n : forall s v w,
  (len s <= n)%nat -> dec_loop w (-8) (enc_loop alphabet_url v (-6) s) = s.
Proof.
  induction n as [n IH] using lt_wf_ind. intros s v w Hn.
  destruct s as [|ca [|cb [|cc s]]].
  - reflexivity.
  - rewrite enc_tail1. apply dec_tail1.
  - rewrite enc_tail2. apply dec_tail2.
  - rewrite enc_triple. cbv zeta.
    match goal with |- context [enc_loop _ ?v3 _ s] => set (rest := enc_loop _ v3 (-6) s) end.
    destruct (dec_quad w ca cb cc rest) as [w' ->]. subst rest.
    cbn in Hn. rewrite (IH (n - 3)%nat); [done|lia|lia].
Qed.

Lemma b64url_roundtrip s : b64url_decode (b64url_encode s) = s.
Proof. by apply (b64_roundtrip_from (len s)). Qed.

(** ** The characters an encoding uses *)
Definition is_b64url (c : ascii) : bool := 0 <=? b64url_val c.

Lemma tbl_is_b64url v k : is_b64url (tbl alphabet_url (sextet v k)) = true.
Proof.
  unfold is_b64url. apply Z.leb_le. pose proof (sextet_bound v k).
  rewrite b64url_val_tbl; lia.
Qed.

Lemma emit_chars fuel v k : s_all is_b64url (emit fuel alphabet_url v k).1.
Proof.
  revert k; induction fuel as [|fuel IH]; intros k; cbn [emit]; destruct (0 <=? k); try done.
  specialize (IH (k - 6)). destruct (emit fuel _ v (k - 6)) as [o b]. cbn in *.
  apply s_all_cons. split; [apply tbl_is_b64url|done].
Qed.

Lemma b64url_encode_chars s : s_all is_b64url (b64url_encode s).
Proof.
  unfold b64url_encode. generalize (-6) as k, 0 as v.
  induction s as [|c s IH]; intros k v; cbn [enc_loop].
  - destruct (-6 <? k); [|done]. apply s_all_cons. split; [apply tbl_is_b64url|done].
  - pose proof (emit_chars 2 (s32 (Z.shiftl v 8) + byte_of c) (k + 8)) as H.
    destruct (emit 2 _ _ (k + 8)) as [o b]. apply s_all_app. split; [done|apply IH].
Qed.

Lemma b64url_no_dot s : no_chr "." (b64url_encode s).
Proof.
  intros H. pose proof (b64url_encode_chars s) as Hc. unfold s_all in Hc.
  rewrite Forall_forall in Hc. by apply Hc in H.
Qed.

Example base64_rfc : base64 "light w" = "bGlnaHQgdw==".
Proof. vm_compute. reflexivity. Qed.
