(* ===== verification/Pipeline.v ===== *)
(** * pipeline.hpp / pipeline.cpp: handlers, middleware and their composition

    A handler receives the request by reference and may change it; it may also
    change the application (session store, cache, database...) and may throw.  It
    is therefore a computation in [M (Request * W)], where [W] is the state of the
    application.  A middleware receives the rest of the chain, [Next], which it may
    call or not. *)
From S2P Require Import Prelude CppString Http.

Definition Handler (W : Type) : Type := M (Request * W) Response.
Definition Next (W : Type) : Type := Handler W.
Definition Middleware (W : Type) : Type := Next W -> Handler W.

Section pipeline.
Context {W : Type}.

Record Pipeline : Type := mkPipeline { middlewares_ : list (Middleware W) }.

Definition new_pipeline : Pipeline := mkPipeline [].
Definition through (mws : list (Middleware W)) (p : Pipeline) : Pipeline := mkPipeline mws.

(** [for (it = rbegin; it != rend; ++it) next = [mw, prev](r) { return mw(r, prev); }]. *)
Definition run (p : Pipeline) (dest : Handler W) : Handler W :=
  fold_left (fun prev mw => mw prev) (rev (middlewares_ p)) dest.

Lemma run_foldr p dest : run p dest = foldr (fun mw next => mw next) dest (middlewares_ p).
Proof.
  pose proof (fold_left_rev_right (fun mw next => mw next) (rev (middlewares_ p)) dest) as H.
  rewrite rev_involutive in H. exact (eq_sym H).
Qed.

(** What a handler can see of the request and the application. *)
Definition on_request {A} (f : Request -> A) : M (Request * W) A := gets (fun s => f s.1).
Definition edit_request (f : Request -> Request) : M (Request * W) unit :=
  modify (fun s => (f s.1, s.2)).
Definition in_app {A} (m : M W A) : M (Request * W) A :=
  fun s => match m s.2 with (r, w) => (r, (s.1, w)) end.

(** A handler that cannot throw. *)
Definition total (h : Handler W) : Prop := forall s, exists r s', h s = (Ok r, s').
End pipeline.
Arguments Pipeline : clear implicits.

(** The first middleware registered is the outermost layer, stacks compose by
    concatenation, and an empty pipeline is the handler itself. *)
Theorem pipeline_onion {W} (mw : Middleware W) (outer inner : list (Middleware W))
    (p : Pipeline W) (dest : Handler W) :
  run (through [] p) dest = dest /\
  run (through (mw :: inner) p) dest = mw (run (through inner p) dest) /\
  run (through (outer ++ inner) p) dest = run (through outer p) (run (through inner p) dest).
Proof. rewrite !run_foldr. cbn [middlewares_ through]. by rewrite foldr_app. Qed.
