(* ===== verification/Router.v ===== *)
(** * router_contract.hpp / router.cpp: routes, patterns and matching

    [Router::add] rewrites a URI pattern into a std::regex; the regular
    expressions it can produce are literals, one-segment captures and catch-all
    captures, anchored at both ends.  [parse_rx] and [regex_match] give that fragment of ECMAScript its
    meaning (backtracking, greedy, '.' excludes line terminators), so that both the
    text [add] builds and the captures it relies on are checked. *)
From S2P Require Import Prelude CppString CppNum Http Pipeline.

(** ** The regular expressions in use *)
Inductive rx : Type :=
  | RLit (c : ascii)   (* c, or an escaped special character *)
  | RSeg               (* capture one or more characters other than '/' *)
  | RAny.              (* capture any characters but line terminators *)

Definition special (c : ascii) : bool :=
  match find_chr ".^$|()[]{}*+?\" c 0 with Some _ => true | None => false end.

(** std::regex(text) for this fragment; a text outside it is not compiled. *)
Fixpoint parse_body (s : string) : option (list rx) :=
  match s with
  | "" => None
  | "$" => Some []
  | String "(" (String "[" (String "^" (String "/" (String "]" (String "+" (String ")" s')))))) =>
      cons RSeg <$> parse_body s'
  | String "(" (String "." (String "*" (String ")" s'))) => cons RAny <$> parse_body s'
  | String "\" (String c s') => if special c then cons (RLit c) <$> parse_body s' else None
  | String c s' => if special c then None else cons (RLit c) <$> parse_body s'
  end.
Definition parse_rx (s : string) : option (list rx) :=
  match s with String "^" s' => parse_body s' | _ => None end.

(** Length of the longest prefix whose characters satisfy [p]. *)
Fixpoint span (p : ascii -> bool) (s : string) : nat :=
  match s with String c s' => if p c then S (span p s') else 0 | "" => 0 end.

(** Greedy choice: lengths [k], [k-1], ..., [lo]. *)
Fixpoint try_down {A} (f : nat -> option A) (lo k : nat) : option A :=
  if k <? lo then None
  else match f k with
       | Some a => Some a
       | None => match k with 0 => None | S k' => try_down f lo k' end
       end.

Definition not_slash (c : ascii) : bool := negb (is_char "/" c).
Definition not_eol (c : ascii) : bool :=
  negb (bool_decide (byte_of c = 10%Z) || bool_decide (byte_of c = 13%Z)).

(** std::regex_match: the whole of [s], returning the captures. *)
Fixpoint regex_match (l : list rx) (s : string) : option (list string) :=
  match l with
  | [] => match s with "" => Some [] | _ => None end
  | RLit c :: l =>
      match s with
      | String d s' => if is_char c d then regex_match l s' else None
      | "" => None
      end
  | RSeg :: l =>
      try_down (fun k => cons (s_take k s) <$> regex_match l (s_drop k s)) 1 (span not_slash s)
  | RAny :: l =>
      try_down (fun k => cons (s_take k s) <$> regex_match l (s_drop k s)) 0 (span not_eol s)
  end.

(** ** Patterns *)
(** The segment regex at the start of [s] (an open brace, word characters, an optional
    star, a close brace): the name, whether starred, what follows. *)
Definition is_word (c : ascii) : bool :=
  is_digit c || is_upper c || is_lower c || is_char "_" c.
Definition seg_at (s : string) : option (string * bool * string) :=
  match s with
  | String "{" s1 =>
      let n := span is_word s1 in
      let name := s_take n s1 in
      if n =? 0 then None
      else match s_drop n s1 with
           | String "*" (String "}" rest) => Some (name, true, rest)
           | String "}" rest => Some (name, false, rest)
           | _ => None
           end
  | _ => None
  end.

(** std::regex_replace: a backslash before every special character. *)
Fixpoint escape (s : string) : string :=
  match s with
  | "" => ""
  | String c s' => if special c then String "\" (String c (escape s')) else String c (escape s')
  end.

(** The sregex_iterator loop of [add]: [lit] is the text since the last match.  The
    fuel bounds the number of positions the iterator visits. *)
Fixpoint add_loop (fuel : nat) (lit uri : string) : string * list string :=
  match fuel with
  | 0 => ("", [])
  | S fuel =>
      match seg_at uri with
      | Some (name, star, rest) =>
          let '(rx, names) := add_loop fuel "" rest in
          (escape lit +:+ (if star : bool then "(.*)" else "([^/]+)") +:+ rx, name :: names)
      | None =>
          match uri with
          | "" => (escape lit +:+ "$", [])
          | String c uri' => add_loop fuel (lit +:+ str1 c) uri'
          end
      end
  end.
Definition add_pattern (uri : string) : string * list string :=
  let '(rx, names) := add_loop (S (len uri)) "" uri in ("^" +:+ rx, names).

(** ** Routes *)
Section router.
Context {W : Type}.

Record Route : Type := mkRoute {
  r_method : string;
  r_uri : string;
  r_pattern : list rx;
  r_params : list string;
  r_handler : Handler W;
  r_middleware : list (Middleware W)
}.
Record Router : Type := mkRouter { routes_ : list Route }.
Record RouteInfo : Type := mkRouteInfo { i_method : string; i_uri : string }.

Definition regex_error : exn := StdExn "regex_error".

Definition add (m uri : string) (h : Handler W) (mw : list (Middleware W)) (r : Router)
    : res Router :=
  let '(text, names) := add_pattern uri in
  match parse_rx text with
  | None => Throw regex_error
  | Some pat => Ok (mkRouter (routes_ r ++ [mkRoute m uri pat names h mw]))
  end.

(** The verbs of RouterContract. *)
Definition get (uri : string) (h : Handler W) (mw : list (Middleware W)) := add "GET" uri h mw.
Definition post (uri : string) (h : Handler W) (mw : list (Middleware W)) := add "POST" uri h mw.
Definition put (uri : string) (h : Handler W) (mw : list (Middleware W)) := add "PUT" uri h mw.
Definition patch (uri : string) (h : Handler W) (mw : list (Middleware W)) :=
  add "PATCH" uri h mw.
Definition del (uri : string) (h : Handler W) (mw : list (Middleware W)) := add "DELETE" uri h mw.

(** [params[names[i]] = m[i + 1]] for every i. *)
Definition bind_params (names caps : list string) : gmap string string :=
  fold_left (fun m kv => <[kv.1 := kv.2]> m) (combine names caps) ∅.

Fixpoint match_routes (rs : list Route) (m p : string)
    : option (Route * gmap string string) :=
  match rs with
  | [] => None
  | r :: rs =>
      if bool_decide (r_method r ≠ m) then match_routes rs m p
      else match regex_match (r_pattern r) p with
           | Some caps => Some (r, bind_params (r_params r) caps)
           | None => match_routes rs m p
           end
  end.
Definition match_request (r : Router) (req : Request) : option (Route * gmap string string) :=
  match_routes (routes_ r) (method req) (path req).

Fixpoint allowed_loop (rs : list Route) (p : string) (out : list string) : list string :=
  match rs with
  | [] => out
  | r :: rs =>
      match regex_match (r_pattern r) p with
      | None => allowed_loop rs p out
      | Some _ =>
          if bool_decide (r_method r ∈ out) then allowed_loop rs p out
          else allowed_loop rs p (out ++ [r_method r])
      end
  end.
Definition allowed_methods (r : Router) (p : string) : list string :=
  allowed_loop (routes_ r) p [].

Definition list_routes (r : Router) : list RouteInfo :=
  map (fun x => mkRouteInfo (r_method x) (r_uri x)) (routes_ r).
End router.
Arguments Route : clear implicits.
Arguments Router : clear implicits.

Example pattern_text : add_pattern "/a.b/{id}/{rest*}"
  = ("^/a\.b/([^/]+)/(.*)$", ["id"; "rest"]).
Proof. vm_compute. reflexivity. Qed.
Example pattern_greedy :
  (parse_rx "^/([^/]+)/x(.*)$" ≫= fun l => regex_match l "/a/xbx/y") = Some ["a"; "bx/y"].
Proof. vm_compute. reflexivity. Qed.

(** ** The text [add] builds denotes the intended pattern *)
(** Reference: the pattern a URI stands for, read directly. *)
Fixpoint uri_tokens (fuel : nat) (uri : string) : list rx * list string :=
  match fuel with
  | 0 => ([], [])
  | S fuel =>
      match seg_at uri with
      | Some (name, star, rest) =>
          let '(l, names) := uri_tokens fuel rest in
          ((if star : bool then RAny else RSeg) :: l, name :: names)
      | None =>
          match uri with
          | "" => ([], [])
          | String c uri' => let '(l, names) := uri_tokens fuel uri' in (RLit c :: l, names)
          end
      end
  end.
Definition uri_pattern (uri : string) : list rx * list string := uri_tokens (S (len uri)) uri.

Definition lits (s : string) : list rx := map RLit (chars s).

Lemma parse_body_plain c s :
  special c = false -> parse_body (String c s) = cons (RLit c) <$> parse_body s.
Proof.
  destruct c as [[] [] [] [] [] [] [] []]; intros H; try (vm_compute in H; discriminate H);
    reflexivity.
Qed.

Lemma parse_body_escaped c s :
  special c = true -> parse_body (String "\" (String c s)) = cons (RLit c) <$> parse_body s.
Proof. intros H. cbn [parse_body]. by rewrite H. Qed.

Lemma parse_body_escape s t :
  parse_body (escape s +:+ t) = (fun l => lits s ++ l) <$> parse_body t.
Proof.
  induction s as [|c s IH].
  - cbn. rewrite s_app_nil_l. by destruct (parse_body t).
  - cbn [escape]. destruct (special c) eqn:E; rewrite !s_app_cons.
    + rewrite parse_body_escaped, IH by done. by destruct (parse_body t).
    + rewrite parse_body_plain, IH by done. by destruct (parse_body t).
Qed.

Lemma lits_app s t : lits (s +:+ t) = lits s ++ lits t.
Proof. unfold lits. by rewrite chars_app, map_app. Qed.

Lemma seg_at_shorter s name star rest :
  seg_at s = Some (name, star, rest) -> len rest < len s.
Proof.
  unfold seg_at. destruct s as [|c s1]; [done|].
  intros H. assert (Hc : c = "{"%char).
  { destruct c as [[] [] [] [] [] [] [] []]; try discriminate H; done. }
  subst c. destruct (span is_word s1 =? 0); [done|].
  pose proof (length_s_drop (span is_word s1) s1) as Hl.
  destruct (s_drop (span is_word s1) s1) as [|d t]; [done|].
  cbn in Hl |- *.
  destruct d as [[] [] [] [] [] [] [] []]; try discriminate H; simplify_eq; [lia|].
  destruct t as [|e t]; [done|]. cbn in Hl.
  destruct e as [[] [] [] [] [] [] [] []]; try discriminate H; simplify_eq. lia.
Qed.

Lemma add_loop_tokens fuel lit uri :
  len uri < fuel ->
  (add_loop fuel lit uri).2 = (uri_tokens fuel uri).2 /\
  parse_body (add_loop fuel lit uri).1 = Some (lits lit ++ (uri_tokens fuel uri).1).
Proof.
  revert lit uri; induction fuel as [|fuel IH]; intros lit uri Hf; [lia|].
  cbn [add_loop uri_tokens].
  destruct (seg_at uri) as [[[name star] rest]|] eqn:E.
  - apply seg_at_shorter in E. destruct (IH "" rest ltac:(lia)) as [IH1 IH2].
    destruct (add_loop fuel "" rest) as [rx ns], (uri_tokens fuel rest) as [l ns'].
    cbn in IH1, IH2. subst ns'. cbn [fst snd]. split; [done|].
    rewrite parse_body_escape.
    destruct star;
      [ change (parse_body ("(.*)" +:+ rx)) with (cons RAny <$> parse_body rx)
      | change (parse_body ("([^/]+)" +:+ rx)) with (cons RSeg <$> parse_body rx) ];
      rewrite IH2; done.
  - destruct uri as [|c uri].
    + cbn [fst snd]. split; [done|]. rewrite parse_body_escape. done.
    + cbn in Hf. destruct (IH (lit +:+ str1 c) uri ltac:(lia)) as [IH1 IH2].
      destruct (uri_tokens fuel uri) as [l ns']. cbn [fst snd] in *. split; [done|].
      rewrite IH2, lits_app, <- app_assoc. done.
Qed.

Lemma add_pattern_ok uri :
  parse_rx (add_pattern uri).1 = Some (uri_pattern uri).1 /\
  (add_pattern uri).2 = (uri_pattern uri).2.
Proof.
  destruct (add_loop_tokens (S (len uri)) "" uri ltac:(lia)) as [H1 H2].
  unfold add_pattern, uri_pattern. destruct (add_loop _ "" uri) as [rx ns].
  split; [exact H2|exact H1].
Qed.

(** The number of capture groups. *)
Fixpoint captures (l : list rx) : nat :=
  match l with
  | [] => 0
  | RLit _ :: l => captures l
  | _ :: l => S (captures l)
  end.

(** ** The meaning of a match *)
(** [matches l s caps]: the text [s] is the literals and captures of [l] in order. *)
Inductive matches : list rx -> string -> list string -> Prop :=
  | M_nil : matches [] "" []
  | M_lit c l s caps : matches l s caps -> matches (RLit c :: l) (String c s) caps
  | M_seg cap l s caps :
      cap ≠ "" -> s_all not_slash cap -> matches l s caps ->
      matches (RSeg :: l) (cap +:+ s) (cap :: caps)
  | M_any cap l s caps :
      s_all not_eol cap -> matches l s caps -> matches (RAny :: l) (cap +:+ s) (cap :: caps).

Lemma span_take p s k : k <= span p s -> s_all p (s_take k s) /\ len (s_take k s) = k.
Proof.
  revert k; induction s as [|c s IH]; intros [|k] Hk; cbn in *; try done; [lia|].
  destruct (p c) eqn:Hc; [|lia]. destruct (IH k ltac:(lia)) as [? ?].
  split; [by apply s_all_cons|]. lia.
Qed.

Lemma span_ge p s t : s_all p s -> len s <= span p (s +:+ t).
Proof.
  induction s as [|c s IH]; intros H; [cbn; lia|]. apply s_all_cons in H as [Hc H].
  rewrite s_app_cons. cbn. rewrite Hc. specialize (IH H). lia.
Qed.

Lemma try_down_Some {A} (f : nat -> option A) lo k a :
  try_down f lo k = Some a -> exists j, lo <= j <= k /\ f j = Some a.
Proof.
  induction k as [|k IH]; cbn [try_down]; case_goal; bools; try done.
  - destruct (f 0) eqn:E; [|done]. intros [= <-]. exists 0. by split; [lia|].
  - destruct (f (S k)) eqn:E.
    + intros [= <-]. exists (S k). by split; [lia|].
    + intros H. destruct (IH H) as (j & ? & ?). exists j. by split; [lia|].
Qed.

Lemma try_down_is_Some {A} (f : nat -> option A) lo k j :
  lo <= j <= k -> is_Some (f j) -> is_Some (try_down f lo k).
Proof.
  intros Hj Hs. induction k as [|k IH]; cbn [try_down].
  - destruct (0 <? lo) eqn:?; bools; [lia|]. replace j with 0 in Hs by lia.
    destruct Hs as [a ->]. eauto.
  - destruct (S k <? lo) eqn:?; bools; [lia|]. destruct (f (S k)) eqn:E; [eauto|].
    apply IH. destruct (decide (j = S k)) as [->|]; [|lia].
    rewrite E in Hs. by destruct Hs.
Qed.

Lemma matches_lits u l s caps : matches l s caps -> matches (lits u ++ l) (u +:+ s) caps.
Proof. intros H. induction u as [|c u IH]; [done|]. rewrite s_app_cons. by apply M_lit. Qed.

Lemma regex_match_sound l s caps : regex_match l s = Some caps -> matches l s caps.
Proof.
  revert s caps; induction l as [|[c| |] l IH]; intros s caps H; cbn in H.
  - destruct s; simplify_eq. constructor.
  - destruct s as [|d s]; [done|]. unfold is_char in H. case_bool_decide; simplify_eq.
    constructor. by apply IH.
  - apply try_down_Some in H as (k & Hk & H). apply fmap_Some in H as (caps' & H & ->).
    destruct (span_take not_slash s k ltac:(lia)) as [Ha Hl].
    rewrite <- (s_take_drop k s) at 1. constructor; [|done|by apply IH].
    intros E. rewrite E in Hl. cbn in Hl. lia.
  - apply try_down_Some in H as (k & Hk & H). apply fmap_Some in H as (caps' & H & ->).
    destruct (span_take not_eol s k ltac:(lia)) as [Ha Hl].
    rewrite <- (s_take_drop k s) at 1. constructor; [done|by apply IH].
Qed.

Lemma regex_match_complete l s caps : matches l s caps -> is_Some (regex_match l s).
Proof.
  induction 1 as [|c l s caps H IH|cap l s caps Hne Ha H IH|cap l s caps Ha H IH];
    cbn [regex_match].
  - eauto.
  - unfold is_char. by rewrite bool_decide_eq_true_2.
  - apply (try_down_is_Some _ _ _ (len cap)).
    + split; [destruct cap; cbn; [done|lia]|by apply span_ge].
    + rewrite s_drop_app by done. destruct IH as [? ->]. cbn. eauto.
  - apply (try_down_is_Some _ _ _ (len cap)).
    + split; [lia|by apply span_ge].
    + rewrite s_drop_app by done. destruct IH as [? ->]. cbn. eauto.
Qed.

Lemma matches_captures l s caps : matches l s caps -> length caps = captures l.
Proof. induction 1; cbn; congruence. Qed.

(** A pattern whose parameters are whole path segments, with a catch-all only at
    the end: the shape of every route of the example applications. *)
Fixpoint delimited (l : list rx) : bool :=
  match l with
  | [] => true
  | RLit _ :: l => delimited l
  | RSeg :: l => match l with [] => true | RLit c :: _ => is_char "/" c | _ => false end && delimited l
  | RAny :: l => match l with [] => true | _ => false end
  end.

Lemma seg_split_unique a b s t :
  s_all not_slash a -> s_all not_slash b ->
  a +:+ String "/" s = b +:+ String "/" t -> a = b /\ s = t.
Proof.
  revert b; induction a as [|c a IH]; intros [|d b] Ha Hb H.
  - rewrite !s_app_nil_l in H. by simplify_eq.
  - rewrite s_app_nil_l, s_app_cons in H. simplify_eq.
    apply s_all_cons in Hb as [Hb _]. done.
  - rewrite s_app_nil_l, s_app_cons in H. simplify_eq.
    apply s_all_cons in Ha as [Ha _]. done.
  - rewrite !s_app_cons in H. simplify_eq.
    apply s_all_cons in Ha as [_ Ha]. apply s_all_cons in Hb as [_ Hb].
    destruct (IH b Ha Hb) as [-> ->]; done.
Qed.

Lemma matches_unique l s caps1 caps2 :
  delimited l = true -> matches l s caps1 -> matches l s caps2 -> caps1 = caps2.
Proof.
  intros Hd H1. revert caps2.
  induction H1 as [|c l s caps H IH|cap l s caps Hne Ha H IH|cap l s caps Ha H IH];
    intros caps2 H2.
  - by inversion H2.
  - inversion H2; subst. by apply IH.
  - cbn in Hd. apply andb_true_iff in Hd as [Hh Hd].
    inversion H2 as [| |cap' l' s' caps' Hne' Ha' H' El Es Ec|]; subst.
    destruct l as [|[c| |] l]; try done.
    + inversion H; subst. inversion H'; subst. rewrite !s_app_nil_r in Es. by subst.
    + unfold is_char in Hh. apply bool_decide_eq_true in Hh as <-.
      inversion H; subst. inversion H'; subst.
      apply seg_split_unique in Es as [-> ->]; [|done|done]. f_equal. by apply IH.
  - cbn in Hd. destruct l; [|done].
    inversion H2 as [| | |cap' l' s' caps' Ha' H' El Es Ec]; subst.
    inversion H; subst. inversion H'; subst. rewrite !s_app_nil_r in Es. by subst.
Qed.

Lemma regex_match_delimited l s caps :
  delimited l = true -> matches l s caps -> regex_match l s = Some caps.
Proof.
  intros Hd H. destruct (regex_match_complete _ _ _ H) as [caps' E]. rewrite E. f_equal.
  apply regex_match_sound in E. by eapply matches_unique.
Qed.

(** [prefix{name}]: the path of one segment behind a literal prefix. *)
Lemma regex_match_segment u s : s ≠ "" -> s_all not_slash s -> regex_match (lits u ++ [RSeg]) (u +:+ s) = Some [s].
Proof.
  intros Hs Ha. apply regex_match_delimited.
  - induction u as [|c u IH]; [done|apply IH].
  - apply matches_lits. pose proof (M_seg s [] "" [] Hs Ha M_nil) as E. by rewrite s_app_nil_r in E.
Qed.

Lemma to_string_segment z : to_string z ≠ "" /\ s_all not_slash (to_string z).
Proof.
  split.
  - intros E. pose proof (parse_int_to_string z "" eq_refl) as Hp. by rewrite E in Hp.
  - apply s_all_is_char. by apply to_string_no_chr.
Qed.

(** ** Lookup *)
Section router_facts.
Context {W : Type}.
Implicit Types (r : Route W) (rs : list (Route W)) (m p : string).

Definition path_matches r p : Prop := exists caps, matches (r_pattern r) p caps.

Lemma path_matches_iff r p : path_matches r p <-> is_Some (regex_match (r_pattern r) p).
Proof.
  split; [intros [caps H]; by eapply regex_match_complete|].
  intros [caps H]. exists caps. by apply regex_match_sound.
Qed.

(** The route found is the first registered one for that method and path. *)
Lemma match_routes_spec rs m p :
  match match_routes rs m p with
  | Some (r, params) =>
      exists pre post caps, rs = pre ++ r :: post /\ r_method r = m /\
        matches (r_pattern r) p caps /\ params = bind_params (r_params r) caps /\
        Forall (fun r' => r_method r' ≠ m \/ ~ path_matches r' p) pre
  | None => Forall (fun r' => r_method r' ≠ m \/ ~ path_matches r' p) rs
  end.
Proof.
  assert (Hcons : forall r rs', (r_method r ≠ m \/ ~ path_matches r p) ->
    match match_routes rs' m p with
    | Some (r', params) =>
        exists pre post caps, rs' = pre ++ r' :: post /\ r_method r' = m /\
          matches (r_pattern r') p caps /\ params = bind_params (r_params r') caps /\
          Forall (fun r' => r_method r' ≠ m \/ ~ path_matches r' p) pre
    | None => Forall (fun r' => r_method r' ≠ m \/ ~ path_matches r' p) rs'
    end ->
    match match_routes rs' m p with
    | Some (r', params) =>
        exists pre post caps, r :: rs' = pre ++ r' :: post /\ r_method r' = m /\
          matches (r_pattern r') p caps /\ params = bind_params (r_params r') caps /\
          Forall (fun r' => r_method r' ≠ m \/ ~ path_matches r' p) pre
    | None => Forall (fun r' => r_method r' ≠ m \/ ~ path_matches r' p) (r :: rs')
    end).
  { intros r rs' Hr. destruct (match_routes rs' m p) as [[r' params]|]; [|by constructor].
    intros (pre & post & caps & -> & ?). exists (r :: pre), post, caps.
    split; [done|]. deexist. repeat split; try done. by constructor. }
  induction rs as [|r rs IH]; cbn [match_routes]; [constructor|].
  case_bool_decide as Hm; [by apply Hcons; [left|]|].
  destruct (regex_match (r_pattern r) p) as [caps|] eqn:E.
  - exists [], rs, caps. repeat split; try done.
    by apply regex_match_sound.
  - apply Hcons; [right|done]. rewrite path_matches_iff, E. by intros [? ?].
Qed.

Lemma allowed_loop_spec rs p out :
  NoDup out ->
  NoDup (allowed_loop rs p out) /\
  forall m, m ∈ allowed_loop rs p out <->
    m ∈ out \/ exists r, r ∈ rs /\ r_method r = m /\ path_matches r p.
Proof.
  revert out; induction rs as [|r rs IH]; intros out Hout; cbn [allowed_loop].
  { split; [done|]. intros m. set_solver. }
  destruct (regex_match (r_pattern r) p) as [caps|] eqn:E.
  - assert (Hr : path_matches r p) by (rewrite path_matches_iff, E; eauto).
    case_bool_decide as Hin.
    + destruct (IH out Hout) as [? Hm]. split; [done|]. intros m. rewrite Hm. set_solver.
    + destruct (IH (out ++ [r_method r])) as [? Hm].
      { apply NoDup_app. repeat split; [done| |by apply NoDup_singleton]. set_solver. }
      split; [done|]. intros m. rewrite Hm. set_solver.
  - assert (Hr : ~ path_matches r p) by (rewrite path_matches_iff, E; by intros [? ?]).
    destruct (IH out Hout) as [? Hm]. split; [done|]. intros m. rewrite Hm.
    split; intros [|(r' & Hr' & ?)]; [by left| |by left|];
      right; exists r'; set_solver.
Qed.
End router_facts.

(** Registering a route never fails, whatever characters the URI holds: the
    regular expression [add] builds is well formed and denotes exactly the literal
    characters of the URI with its {name} and {name*} parameters as captures, in
    order. *)
Theorem add_registers {W} m uri (h : Handler W) mw r :
  add m uri h mw r =
  Ok (mkRouter (routes_ r ++ [mkRoute m uri (uri_pattern uri).1 (uri_pattern uri).2 h mw])).
Proof.
  unfold add. destruct (add_pattern_ok uri) as [H1 H2].
  destruct (add_pattern uri) as [text names]. cbn [fst snd] in H1, H2. by rewrite H1, <- H2.
Qed.

(** Matching picks the first registered route with the request's method whose
    pattern describes the whole path, and binds each parameter to the text its
    capture covers; it fails only if no such route exists. *)
Theorem match_request_first {W} (r : Router W) (req : Request) :
  match match_request r req with
  | Some (route, params) =>
      exists pre post caps, routes_ r = pre ++ route :: post /\ r_method route = method req /\
        matches (r_pattern route) (path req) caps /\
        params = bind_params (r_params route) caps /\
        Forall (fun r' => r_method r' ≠ method req \/ ~ path_matches r' (path req)) pre
  | None =>
      Forall (fun r' => r_method r' ≠ method req \/ ~ path_matches r' (path req)) (routes_ r)
  end.
Proof. apply match_routes_spec. Qed.

(** ** What a URI means to its author *)
(** A URI is literal text, parameters [{name}] and catch-alls [{name*}] in sequence.
    None of the definitions of this part mentions a regular expression. *)
Inductive piece : Type :=
  | PLit (t : string)
  | PSeg (name : string)
  | PRest (name : string).

Definition piece_text (x : piece) : string :=
  match x with
  | PLit t => t
  | PSeg n => "{" +:+ n +:+ "}"
  | PRest n => "{" +:+ n +:+ "*}"
  end.
Fixpoint uri_of (ps : list piece) : string :=
  match ps with [] => "" | x :: ps => piece_text x +:+ uri_of ps end.

(** [fills ps p b]: the path [p] is what the URI becomes when its parameters take
    the values of [b], in order. *)
Inductive fills : list piece -> string -> list (string * string) -> Prop :=
  | F_nil : fills [] "" []
  | F_lit t ps p b : fills ps p b -> fills (PLit t :: ps) (t +:+ p) b
  | F_seg n v ps p b :
      v ≠ "" -> "/"%char ∉ chars v -> fills ps p b ->
      fills (PSeg n :: ps) (v +:+ p) ((n, v) :: b)
  | F_rest n v ps p b :
      ascii_of_N 10 ∉ chars v -> ascii_of_N 13 ∉ chars v -> fills ps p b ->
      fills (PRest n :: ps) (v +:+ p) ((n, v) :: b).

(** A name is one or more letters, digits and underscores; a literal holds no open
    brace. *)
Definition name_ok (n : string) : Prop := n ≠ "" /\ s_all is_word n.
Definition piece_ok (x : piece) : Prop :=
  match x with
  | PLit t => "{"%char ∉ chars t
  | PSeg n | PRest n => name_ok n
  end.

(** Parameters are whole segments: one is followed by the end or by a slash, and a
    catch-all is last. *)
Fixpoint whole_segments (ps : list piece) : Prop :=
  match ps with
  | [] => True
  | PLit _ :: ps => whole_segments ps
  | PSeg _ :: ps =>
      match ps with [] => True | PLit (String "/" _) :: _ => True | _ => False end
      /\ whole_segments ps
  | PRest _ :: ps => ps = []
  end.

(** The value of a name is the last one given to it. *)
Definition bound (params : gmap string string) (b : list (string * string)) : Prop :=
  forall n v, params !! n = Some v <->
    exists b1 b2, b = b1 ++ (n, v) :: b2 /\ n ∉ b2.*1.

Definition piece_rx (x : piece) : list rx :=
  match x with PLit t => lits t | PSeg _ => [RSeg] | PRest _ => [RAny] end.
Definition piece_name (x : piece) : list string :=
  match x with PLit _ => [] | PSeg n | PRest n => [n] end.

Lemma span_word n c s : s_all is_word n -> is_word c = false ->
  span is_word (n +:+ String c s) = len n.
Proof.
  intros Hn Hc. induction n as [|d n IH]; [rewrite s_app_nil_l; cbn [span]; by rewrite Hc|].
  apply s_all_cons in Hn as [Hd Hn]. rewrite s_app_cons. cbn [span]. rewrite Hd. cbn. by rewrite IH.
Qed.

Lemma seg_at_param n star rest : name_ok n ->
  seg_at ("{" +:+ n +:+ (if star : bool then "*}" else "}") +:+ rest) = Some (n, star, rest).
Proof.
  intros [Hne Hw].
  assert (E : forall c t, is_word c = false -> seg_at ("{" +:+ n +:+ String c t)
    = match String c t with
      | String "*" (String "}" rest) => Some (n, true, rest)
      | String "}" rest => Some (n, false, rest)
      | _ => None
      end).
  { intros c t Hc. change ("{" +:+ n +:+ String c t) with (String "{" (n +:+ String c t)).
    cbn [seg_at]. rewrite span_word, s_take_app, s_drop_app by done.
    destruct n; [done|]. reflexivity. }
  destruct star; [exact (E "*"%char ("}" +:+ rest) eq_refl)|exact (E "}"%char rest eq_refl)].
Qed.

Lemma uri_tokens_lit fuel t s : "{"%char ∉ chars t -> len (t +:+ s) < fuel ->
  exists fuel', len s < fuel' /\
    uri_tokens fuel (t +:+ s) = (lits t ++ (uri_tokens fuel' s).1, (uri_tokens fuel' s).2).
Proof.
  revert fuel; induction t as [|c t IH]; intros fuel Ht Hf.
  { exists fuel. rewrite s_app_nil_l in *. split; [done|]. by destruct (uri_tokens fuel s). }
  cbn [chars] in Ht. apply not_elem_of_cons in Ht as [Hc Ht].
  rewrite s_app_cons in *. destruct fuel as [|fuel]; [cbn in Hf; lia|].
  destruct (IH fuel Ht ltac:(cbn in Hf; lia)) as (fuel' & Hl & E).
  exists fuel'. split; [done|]. cbn [uri_tokens].
  assert (Hs : seg_at (String c (t +:+ s)) = None).
  { destruct c as [[] [] [] [] [] [] [] []]; try reflexivity. by destruct Hc. }
  rewrite Hs, E. reflexivity.
Qed.

Lemma uri_tokens_of fuel ps : Forall piece_ok ps -> len (uri_of ps) < fuel ->
  uri_tokens fuel (uri_of ps) = (mjoin (piece_rx <$> ps), mjoin (piece_name <$> ps)).
Proof.
  intros H. revert fuel; induction H as [|x ps Hx H IH]; intros fuel Hf.
  { destruct fuel; reflexivity. }
  assert (Hp : forall (star : bool) n, name_ok n ->
    len ("{" +:+ n +:+ (if star then "*}" else "}") +:+ uri_of ps) < fuel ->
    uri_tokens fuel ("{" +:+ n +:+ (if star then "*}" else "}") +:+ uri_of ps)
    = ((if star then RAny else RSeg) :: mjoin (piece_rx <$> ps), n :: mjoin (piece_name <$> ps))).
  { intros star n Hn Hl. destruct fuel as [|fuel]; [lia|]. cbn [uri_tokens].
    pose proof (seg_at_param n star (uri_of ps) Hn) as E. pose proof (seg_at_shorter _ _ _ _ E).
    rewrite E, IH by lia. reflexivity. }
  destruct x as [t|n|n]; cbn [uri_of piece_text] in *; rewrite ?s_app_assoc in *.
  - destruct (uri_tokens_lit fuel t (uri_of ps) Hx Hf) as (fuel' & Hl & ->). by rewrite IH.
  - exact (Hp false n Hx Hf).
  - exact (Hp true n Hx Hf).
Qed.

Lemma uri_pattern_of ps : Forall piece_ok ps ->
  uri_pattern (uri_of ps) = (mjoin (piece_rx <$> ps), mjoin (piece_name <$> ps)).
Proof. intros H. apply uri_tokens_of; [done|lia]. Qed.

Lemma s_all_not_slash v : s_all not_slash v <-> "/"%char ∉ chars v.
Proof.
  induction v as [|c v IH]; [split; [|done]; intros _ H; inversion H|].
  rewrite s_all_cons, IH. cbn [chars]. rewrite not_elem_of_cons.
  unfold not_slash, is_char. split; intros [Hc Hv]; (split; [|done]).
  - bools. congruence.
  - by rewrite bool_decide_eq_false_2 by congruence.
Qed.

Lemma not_eol_iff c : not_eol c = true <-> c ≠ ascii_of_N 10 /\ c ≠ ascii_of_N 13.
Proof.
  destruct c as [[] [] [] [] [] [] [] []]; vm_compute; split; intros; try done;
    repeat match goal with |- _ /\ _ => split | H : _ /\ _ |- _ => destruct H end; try congruence.
Qed.

Lemma s_all_not_eol v :
  s_all not_eol v <-> ascii_of_N 10 ∉ chars v /\ ascii_of_N 13 ∉ chars v.
Proof.
  induction v as [|c v IH].
  { split; [|done]. intros _. split; intros H; inversion H. }
  rewrite s_all_cons, IH, not_eol_iff. cbn [chars]. rewrite !not_elem_of_cons. naive_solver.
Qed.

(** The compiled pattern accepts exactly the paths the URI describes. *)
Lemma matches_fills ps p caps :
  matches (mjoin (piece_rx <$> ps)) p caps <->
  exists b, fills ps p b /\ b.*2 = caps.
Proof.
  split.
  - revert p caps; induction ps as [|[t|n|n] ps IH]; intros p caps H;
      cbn [fmap list_fmap mjoin list_join piece_rx app] in H.
    + inversion H; subst. exists []. by split; [constructor|].
    + revert p H; induction t as [|c t IHt]; intros p H.
      * destruct (IH _ _ H) as (b & Hb & ?). exists b. split; [|done]. exact (F_lit "" _ _ _ Hb).
      * inversion H as [|c' l s' caps' H'| |]; subst. destruct (IHt _ H') as (b & Hb & <-).
        inversion Hb as [|t' ps' q b' Hq| |]; subst. exists b. split; [|done].
        rewrite <- s_app_cons. by constructor.
    + inversion H as [| |v l s' caps' Hv Hs H'|]; subst. destruct (IH _ _ H') as (b & Hb & <-).
      exists ((n, v) :: b). split; [|done]. constructor; [done|by apply s_all_not_slash|done].
    + inversion H as [| | |v l s' caps' Hs H']; subst. destruct (IH _ _ H') as (b & Hb & <-).
      apply s_all_not_eol in Hs as [? ?].
      exists ((n, v) :: b). split; [|done]. by constructor.
  - intros (b & Hb & <-). induction Hb as [|t ps p b Hb IH|n v ps p b ? ? Hb IH|n v ps p b ? ? Hb IH];
      cbn [fmap list_fmap mjoin list_join piece_rx app].
    + constructor.
    + by apply matches_lits.
    + constructor; [done|by apply s_all_not_slash|done].
    + constructor; [by apply s_all_not_eol|done].
Qed.

Lemma fills_names ps p b : fills ps p b -> mjoin (piece_name <$> ps) = b.*1.
Proof.
  induction 1; cbn [fmap list_fmap mjoin list_join piece_name app fst]; [done|done| |];
    f_equal; done.
Qed.

Lemma delimited_lits t l : delimited (lits t ++ l) = delimited l.
Proof. induction t as [|c t IH]; [done|apply IH]. Qed.

Lemma delimited_pieces ps : whole_segments ps -> delimited (mjoin (piece_rx <$> ps)) = true.
Proof.
  induction ps as [|[t|n|n] ps IH]; intros H; cbn [fmap list_fmap mjoin list_join piece_rx app] in *.
  - done.
  - rewrite delimited_lits. by apply IH.
  - destruct H as [Hh H]. specialize (IH H). cbn [delimited].
    apply andb_true_iff. split; [|done].
    destruct ps as [|[t|?|?] ps]; try done. destruct t as [|c t]; [done|].
    by destruct c as [[] [] [] [] [] [] [] []].
  - cbn in H. by subst.
Qed.

Lemma bind_params_bound b : bound (bind_params b.*1 b.*2) b.
Proof.
  unfold bind_params.
  replace (combine b.*1 b.*2) with b
    by (induction b as [|[n v] b IH]; [done|]; cbn; by rewrite <- IH).
  induction b as [|[n v] b IH] using rev_ind.
  { intros n v. split; [done|]. intros (b1 & b2 & E & _). by destruct b1. }
  intros k w. rewrite fold_left_app. cbn [fold_left fst snd]. rewrite lookup_insert_Some. split.
  - intros [[-> ->]|[Hk Hw]].
    + exists b, []. split; [done|]. intros H; inversion H.
    + apply IH in Hw as (b1 & b2 & -> & Hb). exists b1, (b2 ++ [(n, v)]).
      split; [by rewrite <- app_assoc|]. rewrite fmap_app. set_solver.
  - intros (b1 & b2 & E & Hb). destruct b2 as [|x b2 _] using rev_ind.
    + apply app_inj_tail in E as [-> [= -> ->]]. by left.
    + rewrite app_comm_cons, app_assoc in E. apply app_inj_tail in E as [-> <-].
      rewrite fmap_app in Hb. right. split; [set_solver|]. apply IH. exists b1, b2. set_solver.
Qed.

(** A route just added to a table: what [match] answers for a request. *)
Lemma match_routes_snoc {W} (rs : list (Route W)) x m p :
  match_routes (rs ++ [x]) m p =
  match match_routes rs m p with Some y => Some y | None => match_routes [x] m p end.
Proof.
  induction rs as [|r rs IH]; [reflexivity|].
  cbn [app match_routes]. rewrite IH. case_bool_decide; [done|].
  by destruct (regex_match _ _).
Qed.

(** C1: Adding a route for a URI of literal text and whole-segment parameters
    succeeds, leaves every request an earlier route takes to that route, and takes,
    of the others, exactly those of its method whose path is the URI with its
    parameters replaced by values; the handler then gets each value under its name. *)
Theorem match_binds_segments {W} ps m (h : Handler W) mw (r : Router W) :
  Forall piece_ok ps -> whole_segments ps ->
  exists r', add m (uri_of ps) h mw r = Ok r' /\
    forall req,
      (forall x, match_request r req = Some x -> match_request r' req = Some x) /\
      (match_request r req = None ->
         (forall b, method req = m -> fills ps (path req) b ->
            exists route params, match_request r' req = Some (route, params) /\
              r_uri route = uri_of ps /\ r_handler route = h /\ r_middleware route = mw /\
              bound params b) /\
         (forall y, match_request r' req = Some y ->
            method req = m /\ exists b, fills ps (path req) b)).
Proof.
  intros Hps Hw. eexists. split; [apply add_registers|]. intros req.
  unfold match_request. cbn [routes_]. rewrite match_routes_snoc, (uri_pattern_of ps) by done.
  split; [by intros x ->|]. intros ->. cbn [match_routes r_method r_pattern r_params fst snd].
  split.
  - intros b -> Hb. rewrite bool_decide_eq_false_2 by tauto.
    rewrite (regex_match_delimited _ _ b.*2); [|by apply delimited_pieces|].
    + eexists _, _. do 4 (split; [reflexivity|]). rewrite (fills_names _ _ _ Hb).
      apply bind_params_bound.
    + apply matches_fills. by exists b.
  - intros y H. case_bool_decide as Hm; [done|]. split; [by destruct (decide (method req = m))|].
    destruct (regex_match _ _) as [caps|] eqn:E; [|done].
    apply regex_match_sound, matches_fills in E as (b & Hb & _). by exists b.
Qed.

Lemma match_binds_segments_witness :
  let h : Handler unit := fun s => (Ok default_response, s) in
  exists r', add "GET" "/users/{id}/files/{rest*}" h [] (mkRouter []) = Ok r' /\
    exists route params,
      match_request r' (mkRequest "GET" "/users/42/files/a/b" ∅ ∅ "" ∅ ∅ "") = Some (route, params) /\
      params !! "id" = Some "42" /\ params !! "rest" = Some "a/b".
Proof.
  intros h.
  destruct (match_binds_segments
    [PLit "/users/"; PSeg "id"; PLit "/files/"; PRest "rest"] "GET" h [] (mkRouter []))
    as (r' & Hadd & Hreq).
  { repeat constructor; cbn; try discriminate; by_eval. }
  { vm_compute. repeat split. }
  exists r'. split; [exact Hadd|].
  destruct (Hreq (mkRequest "GET" "/users/42/files/a/b" ∅ ∅ "" ∅ ∅ "")) as [_ [Hb _]];
    [reflexivity|].
  destruct (Hb [("id", "42"); ("rest", "a/b")] eq_refl) as (route & params & E & _ & _ & _ & HP).
  { apply (F_lit "/users/"). apply (F_seg "id" "42"); [discriminate|by_eval|].
    apply (F_lit "/files/"). apply (F_rest "rest" "a/b" [] ""); [by_eval|by_eval|constructor]. }
  exists route, params. split; [exact E|]. split.
  - apply HP. exists [], [("rest", "a/b")]. split; [reflexivity|by_eval].
  - apply HP. exists [("id", "42")], []. split; [reflexivity|by_eval].
Defined.
