(* ===== verification/Kernel.v ===== *)
(** * kernel.hpp / kernel.cpp / service_provider.hpp: the request lifecycle

    [handle] matches the request, runs global then route middleware around the
    route handler, answers 404 or 405 when nothing matches, and turns every
    exception into a 500.  The kernel depends on the RouterContract interface, not
    on the concrete router: [RouterOps] is that interface, [router_ops] its
    implementation by Router.v. *)
From S2P Require Import Prelude CppString CppNum Http Pipeline Router.

(** The RouterContract operations the kernel calls. *)
Record RouterOps (W : Type) : Type := mkRouterOps {
  op_match : Request -> option (Route W * gmap string string);
  op_allowed : string -> list string
}.
Arguments mkRouterOps {_} _ _.
Arguments op_match {_} _ _.
Arguments op_allowed {_} _ _.

Definition router_ops {W} (r : Router W) : RouterOps W :=
  mkRouterOps (match_request r) (allowed_methods r).

Section kernel.
Context {W : Type}.

(** A service provider: two phases over the application. *)
Record ServiceProvider : Type := mkProvider {
  register_ : M W unit;
  boot : M W unit
}.

Record Kernel : Type := mkKernel {
  router_ : RouterOps W;
  global_ : list (Middleware W);
  providers_ : list ServiceProvider
}.

Definition new_kernel (r : RouterOps W) : Kernel := mkKernel r [] [].
Definition global_middleware (mw : list (Middleware W)) (k : Kernel) : Kernel :=
  mkKernel (router_ k) mw (providers_ k).

(** A range-for over the providers, left to right. *)
Fixpoint each {A} (f : A -> M W unit) (l : list A) : M W unit :=
  match l with
  | [] => mret tt
  | a :: l => _ ← f a; each f l
  end.
Definition register_providers (ps : list ServiceProvider) (k : Kernel) : M W Kernel :=
  _ ← each register_ ps;
  _ ← each boot ps;
  mret (mkKernel (router_ k) (global_ k) ps).

(** The comma-separated Allow value. *)
Definition allow_value (ms : list string) : string :=
  fold_left (fun allow m => (if bool_decide (allow ≠ "") then allow +:+ ", " else allow) +:+ m)
    ms "".

Definition not_found : Response := response 404 "Not Found".
Definition method_not_allowed (ms : list string) : Response :=
  set_res_header "Allow" (allow_value ms) (response 405 "Method Not Allowed").
Definition internal_error : Response := response 500 "Internal Server Error".

(** The body of the try block. *)
Definition dispatch (k : Kernel) : Handler W :=
  fun s =>
    match op_match (router_ k) s.1 with
    | None =>
        match op_allowed (router_ k) (path s.1) with
        | [] => (Ok not_found, s)
        | ms => (Ok (method_not_allowed ms), s)
        end
    | Some (route, params) =>
        run (through (global_ k ++ r_middleware route) new_pipeline) (r_handler route)
          (set_route_params params s.1, s.2)
    end.
Definition handle_in (k : Kernel) : Handler W :=
  try_catch (dispatch k) (fun _ => mret internal_error).

(** [Response handle(Request req)]: the request is taken by value. *)
Definition handle (k : Kernel) (req : Request) (w : W) : res Response * W :=
  match handle_in k (req, w) with (r, (_, w')) => (r, w') end.
End kernel.
Arguments Kernel : clear implicits.
Arguments ServiceProvider : clear implicits.

Section kernel_facts.
Context {W : Type}.
Implicit Types (k : Kernel W).

Lemma handle_in_total k : total (handle_in k).
Proof. intros s. unfold handle_in. apply try_catch_no_throw. intros e s'. by do 2 eexists. Qed.

Lemma handle_matched k req w route params :
  op_match (router_ k) req = Some (route, params) ->
  handle k req w =
  match run (through (global_ k ++ r_middleware route) new_pipeline) (r_handler route)
          (set_route_params params req, w) with
  | (Ok r, (_, w')) => (Ok r, w')
  | (Throw _, (_, w')) => (Ok internal_error, w')
  end.
Proof.
  intros Hm. unfold handle, handle_in, try_catch, dispatch. cbn [fst snd]. rewrite Hm.
  by destruct (run _ _ _) as [[r|e] [q w']].
Qed.

Lemma handle_unmatched k req w :
  op_match (router_ k) req = None ->
  handle k req w =
    (Ok (match op_allowed (router_ k) (path req) with
         | [] => not_found
         | ms => method_not_allowed ms
         end), w).
Proof.
  intros Hm. unfold handle, handle_in, try_catch, dispatch. cbn [fst snd]. rewrite Hm.
  by destruct (op_allowed _ _).
Qed.
End kernel_facts.

(** [handle] always answers: whatever the handlers and middleware throw, the
    caller receives a response; an exception becomes a fixed 500 whose body does not
    depend on the exception, and the state reached when it was thrown is kept. *)
Theorem handle_contains_exceptions {W} (k : Kernel W) req w :
  (exists resp w', handle k req w = (Ok resp, w')) /\
  (forall e req' w', dispatch k (req, w) = (Throw e, (req', w')) ->
     handle k req w = (Ok (response 500 "Internal Server Error"), w')) /\
  (forall resp req' w', dispatch k (req, w) = (Ok resp, (req', w')) ->
     handle k req w = (Ok resp, w')).
Proof.
  unfold handle, handle_in, try_catch. split; [|split].
  - destruct (dispatch k (req, w)) as [[r|e] [q w']]; eauto.
  - by intros e q w' ->.
  - by intros r q w' ->.
Qed.

(** With no route for the method and path, the answer is 404 when the path is
    unknown under every method, and otherwise 405 whose Allow header lists exactly
    the methods that do have a route for it, each once.  No handler runs. *)
Theorem kernel_unmatched {W} (r : Router W) gl ps req w :
  match_request r req = None ->
  exists ms, NoDup ms /\
    (forall m, m ∈ ms <-> exists x, x ∈ routes_ r /\ r_method x = m /\ path_matches x (path req)) /\
    handle (mkKernel (router_ops r) gl ps) req w =
      (Ok (if bool_decide (ms = []) then not_found else method_not_allowed ms), w).
Proof.
  intros Hm. exists (allowed_methods r (path req)).
  destruct (allowed_loop_spec (routes_ r) (path req) [] ltac:(constructor)) as [Hnd Hin].
  split; [done|]. split.
  - intros m. unfold allowed_methods. rewrite Hin. set_solver.
  - rewrite handle_unmatched by done. cbn [router_ router_ops op_allowed].
    by destruct (allowed_methods r (path req)).
Qed.

Definition demo_route (m uri : string) : Route unit :=
  mkRoute m uri (uri_pattern uri).1 (uri_pattern uri).2 (fun s => (Ok default_response, s)) [].
Definition demo_router : Router unit :=
  mkRouter [demo_route "GET" "/articles"; demo_route "POST" "/articles"; demo_route "GET" "/x/{id}"].

Example handle_405 :
  handle (new_kernel (router_ops demo_router))
    (mkRequest "PUT" "/articles" ∅ ∅ "" ∅ ∅ "") tt
  = (Ok (mkResponse 405 "Method Not Allowed"
           {["Content-Type" := "text/plain"; "Allow" := "GET, POST"]}), tt).
Proof. vm_compute. reflexivity. Qed.

Lemma kernel_unmatched_witness :
  exists ms, NoDup ms /\
    (forall m, m ∈ ms <-> exists x, x ∈ routes_ demo_router /\ r_method x = m /\
       path_matches x "/articles") /\
    handle (mkKernel (router_ops demo_router) [] []) (mkRequest "PUT" "/articles" ∅ ∅ "" ∅ ∅ "") tt
    = (Ok (if bool_decide (ms = []) then not_found else method_not_allowed ms), tt).
Proof.
  apply (kernel_unmatched demo_router [] [] (mkRequest "PUT" "/articles" ∅ ∅ "" ∅ ∅ "") tt).
  vm_compute. reflexivity.
Defined.
