(* ===== verification/Token.v ===== *)
(** * token.hpp: stateless signed tokens

    Claims, their JSON text, the targeted extractors that read it back, HMAC-SHA256
    by hand over a digest, [sign], [verify] and the ability middleware.  SHA-256 is
    OpenSSL's ([EVP_Digest]): it is the parameter [sha256] of the section, and no
    property of it is needed beyond being a function. *)
From S2P Require Import Prelude CppString CppNum Http Pipeline Base64.

Local Open Scope Z_scope.

Record Claims : Type := mkClaims {
  sub : string;
  abilities : list string;
  iat : Z;
  exp : Z   (* 0 = never expires *)
}.

(** [Claims::can]. *)
Fixpoint can (abs : list string) (ability : string) : bool :=
  match abs with
  | [] => false
  | a :: abs => if bool_decide (a = ability) || bool_decide (a = "*") then true else can abs ability
  end.
Definition claims_can (c : Claims) (ability : string) : bool := can (abilities c) ability.

(** ** Encoding primitives *)
Fixpoint resize (n : nat) (s : string) : string :=
  match n with
  | O => ""
  | S n => match s with
           | "" => String (chr 0) (resize n "")
           | String c s' => String c (resize n s')
           end
  end.
Fixpoint xor_pad (p : Z) (s : string) : string :=
  match s with
  | "" => ""
  | String c s' => String (chr (Z.lxor (byte_of c) p)) (xor_pad p s')
  end.

(** [r |= a[i] ^ b[i]] over all positions; the lengths are equal here. *)
Fixpoint diff_bits (r : Z) (a b : string) : Z :=
  match a, b with
  | String c a', String d b' => diff_bits (Z.lor r (Z.lxor (byte_of c) (byte_of d))) a' b'
  | _, _ => r
  end.
Definition constant_time_equal (a b : string) : bool :=
  if negb (len a =? len b)%nat then false else diff_bits 0 a b =? 0.

Definition json_special (c : ascii) : bool := is_char quote c || is_char backslash c.
Fixpoint json_escape (s : string) : string :=
  match s with
  | "" => ""
  | String c s' =>
      if json_special c then String backslash (String c (json_escape s'))
      else String c (json_escape s')
  end.

Definition quoted (s : string) : string := String quote (s +:+ str1 quote).

(** The comma-separated loop over the abilities. *)
Fixpoint abilities_json (first : bool) (l : list string) : string :=
  match l with
  | [] => ""
  | a :: l => (if first then "" else ",") +:+ quoted (json_escape a) +:+ abilities_json false l
  end.

Definition claims_json (c : Claims) : string :=
  "{" +:+ quoted "sub" +:+ ":" +:+ quoted (json_escape (sub c)) +:+ "," +:+ quoted "abilities"
  +:+ ":[" +:+ abilities_json true (abilities c) +:+ "]," +:+ quoted "iat" +:+ ":"
  +:+ to_string (iat c) +:+ "," +:+ quoted "exp" +:+ ":" +:+ to_string (exp c) +:+ "}".

(** ** Extractors *)
(** The string-literal loop: the text up to the closing quote, a backslash taking
    the next character, and the number of characters before that quote. *)
Fixpoint scan_string (s : string) : string * nat :=
  match s with
  | "" => ("", O)
  | String c s1 =>
      if is_char backslash c then
        match s1 with
        | String d s2 => let '(o, n) := scan_string s2 in (String d o, S (S n))
        | "" => (str1 c, 1%nat)
        end
      else if is_char quote c then ("", O)
      else let '(o, n) := scan_string s1 in (String c o, S n)
  end.

Definition extract_string (j key : string) : string :=
  match find_str j (quoted key) 0 with
  | None => ""
  | Some k =>
      match find_chr j ":" k with
      | None => ""
      | Some colon =>
          match find_chr j quote (colon + 1) with
          | None => ""
          | Some q1 => (scan_string (substr_from j (q1 + 1))).1
          end
      end
  end.

Fixpoint skip_blanks (s : string) : string :=
  match s with
  | String c s' => if is_char " " c then skip_blanks s' else s
  | "" => ""
  end.
Fixpoint take_digits (s : string) : string :=
  match s with
  | String c s' => if is_digit c then String c (take_digits s') else ""
  | "" => ""
  end.
(** The sign and digits collected into [num], then [std::stoll]. *)
Definition collect_num (s : string) : string :=
  match skip_blanks s with
  | String c s' =>
      if is_char "-" c || is_char "+" c then String c (take_digits s')
      else take_digits (String c s')
  | "" => ""
  end.
Definition extract_int (j key : string) : Z :=
  match find_str j (quoted key) 0 with
  | None => 0
  | Some k =>
      match find_chr j ":" k with
      | None => 0
      | Some colon =>
          let num := collect_num (substr_from j (colon + 1)) in
          match num with
          | "" => 0
          | _ => match stoll num with Ok n => n | Throw _ => 0 end
          end
      end
  end.

(** [while (i < rb)]: each iteration consumes at least one character. *)
Fixpoint array_loop (fuel : nat) (j : string) (rb i : nat) : list string :=
  match fuel with
  | O => []
  | S fuel =>
      if (i <? rb)%nat then
        match find_chr j quote i with
        | None => []
        | Some q1 =>
            if (rb <=? q1)%nat then []
            else
              let '(s, n) := scan_string (substr_from j (q1 + 1)) in
              s :: array_loop fuel j rb (q1 + 1 + n + 1)
        end
      else []
  end.
Definition extract_string_array (j key : string) : list string :=
  match find_str j (quoted key) 0 with
  | None => []
  | Some k =>
      match find_chr j "[" k with
      | None => []
      | Some lb =>
          match find_chr j "]" lb with
          | None => []
          | Some rb => array_loop (S rb) j rb (lb + 1)
          end
      end
  end.

Definition parse_claims (json : string) : Claims :=
  mkClaims (extract_string json "sub") (extract_string_array json "abilities")
    (extract_int json "iat") (extract_int json "exp").

(** ** Signing *)
Section token.
Variable sha256 : string -> string.

Definition hmac_sha256 (key msg : string) : string :=
  let k := resize 64 (if (64 <? len key)%nat then sha256 key else key) in
  let ipad := xor_pad 0x36 k in
  let opad := xor_pad 0x5c k in
  sha256 (opad +:+ sha256 (ipad +:+ msg)).

Definition sha256_hex (s : string) : string := hex_string (sha256 s).

Definition jwt_header : string :=
  "{" +:+ quoted "alg" +:+ ":" +:+ quoted "HS256" +:+ "," +:+ quoted "typ" +:+ ":"
  +:+ quoted "JWT" +:+ "}".

Definition signing_input (c : Claims) : string :=
  b64url_encode jwt_header +:+ "." +:+ b64url_encode (claims_json c).
Definition signature (secret input : string) : string :=
  b64url_encode (hmac_sha256 secret input).
Definition sign (c : Claims) (secret : string) : string :=
  signing_input c +:+ "." +:+ signature secret (signing_input c).

(** [now = 0] means the wall clock, which is an argument here. *)
Definition verify (token secret : string) (now clock : Z) : option Claims :=
  match find_chr token "." 0 with
  | None => None
  | Some d1 =>
      match find_chr token "." (d1 + 1) with
      | None => None
      | Some d2 =>
          let signing_input := substr token 0 d2 in
          let presented := substr_from token (d2 + 1) in
          if negb (constant_time_equal presented (signature secret signing_input)) then None
          else
            let c := parse_claims (b64url_decode (substr token (d1 + 1) (d2 - d1 - 1))) in
            let now := if now =? 0 then clock else now in
            if negb (exp c =? 0) && (exp c <? now) then None else Some c
      end
  end.

(** RAND_bytes fills the buffer; the bytes are an argument. *)
Definition random_token (rand : string) : string := b64url_encode rand.

Section headers.
Context `{MapOrder string}.

(** The first header, in iteration order, whose name is Authorization up to case. *)
Fixpoint bearer_loop (l : list (string * string)) : string :=
  match l with
  | [] => ""
  | (k, v) :: l =>
      if bool_decide (lower k = "authorization") then
        let prefix := "Bearer " in
        if (len prefix <? len v)%nat && is_prefix prefix v
        then substr_from v (len prefix) else v
      else bearer_loop l
  end.
Definition bearer_token (req : Request) : string := bearer_loop (iter_map (headers req)).

Definition requires_ability {W} (clock : W -> Z) (ability secret : string) : Middleware W :=
  fun next s =>
    match verify (bearer_token s.1) secret 0 (clock s.2) with
    | Some c => if claims_can c ability then next s else (Ok (response 403 "Forbidden"), s)
    | None => (Ok (response 403 "Forbidden"), s)
    end.
End headers.
End token.

(** ** Constant-time comparison is equality *)
Lemma diff_bits_zero r a b :
  len a = len b -> (diff_bits r a b = 0 <-> r = 0 /\ a = b).
Proof.
  revert r b; induction a as [|c a IH]; intros r [|d b] Hl; cbn in Hl; try lia; cbn.
  - tauto.
  - rewrite IH by lia. rewrite Z.lor_eq_0_iff, Z.lxor_eq_0_iff.
    split; [intros [[-> ?%(inj byte_of)] ->]|]; naive_solver.
Qed.

Lemma constant_time_equal_iff a b : constant_time_equal a b = true <-> a = b.
Proof.
  unfold constant_time_equal. destruct (len a =? len b)%nat eqn:E; bools; cbn [negb].
  - rewrite Z.eqb_eq, diff_bits_zero by done. tauto.
  - split; [done|]. by intros ->.
Qed.

(** ** Reading back JSON text *)
Lemma scan_string_escape s t :
  scan_string (json_escape s +:+ String quote t) = (s, len (json_escape s)).
Proof.
  induction s as [|c s IH]; [reflexivity|]. cbn [json_escape].
  destruct (json_special c) eqn:E; rewrite !s_app_cons; cbn [scan_string].
  - change (is_char backslash backslash) with true. cbn [negb]. by rewrite IH.
  - unfold json_special in E. bools. rewrite H, H0, IH. done.
Qed.

Lemma json_escape_no_chr c s : json_special c = false -> no_chr c s -> no_chr c (json_escape s).
Proof.
  intros Hc. induction s as [|d s IH]; [done|]. intros [Hd Hs]%no_chr_cons. cbn [json_escape].
  assert (c ≠ backslash) by (intros ->; vm_compute in Hc; discriminate Hc).
  destruct (json_special d); rewrite !no_chr_cons; auto.
Qed.

(** The member names of the payload are lower-case words. *)
Definition plain_key (key : string) : Prop := key ≠ "" /\ s_all is_lower key.
Definition head_not_lower (t : string) : Prop :=
  match t with String c _ => is_lower c = false | "" => True end.

Lemma clear_other key c t : c ≠ quote -> clear (quoted key) (str1 c) t.
Proof.
  intros Hc. apply clear_cons; [|apply clear_nil]. cbn [is_prefix quoted].
  unfold quoted. cbn [is_prefix]. by rewrite bool_decide_eq_false_2 by done.
Qed.

Lemma is_prefix_quoted key t :
  is_prefix (quoted key) (String quote t) = is_prefix (key +:+ str1 quote) t.
Proof. unfold quoted. cbn [is_prefix]. by rewrite bool_decide_eq_true_2. Qed.

Lemma clear_quote key t :
  plain_key key -> head_not_lower t -> clear (quoted key) (str1 quote) t.
Proof.
  intros [Hne Hk] Ht. apply clear_cons; [|apply clear_nil].
  rewrite s_app_nil_l, is_prefix_quoted. destruct key as [|k key]; [done|].
  apply s_all_cons in Hk as [Hk _]. rewrite s_app_cons.
  destruct t as [|c t]; [done|]. cbn. rewrite bool_decide_eq_false_2; [done|].
  intros ->. cbn in Ht. congruence.
Qed.

Definition ends_with (p s : string) : bool :=
  (len p <=? len s)%nat && bool_decide (s_drop (len s - len p) s = p).

Lemma ends_with_app p y : ends_with p (y +:+ p) = true.
Proof.
  unfold ends_with. rewrite length_s_app. apply andb_true_iff.
  split; [apply Nat.leb_le; lia|]. apply bool_decide_eq_true. apply s_drop_app. lia.
Qed.

Lemma ends_with_cons p c s : ends_with p (String c s) = false -> ends_with p s = false.
Proof.
  intros H. destruct (ends_with p s) eqn:E; [|done]. rewrite <- H. symmetry.
  unfold ends_with in E. bools. apply Nat.leb_le in H0.
  rewrite <- (s_take_drop (len s - len p) s), H1, <- s_app_cons. apply ends_with_app.
Qed.

(** Text whose quoted form would be taken for the member name [key]. *)
Definition masks (key s : string) : bool :=
  bool_decide (s = key) || ends_with (String quote key) s.

Lemma escape_is_key key s t :
  plain_key key ->
  is_prefix (key +:+ str1 quote) (json_escape s +:+ String quote t) = true -> s = key.
Proof.
  intros [_ Hk]. revert s. induction key as [|k key IH]; intros s H.
  - destruct s as [|c s]; [done|]. cbn [json_escape] in H.
    destruct (json_special c) eqn:E; rewrite !s_app_cons, s_app_nil_l in H; cbn in H.
    + apply andb_true_iff in H as [H _]. by apply bool_decide_eq_true in H.
    + apply andb_true_iff in H as [H _]. apply bool_decide_eq_true in H as <-. done.
  - apply s_all_cons in Hk as [Hk1 Hk]. rewrite s_app_cons in H.
    destruct s as [|c s]; cbn [json_escape] in H.
    + rewrite s_app_nil_l in H. cbn in H. apply andb_true_iff in H as [H _].
      apply bool_decide_eq_true in H as ->. done.
    + destruct (json_special c); rewrite !s_app_cons in H; cbn in H;
        apply andb_true_iff in H as [H H']; apply bool_decide_eq_true in H as ->; [done|].
      f_equal. by apply IH.
Qed.

Lemma clear_escape key s t :
  plain_key key -> ends_with (String quote key) s = false ->
  clear (quoted key) (json_escape s) (String quote t).
Proof.
  intros Hk. induction s as [|c s IH]; intros He; [apply clear_nil|].
  pose proof (ends_with_cons _ _ _ He) as He'. cbn [json_escape].
  assert (Hq : c = quote -> is_prefix (quoted key) (String c (json_escape s +:+ String quote t)) = false).
  { intros ->. rewrite is_prefix_quoted.
    destruct (is_prefix _ _) eqn:E; [|done]. apply escape_is_key in E as ->; [|done].
    pose proof (ends_with_app (String quote key) "") as H. rewrite s_app_nil_l in H. congruence. }
  assert (Hc : is_prefix (quoted key) (String c (json_escape s +:+ String quote t)) = false).
  { destruct (decide (c = quote)) as [|Hn]; [by apply Hq|].
    unfold quoted. cbn [is_prefix]. by rewrite bool_decide_eq_false_2 by done. }
  destruct (json_special c).
  - apply clear_cons; [done|]. apply clear_cons; [done|]. by apply IH.
  - apply clear_cons; [done|]. by apply IH.
Qed.

Lemma clear_quoted key s t :
  plain_key key -> masks key s = false -> head_not_lower t ->
  clear (quoted key) (quoted (json_escape s)) t.
Proof.
  intros Hk Hm Ht. apply orb_false_iff in Hm as [Hne He]. apply bool_decide_eq_false in Hne.
  unfold quoted at 2. change (String quote (json_escape s +:+ str1 quote))
    with (str1 quote +:+ (json_escape s +:+ str1 quote)).
  apply clear_app.
  - apply clear_cons; [|apply clear_nil]. rewrite s_app_nil_l, is_prefix_quoted, s_app_assoc.
    destruct (is_prefix _ _) eqn:E; [|done]. exfalso. apply Hne.
    by apply (escape_is_key key s t).
  - apply clear_app; [|by apply clear_quote].
    change (str1 quote +:+ t) with (String quote t). by apply clear_escape.
Qed.

Lemma clear_abilities key first l t :
  plain_key key -> Forall (fun a => masks key a = false) l -> head_not_lower t ->
  clear (quoted key) (abilities_json first l) t.
Proof.
  intros Hk Hl Ht. revert first; induction l as [|a l IH]; intros first; [apply clear_nil|].
  apply Forall_cons in Hl as [Ha Hl]. cbn [abilities_json].
  assert (Hh : head_not_lower (abilities_json false l +:+ t)) by (destruct l; done).
  apply clear_app; [|apply clear_app; [by apply clear_quoted|by apply IH]].
  destruct first; [apply clear_nil|by apply clear_other].
Qed.

(** Literal punctuation between the parts of the payload. *)
Fixpoint no_quote (s : string) : bool :=
  match s with "" => true | String c s => negb (is_char quote c) && no_quote s end.

Lemma clear_punct key s t : no_quote s = true -> clear (quoted key) s t.
Proof.
  induction s as [|c s IH]; intros H; [apply clear_nil|]. cbn in H. bools.
  change (String c s) with (str1 c +:+ s).
  apply clear_app; [|by apply IH]. apply clear_other.
  unfold is_char in H. bools. congruence.
Qed.

Definition lower_key (key : string) : bool :=
  bool_decide (key ≠ "") && bool_decide (s_all is_lower key).
Lemma lower_key_plain key : lower_key key = true -> plain_key key.
Proof. unfold lower_key, plain_key. intros. bools. by split. Qed.

Lemma clear_key key key' t :
  plain_key key -> plain_key key' -> key' ≠ key -> head_not_lower t ->
  clear (quoted key) (quoted key') t.
Proof.
  intros Hk Hk' Hne Ht. assert (E : json_escape key' = key').
  { destruct Hk' as [_ Ha]. clear Hne. induction key' as [|c k IH]; [done|].
    apply s_all_cons in Ha as [Hc Ha]. cbn [json_escape]. rewrite (IH Ha).
    unfold json_special, is_char. rewrite !bool_decide_eq_false_2; [done| |]; by intros <-. }
  rewrite <- E. apply clear_quoted; [done| |done].
  unfold masks. rewrite bool_decide_eq_false_2 by done. cbn [orb].
  destruct Hk' as [_ Ha]. destruct (ends_with (String quote key) key') eqn:He; [|done].
  unfold ends_with in He. bools.
  rewrite <- (s_take_drop (len key' - len (String quote key)) key') in Ha.
  rewrite H0 in Ha. apply s_all_app in Ha as [_ Ha]. by apply s_all_cons in Ha as [? _].
Qed.

(** Normal form of concatenations of literals and variables. *)
Ltac str_norm :=
  unfold quoted, str1;
  repeat first [rewrite s_app_assoc | rewrite s_app_cons | rewrite s_app_nil_l]; reflexivity.

(** ** The extractors on a payload in which the member stands once *)
Lemma extract_string_at key pre s t :
  plain_key key -> clear (quoted key) pre (quoted key +:+ ":" +:+ quoted (json_escape s) +:+ t) ->
  extract_string (pre +:+ quoted key +:+ ":" +:+ quoted (json_escape s) +:+ t) key = s.
Proof.
  intros [_ Hk] Hc. unfold extract_string. rewrite clear_find by done.
  assert (Hcol : no_chr ":" (quoted key)).
  { unfold quoted. apply no_chr_cons. split; [done|]. apply no_chr_app. split.
    - by apply (s_all_no_chr is_lower).
    - by apply no_chr_cons. }
  erewrite (find_chr_at _ ":" _ pre (quoted key)); [|str_norm|done|done].
  erewrite (find_chr_at _ quote _ (pre +:+ quoted key +:+ ":") ""); [|rewrite !s_app_assoc; str_norm| |done].
  - unfold substr_from.
    replace (pre +:+ quoted key +:+ ":" +:+ quoted (json_escape s) +:+ t)
      with ((pre +:+ quoted key +:+ ":" +:+ str1 quote) +:+ json_escape s +:+ String quote t)
      by str_norm.
    rewrite s_drop_app by (rewrite !length_s_app; cbn; lia).
    by rewrite scan_string_escape.
  - rewrite !length_s_app. cbn. lia.
Qed.

Lemma take_digits_all s t :
  s_all is_digit s -> starts_digit t = false -> take_digits (s +:+ t) = s.
Proof.
  intros Hs Ht. induction s as [|c s IH].
  - rewrite s_app_nil_l. destruct t as [|d t]; cbn in *; [done|]. by rewrite Ht.
  - apply s_all_cons in Hs as [Hc Hs]. rewrite s_app_cons. cbn. by rewrite Hc, IH.
Qed.

Lemma collect_num_to_string z t :
  starts_digit t = false -> collect_num (to_string z +:+ t) = to_string z.
Proof.
  intros Ht. unfold to_string, collect_num. destruct (z <? 0) eqn:E; bools.
  - change ("-" +:+ dec (- z)) with (String "-" (dec (- z))). rewrite s_app_cons.
    cbn [skip_blanks]. change (is_char " " "-") with false. cbn [negb].
    change (is_char "-" "-" || _) with true. cbn [negb].
    rewrite take_digits_all; [done|apply dec_all_digits; lia|done].
  - destruct (dec_cons z E) as (c & s & Es & Hc). pose proof (dec_all_digits z E) as Ha.
    rewrite Es in Ha |- *. rewrite s_app_cons. cbn [skip_blanks].
    rewrite digit_not_char by done. rewrite !digit_not_char by done. cbn [orb].
    rewrite <- s_app_cons. by apply take_digits_all.
Qed.

Lemma to_string_cons z : exists c s, to_string z = String c s.
Proof.
  unfold to_string. destruct (z <? 0) eqn:E; bools; [by do 2 eexists|].
  destruct (dec_cons z E) as (c & s & -> & _). eauto.
Qed.

Lemma extract_int_at key pre z t :
  plain_key key -> in_s64 z = true -> starts_digit t = false ->
  clear (quoted key) pre (quoted key +:+ ":" +:+ to_string z +:+ t) ->
  extract_int (pre +:+ quoted key +:+ ":" +:+ to_string z +:+ t) key = z.
Proof.
  intros [_ Hk] Hz Ht Hc. unfold extract_int. rewrite clear_find by done.
  assert (Hcol : no_chr ":" (quoted key)).
  { unfold quoted. apply no_chr_cons. split; [done|]. apply no_chr_app. split.
    - by apply (s_all_no_chr is_lower).
    - by apply no_chr_cons. }
  erewrite (find_chr_at _ ":" _ pre (quoted key)); [|str_norm|done|done].
  unfold substr_from. rewrite <- (s_app_assoc (quoted key)), <- s_app_assoc.
  rewrite s_drop_app by (rewrite !length_s_app; cbn; lia).
  rewrite collect_num_to_string by done.
  pose proof (stoll_to_string z "" Hz ltac:(done)) as Hs. rewrite s_app_nil_r in Hs.
  destruct (to_string_cons z) as (c & s & E). rewrite E in Hs |- *. by rewrite Hs.
Qed.

Lemma abilities_no_chr c first l :
  json_special c = false -> c ≠ ","%char -> Forall (no_chr c) l ->
  no_chr c (abilities_json first l).
Proof.
  intros Hj Hc Hl. revert first; induction l as [|a l IH]; intros first; [done|].
  apply Forall_cons in Hl as [Ha Hl]. cbn [abilities_json]. rewrite !no_chr_app.
  assert (c ≠ quote) by (intros ->; vm_compute in Hj; discriminate Hj).
  split; [by destruct first; [|apply no_chr_cons]|]. split; [|by apply IH].
  unfold quoted. rewrite no_chr_cons, no_chr_app. repeat split; [done| |by apply no_chr_cons].
  by apply json_escape_no_chr.
Qed.

Lemma array_loop_json fuel u first l t :
  (len (abilities_json first l) < fuel)%nat ->
  array_loop fuel (u +:+ abilities_json first l +:+ "]" +:+ t)
    (len u + len (abilities_json first l)) (len u) = l.
Proof.
  revert fuel u first; induction l as [|a l IH]; intros fuel u first Hf.
  - cbn in Hf |- *. destruct fuel as [|fuel]; [lia|]. cbn [array_loop].
    replace (_ <? _)%nat with false by (symmetry; apply Nat.ltb_ge; lia). done.
  - destruct fuel as [|fuel]; [lia|]. cbn [abilities_json] in *.
    set (sep := if first then "" else ",") in *.
    assert (Hsep : no_chr quote sep) by (subst sep; destruct first; by_eval).
    set (tl := abilities_json false l) in *.
    rewrite !length_s_app in Hf. unfold quoted in Hf. cbn [String.length] in Hf.
    rewrite length_s_app in Hf. cbn in Hf. cbn [array_loop].
    replace (_ <? _)%nat with true by (symmetry; apply Nat.ltb_lt; unfold quoted;
      rewrite !length_s_app; cbn; lia).
    erewrite (find_chr_at _ quote _ u sep); [|unfold quoted; rewrite !s_app_assoc; str_norm|done|done].
    replace (_ <=? _)%nat with false by (symmetry; apply Nat.leb_gt; unfold quoted;
      rewrite !length_s_app; cbn; lia).
    unfold substr_from.
    replace (u +:+ (sep +:+ quoted (json_escape a) +:+ tl) +:+ "]" +:+ t)
      with ((u +:+ sep +:+ str1 quote) +:+ json_escape a +:+ String quote (tl +:+ "]" +:+ t))
      by str_norm.
    rewrite s_drop_app by (rewrite !length_s_app; cbn; lia).
    rewrite scan_string_escape. f_equal.
    replace ((u +:+ sep +:+ str1 quote) +:+ json_escape a +:+ String quote (tl +:+ "]" +:+ t))
      with ((u +:+ sep +:+ quoted (json_escape a)) +:+ tl +:+ "]" +:+ t)
      by str_norm.
    replace (len u + len (sep +:+ quoted (json_escape a) +:+ tl))%nat
      with (len (u +:+ sep +:+ quoted (json_escape a)) + len tl)%nat
      by (rewrite !length_s_app; lia).
    replace (len u + len sep + 1 + len (json_escape a) + 1)%nat
      with (len (u +:+ sep +:+ quoted (json_escape a)))
      by (unfold quoted; rewrite !length_s_app; cbn [String.length]; rewrite !length_s_app; cbn; lia).
    apply (IH fuel _ false). subst tl. lia.
Qed.

Lemma extract_array_at key pre l t :
  plain_key key -> Forall (no_chr "]") l ->
  clear (quoted key) pre (quoted key +:+ ":[" +:+ abilities_json true l +:+ "]" +:+ t) ->
  extract_string_array (pre +:+ quoted key +:+ ":[" +:+ abilities_json true l +:+ "]" +:+ t) key = l.
Proof.
  intros [_ Hk] Hl Hc. unfold extract_string_array. rewrite clear_find by done.
  assert (Hb : no_chr "[" (quoted key +:+ ":")).
  { apply no_chr_app. split; [|by_eval]. unfold quoted. apply no_chr_cons. split; [done|].
    apply no_chr_app. split; [by apply (s_all_no_chr is_lower)|by apply no_chr_cons]. }
  set (J := pre +:+ _) in *.
  erewrite (find_chr_at J "[" _ pre (quoted key +:+ ":")); [|subst J; rewrite !s_app_assoc; str_norm|done|done].
  erewrite (find_chr_at J "]" _ (pre +:+ quoted key +:+ ":") ("[" +:+ abilities_json true l));
    [|subst J; rewrite !s_app_assoc; str_norm|rewrite !length_s_app; cbn; lia|].
  - replace (len pre + len (quoted key +:+ ":") + 1)%nat
      with (len (pre +:+ quoted key +:+ ":[")) by (rewrite !length_s_app; cbn; lia).
    replace (len (pre +:+ quoted key +:+ ":") + len ("[" +:+ abilities_json true l))%nat
      with (len (pre +:+ quoted key +:+ ":[") + len (abilities_json true l))%nat
      by (rewrite !length_s_app; cbn; lia).
    replace J with ((pre +:+ quoted key +:+ ":[") +:+ abilities_json true l +:+ "]" +:+ t)
      by (subst J; rewrite !s_app_assoc; done).
    apply array_loop_json. lia.
  - apply no_chr_app. split; [by_eval|]. by apply abilities_no_chr.
Qed.

(** ** The payload read back *)
Definition faithful (c : Claims) : Prop :=
  in_s64 (iat c) = true /\ in_s64 (exp c) = true /\
  Forall (fun key => masks key (sub c) = false /\ Forall (fun a => masks key a = false) (abilities c))
    ["abilities"; "iat"; "exp"] /\
  Forall (no_chr "]") (abilities c).

Lemma no_quote_number z : no_quote (to_string z) = true.
Proof.
  assert (H : forall s, s_all is_digit s -> no_quote s = true).
  { induction s as [|c s IH]; [done|]. intros [Hc Hs]%s_all_cons. cbn.
    rewrite digit_not_char by done. by apply IH. }
  unfold to_string. destruct (z <? 0) eqn:E; bools.
  - change ("-" +:+ dec (- z)) with (String "-" (dec (- z))). cbn [no_quote].
    apply H, dec_all_digits. lia.
  - by apply H, dec_all_digits.
Qed.

#[local] Hint Extern 1 (plain_key _) => apply lower_key_plain; reflexivity : core.

(** What stands before each member of the payload. *)
Definition before_abilities (c : Claims) : string :=
  "{" +:+ quoted "sub" +:+ ":" +:+ quoted (json_escape (sub c)) +:+ ",".
Definition before_iat (c : Claims) : string :=
  before_abilities c +:+ quoted "abilities" +:+ ":[" +:+ abilities_json true (abilities c) +:+ "],".
Definition before_exp (c : Claims) : string :=
  before_iat c +:+ quoted "iat" +:+ ":" +:+ to_string (iat c) +:+ ",".

Lemma clear_before_abilities c key t :
  plain_key key -> key ≠ "sub" -> masks key (sub c) = false ->
  clear (quoted key) (before_abilities c) (String quote t).
Proof.
  intros Hk Hn Hms. unfold before_abilities. apply clear_app; [by apply clear_punct|].
  apply clear_app; [by apply clear_key; auto|]. apply clear_app; [by apply clear_punct|].
  apply clear_app; [by apply clear_quoted|by apply clear_punct].
Qed.

Lemma clear_before_iat c key t :
  plain_key key -> key ≠ "sub" -> key ≠ "abilities" -> masks key (sub c) = false ->
  Forall (fun a => masks key a = false) (abilities c) ->
  clear (quoted key) (before_iat c) (String quote t).
Proof.
  intros Hk Hn Hn' Hms Hma. unfold before_iat. apply clear_app; [by apply clear_before_abilities|].
  apply clear_app; [by apply clear_key; auto|]. apply clear_app; [by apply clear_punct|].
  apply clear_app; [by apply clear_abilities|by apply clear_punct].
Qed.

Lemma clear_before_exp c t :
  masks "exp" (sub c) = false -> Forall (fun a => masks "exp" a = false) (abilities c) ->
  clear (quoted "exp") (before_exp c) (String quote t).
Proof.
  intros Hms Hma. unfold before_exp.
  apply clear_app; [by apply clear_before_iat; auto|].
  apply clear_app; [by apply clear_key; auto|]. apply clear_app; [by apply clear_punct|].
  apply clear_app; [apply clear_punct, no_quote_number|by apply clear_punct].
Qed.

Lemma parse_claims_json c : faithful c -> parse_claims (claims_json c) = c.
Proof.
  intros (Hi & He & Hm & Hb).
  apply Forall_cons in Hm as [[Ms1 Ma1] Hm]. apply Forall_cons in Hm as [[Ms2 Ma2] Hm].
  apply Forall_cons in Hm as [[Ms3 Ma3] _].
  transitivity (mkClaims (sub c) (abilities c) (iat c) (exp c)); [|by destruct c].
  unfold parse_claims. f_equal.
  - replace (claims_json c) with ("{" +:+ quoted "sub" +:+ ":" +:+ quoted (json_escape (sub c)) +:+
      ("," +:+ quoted "abilities" +:+ ":[" +:+ abilities_json true (abilities c) +:+ "]," +:+
       quoted "iat" +:+ ":" +:+ to_string (iat c) +:+ "," +:+ quoted "exp" +:+ ":" +:+
       to_string (exp c) +:+ "}")) by (unfold claims_json; str_norm).
    apply extract_string_at; [auto|by apply clear_punct].
  - replace (claims_json c) with (before_abilities c +:+ quoted "abilities" +:+ ":[" +:+
      abilities_json true (abilities c) +:+ "]" +:+ ("," +:+ quoted "iat" +:+ ":" +:+
      to_string (iat c) +:+ "," +:+ quoted "exp" +:+ ":" +:+ to_string (exp c) +:+ "}"))
      by (unfold claims_json, before_abilities; str_norm).
    apply extract_array_at; [auto|done|].
    unfold quoted at 2. rewrite s_app_cons. by apply clear_before_abilities; auto.
  - replace (claims_json c) with (before_iat c +:+ quoted "iat" +:+ ":" +:+ to_string (iat c)
      +:+ ("," +:+ quoted "exp" +:+ ":" +:+ to_string (exp c) +:+ "}"))
      by (unfold claims_json, before_iat, before_abilities; str_norm).
    apply extract_int_at; [auto|done|done|].
    unfold quoted at 2. rewrite s_app_cons. by apply clear_before_iat; auto.
  - replace (claims_json c) with (before_exp c +:+ quoted "exp" +:+ ":" +:+ to_string (exp c) +:+ "}")
      by (unfold claims_json, before_exp, before_iat, before_abilities; str_norm).
    apply extract_int_at; [auto|done|done|].
    unfold quoted at 2. rewrite s_app_cons. by apply clear_before_exp.
Qed.

(** Digits and the base64url alphabet never contain a dot. *)
Section sign_verify.
Variable sha256 : string -> string.

Lemma verify_split token secret now clock h p m :
  token = h +:+ "." +:+ p +:+ "." +:+ m -> no_chr "." h -> no_chr "." p ->
  verify sha256 token secret now clock =
    if bool_decide (m = signature sha256 secret (h +:+ "." +:+ p)) then
      let c := parse_claims (b64url_decode p) in
      let now := if now =? 0 then clock else now in
      if negb (exp c =? 0) && (exp c <? now) then None else Some c
    else None.
Proof.
  intros -> Hh Hp. unfold verify.
  erewrite (find_chr_at _ "." 0 "" h); [|str_norm|done|done].
  erewrite (find_chr_at _ "." _ (h +:+ ".") p);
    [|str_norm|rewrite !length_s_app; cbn; lia|done].
  cbn [String.length Nat.add].
  replace (substr _ 0 _) with (h +:+ "." +:+ p).
  2:{ unfold substr. cbn [s_drop]. rewrite !s_app_cons, !s_app_nil_l.
      replace (h +:+ String "." (p +:+ String "." m)) with ((h +:+ "." +:+ p) +:+ String "." m) by str_norm.
      rewrite s_take_app by (rewrite !length_s_app; cbn; lia). str_norm. }
  replace (substr_from _ _) with m.
  2:{ unfold substr_from. replace (h +:+ "." +:+ p +:+ "." +:+ m) with (((h +:+ ".") +:+ p +:+ ".") +:+ m) by str_norm.
      rewrite s_drop_app; [done|]. rewrite !length_s_app; cbn; lia. }
  replace (substr _ (len h + 1) _) with p.
  2:{ unfold substr. replace (h +:+ "." +:+ p +:+ "." +:+ m) with ((h +:+ ".") +:+ p +:+ "." +:+ m) by str_norm.
      rewrite s_drop_app by (rewrite !length_s_app; cbn; lia).
      rewrite s_take_app; [done|]. rewrite !length_s_app; cbn; lia. }
  destruct (constant_time_equal m _) eqn:E.
  - apply constant_time_equal_iff in E. by rewrite bool_decide_eq_true_2.
  - rewrite bool_decide_eq_false_2; [done|]. intros H. apply constant_time_equal_iff in H. congruence.
Qed.
End sign_verify.

(** C9: [verify] accepts exactly the tokens of three dot-separated parts whose third
    part is the HMAC of the first two under the secret and whose claims have not
    expired; the claims returned are those read back from the second part.  A claim
    [exp = 0] never expires, and [now = 0] stands for the wall clock. *)
Theorem verify_accepts_iff (sha256 : string -> string) (token secret : string)
    (now clock : Z) (c : Claims) :
  verify sha256 token secret now clock = Some c <->
  exists h p, no_chr "." h /\ no_chr "." p /\
    token = h +:+ "." +:+ p +:+ "." +:+ signature sha256 secret (h +:+ "." +:+ p) /\
    c = parse_claims (b64url_decode p) /\
    (exp c = 0 \/ (if now =? 0 then clock else now) <= exp c).
Proof.
  split.
  - intros H.
    destruct (find_chr token "." 0) as [d1|] eqn:E1; [|by unfold verify in H; rewrite E1 in H].
    destruct (find_chr token "." (d1 + 1)) as [d2|] eqn:E2;
      [|by unfold verify in H; rewrite E1, E2 in H].
    apply find_chr_split in E1 as (Hd1 & E1 & N1). apply find_chr_split in E2 as (Hd2 & E2 & N2).
    rewrite s_drop_0, Nat.sub_0_r in *.
    rewrite (Nat.add_comm d1 1) in E2, N2. cbn [Nat.add] in E2, N2. rewrite E2 in E1.
    set (h := substr token 0 d1) in *. set (p := substr token (S d1) _) in *.
    assert (E : token = h +:+ "." +:+ p +:+ "." +:+ s_drop (S d2) token)
      by (rewrite E1 at 1; str_norm).
    rewrite (verify_split _ _ _ _ _ _ _ _ E) in H by done.
    destruct (bool_decide _) eqn:Eb in H; [|done]. bools. cbn zeta in H.
    destruct (negb (exp _ =? 0) && _) eqn:Ex in H; [done|]. injection H as <-.
    exists h, p. rewrite <- Eb. repeat split; [done|done|done|].
    apply andb_false_iff in Ex as [Ex|Ex]; bools; [by left|by right].
  - intros (h & p & Hh & Hp & -> & -> & Hx).
    rewrite (verify_split _ _ _ _ _ _ _ _ eq_refl) by done.
    rewrite bool_decide_eq_true_2 by done. cbn zeta.
    replace (negb _ && _) with false; [done|]. symmetry. apply andb_false_iff.
    destruct Hx as [->|Hx]; [by left|right]. apply Z.ltb_ge. lia.
Qed.

Lemma verify_signed sha256 c secret now clock :
  verify sha256 (sign sha256 c secret) secret now clock =
    let c := parse_claims (claims_json c) in
    if negb (exp c =? 0) && (exp c <? (if now =? 0 then clock else now)) then None else Some c.
Proof.
  erewrite (verify_split _ _ _ _ _ (b64url_encode jwt_header) (b64url_encode (claims_json c)));
    [|unfold sign, signing_input; str_norm|apply b64url_no_dot|apply b64url_no_dot].
  rewrite bool_decide_eq_true_2 by (by unfold signing_input).
  by rewrite b64url_roundtrip.
Qed.

(** C10: A token signed for claims whose text cannot be confused with the member names of
    the payload verifies under the same secret, returns exactly those claims until
    they expire, and is refused from the second after [exp] on. *)
Theorem verify_sign (sha256 : string -> string) (c : Claims) (secret : string) (now clock : Z)
    (Hc : faithful c) :
  verify sha256 (sign sha256 c secret) secret now clock =
    if negb (exp c =? 0) && (exp c <? (if now =? 0 then clock else now)) then None else Some c.
Proof. rewrite verify_signed. cbn zeta. by rewrite parse_claims_json. Qed.

Lemma verify_sign_witness :
  let c := mkClaims "1" ["post:read"; "*"] 1700000000 1700003600 in
  let sha256 := fun s => s_take 32 (s +:+ "0123456789abcdef0123456789abcdef") in
  verify sha256 (sign sha256 c "secret") "secret" 1700003600 0 = Some c /\
  verify sha256 (sign sha256 c "secret") "secret" 0 1700003601 = None.
Proof.
  cbn zeta. split.
  - refine (verify_sign _ (mkClaims "1" ["post:read"; "*"] 1700000000 1700003600) _ _ _ _).
    repeat split; repeat (apply Forall_cons; split); try apply Forall_nil; by_eval.
  - refine (verify_sign _ (mkClaims "1" ["post:read"; "*"] 1700000000 1700003600) _ _ _ _).
    repeat split; repeat (apply Forall_cons; split); try apply Forall_nil; by_eval.
Defined.

Lemma extract_int_shadowed pre mid t key :
  plain_key key -> clear (quoted key) pre (quoted key +:+ mid +:+ ":[" +:+ t) ->
  no_chr ":" mid ->
  extract_int (pre +:+ quoted key +:+ mid +:+ ":[" +:+ t) key = 0.
Proof.
  intros [_ Hk] Hc Hm. unfold extract_int. rewrite clear_find by done.
  assert (Hcol : no_chr ":" (quoted key +:+ mid)).
  { apply no_chr_app. split; [|done]. unfold quoted. apply no_chr_cons. split; [done|].
    apply no_chr_app. split; [by apply (s_all_no_chr is_lower)|by apply no_chr_cons]. }
  erewrite (find_chr_at _ ":" _ pre (quoted key +:+ mid)); [|str_norm|done|done].
  unfold substr_from.
  replace (pre +:+ quoted key +:+ mid +:+ ":[" +:+ t)
    with ((pre +:+ (quoted key +:+ mid) +:+ ":") +:+ String "[" t) by str_norm.
  rewrite s_drop_app by (rewrite !length_s_app; cbn [String.length]; lia). reflexivity.
Qed.

(** The extractors take the first occurrence of a quoted member name, whatever it
    stands for: a token issued for the subject [exp] verifies forever, whatever
    expiry it was issued with. *)
Theorem subject_exp_never_expires (sha256 : string -> string) (abs : list string)
    (i e : Z) (secret : string) (now clock : Z) :
  exists c, verify sha256 (sign sha256 (mkClaims "exp" abs i e) secret) secret now clock = Some c
    /\ exp c = 0.
Proof.
  rewrite verify_signed. cbn zeta.
  assert (E : exp (parse_claims (claims_json (mkClaims "exp" abs i e))) = 0).
  { unfold parse_claims. cbn [exp].
    replace (claims_json _) with (("{" +:+ quoted "sub" +:+ ":") +:+ quoted "exp" +:+
      ("," +:+ quoted "abilities") +:+ ":[" +:+ abilities_json true abs +:+ "]," +:+
      quoted "iat" +:+ ":" +:+ to_string i +:+ "," +:+ quoted "exp" +:+ ":" +:+ to_string e +:+ "}")
      by (unfold claims_json; cbn [sub abilities iat exp];
          change (json_escape "exp") with "exp"; str_norm).
    apply extract_int_shadowed; [auto| |by_eval].
    apply clear_app; [by apply clear_punct|].
    apply clear_app; [by apply clear_key; auto|by apply clear_punct]. }
  rewrite E. by eexists.
Qed.

(** The comparison of signatures is equality of strings, for operands of any length. *)
Theorem constant_time_equal_spec (a b : string) :
  constant_time_equal a b = bool_decide (a = b).
Proof.
  destruct (constant_time_equal a b) eqn:E; symmetry.
  - by apply bool_decide_eq_true, constant_time_equal_iff.
  - apply bool_decide_eq_false. intros H. apply constant_time_equal_iff in H. congruence.
Qed.

(** Base64url decoding inverts base64url encoding on every byte string. *)
Theorem b64url_decode_encode (s : string) :
  b64url_decode (b64url_encode s) = s /\ no_chr "." (b64url_encode s).
Proof. split; [apply b64url_roundtrip|apply b64url_no_dot]. Qed.
