(* ===== verification/HttpServer.v ===== *)
(** * http_server.hpp / http_server.cpp: the HTTP/1.1 front end

    The request parser, the response printer, the bounded reader and one
    connection from accept to close.  A socket is a script of what [recv] and
    [send] return and a log of what the server did with it; the kernel behind the
    server is any computation from a request to a response, so the theorems on
    [handle_client] hold for every KernelContract implementation.  Sizes of the
    wire protocol are [Z], size_t additions wrap at 64 bits. *)
From S2P Require Import Prelude CppString CppNum Http Pipeline Kernel.

Local Open Scope Z_scope.

Definition crlf : string := String (chr 13) (String (chr 10) "").
Definition crlf2 : string := crlf +:+ crlf.

Definition reason_phrase (status : Z) : string :=
  if status =? 200 then "OK"
  else if status =? 201 then "Created"
  else if status =? 206 then "Partial Content"
  else if status =? 301 then "Moved Permanently"
  else if status =? 302 then "Found"
  else if status =? 304 then "Not Modified"
  else if status =? 400 then "Bad Request"
  else if status =? 401 then "Unauthorized"
  else if status =? 403 then "Forbidden"
  else if status =? 404 then "Not Found"
  else if status =? 405 then "Method Not Allowed"
  else if status =? 411 then "Length Required"
  else if status =? 413 then "Payload Too Large"
  else if status =? 416 then "Range Not Satisfiable"
  else if status =? 422 then "Unprocessable Entity"
  else if status =? 431 then "Request Header Fields Too Large"
  else if status =? 500 then "Internal Server Error"
  else "OK".

Definition blank (c : ascii) : bool := is_char " " c || is_char (chr 9) c.
Definition trim : string -> string := trim_set blank.

(** The text from [pos] up to the next line end, or to the end. *)
Definition line_at (s : string) (pos : nat) : string :=
  match find_str s crlf pos with
  | None => substr_from s pos
  | Some eol => substr s pos (eol - pos)
  end.

Definition header_value (head name_lower : string) : option string :=
  let needle := crlf +:+ name_lower +:+ ":" in
  match find_str (lower head) needle 0 with
  | None => None
  | Some pos => Some (trim (line_at head (pos + len needle)))
  end.

(** The value is all digits; [strtoull] sets errno exactly when it exceeds
    ULLONG_MAX. *)
Definition parse_content_length (head : string) : option Z :=
  match header_value head "content-length" with
  | None => None
  | Some v =>
      if bool_decide (v = "") then None
      else if negb (forallb is_digit (chars v)) then None
      else let n := read_digits 0 v in
           if 2 ^ 64 <=? n then None else Some n
  end.

Definition has_chunked_body (head : string) : bool :=
  match header_value head "transfer-encoding" with
  | None => false
  | Some v => contains (lower v) "chunked"
  end.

(** ** parse_http_request *)
Definition add_header (line : string) (hs : gmap string string) : gmap string string :=
  match find_chr line ":" 0 with
  | None => hs
  | Some colon => <[trim (substr line 0 colon) := trim (substr_from line (colon + 1))]> hs
  end.

(** [while (pos < head.size())]: each iteration moves past a line end. *)
Fixpoint header_loop (fuel : nat) (head : string) (pos : nat) (hs : gmap string string)
    : gmap string string :=
  match fuel with
  | O => hs
  | S fuel =>
      if (pos <? len head)%nat then
        let hs := add_header (line_at head pos) hs in
        match find_str head crlf pos with
        | None => hs
        | Some nl => header_loop fuel head (nl + 2) hs
        end
      else hs
  end.

Definition parse_http_request (raw : string) : option Request :=
  let header_end := find_str raw crlf2 0 in
  let head := match header_end with None => raw | Some e => substr raw 0 e end in
  let body := match header_end with None => "" | Some e => substr_from raw (e + 4) end in
  let line_end := find_str head crlf 0 in
  let request_line := match line_end with None => head | Some e => substr head 0 e end in
  match find_chr request_line " " 0 with
  | None => None
  | Some sp1 =>
      match find_chr request_line " " (sp1 + 1) with
      | None => None
      | Some sp2 =>
          let target := substr request_line (sp1 + 1) (sp2 - sp1 - 1) in
          let qmark := find_chr target "?" 0 in
          let path := match qmark with None => target | Some q => substr target 0 q end in
          let query := match qmark with
                       | None => ∅
                       | Some q => parse_pairs (substr_from target (q + 1)) "&" true
                       end in
          let pos := match line_end with None => len head | Some e => (e + 2)%nat end in
          Some (mkRequest (substr request_line 0 sp1) path ∅
                  (header_loop (S (len head)) head pos ∅) body ∅ query "")
      end
  end.

(** ** format_http_response *)
Section format.
Context `{MapOrder string}.

Definition header_lines (l : list (string * string)) : string :=
  fold_left (fun out h => out +:+ h.1 +:+ ": " +:+ h.2 +:+ crlf) l "".
Definition format_http_response (res : Response) : string :=
  "HTTP/1.1 " +:+ to_string (status res) +:+ " " +:+ reason_phrase (status res) +:+ crlf
  +:+ header_lines (iter_map (res_headers res))
  +:+ "Content-Length: " +:+ to_string (size (res_body res)) +:+ crlf
  +:+ "Connection: close" +:+ crlf +:+ crlf +:+ res_body res.
End format.

(** ** Reading a request *)
Record Limits : Type := mkLimits {
  max_header_bytes : Z;
  max_body_bytes : Z;
  read_timeout_seconds : Z
}.
Definition default_limits : Limits := mkLimits (64 * 1024) (16 * 1024 * 1024) 30.

Inductive ReadStatus : Type :=
  | ROk | RClosed | RHeaderTooLarge | RBodyTooLarge | RLengthRequired.

(** What is known once the header block has been seen. *)
Record Headers : Type := mkHeaders { header_end : nat; content_length : Z }.

(** The header half of an iteration: [None] is [continue]. *)
Definition read_headers (limits : Limits) (data : string) : option (ReadStatus + Headers) :=
  match find_str data crlf2 0 with
  | None => if max_header_bytes limits <? size data then Some (inl RHeaderTooLarge) else None
  | Some pos =>
      let head := substr data 0 pos in
      if max_header_bytes limits <? size head then Some (inl RHeaderTooLarge)
      else if has_chunked_body head then Some (inl RLengthRequired)
      else
        let cl := default 0 (parse_content_length head) in
        if max_body_bytes limits <? cl then Some (inl RBodyTooLarge)
        else Some (inr (mkHeaders (pos + 4) cl))
  end.

(** [recv] returns the chunks of the list in turn; the end of the list and an
    empty chunk are its [n <= 0].  The result keeps what was left unread. *)
Fixpoint read_request (limits : Limits) (recvs : list string) (data : string)
    (have : option Headers) : ReadStatus * string * list string :=
  match recvs with
  | [] => (RClosed, data, [])
  | "" :: recvs => (RClosed, data, recvs)
  | chunk :: recvs =>
      let data := data +:+ chunk in
      match (match have with Some h => Some (inr h) | None => read_headers limits data end) with
      | None => read_request limits recvs data None
      | Some (inl st) => (st, data, recvs)
      | Some (inr h) =>
          if u64 (Z.of_nat (header_end h) + content_length h) <=? size data
          then (ROk, data, recvs)
          else read_request limits recvs data (Some h)
      end
  end.

(** ** The upgrade test *)
Section upgrade.
Context `{MapOrder string}.

Definition upgrade_scan (l : list (string * string)) : option string * option string :=
  fold_left (fun '(up, conn) '(k, v) =>
    let name := lower k in
    if bool_decide (name = "upgrade") then (Some v, conn)
    else if bool_decide (name = "connection") then (up, Some v)
    else (up, conn)) l (None, None).
Definition is_websocket_upgrade (req : Request) : bool :=
  match upgrade_scan (iter_map (headers req)) with
  | (Some upgrade, Some connection) =>
      contains (lower upgrade) "websocket" && contains (lower connection) "upgrade"
  | _ => false
  end.
End upgrade.

(** ** One connection *)
Inductive SockEvent : Type :=
  | SetTimeout (seconds : Z)
  | Sent (bytes : string)
  | HandOver (path : string)
  | Closed.

(** [recvs] and [sends] script the results of [recv] and [send]. *)
Record Sock : Type := mkSock {
  recvs : list string;
  sends : list Z;
  log : list SockEvent
}.
Definition emit (e : SockEvent) (s : Sock) : Sock := mkSock (recvs s) (sends s) (log s ++ [e]).

(** [send_all]: [send] accepts at most what it is given; a result [<= 0] ends the
    loop.  Returns the bytes that left and the results not consumed. *)
Fixpoint send_all (sends : list Z) (out : string) : string * list Z :=
  match out with
  | "" => ("", sends)
  | _ =>
      match sends with
      | [] => ("", [])
      | n :: sends =>
          if n <=? 0 then ("", sends)
          else let k := Nat.min (Z.to_nat n) (len out) in
               let '(sent, rest) := send_all sends (s_drop k out) in
               (s_take k out +:+ sent, rest)
      end
  end.
Definition send_on (out : string) (s : Sock) : Sock :=
  let '(sent, rest) := send_all (sends s) out in mkSock (recvs s) rest (log s ++ [Sent sent]).

Section server.
Context {W : Type} `{MapOrder string}.

Record HttpServer : Type := mkHttpServer {
  kernel_ : Request -> M W Response;
  limits_ : Limits;
  ws_handlers_ : gmap string (Request -> W -> W)
}.
Definition new_http_server (k : Request -> M W Response) : HttpServer :=
  mkHttpServer k default_limits ∅.
Definition set_limits (l : Limits) (srv : HttpServer) : HttpServer :=
  mkHttpServer (kernel_ srv) l (ws_handlers_ srv).
Definition on_websocket (p : string) (h : Request -> W -> W) (srv : HttpServer) : HttpServer :=
  mkHttpServer (kernel_ srv) (limits_ srv) (<[p := h]> (ws_handlers_ srv)).

Definition reply (res : Response) (s : Sock) : Sock :=
  emit Closed (send_on (format_http_response res) s).

(** [try { res = kernel_->handle( *req); } catch ...]. *)
Definition guarded (srv : HttpServer) (req : Request) : M W Response :=
  try_catch (kernel_ srv req) (fun _ => mret internal_error).

(** The tail of [handle_client]: dispatch, send, close. *)
Definition respond (srv : HttpServer) (req : option Request) (s : Sock) (w : W) : Sock * W :=
  match req with
  | None => (reply (response 400 "Bad Request") s, w)
  | Some req =>
      match guarded srv req w with
      | (Ok res, w') => (reply res s, w')
      | (Throw _, w') => (s, w')
      end
  end.

Definition handle_client (srv : HttpServer) (remote : string) (s : Sock) (w : W) : Sock * W :=
  let timed := 0 <? read_timeout_seconds (limits_ srv) in
  let s := if timed then emit (SetTimeout (read_timeout_seconds (limits_ srv))) s else s in
  match read_request (limits_ srv) (recvs s) "" None with
  | (st, data, rest) =>
      let s := mkSock rest (sends s) (log s) in
      match st with
      | RClosed => (emit Closed s, w)
      | RHeaderTooLarge => (reply (response 431 "Request Header Fields Too Large") s, w)
      | RBodyTooLarge => (reply (response 413 "Payload Too Large") s, w)
      | RLengthRequired => (reply (response 411 "Length Required") s, w)
      | ROk =>
          let req := set_remote_addr remote <$> parse_http_request data in
          match req with
          | Some r =>
              if is_websocket_upgrade r then
                match ws_handlers_ srv !! path r with
                | Some h =>
                    let s := if timed then emit (SetTimeout 0) s else s in
                    (emit (HandOver (path r)) s, h r w)
                | None => respond srv req s w
                end
              else respond srv req s w
          | None => respond srv req s w
          end
      end
  end.

(** [accept_loop]: what each turn of the loop observes, [running_] and then the
    result of [accept]: a connection with its peer address, or a failure with
    the value of [running_] read after it. *)
Inductive Accept : Type :=
  | NotRunning
  | Failed (still_running : bool)
  | Accepted (remote : string) (s : Sock).

Fixpoint accept_loop (srv : HttpServer) (turns : list Accept) (w : W) : list Sock * W :=
  match turns with
  | [] => ([], w)
  | NotRunning :: _ => ([], w)
  | Failed running :: turns => if running then accept_loop srv turns w else ([], w)
  | Accepted remote s :: turns =>
      let '(s', w') := handle_client srv remote s w in
      let '(done, w'') := accept_loop srv turns w' in (s' :: done, w'')
  end.
End server.
Arguments HttpServer : clear implicits.

(** ** Reading: soundness and independence from the chunking *)
Lemma find_str_0 s p : find_str s p 0 = find0 p s.
Proof.
  unfold find_str. rewrite s_drop_0. cbn. by destruct (find0 p s).
Qed.

Lemma find_crlf2_split s k :
  find_str s crlf2 0 = Some k -> s = substr s 0 k +:+ crlf2 +:+ s_drop (k + 4) s /\ len (substr s 0 k) = k.
Proof.
  rewrite find_str_0. intros (Hl & E & _)%find0_Some. unfold substr. rewrite s_drop_0.
  split; [exact E|]. rewrite length_s_take. cbn in Hl. lia.
Qed.

(** What an accepted header block satisfies. *)
Definition acceptable (limits : Limits) (head : string) : Prop :=
  size head <= max_header_bytes limits /\ has_chunked_body head = false /\
  default 0 (parse_content_length head) <= max_body_bytes limits.

Lemma read_headers_Some limits data h :
  read_headers limits data = Some (inr h) ->
  exists k, find_str data crlf2 0 = Some k /\ acceptable limits (substr data 0 k) /\
    h = mkHeaders (k + 4) (default 0 (parse_content_length (substr data 0 k))).
Proof.
  unfold read_headers. destruct (find_str data crlf2 0) as [k|]; [|by case_goal].
  intros H. destruct (_ <? _) eqn:E1 in H; [done|].
  destruct (has_chunked_body _) eqn:E2 in H; [done|].
  destruct (_ <? _) eqn:E3 in H; [done|]. injection H as <-. bools.
  exists k. split; [done|]. split; [|done]. by split_and!.
Qed.

Definition headers_of (limits : Limits) (data : string) (have : option Headers) : Prop :=
  match have with
  | None => True
  | Some h => exists k, find_str data crlf2 0 = Some k /\ acceptable limits (substr data 0 k) /\
      h = mkHeaders (k + 4) (default 0 (parse_content_length (substr data 0 k)))
  end.

Lemma headers_of_app limits data c have :
  headers_of limits data have -> headers_of limits (data +:+ c) have.
Proof.
  destruct have as [h|]; [|done]. intros (k & Hk & Ha & ->). exists k.
  assert (E : substr (data +:+ c) 0 k = substr data 0 k).
  { unfold substr. rewrite !s_drop_0. apply s_take_app_le.
    apply find_str_bound in Hk. lia. }
  rewrite E. split; [by apply find_str_app_mono|done].
Qed.

Lemma read_request_sound limits recvs data have data' rest :
  headers_of limits data have -> read_request limits recvs data have = (ROk, data', rest) ->
  exists used k, recvs = used ++ rest /\ data' = data +:+ s_concat used /\
    find_str data' crlf2 0 = Some k /\ acceptable limits (substr data' 0 k) /\
    u64 (Z.of_nat (k + 4) + default 0 (parse_content_length (substr data' 0 k))) <= size data'.
Proof.
  revert data have; induction recvs as [|c recvs IH]; intros data have Hh H; [done|].
  cbn [read_request] in H. destruct c as [|x c]; [done|]. set (chunk := String x c) in *.
  apply (headers_of_app _ _ chunk) in Hh.
  destruct (match have with Some h => Some (inr h) | None => _ end) as [[st|h]|] eqn:E.
  - destruct have; [done|]. injection H as -> <- <-.
    unfold read_headers in E. by repeat case_match.
  - assert (Hh' : headers_of limits (data +:+ chunk) (Some h)).
    { destruct have as [h'|]; [by injection E as ->|]. by apply read_headers_Some. }
    destruct (u64 _ <=? _) eqn:Eu.
    + injection H as <- <-. destruct Hh' as (k & Hk & Ha & ->). bools.
      exists [chunk], k. cbn [s_concat foldr]. rewrite s_app_nil_r. by split_and!.
    + destruct (IH _ _ Hh' H) as (used & k & -> & -> & Hr). exists (chunk :: used), k.
      split; [done|]. rewrite s_app_assoc in *. done.
  - destruct (IH (data +:+ chunk) None I H) as (used & k & -> & -> & Hr).
    exists (chunk :: used), k. split; [done|]. rewrite s_app_assoc in *. done.
Qed.

Lemma read_digits_nonneg acc s : 0 <= acc -> 0 <= read_digits acc s.
Proof.
  revert acc; induction s as [|c s IH]; intros acc Ha; [done|]. cbn [read_digits].
  destruct (is_digit c) eqn:E; [|done]. apply IH. apply is_digit_byte in E.
  unfold digit_val. lia.
Qed.

Lemma content_length_nonneg head : 0 <= default 0 (parse_content_length head).
Proof.
  unfold parse_content_length.
  destruct (header_value head _) as [v|]; [|done]. case_goal; [done|]. case_goal; [done|].
  cbn zeta. case_goal; [done|]. by apply read_digits_nonneg.
Qed.

(** C2: What [read_request] accepts is what arrived and no more than the limits allow:
    the bytes are the chunks consumed, their header block ends at the first blank
    line, fits [max_header_bytes], is not chunked, declares at most
    [max_body_bytes], and the declared body has arrived in full. *)
Theorem read_request_accepts (limits : Limits) (chunks : list string) (data : string)
    (rest : list string) :
  max_header_bytes limits + max_body_bytes limits + 4 < 2 ^ 64 ->
  read_request limits chunks "" None = (ROk, data, rest) ->
  exists used head tail, chunks = used ++ rest /\ data = s_concat used /\
    data = head +:+ crlf2 +:+ tail /\ find_str data crlf2 0 = Some (len head) /\
    size head <= max_header_bytes limits /\ has_chunked_body head = false /\
    default 0 (parse_content_length head) <= max_body_bytes limits /\
    default 0 (parse_content_length head) <= size tail.
Proof.
  intros Hw H. apply read_request_sound in H as (used & k & -> & Ed & Hk & Ha & Hu); [|done].
  rewrite s_app_nil_l in Ed. destruct (find_crlf2_split _ _ Hk) as [Es Hl].
  set (head := substr data 0 k) in *. destruct Ha as (H1 & H2 & H3).
  exists used, head, (s_drop (k + 4) data). rewrite Hl. do 6 (split; [done|]).
  split; [done|].
  pose proof (content_length_nonneg head).
  rewrite u64_small in Hu by (unfold size in *; lia).
  apply (f_equal size) in Es. rewrite !size_app in Es. change (size crlf2) with 4 in Es.
  unfold size in *. lia.
Qed.

Lemma read_request_accepts_witness :
  exists used head tail, ["GET / HTTP/1.1"; crlf +:+ crlf +:+ "x"] = used ++ [] /\
    "GET / HTTP/1.1" +:+ crlf2 +:+ "x" = s_concat used /\
    "GET / HTTP/1.1" +:+ crlf2 +:+ "x" = head +:+ crlf2 +:+ tail /\
    find_str ("GET / HTTP/1.1" +:+ crlf2 +:+ "x") crlf2 0 = Some (len head) /\
    size head <= max_header_bytes default_limits /\ has_chunked_body head = false /\
    default 0 (parse_content_length head) <= max_body_bytes default_limits /\
    default 0 (parse_content_length head) <= size tail.
Proof. apply read_request_accepts; [vm_compute; reflexivity|vm_compute; reflexivity]. Defined.

(** One chunk more of a request whose header block is acceptable. *)
Lemma read_headers_partial limits head body data more :
  data +:+ more = head +:+ crlf2 +:+ body ->
  find_str (head +:+ crlf2 +:+ body) crlf2 0 = Some (len head) ->
  acceptable limits head -> size head + 3 <= max_header_bytes limits ->
  read_headers limits data =
    if (len head + 4 <=? len data)%nat
    then Some (inr (mkHeaders (len head + 4) (default 0 (parse_content_length head)))) else None.
Proof.
  intros E Hf (H1 & H2 & H3) Hm. rewrite <- E, find_str_0 in Hf.
  unfold read_headers. rewrite find_str_0, (find0_prefix crlf2 data more), Hf.
  change (len crlf2) with 4%nat. destruct (_ <=? len data)%nat eqn:El; bools.
  - assert (Eh : substr data 0 (len head) = head).
    { unfold substr. rewrite s_drop_0, <- (s_take_app_le _ data more) by lia.
      rewrite E. by apply s_take_app. }
    rewrite Eh, H2. replace (_ <? size head) with false by (symmetry; apply Z.ltb_ge; lia).
    by replace (_ <? default _ _) with false by (symmetry; apply Z.ltb_ge; lia).
  - replace (_ <? _) with false; [done|]. symmetry. apply Z.ltb_ge. unfold size in *. lia.
Qed.

Lemma read_request_complete limits head body rest :
  find_str (head +:+ crlf2 +:+ body) crlf2 0 = Some (len head) ->
  acceptable limits head -> size head + 3 <= max_header_bytes limits ->
  default 0 (parse_content_length head) = size body ->
  size head + 4 + size body < 2 ^ 64 ->
  forall chunks data have,
    Forall (fun c => c ≠ "") chunks -> chunks ≠ [] ->
    data +:+ s_concat chunks = head +:+ crlf2 +:+ body ->
    (forall h, have = Some h -> h = mkHeaders (len head + 4) (size body)) ->
    read_request limits (chunks ++ rest) data have = (ROk, head +:+ crlf2 +:+ body, rest).
Proof.
  intros Hf Ha Hm Hcl Hw. induction chunks as [|c chunks IH]; intros data have Hne Hnil E Hh; [done|].
  apply Forall_cons in Hne as [Hc Hne]. destruct c as [|x c]; [done|].
  cbn [read_request app]. set (chunk := String x c) in *. clearbody chunk. clear Hc x c.
  cbn [s_concat foldr] in E. fold (s_concat chunks) in E. rewrite <- s_app_assoc in E.
  rewrite (read_headers_partial _ head body (data +:+ chunk) (s_concat chunks)) by done.
  rewrite Hcl.
  assert (Hend : chunks = [] \/ size (data +:+ chunk) < size (head +:+ crlf2 +:+ body)).
  { destruct chunks as [|c' chunks]; [by left|right]. apply Forall_cons in Hne as [Hc' _].
    rewrite <- E, (size_app (data +:+ chunk)). cbn [s_concat foldr]. rewrite (size_app c').
    destruct c'; [done|]. rewrite size_cons. unfold size. lia. }
  assert (Ew : u64 (Z.of_nat (len head + 4) + size body) = size (head +:+ crlf2 +:+ body)).
  { rewrite !size_app. change (size crlf2) with 4. unfold size in *. rewrite u64_small; lia. }
  assert (Hgo : forall have', (forall h, have' = Some h -> h = mkHeaders (len head + 4) (size body)) ->
    size (data +:+ chunk) < size (head +:+ crlf2 +:+ body) ->
    read_request limits (chunks ++ rest) (data +:+ chunk) have' = (ROk, head +:+ crlf2 +:+ body, rest)).
  { intros have' Hh' Hlt. apply IH; [done| |done|done]. intros ->.
    cbn [s_concat foldr] in E. rewrite s_app_nil_r in E. rewrite E in Hlt. lia. }
  assert (Hstep : forall h, h = mkHeaders (len head + 4) (size body) ->
    (if u64 (Z.of_nat (header_end h) + content_length h) <=? size (data +:+ chunk)
     then (ROk, data +:+ chunk, chunks ++ rest)
     else read_request limits (chunks ++ rest) (data +:+ chunk) (Some h)) =
    (ROk, head +:+ crlf2 +:+ body, rest)).
  { intros h ->. cbn [header_end content_length]. rewrite Ew. destruct (_ <=? _) eqn:El; bools.
    - destruct Hend as [->|]; [|lia]. cbn [s_concat foldr] in E. rewrite s_app_nil_r in E. by rewrite E.
    - apply Hgo; [by intros ? [= <-]|done]. }
  destruct have as [h|]; [by apply Hstep, Hh|].
  destruct (_ <=? _)%nat eqn:El; bools; [by apply Hstep|].
  apply Hgo; [done|]. rewrite !size_app. change (size crlf2) with 4. unfold size in *.
  rewrite length_s_app in El. lia.
Qed.

(** C3: However the network cuts a request into chunks, a request within the limits is
    read whole and unchanged, and nothing after it is consumed. *)
Theorem read_request_any_chunking (limits : Limits) (head body : string)
    (chunks rest : list string) :
  find_str (head +:+ crlf2 +:+ body) crlf2 0 = Some (len head) ->
  size head + 3 <= max_header_bytes limits -> has_chunked_body head = false ->
  default 0 (parse_content_length head) = size body -> size body <= max_body_bytes limits ->
  size head + 4 + size body < 2 ^ 64 ->
  Forall (fun c => c ≠ "") chunks -> s_concat chunks = head +:+ crlf2 +:+ body ->
  read_request limits (chunks ++ rest) "" None = (ROk, head +:+ crlf2 +:+ body, rest).
Proof.
  intros Hf Hm Hch Hcl Hb Hw Hne E. apply read_request_complete; try done.
  - split_and!; [lia|done|lia].
  - intros ->. apply (f_equal size) in E. rewrite !size_app in E. change (size crlf2) with 4 in E.
    change (size (s_concat [])) with 0 in E. unfold size in E. lia.
Qed.

Lemma read_request_any_chunking_witness :
  let head := "POST /a HTTP/1.1" +:+ crlf +:+ "content-length: 3" in
  read_request default_limits ([head +:+ str1 (chr 13); s_drop 1 crlf2 +:+ "x"; "y"; "z"] ++ ["next"])
    "" None = (ROk, head +:+ crlf2 +:+ "xyz", ["next"]).
Proof.
  cbn zeta. apply read_request_any_chunking; try (vm_compute; congruence); try by_eval.
Defined.

(** The header limit is enforced on what happens to have arrived: a header block of
    exactly [max_header_bytes] is served when its terminator comes with it, and
    refused with 431 when the terminator's last byte comes in a later chunk. *)
Theorem header_limit_depends_on_chunking (limits : Limits) (head : string) :
  find_str (head +:+ crlf2) crlf2 0 = Some (len head) ->
  size head = max_header_bytes limits -> size head + 4 < 2 ^ 64 ->
  has_chunked_body head = false -> parse_content_length head = None -> 0 <= max_body_bytes limits ->
  read_request limits [head +:+ crlf2] "" None = (ROk, head +:+ crlf2, []) /\
  read_request limits [head +:+ s_take 3 crlf2; s_drop 3 crlf2] "" None =
    (RHeaderTooLarge, head +:+ s_take 3 crlf2, [s_drop 3 crlf2]).
Proof.
  intros Hf Hs Hw Hch Hcl Hb.
  assert (Hne : forall t, t ≠ "" -> exists x y, head +:+ t = String x y).
  { intros t Ht. destruct head; [|by eauto]. destruct t; [done|by eauto]. }
  assert (Eh : substr (head +:+ crlf2) 0 (len head) = head).
  { unfold substr. rewrite s_drop_0. by apply s_take_app. }
  assert (E3 : find_str (head +:+ s_take 3 crlf2) crlf2 0 = None).
  { rewrite find_str_0 in Hf |- *. rewrite (find0_prefix _ _ (s_drop 3 crlf2)).
    rewrite s_app_assoc, s_take_drop, Hf.
    replace (_ <=? _)%nat with false; [done|]. symmetry. apply Nat.leb_gt.
    rewrite length_s_app. change (len crlf2) with 4%nat. change (len (s_take 3 crlf2)) with 3%nat. lia. }
  split.
  - cbn [read_request]. destruct (Hne crlf2 ltac:(done)) as (x & y & E). rewrite E.
    rewrite s_app_nil_l, <- E. unfold read_headers. rewrite Hf, Eh, Hch, Hcl.
    replace (_ <? size head) with false by (symmetry; apply Z.ltb_ge; lia). cbn [default].
    replace (_ <? 0) with false by (symmetry; apply Z.ltb_ge; lia).
    cbn [header_end content_length]. rewrite u64_small by (unfold size in *; lia).
    replace (_ <=? _) with true; [done|]. symmetry. apply Z.leb_le.
    rewrite size_app. change (size crlf2) with 4. unfold size. lia.
  - cbn [read_request]. destruct (Hne (s_take 3 crlf2) ltac:(done)) as (x & y & E). rewrite E.
    rewrite s_app_nil_l, <- E. unfold read_headers. rewrite E3.
    replace (_ <? _) with true; [done|]. symmetry. apply Z.ltb_lt.
    rewrite size_app. change (size (s_take 3 crlf2)) with 3. lia.
Qed.

Lemma header_limit_depends_on_chunking_witness :
  let limits := mkLimits 5 100 30 in
  read_request limits ["GET /" +:+ crlf2] "" None = (ROk, "GET /" +:+ crlf2, []) /\
  read_request limits ["GET /" +:+ s_take 3 crlf2; s_drop 3 crlf2] "" None =
    (RHeaderTooLarge, "GET /" +:+ s_take 3 crlf2, [s_drop 3 crlf2]).
Proof. cbn zeta. apply header_limit_depends_on_chunking; vm_compute; congruence. Defined.

(** ** Parsing what a client writes *)
Definition line_text (kv : string * string) : string := kv.1 +:+ ": " +:+ kv.2.
Definition lines_text (hs : list (string * string)) : string :=
  s_concat (map (fun kv => crlf +:+ line_text kv) hs).
Definition request_text (m target : string) (hs : list (string * string)) (b : string) : string :=
  (m +:+ " " +:+ target +:+ " HTTP/1.1") +:+ lines_text hs +:+ crlf2 +:+ b.

Definition cr : ascii := chr 13.
Definition good_header (kv : string * string) : Prop :=
  no_chr cr kv.1 /\ no_chr ":" kv.1 /\ trimmed blank kv.1 /\ no_chr cr kv.2 /\ trimmed blank kv.2.

Lemma line_text_cr kv : good_header kv -> no_chr cr (line_text kv).
Proof.
  intros (H1 & _ & _ & H2 & _). unfold line_text. rewrite !no_chr_app. split_and!; [done|by_eval|done].
Qed.

Lemma line_text_cons kv : exists c t, line_text kv = String c t.
Proof. unfold line_text. destruct (kv.1); rewrite ?s_app_cons; eauto. Qed.

Lemma clear_crlf2_lines hs t :
  Forall good_header hs -> clear crlf2 (lines_text hs) (crlf2 +:+ t).
Proof.
  induction hs as [|kv hs IH]; intros Hh; [apply clear_nil|].
  apply Forall_cons in Hh as [Hk Hh]. unfold lines_text. cbn [map s_concat foldr].
  fold (s_concat (map (fun kv => crlf +:+ line_text kv) hs)). fold (lines_text hs).
  apply clear_app; [|by apply IH]. pose proof (line_text_cr kv Hk) as Hcr. apply clear_app.
  - intros j Hj. destruct (line_text_cons kv) as (c & u & E). rewrite E in Hcr |- *.
    apply no_chr_cons in Hcr as [Hc _]. rewrite !s_app_cons.
    destruct j as [|[|j]]; [| |cbn in Hj; lia]; [|done]. unfold crlf2, crlf.
    rewrite !s_app_cons, !s_app_nil_l. cbn [s_drop is_prefix].
    rewrite (bool_decide_eq_false_2 (chr 13 = c)) by done. by rewrite !andb_false_r.
  - by apply (clear_no_chr (chr 13)).
Qed.

Lemma add_header_line kv hs : good_header kv -> add_header (line_text kv) hs = <[kv.1 := kv.2]> hs.
Proof.
  intros (_ & Hc & Hk & _ & Hv). unfold add_header, line_text.
  change (": " +:+ kv.2) with (String ":" (str1 " " +:+ kv.2)).
  rewrite find_chr_hit by done. unfold substr_from. f_equal.
  - unfold substr. rewrite s_drop_0, s_take_app by done. by apply trim_set_id.
  - change (String ":" (str1 " " +:+ kv.2)) with (str1 ":" +:+ (str1 " " +:+ kv.2)).
    rewrite <- s_app_assoc, s_drop_app by (rewrite length_s_app; cbn; lia).
    rewrite <- (s_app_nil_r kv.2) at 1. apply trim_set_pad; [by_eval|constructor|done].
Qed.

Definition set_headers (hs : list (string * string)) (m : gmap string string) : gmap string string :=
  fold_left (fun m kv => <[kv.1 := kv.2]> m) hs m.

Lemma find0_no_cr s : no_chr cr s -> find0 crlf s = None.
Proof. apply find0_none_chr. Qed.

Lemma find_crlf_line u kv hs :
  good_header kv ->
  find_str (u +:+ line_text kv +:+ lines_text hs) crlf (len u) =
    match hs with [] => None | _ => Some (len u + len (line_text kv))%nat end.
Proof.
  intros Hk. pose proof (line_text_cr kv Hk) as Hcr. destruct hs as [|kv' hs].
  - cbn [lines_text map s_concat foldr]. change (lines_text []) with "". rewrite s_app_nil_r.
    unfold find_str. rewrite length_s_app.
    replace (_ <? _)%nat with false by (symmetry; apply Nat.ltb_ge; lia).
    rewrite s_drop_app by done. by rewrite find0_no_cr.
  - eapply (find_str_at _ crlf _ u (line_text kv) (line_text kv' +:+ lines_text hs));
      [done|unfold lines_text; cbn [map s_concat foldr]; by rewrite !s_app_assoc|done|done].
Qed.

Lemma header_loop_lines fuel u kv hs m :
  Forall good_header (kv :: hs) -> (length hs < fuel)%nat ->
  header_loop fuel (u +:+ line_text kv +:+ lines_text hs) (len u) m = set_headers (kv :: hs) m.
Proof.
  revert fuel u kv m; induction hs as [|kv' hs IH]; intros fuel u kv m Hh Hf;
    apply Forall_cons in Hh as [Hk Hh]; (destruct fuel as [|fuel]; [lia|]); cbn [header_loop];
    (replace (_ <? _)%nat with true
       by (symmetry; apply Nat.ltb_lt; rewrite !length_s_app;
           destruct (line_text_cons kv) as (c & t & ->); cbn; lia));
    unfold line_at; rewrite find_crlf_line by done.
  - unfold substr_from. rewrite s_drop_app by done. change (lines_text []) with "".
    rewrite s_app_nil_r, add_header_line by done. done.
  - replace (len u + len (line_text kv) - len u)%nat with (len (line_text kv)) by lia.
    unfold substr. rewrite s_drop_app by done. rewrite s_take_app by done.
    rewrite add_header_line by done.
    replace (u +:+ line_text kv +:+ lines_text (kv' :: hs))
      with ((u +:+ line_text kv +:+ crlf) +:+ line_text kv' +:+ lines_text hs)
      by (unfold lines_text; cbn [map s_concat foldr]; by rewrite !s_app_assoc).
    replace (len u + len (line_text kv) + 2)%nat with (len (u +:+ line_text kv +:+ crlf))
      by (rewrite !length_s_app; cbn; lia).
    rewrite IH by (done || (cbn in Hf; lia)). done.
Qed.

Lemma header_loop_all r hs :
  Forall good_header hs -> no_chr cr r ->
  (let pos := match find_str (r +:+ lines_text hs) crlf 0 with
              | None => len (r +:+ lines_text hs) | Some e => (e + 2)%nat end in
   header_loop (S (len (r +:+ lines_text hs))) (r +:+ lines_text hs) pos ∅) = set_headers hs ∅ /\
  line_at (r +:+ lines_text hs) 0 = r.
Proof.
  intros Hh Hr. unfold line_at. destruct hs as [|kv hs].
  - change (lines_text []) with "". rewrite s_app_nil_r, find_str_0, find0_no_cr by done.
    split; [|done]. cbn zeta. cbn [header_loop]. by rewrite Nat.ltb_irrefl.
  - assert (E : r +:+ lines_text (kv :: hs) = (r +:+ crlf) +:+ line_text kv +:+ lines_text hs)
      by (unfold lines_text; cbn [map s_concat foldr]; by rewrite !s_app_assoc).
    rewrite E.
    rewrite (find_str_at _ crlf 0 "" r (line_text kv +:+ lines_text hs) (chr 13) (str1 (chr 10)))
      by (try done; by rewrite s_app_assoc).
    cbn [len String.length Nat.add]. split.
    + replace (len r + 2)%nat with (len (r +:+ crlf)) by (rewrite length_s_app; cbn; lia).
      cbn zeta. apply header_loop_lines; [done|]. rewrite !length_s_app.
      assert (H : (length hs <= len (lines_text hs))%nat).
      { clear. induction hs as [|kv hs IH]; [cbn; lia|]. unfold lines_text in *.
        cbn [map s_concat foldr]. rewrite !length_s_app. cbn [length]. unfold s_concat in IH.
        change (len crlf) with 2%nat. lia. }
      lia.
    + unfold substr. rewrite s_drop_0, s_app_assoc. apply s_take_app. lia.
Qed.

Lemma split_request_line m target :
  no_chr " " m -> no_chr " " target ->
  let r := m +:+ " " +:+ target +:+ " HTTP/1.1" in
  find_chr r " " 0 = Some (len m) /\ find_chr r " " (len m + 1) = Some (len m + 1 + len target)%nat /\
  substr r 0 (len m) = m /\ substr r (len m + 1) (len m + 1 + len target - len m - 1) = target.
Proof.
  intros Hm Ht r. subst r. split_and!.
  - by apply find_chr_hit.
  - rewrite (find_chr_at _ " " _ (m +:+ " ") target ("HTTP/1.1"));
      [|by rewrite !s_app_assoc|by rewrite length_s_app|done].
    by rewrite length_s_app.
  - unfold substr. rewrite s_drop_0. by apply s_take_app.
  - unfold substr. rewrite <- s_app_assoc, s_drop_app by (by rewrite length_s_app).
    apply s_take_app. lia.
Qed.

(** The target splits at its first question mark. *)
Definition with_query (p : string) (q : option string) : string :=
  p +:+ match q with None => "" | Some q => "?" +:+ q end.

Lemma parse_request_text m target hs b :
  no_chr " " m -> no_chr cr m -> no_chr " " target -> no_chr cr target -> Forall good_header hs ->
  parse_http_request (request_text m target hs b) =
    let qmark := find_chr target "?" 0 in
    Some (mkRequest m (match qmark with None => target | Some q => substr target 0 q end) ∅
      (set_headers hs ∅) b ∅
      (match qmark with None => ∅ | Some q => parse_pairs (substr_from target (q + 1)) "&" true end)
      "").
Proof.
  intros Hm Hmc Ht Htc Hh. unfold parse_http_request, request_text.
  set (r := m +:+ " " +:+ target +:+ " HTTP/1.1").
  assert (Hr : no_chr cr r) by (subst r; rewrite !no_chr_app; split_and!; try done; by_eval).
  rewrite <- !s_app_assoc. rewrite (s_app_assoc _ crlf2 b).
  rewrite clear_find.
  2:{ apply clear_app; [by apply (clear_no_chr (chr 13))|by apply clear_crlf2_lines]. }
  set (head := r +:+ lines_text hs).
  replace (substr _ 0 (len head)) with head
    by (unfold substr; rewrite s_drop_0; symmetry; by apply s_take_app).
  replace (substr_from _ _) with b.
  2:{ unfold substr_from. rewrite <- s_app_assoc. symmetry. apply s_drop_app.
      rewrite length_s_app. done. }
  destruct (header_loop_all r hs Hh Hr) as [Hloop Hline]. fold head in Hloop, Hline.
  cbn zeta in Hloop |- *. rewrite Hloop.
  replace (match find_str head crlf 0 with None => head | Some e => substr head 0 e end) with r.
  2:{ rewrite <- Hline at 1. unfold line_at. destruct (find_str head crlf 0); [|done].
      by rewrite Nat.sub_0_r. }
  destruct (split_request_line m target Hm Ht) as (E1 & E2 & E3 & E4). fold r in E1, E2, E3, E4.
  by rewrite E1, E2, E3, E4.
Qed.

Lemma parse_request_query m p q hs b :
  no_chr " " m -> no_chr cr m -> no_chr "?" p -> no_chr " " (with_query p q) ->
  no_chr cr (with_query p q) -> Forall good_header hs ->
  parse_http_request (request_text m (with_query p q) hs b) =
    Some (mkRequest m p ∅ (set_headers hs ∅) b ∅ (match q with None => ∅ | Some q => parse_form q end) "").
Proof.
  intros Hm Hmc Hp Ht Htc Hh. rewrite parse_request_text by done. cbn zeta. unfold with_query.
  destruct q as [q|].
  - change ("?" +:+ q) with (String "?" q). rewrite find_chr_hit by done.
    change (String "?" q) with ("?" +:+ q). unfold substr, substr_from.
    rewrite s_drop_0, s_take_app by done. rewrite <- s_app_assoc, s_drop_app; [done|].
    rewrite length_s_app. done.
  - rewrite s_app_nil_r. by rewrite (proj2 (find_chr_none p "?" 0)).
Qed.

(** C5: The parser reads back any request a client writes: method, query-free path,
    decoded query, every header line (the last one winning) and the body, whatever
    bytes the body holds. *)
Theorem parse_http_request_text (m p : string) (q : option string) (hs : list (string * string))
    (b : string) :
  no_chr " " m -> no_chr cr m -> no_chr "?" p -> no_chr " " (with_query p q) ->
  no_chr cr (with_query p q) -> Forall good_header hs ->
  parse_http_request (request_text m (with_query p q) hs b) =
    Some (mkRequest m p ∅ (set_headers hs ∅) b ∅ (match q with None => ∅ | Some q => parse_form q end) "").
Proof. apply parse_request_query. Qed.

Lemma parse_http_request_text_witness :
  parse_http_request (request_text "POST" (with_query "/a" (Some "page=2"))
      [("Host", "x"); ("Accept", "a, b"); ("Host", "y:1")] (crlf2 +:+ "b")) =
    Some (mkRequest "POST" "/a" ∅ (set_headers [("Host", "x"); ("Accept", "a, b"); ("Host", "y:1")] ∅)
      (crlf2 +:+ "b") ∅ (parse_form "page=2") "").
Proof.
  apply (parse_http_request_text "POST" "/a" (Some "page=2")); try by_eval.
  repeat (apply Forall_cons; split);
    [unfold good_header, trimmed; cbn [fst snd]; split_and!; try by_eval..|by apply Forall_nil].
  - by exists "Hos", "t"%char.
  - by exists "", "x"%char.
  - by exists "Accep", "t"%char.
  - by exists "a, ", "b"%char.
  - by exists "Hos", "t"%char.
  - by exists "y:", "1"%char.
Defined.

(** ** One connection *)
Lemma send_all_full sends out :
  Forall (fun n => 0 < n) sends -> (len out <= length sends)%nat -> (send_all sends out).1 = out.
Proof.
  revert out; induction sends as [|n sends IH]; intros out Hs Hl.
  - destruct out; [done|cbn in Hl; lia].
  - apply Forall_cons in Hs as [Hn Hs]. destruct out as [|c out]; [done|].
    cbn [send_all]. replace (n <=? 0) with false by (symmetry; apply Z.leb_gt; lia).
    set (k := Nat.min _ _). specialize (IH (s_drop k (String c out)) Hs).
    destruct (send_all sends (s_drop k (String c out))) as [sent rest]. cbn [fst] in *.
    rewrite IH; [apply s_take_drop|]. rewrite length_s_drop. cbn in Hl |- *.
    subst k. cbn [len String.length]. lia.
Qed.

Lemma send_all_prefix sends out : exists t, out = (send_all sends out).1 +:+ t.
Proof.
  revert out; induction sends as [|n sends IH]; intros out; [destruct out; eauto|].
  destruct out as [|c out]; [by exists ""|]. cbn [send_all]. case_goal; [by eexists|].
  set (k := Nat.min _ _). destruct (IH (s_drop k (String c out))) as [t Ht].
  destruct (send_all sends (s_drop k (String c out))) as [sent rest]. cbn [fst] in *.
  exists t. rewrite s_app_assoc, <- Ht. symmetry. apply s_take_drop.
Qed.

Section connection.
Context {W : Type} `{MapOrder string}.
Implicit Types (srv : HttpServer W) (s : Sock).

(** The events of a connection that is answered with [res]. *)
Definition answered (srv : HttpServer W) (s : Sock) (res : Response) : list SockEvent :=
  (if 0 <? read_timeout_seconds (limits_ srv)
   then [SetTimeout (read_timeout_seconds (limits_ srv))] else [])
  ++ [Sent (send_all (sends s) (format_http_response res)).1; Closed].

Lemma log_reply res s :
  log (reply res s) = log s ++ [Sent (send_all (sends s) (format_http_response res)).1; Closed].
Proof.
  unfold reply, emit, send_on. destruct (send_all _ _) as [sent rest]. cbn [log fst].
  by rewrite <- app_assoc.
Qed.

(** The response the kernel's outcome stands for, and the state it leaves. *)
Definition outcome (r : res Response * W) : Response * W :=
  match r with (Ok res, w) => (res, w) | (Throw _, w) => (internal_error, w) end.

Lemma respond_outcome srv req s w :
  respond srv (Some req) s w =
    let '(res, w') := outcome (kernel_ srv req w) in (reply res s, w').
Proof.
  unfold respond, guarded, try_catch, outcome. by destruct (kernel_ srv req w) as [[r|e] w'].
Qed.

(** Not an upgrade, or one for a path with no endpoint. *)
Definition plain_request (srv : HttpServer W) (r : Request) : bool :=
  negb (is_websocket_upgrade r && bool_decide (ws_handlers_ srv !! path r ≠ None)).

Lemma handle_client_plain srv remote s w data rest req :
  read_request (limits_ srv) (recvs s) "" None = (ROk, data, rest) ->
  parse_http_request data = Some req ->
  plain_request srv (set_remote_addr remote req) = true ->
  let '(res, w') := outcome (kernel_ srv (set_remote_addr remote req) w) in
  (handle_client srv remote s w).2 = w' /\
  log (handle_client srv remote s w).1 = log s ++ answered srv s res.
Proof.
  intros Hr Hp Hu. unfold plain_request in Hu.
  assert (E : forall s0, (if is_websocket_upgrade (set_remote_addr remote req) then
      match ws_handlers_ srv !! path (set_remote_addr remote req) with
      | Some h => (emit (HandOver (path (set_remote_addr remote req)))
          (if 0 <? read_timeout_seconds (limits_ srv) then emit (SetTimeout 0) s0 else s0),
          h (set_remote_addr remote req) w)
      | None => respond srv (Some (set_remote_addr remote req)) s0 w end
    else respond srv (Some (set_remote_addr remote req)) s0 w)
    = respond srv (Some (set_remote_addr remote req)) s0 w).
  { intros s0. destruct (is_websocket_upgrade _); [|done].
    destruct (ws_handlers_ srv !! _); [|done]. cbn in Hu. done. }
  unfold handle_client, answered. cbn zeta.
  assert (Er : forall (b : bool) e, recvs (if b then emit e s else s) = recvs s) by (by intros []).
  rewrite Er, Hr, Hp. cbn [fmap option_fmap option_map]. rewrite E, respond_outcome.
  destruct (outcome _) as [res w']. cbn [fst snd]. split; [done|]. rewrite log_reply.
  destruct (0 <? _); cbn [sends log emit]; by rewrite <- ?app_assoc.
Qed.
End connection.

(** A request that arrives whole and is no WebSocket upgrade is answered exactly
    once and the connection is then closed: the answer is the kernel's response, or
    a fixed 500 when the kernel throws; the kernel sees the peer's address, and a
    peer that keeps reading receives the whole response. *)
Theorem handle_client_answers {W} `{MapOrder string} (srv : HttpServer W) (remote : string)
    (s : Sock) (w : W) (data : string) (rest : list string) (req : Request) :
  read_request (limits_ srv) (recvs s) "" None = (ROk, data, rest) ->
  parse_http_request data = Some req ->
  plain_request srv (set_remote_addr remote req) = true ->
  exists res w' sent,
    match kernel_ srv (set_remote_addr remote req) w with
    | (Ok r, w1) => res = r /\ w' = w1
    | (Throw _, w1) => res = response 500 "Internal Server Error" /\ w' = w1
    end /\
    (handle_client srv remote s w).2 = w' /\
    log (handle_client srv remote s w).1 =
      log s ++ (if 0 <? read_timeout_seconds (limits_ srv)
                then [SetTimeout (read_timeout_seconds (limits_ srv))] else []) ++ [Sent sent; Closed] /\
    is_prefix sent (format_http_response res) = true /\
    (Forall (fun n => 0 < n) (sends s) ->
     (len (format_http_response res) <= length (sends s))%nat -> sent = format_http_response res).
Proof.
  intros Hr Hp Hu. pose proof (handle_client_plain srv remote s w _ _ _ Hr Hp Hu) as Hc.
  destruct (outcome _) as [res w'] eqn:Eo. destruct Hc as [Hw Hl].
  exists res, w', (send_all (sends s) (format_http_response res)).1.
  split; [unfold outcome in Eo; destruct (kernel_ srv _ w) as [[r|e] w1]; by injection Eo as <- <-|].
  split; [done|]. split; [exact Hl|]. split; [|apply send_all_full].
  apply is_prefix_iff, send_all_prefix.
Qed.

Lemma handle_client_answers_witness :
  let _ := @canonical_order string in
  let srv := new_http_server (fun (_ : Request) (w : nat) => (Throw OtherExn, S w)) in
  exists res w' sent,
    (res = response 500 "Internal Server Error" /\ w' = 1%nat) /\
    (handle_client srv "127.0.0.1" (mkSock ["GET / HTTP/1.1" +:+ crlf2] [1000] []) 0%nat).2 = w' /\
    log (handle_client srv "127.0.0.1" (mkSock ["GET / HTTP/1.1" +:+ crlf2] [1000] []) 0%nat).1 =
      [] ++ [SetTimeout 30] ++ [Sent sent; Closed] /\
    is_prefix sent (format_http_response res) = true /\
    (Forall (fun n => 0 < n) [1000] ->
     (len (format_http_response res) <= 1)%nat -> sent = format_http_response res).
Proof.
  intros O srv.
  refine (@handle_client_answers nat O srv "127.0.0.1" (mkSock ["GET / HTTP/1.1" +:+ crlf2] [1000] [])
    0%nat ("GET / HTTP/1.1" +:+ crlf2) []
    (mkRequest "GET" "/" ∅ ∅ "" ∅ ∅ "") _ _ _); vm_compute; reflexivity.
Defined.

(** Whatever arrives, a connection ends in one of three ways: it is closed without
    an answer, answered once and closed, or handed over to a registered WebSocket
    endpoint, which then owns the socket.  Nothing is sent after it is closed. *)
Theorem handle_client_ends {W} `{MapOrder string} (srv : HttpServer W) (remote : string) (s : Sock) (w : W) :
  exists pre last, log (handle_client srv remote s w).1 = log s ++ pre ++ last /\
    Forall (fun e => exists n, e = SetTimeout n) pre /\
    (last = [Closed] \/ (exists b, last = [Sent b; Closed]) \/
     (exists p, last = [HandOver p] /\ is_Some (ws_handlers_ srv !! p))).
Proof.
  unfold handle_client. cbn zeta. set (timed := 0 <? _).
  destruct (read_request _ _ _ _) as [[st data] rest].
  set (pre := if timed then [SetTimeout (read_timeout_seconds (limits_ srv))] else []).
  set (s0 := if timed then _ else s).
  assert (E : log s0 = log s ++ pre) by (subst s0 pre; destruct timed; by rewrite ?app_nil_r).
  assert (Hpre : Forall (fun e => exists n, e = SetTimeout n) pre)
    by (subst pre; destruct timed; eauto).
  assert (Hreply : forall res, exists pre last,
    log (reply res (mkSock rest (sends s0) (log s0))) = log s ++ pre ++ last /\
    Forall (fun e => exists n, e = SetTimeout n) pre /\
    (last = [Closed] \/ (exists b, last = [Sent b; Closed]) \/
     (exists p, last = [HandOver p] /\ is_Some (ws_handlers_ srv !! p)))).
  { intros res. eexists pre, _. rewrite log_reply. cbn [log]. rewrite E, <- app_assoc. eauto 6. }
  assert (Hresp : forall r, exists pre last,
    log (respond srv r (mkSock rest (sends s0) (log s0)) w).1 = log s ++ pre ++ last /\
    Forall (fun e => exists n, e = SetTimeout n) pre /\
    (last = [Closed] \/ (exists b, last = [Sent b; Closed]) \/
     (exists p, last = [HandOver p] /\ is_Some (ws_handlers_ srv !! p)))).
  { intros [r|]; [|apply Hreply]. rewrite respond_outcome. destruct (outcome _) as [res w']. apply Hreply. }
  destruct st; try apply Hreply; [|eexists pre, _; cbn [fst log emit]; rewrite E, <- app_assoc; eauto 6].
  destruct (_ <$> parse_http_request data) as [r|]; [|apply Hresp].
  destruct (is_websocket_upgrade r); [|apply Hresp].
  destruct (ws_handlers_ srv !! path r) as [h|] eqn:Eh; [|apply Hresp].
  exists (pre ++ if timed then [SetTimeout 0] else []), [HandOver (path r)].
  split; [destruct timed; cbn [fst log emit]; rewrite E, <- ?app_assoc; done|].
  split; [apply Forall_app; split; [done|destruct timed; eauto]|]. right; right. eauto.
Qed.
