(* ===== verification/ServerPool.v ===== *)
(** * HttpServer::serve, the worker pool and stop() (src/http_server.cpp)

    The threads of a running server: the one that called [serve], its workers, each in
    [accept_loop], and any number of threads that called [stop].  Each is a program over
    the shared state ([running_], [server_fd_], the listening socket), cut where another
    thread can come between; [step] interleaves them with arriving clients, new calls of
    [stop] and failing accepts.  [handle_client] is one turn from taking a client to being
    done with it; what it does is in HttpServer.v. *)
From S2P Require Import Prelude.
From stdpp Require Import relations.

Section pool.
Context {Client : Type} (fd : nat).

(** The listening socket, as the operating system has it, and the descriptor [fd]. *)
Inductive Listener : Type :=
  | NoSocket | Unbound | Listening | ShutDown | ClosedSocket.
#[export] Instance listener_eq_dec : EqDecision Listener.
Proof. solve_decision. Defined.
(** [running_] and [server_fd_], the socket with the number of its closes, the clients
    waiting on it; and as history those that came, were taken and are done with. *)
Record Shared : Type := mkShared {
  running_ : bool;
  server_fd_ : Z;
  listener : Listener;
  closes : nat;
  backlog : list Client;
  arrived : list Client;
  accepted : list Client;
  finished : list Client }.
Definition set_running (b : bool) (s : Shared) : Shared :=
  mkShared b (server_fd_ s) (listener s) (closes s) (backlog s) (arrived s) (accepted s) (finished s).
Definition set_server_fd (n : Z) (s : Shared) : Shared :=
  mkShared (running_ s) n (listener s) (closes s) (backlog s) (arrived s) (accepted s) (finished s).
Definition set_listener (l : Listener) (s : Shared) : Shared :=
  mkShared (running_ s) (server_fd_ s) l (closes s) (backlog s) (arrived s) (accepted s) (finished s).
(** [::close]. *)
Definition close_fd (s : Shared) : Shared :=
  mkShared (running_ s) (server_fd_ s) ClosedSocket (S (closes s)) (backlog s) (arrived s) (accepted s) (finished s).
Definition take_client (c : Client) (rest : list Client) (s : Shared) : Shared :=
  mkShared (running_ s) (server_fd_ s) (listener s) (closes s) rest (arrived s) (accepted s ++ [c]) (finished s).
Definition finish_client (c : Client) (s : Shared) : Shared :=
  mkShared (running_ s) (server_fd_ s) (listener s) (closes s) (backlog s) (arrived s) (accepted s) (finished s ++ [c]).
Definition add_client (c : Client) (s : Shared) : Shared :=
  mkShared (running_ s) (server_fd_ s) (listener s) (closes s) (backlog s ++ [c]) (arrived s ++ [c]) (accepted s) (finished s).

(** ** The threads *)
(** [accept_loop]: at the loop's test, in [accept], after a failed [accept], in
    [handle_client], out of the loop.  [None]: the thread waits. *)
Inductive WorkerPc : Type := WTest | WAccept | WFailed | WHandle (c : Client) | WDone.
Definition worker_step (s : Shared) (pc : WorkerPc) : option (Shared * WorkerPc) :=
  match pc with
  | WTest => Some (s, if running_ s then WAccept else WDone)
  | WAccept =>
      match listener s with
      | Listening => match backlog s with c :: rest => Some (take_client c rest s, WHandle c) | [] => None end
      | _ => Some (s, WFailed)
      end
  | WFailed => Some (s, if running_ s then WTest else WDone)
  | WHandle c => Some (finish_client c s, WTest)
  | WDone => None
  end.

(** [stop]: the store to [running_], the exchange, the shutdown and the close. *)
Inductive StopPc : Type := PStore | PExchange | PShutdown | PClose | PReturned.
Definition stop_step (s : Shared) (pc : StopPc) : option (Shared * StopPc) :=
  match pc with
  | PStore => Some (set_running false s, PExchange)
  | PExchange => Some (set_server_fd (-1) s, if (0 <=? server_fd_ s)%Z then PShutdown else PReturned)
  | PShutdown => Some (set_listener ShutDown s, PClose)
  | PClose => Some (close_fd s, PReturned)
  | PReturned => None
  end.

(** [serve]: set-up, whose calls succeed or not ([ok]); the two stores; starting the
    workers and joining them (with one worker the loop runs in this thread); the last
    exchange and close. *)
Inductive ServePc : Type :=
  | SSocket | SBind | SListen | SSetRunning | SPublish | SSpawn (n : nat) | SExchange | SClose | SReturned (code : Z).
Definition pool_size (workers : Z) : nat := Z.to_nat (if (workers <? 1)%Z then 1 else workers).
Definition is_done (pc : WorkerPc) : bool := match pc with WDone => true | _ => false end.
Definition serve_step (workers : Z) (ok : bool) (s : Shared) (pool : list WorkerPc) (pc : ServePc)
    : option (Shared * list WorkerPc * ServePc) :=
  match pc with
  | SSocket => Some (if ok then (set_listener Unbound s, pool, SBind) else (s, pool, SReturned 1))
  | SBind => Some (if ok then (s, pool, SListen) else (close_fd s, pool, SReturned 1))
  | SListen => Some (if ok then (set_listener Listening s, pool, SSetRunning) else (close_fd s, pool, SReturned 1))
  | SSetRunning => Some (set_running true s, pool, SPublish)
  | SPublish =>
      Some (set_server_fd (Z.of_nat fd) s, pool, SSpawn (pool_size workers))
  | SSpawn (S n) => Some (s, pool ++ [WTest], SSpawn n)
  | SSpawn 0 => if forallb is_done pool then Some (s, pool, SExchange) else None
  | SExchange =>
      Some (set_server_fd (-1) s, pool, if (0 <=? server_fd_ s)%Z then SClose else SReturned 0)
  | SClose => Some (close_fd s, pool, SReturned 0)
  | SReturned _ => None
  end.

(** ** The interleaving *)
Record System : Type := mkSystem {
  shared : Shared;
  serving : ServePc;
  pool : list WorkerPc;
  stops : list StopPc }.
Definition start : System := mkSystem (mkShared false (-1) NoSocket 0 [] [] [] []) SSocket [] [].

Inductive Label : Type := Thread | Arrive (c : Client) | AcceptError | StopCalled.
Inductive step (workers : Z) : System -> Label -> System -> Prop :=
  | step_serve ok s s' sv sv' ws ws' ps :
      serve_step workers ok s ws sv = Some (s', ws', sv') ->
      step workers (mkSystem s sv ws ps) Thread (mkSystem s' sv' ws' ps)
  | step_worker i w w' s s' sv ws ps :
      ws !! i = Some w -> worker_step s w = Some (s', w') ->
      step workers (mkSystem s sv ws ps) Thread (mkSystem s' sv (<[i := w']> ws) ps)
  | step_stop i p p' s s' sv ws ps :
      ps !! i = Some p -> stop_step s p = Some (s', p') ->
      step workers (mkSystem s sv ws ps) Thread (mkSystem s' sv ws (<[i := p']> ps))
  | step_arrive c s sv ws ps :
      listener s = Listening -> step workers (mkSystem s sv ws ps) (Arrive c) (mkSystem (add_client c s) sv ws ps)
  | step_error i s sv ws ps :
      ws !! i = Some WAccept -> step workers (mkSystem s sv ws ps) AcceptError (mkSystem s sv (<[i := WFailed]> ws) ps)
  | step_call s sv ws ps :
      step workers (mkSystem s sv ws ps) StopCalled (mkSystem s sv ws (ps ++ [PStore])).
Inductive exec (workers : Z) : System -> list Label -> System -> Prop :=
  | exec_nil x : exec workers x [] x
  | exec_snoc x ls y l z : exec workers x ls y -> step workers y l z -> exec workers x (ls ++ [l]) z.
Definition reachable (workers : Z) (x : System) : Prop := exists ls, exec workers start ls x.
End pool.
Arguments Shared : clear implicits.
Arguments System : clear implicits.
Arguments Label : clear implicits.
Arguments WorkerPc : clear implicits.

(** ** Sums over threads *)
Lemma sum_insert {A} (f : A -> nat) l i x y : l !! i = Some x ->
  (sum_list_with f (<[i := y]> l) + f x = sum_list_with f l + f y)%nat.
Proof.
  revert i. induction l as [|a l IH]; intros [|i] E; [done..| |]; simpl in *.
  - injection E as ->. lia.
  - specialize (IH i E). lia.
Qed.
Lemma sum_snoc {A} (f : A -> nat) l x : sum_list_with f (l ++ [x]) = (sum_list_with f l + f x)%nat.
Proof. rewrite sum_list_with_app. cbn. lia. Qed.
Lemma sum_elem {A} (f : A -> nat) l x : x ∈ l -> (f x <= sum_list_with f l)%nat.
Proof.
  induction l as [|a l IH]; [by intros ?%not_elem_of_nil|]. rewrite elem_of_cons. cbn. intros [->|Hx]; [lia|]. specialize (IH Hx). lia.
Qed.
Lemma sum_pos {A} (f : A -> nat) l : (0 < sum_list_with f l)%nat -> exists x, x ∈ l /\ (0 < f x)%nat.
Proof.
  induction l as [|a l IH]; cbn; [lia|]. intros Hs. destruct (f a) eqn:E; [|exists a; split; [by left|lia]].
  destruct (IH ltac:(lia)) as (x & Hx & Hf). exists x. split; [by right|done].
Qed.

Section proofs.
Context {Client : Type} (fd : nat) (workers : Z).
Implicit Types x y : System Client.
Local Abbreviation step := (step fd workers).
Local Abbreviation exec := (exec fd workers).
Local Abbreviation reachable := (reachable fd workers).

(** ** Who has the listening socket *)
Definition holds (p : StopPc) : nat := match p with PShutdown | PClose => 1 | _ => 0 end.
Definition serve_holds (p : ServePc) : nat :=
  match p with SBind | SListen | SSetRunning | SPublish | SClose => 1 | _ => 0 end.
Definition unpublished (p : ServePc) : bool :=
  match p with SSpawn _ | SExchange => false | _ => true end.
Definition published (n : Z) : nat := if (0 <=? n)%Z then 1 else 0.
Definition owners x : nat :=
  published (server_fd_ (shared x)) + sum_list_with holds (stops x) + serve_holds (serving x).
Definition created (l : Listener) : nat := match l with NoSocket => 0 | _ => 1 end.

Lemma holds_returned ps : Forall (fun p => p = PReturned) ps -> sum_list_with holds ps = 0%nat.
Proof. induction 1 as [|p ps -> _ IH]; [done|exact IH]. Qed.

Record socket_inv x : Prop := {
  si_owned : owners x + closes (shared x) = created (listener (shared x));
  si_closed : listener (shared x) = ClosedSocket <-> (0 < closes (shared x))%nat;
  si_none : serving x = SSocket -> listener (shared x) = NoSocket;
  si_unpublished : unpublished (serving x) = true -> (server_fd_ (shared x) < 0)%Z;
  si_shut : PClose ∈ stops x -> listener (shared x) = ShutDown }.

Lemma created_le l : (created l <= 1)%nat.
Proof. by destruct l; cbn; lia. Qed.
Lemma elem_insert {A} (l : list A) i (a b : A) : a ∈ <[i := b]> l -> a = b \/ a ∈ l.
Proof.
  intros [j Hj]%list_elem_of_lookup. apply list_lookup_insert_Some in Hj as [(-> & <- & _)|[_ Hj]]; [by left|].
  right. by apply list_elem_of_lookup_2 in Hj.
Qed.

Lemma socket_start : socket_inv start.
Proof. split; cbn; [done|split; [done|lia]|done|done|by intros ?%not_elem_of_nil]. Qed.
Ltac own := unfold published in *;
  repeat match goal with
    | H : context [(?a <=? ?b)%Z] |- _ => destruct (Z.leb_spec a b)
    | |- context [(?a <=? ?b)%Z] => destruct (Z.leb_spec a b)
    end; cbn in *; try lia.
Lemma serve_socket_inv ok s s' sv sv' ws ws' ps :
  socket_inv (mkSystem s sv ws ps) -> serve_step fd workers ok s ws sv = Some (s', ws', sv') -> socket_inv (mkSystem s' sv' ws' ps).
Proof.
  intros [Ho Hc Hn Hu Hs] E. unfold owners in *. cbn [shared serving pool stops] in *. pose proof (created_le (listener s)).
  assert (Hp : created (listener s) <= serve_holds sv + closes s -> PClose ∉ ps) by (intros Hh Hp; pose proof (sum_elem holds _ _ Hp) as Hq; cbn in Hq; lia).
  unfold serve_step in E. repeat case_match; simplify_eq; cbn [unpublished serve_holds] in *;
    try (specialize (Hn eq_refl); rewrite Hn in *; cbn [created] in * ); try specialize (Hu eq_refl); try specialize (Hp ltac:(lia));
    split; unfold owners; cbn [shared serving pool stops running_ server_fd_ listener closes set_running set_server_fd set_listener close_fd unpublished serve_holds created];
    try done; try (by own); try (split; [intros|]; (done || by own)).
  all: by rewrite Hn.
Qed.
Lemma stop_socket_inv i p p' s s' sv ws ps :
  socket_inv (mkSystem s sv ws ps) -> ps !! i = Some p -> stop_step s p = Some (s', p') ->
  socket_inv (mkSystem s' sv ws (<[i := p']> ps)).
Proof.
  intros [Ho Hc Hn Hu Hs] Hi E. unfold owners in *. cbn [shared serving pool stops] in *. pose proof (created_le (listener s)).
  pose proof (list_elem_of_lookup_2 _ _ _ Hi) as Hel. pose proof (sum_elem holds _ _ Hel) as Hle.
  pose proof (sum_insert holds ps i p p' Hi) as Hsum.
  assert (Hin : PClose ∈ <[i := p']> ps -> p' = PClose \/ PClose ∈ ps) by (intros [->|]%elem_insert; auto).
  assert (Hno : sv = SSocket -> (holds p <= 0)%nat) by (intros Hsv; rewrite (Hn Hsv) in Ho; cbn in Ho; lia).
  unfold stop_step in E. repeat case_match; simplify_eq; cbn [holds] in *;
    split; unfold owners; cbn [shared serving pool stops running_ server_fd_ listener closes set_running set_server_fd set_listener close_fd created];
    try done; try (by own); try (by intros [?|?]%Hin; auto); try (intros Hsv; specialize (Hno Hsv); lia); try (split; intros; (lia || done)).
  intros Hq. pose proof (sum_elem holds _ _ Hq) as Hr. cbn in Hr. lia.
Qed.
Lemma worker_keeps (s s' : Shared Client) w w' : worker_step s w = Some (s', w') ->
  running_ s' = running_ s /\ server_fd_ s' = server_fd_ s /\ listener s' = listener s /\ closes s' = closes s.
Proof. unfold worker_step. intros E. by repeat case_match; simplify_eq. Qed.
Lemma socket_step x l y : socket_inv x -> step x l y -> socket_inv y.
Proof.
  intros Hi Hst. inversion Hst as [ok s s' sv sv' ws ws' ps E|i w w' s s' sv ws ps Hw E|i p p' s s' sv ws ps Hp E|c s sv ws ps Hl|i s sv ws ps Hw|s sv ws ps]; subst.
  - by eapply serve_socket_inv.
  - apply worker_keeps in E as (_ & E1 & E2 & E3). destruct Hi as [Ho Hc Hn Hu Hs].
    split; unfold owners in *; cbn [shared serving pool stops] in *; by rewrite ?E1, ?E2, ?E3.
  - by eapply stop_socket_inv.
  - by destruct Hi.
  - by destruct Hi.
  - destruct Hi as [Ho Hc Hn Hu Hs]. split; unfold owners in *; cbn [shared serving pool stops] in *; try done.
    + rewrite sum_snoc. cbn. lia.
    + intros [?|[=]%list_elem_of_singleton]%elem_of_app; auto.
Qed.
(** An invariant of the start and of the steps holds of the reachable states. *)
Lemma exec_inv (P : System Client -> Prop) x ls y : P x -> (forall x l y, P x -> step x l y -> P y) -> exec x ls y -> P y.
Proof. intros Hx Hp. induction 1; eauto. Qed.
Lemma reachable_inv (P : System Client -> Prop) x : P start -> (forall x l y, P x -> step x l y -> P y) -> reachable x -> P x.
Proof. intros Hx Hp [ls Hr]. by eapply exec_inv. Qed.

(** C8: The listening socket is closed once.  However [serve] and any number of calls of
    [stop] interleave, no two threads hold the listening socket, whoever is about to shut
    it down or close it finds it open, it is closed at most once, and once [serve] and the
    calls of [stop] have returned it is closed, if it was ever opened. *)
Theorem listener_closed_once x : reachable x ->
  (closes (shared x) <= 1)%nat /\
  ((serving x = SClose \/ PShutdown ∈ stops x \/ PClose ∈ stops x) ->
     listener (shared x) ≠ NoSocket /\ listener (shared x) ≠ ClosedSocket) /\
  (forall code, serving x = SReturned code -> Forall (fun p => p = PReturned) (stops x) ->
     listener (shared x) = NoSocket \/ closes (shared x) = 1%nat).
Proof.
  intros [Ho Hc Hn Hu Hs]%(reachable_inv socket_inv); [|apply socket_start|apply socket_step].
  unfold owners in *. pose proof (created_le (listener (shared x))). split; [lia|]. split.
  - intros Hh. assert (1 <= sum_list_with holds (stops x) + serve_holds (serving x))%nat.
    { destruct Hh as [->|[Hp|Hp]]; [cbn; lia| |]; pose proof (sum_elem holds _ _ Hp) as Hq; cbn in Hq; lia. }
    split; intros E; rewrite E in *; cbn in *; [lia|]. assert (0 < closes (shared x))%nat by by apply Hc. lia.
  - intros code E Hp. rewrite (holds_returned _ Hp), E in *. cbn in *. specialize (Hu eq_refl). destruct (listener _); cbn in *; [by left|right; own..].
Qed.

(** ** Clients *)
Definition held (w : WorkerPc Client) : list Client := match w with WHandle c => [c] | _ => [] end.
Definition in_flight (ws : list (WorkerPc Client)) : list Client := ws ≫= held.
Lemma in_flight_insert ws i w w' : ws !! i = Some w ->
  held w ++ in_flight (<[i := w']> ws) ≡ₚ held w' ++ in_flight ws.
Proof.
  unfold in_flight. revert i. induction ws as [|a ws IH]; intros [|i] E; [done..| |]; simpl in *.
  - injection E as ->. rewrite !app_assoc. apply Permutation_app_tail, Permutation_app_comm.
  - specialize (IH i E). by rewrite !(Permutation_app_swap_app _ (held a)), IH.
Qed.
Lemma in_flight_silent ws i w w' : ws !! i = Some w -> held w = [] -> held w' = [] ->
  in_flight (<[i := w']> ws) ≡ₚ in_flight ws.
Proof. intros Hi Hw Hw'. pose proof (in_flight_insert ws i w w' Hi) as E. by rewrite Hw, Hw' in E. Qed.

Definition clients_inv x : Prop :=
  let s := shared x in arrived s = accepted s ++ backlog s /\ accepted s ≡ₚ finished s ++ in_flight (pool x).
Lemma serve_clients ok s s' sv sv' ws ws' ps :
  clients_inv (mkSystem s sv ws ps) -> serve_step fd workers ok s ws sv = Some (s', ws', sv') -> clients_inv (mkSystem s' sv' ws' ps).
Proof.
  unfold clients_inv, serve_step. intros Hi E. repeat case_match; simplify_eq; try exact Hi.
  cbn [shared pool] in *. unfold in_flight. by rewrite bind_app, app_nil_r.
Qed.
Lemma worker_clients i w w' s s' sv ws ps :
  clients_inv (mkSystem s sv ws ps) -> ws !! i = Some w -> worker_step s w = Some (s', w') ->
  clients_inv (mkSystem s' sv (<[i := w']> ws) ps).
Proof.
  unfold clients_inv. cbn [shared pool]. intros [Ha Hf] Hi E. pose proof (in_flight_insert ws i w w' Hi) as Hp.
  unfold worker_step in E. repeat case_match; simplify_eq; cbn [held app] in Hp; try (by rewrite Hp);
    cbn [arrived accepted backlog finished take_client finish_client].
  - split; [by rewrite Ha, <- app_assoc|]. rewrite Hp, <- Permutation_cons_append, Hf. apply Permutation_middle.
  - split; [done|]. by rewrite Hf, <- Hp, <- app_assoc.
Qed.
Lemma clients_step x l y : clients_inv x -> step x l y -> clients_inv y.
Proof.
  intros Hi Hst. inversion Hst as [ok s s' sv sv' ws ws' ps E|i w w' s s' sv ws ps Hw E|i p p' s s' sv ws ps Hp E|c s sv ws ps Hl|i s sv ws ps Hw|s sv ws ps]; subst.
  - by eapply serve_clients.
  - by eapply worker_clients.
  - unfold stop_step in E. repeat case_match; by simplify_eq.
  - destruct Hi as [Ha Hf]. split; [|exact Hf]. cbn in *. by rewrite Ha, app_assoc.
  - destruct Hi as [Ha Hf]. split; [exact Ha|]. cbn in *. by rewrite (in_flight_silent _ _ _ _ Hw).
  - exact Hi.
Qed.

(** C7: Every client is served once.  However the workers interleave, the clients taken are
    the first that came, in the order in which they came; each of them is either done with
    or in the hands of a worker, and when the clients differ, of one worker. *)
Theorem clients_served_once x : reachable x ->
  arrived (shared x) = accepted (shared x) ++ backlog (shared x) /\
  accepted (shared x) ≡ₚ finished (shared x) ++ in_flight (pool x) /\
  (NoDup (arrived (shared x)) -> forall i j c,
     pool x !! i = Some (WHandle c) -> pool x !! j = Some (WHandle c) -> i = j /\ c ∉ finished (shared x)).
Proof.
  intros [Ha Hf]%(reachable_inv clients_inv); [|by split|apply clients_step]. split; [done|]. split; [done|].
  rewrite Ha. intros [Hn _]%NoDup_app i j c Hi Hj. rewrite Hf in Hn. apply NoDup_app in Hn as (_ & Hd & Hn).
  assert (Hin : forall k, pool x !! k = Some (WHandle c) -> c ∈ in_flight (pool x)).
  { intros k Hk. apply list_elem_of_bind. exists (WHandle c). split; [by left|by apply list_elem_of_lookup_2 in Hk]. }
  split; [|by intros Hc; apply (Hd c Hc), (Hin i)]. destruct (decide (i = j)) as [|Hne]; [done|exfalso].
  pose proof (in_flight_insert (pool x) i _ WDone Hi) as Hp. cbn in Hp. rewrite <- Hp in Hn. apply NoDup_cons in Hn as [Hn _].
  apply Hn, list_elem_of_bind. exists (WHandle c). split; [by left|].
  apply (list_elem_of_lookup_2 _ j). by rewrite list_lookup_insert_ne.
Qed.

(** ** Stopping *)
Definition before_workers (p : ServePc) : bool :=
  match p with SSocket | SBind | SListen | SSetRunning | SPublish => true | _ => false end.
Definition joined (p : ServePc) : bool := match p with SExchange | SClose | SReturned _ => true | _ => false end.
(** Why a worker in [accept] does not wait for ever. *)
Definition woken x : Prop :=
  running_ (shared x) = true \/ listener (shared x) ≠ Listening \/
  ((0 <= server_fd_ (shared x))%Z /\ PExchange ∈ stops x) \/ PShutdown ∈ stops x.
Record run_inv x : Prop := {
  ri_socket : socket_inv x;
  ri_none : before_workers (serving x) = true -> pool x = [];
  ri_joined : joined (serving x) = true -> forallb is_done (pool x) = true;
  ri_woken : WAccept ∈ pool x -> woken x }.

Lemma all_done (ws : list (WorkerPc Client)) w : forallb is_done ws = true -> w ∈ ws -> w = WDone.
Proof.
  intros Hf Hw. rewrite forallb_forall in Hf. specialize (Hf w). rewrite <- list_elem_of_In in Hf. by destruct w; try specialize (Hf Hw).
Qed.
(** While workers run, the socket is published, being shut down or shut down already. *)
Lemma stoppable x : run_inv x -> WAccept ∈ pool x ->
  (0 <= server_fd_ (shared x))%Z \/ PShutdown ∈ stops x \/ listener (shared x) ≠ Listening.
Proof.
  intros [[Ho Hc Hn Hu Hs] Hb Hj _] Hw. unfold owners in Ho.
  assert (Hsv : serve_holds (serving x) = 0%nat /\ serving x ≠ SSocket).
  { destruct (serving x); try done; try (by rewrite (Hb eq_refl) in Hw; apply not_elem_of_nil in Hw);
      by pose proof (all_done _ _ (Hj eq_refl) Hw). }
  destruct Hsv as [Hsv _]. rewrite Hsv in Ho. unfold published in Ho. destruct (Z.leb_spec 0 (server_fd_ (shared x))); [by left|right].
  destruct (decide (listener (shared x) = Listening)) as [E|]; [left|by right]. rewrite E in *. cbn in Ho.
  assert (closes (shared x) = 0)%nat as Hz by (destruct (closes (shared x)); [done|by assert (Listening = ClosedSocket) by (apply Hc; lia)]).
  destruct (sum_pos holds (stops x)) as (p & Hp & Hh); [lia|]. destruct p; cbn in Hh; try lia; [done|by apply Hs in Hp].
Qed.
Lemma run_start : run_inv start.
Proof. split; [apply socket_start|done|done|]. cbn. by intros ?%not_elem_of_nil. Qed.
(** A worker that moves was not done, so [serve] is starting or joining the workers. *)
Lemma moving_worker i w s sv ws ps : run_inv (mkSystem s sv ws ps) -> ws !! i = Some w -> w ≠ WDone ->
  before_workers sv = false /\ joined sv = false.
Proof.
  intros [_ Hb Hj _] Hi Hw. cbn [serving pool] in *. split.
  - destruct (before_workers sv); [|done]. by rewrite (Hb eq_refl) in Hi.
  - destruct (joined sv); [|done]. by pose proof (all_done _ _ (Hj eq_refl) (list_elem_of_lookup_2 _ _ _ Hi)).
Qed.
Lemma serve_woken ok s s' sv sv' ws ws' ps : run_inv (mkSystem s sv ws ps) ->
  serve_step fd workers ok s ws sv = Some (s', ws', sv') -> WAccept ∈ ws' -> woken (mkSystem s' sv' ws' ps).
Proof.
  intros [_ Hb Hj Hw] E. unfold woken, serve_step in *. cbn [shared serving pool stops] in *.
  repeat case_match; simplify_eq; cbn [before_workers joined] in *; intros Hin;
    try (by rewrite (Hb eq_refl) in Hin; apply not_elem_of_nil in Hin);
    try (by match goal with Hd : forallb is_done _ = true |- _ => pose proof (all_done _ _ Hd Hin) end);
    try (by pose proof (all_done _ _ (Hj eq_refl) Hin)).
  apply elem_of_app in Hin as [Hin|[=]%list_elem_of_singleton]. by apply Hw.
Qed.
Lemma stop_woken i p p' s s' sv ws ps : run_inv (mkSystem s sv ws ps) ->
  ps !! i = Some p -> stop_step s p = Some (s', p') -> WAccept ∈ ws -> woken (mkSystem s' sv ws (<[i := p']> ps)).
Proof.
  intros Hi Hp E Hin. pose proof (stoppable _ Hi Hin) as Hs. destruct Hi as [_ _ _ Hw]. specialize (Hw Hin).
  assert (Hkeep : forall q, q ∈ ps -> q ≠ p -> q ∈ <[i := p']> ps).
  { intros q [j Hj]%list_elem_of_lookup Hne. apply (list_elem_of_lookup_2 _ j). rewrite list_lookup_insert_ne; [done|congruence]. }
  assert (Hnew : p' ∈ <[i := p']> ps).
  { apply (list_elem_of_lookup_2 _ i), list_lookup_insert_eq. by apply lookup_lt_Some in Hp. }
  unfold woken, stop_step in *. cbn [shared serving pool stops] in *. destruct p; simplify_eq;
    cbn [running_ server_fd_ listener set_running set_server_fd set_listener close_fd].
  - destruct Hs as [Hs|[Hs|Hs]]; [right; right; left; by split|by right; right; right; apply Hkeep|by right; left].
  - destruct Hw as [|[|[[Hw _]|]]]; [by left|by right; left| |by right; right; right; apply Hkeep].
    apply Z.leb_le in Hw. rewrite Hw in *. by right; right; right.
  - by right; left.
  - by right; left.
Qed.
Lemma run_step x l y : run_inv x -> step x l y -> run_inv y.
Proof.
  intros Hi Hst. pose proof (socket_step _ _ _ (ri_socket _ Hi) Hst) as Hs.
  inversion Hst as [ok s s' sv sv' ws ws' ps E|i w w' s s' sv ws ps Hiw E|i p p' s s' sv ws ps Hp E|c s sv ws ps Hl|i s sv ws ps Hiw|s sv ws ps]; subst.
  - split; cbn [serving pool]; [done| | |exact (serve_woken _ _ _ _ _ _ _ _ Hi E)]; destruct Hi as [_ Hb Hj _];
      unfold serve_step in E; cbn [serving pool] in *; repeat case_match; simplify_eq; try done; try (by intros _; apply Hb);
      try (by intros _; apply Hj); by rewrite (Hb eq_refl).
  - assert (Hd : w ≠ WDone) by (intros ->; done). destruct (moving_worker _ _ _ _ _ _ Hi Hiw Hd) as [Hb Hj].
    split; cbn [serving pool]; [done|by rewrite Hb|by rewrite Hj|]. intros [Hw|Hin]%elem_insert.
    + subst w'. left. cbn. unfold worker_step in E. by repeat case_match; simplify_eq.
    + destruct (worker_keeps _ _ _ _ E) as (E1 & E2 & E3 & _). unfold woken. cbn. rewrite E1, E2, E3. exact (ri_woken _ Hi Hin).
  - split; cbn [serving pool]; [done|apply Hi|apply Hi|by eapply stop_woken].
  - destruct Hi as [? Hb Hj Hw]. by split.
  - destruct (moving_worker _ _ _ _ _ _ Hi Hiw ltac:(done)) as [Hb Hj].
    split; cbn [serving pool]; [done|by rewrite Hb|by rewrite Hj|]. intros [[=]|Hin]%elem_insert. exact (ri_woken _ Hi Hin).
  - destruct Hi as [? Hb Hj Hw]. split; cbn [serving pool] in *; [done|done|done|]. intros Hin.
    destruct (Hw Hin) as [?|[?|[[??]|?]]]; [by left|by right; left|right; right; left|right; right; right];
      cbn [shared stops] in *; rewrite ?elem_of_app; auto.
Qed.

(** [stop] has stored to [running_] and [serve] will not store to it again. *)
Definition stopping x : Prop :=
  running_ (shared x) = false /\
  match serving x with SPublish | SSpawn _ | SExchange | SClose | SReturned 0%Z => True | _ => False end.
(** The turns the threads have left when they are stopping. *)
Definition worker_turns (w : WorkerPc Client) : nat :=
  match w with WDone => 0 | WTest | WFailed => 1 | WHandle _ => 2 | WAccept => 3 end.
Definition stop_turns (p : StopPc) : nat :=
  match p with PStore => 4 | PExchange => 3 | PShutdown => 2 | PClose => 1 | PReturned => 0 end.
Definition serve_turns (p : ServePc) : nat :=
  match p with SPublish => 2 * pool_size workers + 4 | SSpawn n => 2 * n + 3 | SExchange => 2 | SClose => 1 | _ => 0 end.
Definition turns x : nat :=
  serve_turns (serving x) + sum_list_with worker_turns (pool x) + sum_list_with stop_turns (stops x).
Definition is_thread (l : Label Client) : bool := match l with Thread => true | _ => false end.
Definition is_call (l : Label Client) : bool := match l with StopCalled => true | _ => false end.
Definition count (f : Label Client -> bool) (ls : list (Label Client)) : nat := sum_list_with (fun l => if f l then 1 else 0) ls.

Lemma step_turns x l y : stopping x -> step x l y -> stopping y /\
  ((if is_thread l then 1 else 0) + turns y <= turns x + (if is_call l then 4 else 0))%nat.
Proof.
  intros [Hr Hsv] Hst. unfold stopping, turns.
  inversion Hst as [ok s s' sv sv' ws ws' ps E|i w w' s s' sv ws ps Hiw E|i p p' s s' sv ws ps Hp E|c s sv ws ps Hl|i s sv ws ps Hiw|s sv ws ps]; subst;
    cbn [shared serving pool stops is_thread is_call] in *.
  - unfold serve_step in E. repeat case_match; simplify_eq; try done; cbn [serve_turns running_ set_server_fd close_fd];
      rewrite ?sum_snoc; cbn [worker_turns]; (split; [by split|lia]).
  - destruct (worker_keeps _ _ _ _ E) as (E1 & _). rewrite E1. split; [done|]. pose proof (sum_insert worker_turns _ _ _ w' Hiw).
    unfold worker_step in E. rewrite Hr in E. repeat case_match; simplify_eq; cbn [worker_turns] in *; lia.
  - pose proof (sum_insert stop_turns _ _ _ p' Hp). unfold stop_step in E.
    repeat case_match; simplify_eq; cbn [stop_turns running_ set_running set_server_fd set_listener close_fd] in *; (split; [by split|lia]).
  - split; [by split|lia].
  - pose proof (sum_insert worker_turns _ _ _ WFailed Hiw). cbn [worker_turns] in *. split; [by split|lia].
  - rewrite sum_snoc. cbn [stop_turns]. split; [by split|lia].
Qed.
Lemma exec_turns x ls y : stopping x -> exec x ls y -> stopping y /\
  (count is_thread ls + turns y <= turns x + 4 * count is_call ls)%nat.
Proof.
  intros Hx. unfold count. induction 1 as [x|x ls y l z _ IH Hst]; [split; [done|cbn; lia]|].
  destruct (IH Hx) as [Hy Hc]. destruct (step_turns _ _ _ Hy Hst) as [Hz Ht]. split; [done|].
  rewrite !sum_snoc. destruct (is_thread l), (is_call l); lia.
Qed.
(** A thread can take a turn as long as [serve] has not returned. *)
Lemma thread_moves x : run_inv x -> stopping x -> serving x = SReturned 0 \/ exists y, step x Thread y.
Proof.
  intros Hi [Hr Hsv]. pose proof (ri_woken _ Hi) as Hw. destruct x as [s sv ws ps]. cbn [shared serving pool] in *.
  assert (Hserve : forall r, serve_step fd workers true s ws sv = Some r -> exists y, step (mkSystem s sv ws ps) Thread y).
  { intros [[s' ws'] sv'] E. eexists. by eapply step_serve. }
  assert (Hwork : forall i w r, ws !! i = Some w -> worker_step s w = Some r -> exists y, step (mkSystem s sv ws ps) Thread y).
  { intros i w [s' w'] Hi' E. eexists. by eapply step_worker. }
  assert (Hstop : forall p, p ∈ ps -> p ≠ PReturned -> exists y, step (mkSystem s sv ws ps) Thread y).
  { intros p [i Hp]%list_elem_of_lookup Hne. destruct (stop_step s p) as [[s' p']|] eqn:E; [|by destruct p].
    eexists. by eapply step_stop. }
  destruct sv as [| | | | |[|n]| | |[| |]]; try done; try (right; by eapply Hserve); [|by left].
  right. destruct (forallb is_done ws) eqn:Ed; [eapply Hserve; cbn; by rewrite Ed|].
  destruct (existsb (fun w => negb (is_done w)) ws) eqn:Ex.
  - apply existsb_exists in Ex as (w & Hin & Hd). apply list_elem_of_In in Hin as Hel. destruct (list_elem_of_lookup_1 _ _ Hel) as [i Hiw].
    destruct w; try done; try (by eapply Hwork).
    destruct (Hw Hel) as [?|[?|[[_ Hp]|Hp]]]; cbn [shared stops] in *; [congruence| |by eapply Hstop|by eapply Hstop].
    eapply (Hwork i _ (s, WFailed)); [done|]. cbn. by destruct (listener s).
  - exfalso. rewrite <- not_true_iff_false in Ed. apply Ed, forallb_forall. intros w Hin.
    destruct (is_done w) eqn:Ew; [done|]. rewrite <- not_true_iff_false in Ex. exfalso. apply Ex, existsb_exists. exists w. by rewrite Ew.
Qed.

(** C6: [stop] ends [serve].  Once a call of [stop] has stored to [running_] after [serve]
    did, under every schedule the threads take only so many more turns (four for each
    further call of [stop]), whatever clients come and accepts fail; and as long as
    [serve] has not returned some thread has a turn to take.  So [serve] returns 0, and
    when it does no worker is left in the loop and no client in a worker's hands. *)
Theorem stop_ends_serve x ls y : reachable x -> stopping x -> exec x ls y ->
  (count is_thread ls <= turns x + 4 * count is_call ls)%nat /\
  ((exists z, step y Thread z) \/
   serving y = SReturned 0 /\ Forall (fun w => w = WDone) (pool y) /\ accepted (shared y) ≡ₚ finished (shared y)).
Proof.
  intros Hr Hx He. destruct (exec_turns _ _ _ Hx He) as [Hy Hc]. split; [lia|].
  pose proof (reachable_inv run_inv x run_start run_step Hr) as Hi. apply (exec_inv run_inv _ _ _ Hi run_step) in He as Hi'.
  destruct (thread_moves y Hi' Hy) as [E|]; [right|by left].
  pose proof (ri_joined _ Hi') as Hj. rewrite E in Hj. specialize (Hj eq_refl).
  assert (Hd : Forall (fun w => w = WDone) (pool y)) by (apply Forall_forall; intros w Hw; by apply (all_done (pool y))).
  split; [done|]. split; [done|].
  pose proof (reachable_inv clients_inv x ltac:(by split) clients_step Hr) as Hci.
  destruct (exec_inv clients_inv _ _ _ Hci clients_step He) as [_ Hf]. rewrite Hf.
  assert (in_flight (pool y) = []) as ->; [|by rewrite app_nil_r]. clear -Hd. by induction Hd as [|w ws -> _ IH].
Qed.

(** ** Schedules *)
Lemma exec_cons x l y ls z : step x l y -> exec y ls z -> exec x (l :: ls) z.
Proof.
  intros Hst He. induction He as [y|y ls w l' z _ IH Hz]; [exact (exec_snoc _ _ x [] x l y (exec_nil _ _ _) Hst)|].
  rewrite app_comm_cons. exact (exec_snoc _ _ _ _ _ _ _ (IH Hst) Hz).
Qed.
End proofs.
(** One turn of [serve] with its call succeeding, of worker [i], of [stop] number [i]. *)
Ltac by_serve := eapply exec_cons; [eapply (step_serve _ _ true); reflexivity|]; cbn.
Ltac by_worker i := eapply exec_cons; [eapply (step_worker _ _ i); reflexivity|]; cbn.
Ltac by_stop i := eapply exec_cons; [eapply (step_stop _ _ i); reflexivity|]; cbn.
Ltac by_call := eapply exec_cons; [eapply step_call|]; cbn.
Ltac by_arrival c := eapply exec_cons; [eapply (step_arrive _ _ c); reflexivity|]; cbn.

(** A server with one worker and one client, stopped while the client is being taken. *)
Definition demo_taken : System nat :=
  mkSystem (mkShared false (-1) Listening 0 [] [7] [7] []) (SSpawn 0) [WHandle 7] [PShutdown].
Definition demo_stopped : System nat :=
  mkSystem (mkShared false (-1) ClosedSocket 1 [] [7] [7] [7]) (SReturned 0) [WDone] [PReturned].
Lemma demo_takes : reachable 3 1 demo_taken.
Proof.
  eexists. do 6 by_serve. by_arrival 7. by_worker 0. by_call. by_stop 0. by_stop 0. by_worker 0. apply exec_nil.
Qed.
Lemma demo_stops : exists ls, exec 3 1 demo_taken ls demo_stopped.
Proof. eexists. do 2 by_stop 0. do 2 by_worker 0. do 2 by_serve. apply exec_nil. Qed.
Lemma demo_reaches : reachable 3 1 demo_stopped.
Proof.
  destruct demo_takes as [ls He], demo_stops as [ls' He']. exists (ls ++ ls').
  induction He' as [x|x l y a z _ IH Hst]; [by rewrite app_nil_r|]. rewrite app_assoc. eapply exec_snoc; [by apply IH|done].
Qed.

Lemma listener_closed_once_witness :
  (closes (shared demo_taken) <= 1)%nat /\ (listener (shared demo_stopped) = NoSocket \/ closes (shared demo_stopped) = 1%nat).
Proof.
  split; [exact (proj1 (listener_closed_once 3 1 demo_taken demo_takes))|].
  destruct (listener_closed_once 3 1 demo_stopped demo_reaches) as (_ & _ & Hc). apply (Hc 0%Z); [reflexivity|by repeat constructor].
Defined.
Lemma clients_served_once_witness :
  accepted (shared demo_taken) ≡ₚ finished (shared demo_taken) ++ in_flight (pool demo_taken) /\
  forall j c, pool demo_taken !! 0 = Some (WHandle c) -> pool demo_taken !! j = Some (WHandle c) -> 0 = j.
Proof.
  destruct (clients_served_once 3 1 demo_taken demo_takes) as (_ & Hf & Hd). split; [exact Hf|].
  intros j c H0 Hj. apply (Hd ltac:(apply NoDup_singleton) 0 j c H0 Hj).
Defined.
Lemma stop_ends_serve_witness : exists ls, exec 3 1 demo_taken ls demo_stopped /\
  (count is_thread ls <= turns 1 demo_taken + 4 * count is_call ls)%nat.
Proof.
  destruct demo_stops as [ls He]. exists ls. split; [exact He|].
  exact (proj1 (stop_ends_serve 3 1 demo_taken ls demo_stopped demo_takes (conj eq_refl I) He)).
Defined.

(** ** Two races *)
(** A [stop] that comes while [serve] sets up the socket is overwritten by the store of
    [true]: it returns, and without another call the server runs for ever. *)
Definition unstopped (x : System nat) : Prop :=
  running_ (shared x) = true /\ serving x = SSpawn 0 /\ stops x = [PReturned] /\ exists w, pool x = [w] /\ w ≠ WDone.
Lemma unstopped_step x l y : unstopped x -> step 3 1 x l y -> is_call l = false -> unstopped y.
Proof.
  intros (Hr & Hs & Hp & w & Hw & Hd) Hst. destruct x as [s sv ws ps]. cbn in *. subst sv ws ps.
  inversion Hst as [ok ? s' ? sv' ? ws' ? E|i w1 w' ? s' ? ? ? Hiw E|i p p' ? s' ? ? ? Hi E|c ? ? ? ? Hl|i ? ? ? ? Hiw|? ? ? ?]; subst; try done.
  - cbn in E. by destruct w.
  - intros _. destruct i as [|[|]]; [|done..]. injection Hiw as ->. destruct (worker_keeps _ _ _ _ E) as (E1 & _).
    split; [by rewrite <- Hr|]. do 2 (split; [done|]). exists w'. split; [done|]. intros ->.
    unfold worker_step in E. rewrite Hr in E. by repeat case_match; simplify_eq.
  - by destruct i as [|[|]]; [injection Hi as <-|..].
  - intros _. do 3 (split; [done|]). by exists w.
  - intros _. destruct i as [|[|]]; [|done..]. do 3 (split; [done|]). by exists WFailed.
Qed.
Lemma early_stop_is_lost : exists x : System nat, reachable 3 1 x /\ stops x = [PReturned] /\
  forall ls y, exec 3 1 x ls y -> count is_call ls = 0%nat -> running_ (shared y) = true /\ serving y = SSpawn 0.
Proof.
  exists (mkSystem (mkShared true 3 Listening 0 [] [] [] []) (SSpawn 0) [WTest] [PReturned]). split; [|split; [done|]].
  - eexists. do 3 by_serve. by_call. do 2 by_stop 0. do 3 by_serve. apply exec_nil.
  - intros ls y He Hc. assert (unstopped y) as (? & ? & _); [|done].
    remember (mkSystem _ _ _ _) as x eqn:E. induction He as [x|x ls y l z _ IH Hst].
    + subst x. do 3 (split; [done|]). by exists WTest.
    + unfold count in Hc. rewrite sum_snoc in Hc. assert (is_call l = false /\ count is_call ls = 0%nat) as [Hl Hz] by (unfold count; destruct (is_call l); split; (done || lia)).
      by apply (unstopped_step y l z); [apply IH| |].
Qed.
(** [accept] can be called on the descriptor after [stop] closed it, when the number may
    already be that of another file. *)
Lemma accept_after_close : exists x : System nat, reachable 3 1 x /\ listener (shared x) = ClosedSocket /\ pool x = [WAccept (Client := nat)].
Proof.
  eexists. split; [|split].
  - eexists. do 6 by_serve. by_worker 0. by_call. do 4 by_stop 0. apply exec_nil.
  - reflexivity.
  - reflexivity.
Qed.
