(* ===== verification/Websocket.v ===== *)
(** * websocket.hpp: RFC 6455 frames

    The accept key and the frame encoders and decoders.  SHA-1 is OpenSSL's, a
    parameter of [accept_key].  Lengths are 64-bit: [parse_frame] computes
    [i + len] modulo 2^64 and throws when [payload.reserve(len)] is asked for more
    than a string can hold. *)
From S2P Require Import Prelude CppString CppNum Base64.

Local Open Scope Z_scope.

Definition magic : string := "258EAFA5-E914-47DA-95CA-C5AB0DC85B11".
Definition accept_key (sha1 : string -> string) (client_key : string) : string :=
  base64 (sha1 (client_key +:+ magic)).

(** ** Encoding *)
(** [for (int i = k-1; i >= 0; --i) f.push_back((n >> (i * 8)) & 0xFF)]. *)
Fixpoint be_bytes (k : nat) (n : Z) : string :=
  match k with
  | O => ""
  | S i => String (chr (Z.land (Z.shiftr n (8 * Z.of_nat i)) 0xFF)) (be_bytes i n)
  end.

Definition encode_text (payload : string) : string :=
  str1 (chr 0x81)
  +:+ (if size payload <? 126 then str1 (chr (size payload))
       else str1 (chr 126)
            +:+ str1 (chr (Z.land (Z.shiftr (size payload) 8) 0xFF))
            +:+ str1 (chr (Z.land (size payload) 0xFF)))
  +:+ payload.

Definition encode_binary (payload : string) : string :=
  let n := size payload in
  str1 (chr 0x82)
  +:+ (if n <? 126 then str1 (chr n)
       else if n <=? 0xFFFF
       then str1 (chr 126) +:+ str1 (chr (Z.land (Z.shiftr n 8) 0xFF)) +:+ str1 (chr (Z.land n 0xFF))
       else str1 (chr 127) +:+ be_bytes 8 n)
  +:+ payload.

Definition encode_close : string := str1 (chr 0x88) +:+ str1 (chr 0x00).
Definition encode_close_code (code : Z) : string :=
  str1 (chr 0x88) +:+ str1 (chr 0x02)
  +:+ str1 (chr (Z.land (Z.shiftr code 8) 0xFF)) +:+ str1 (chr (Z.land code 0xFF)).
Definition encode_pong (payload : string) : string :=
  str1 (chr 0x8A) +:+ str1 (chr (Z.land (size payload) 0x7F)) +:+ payload.

(** ** Decoding *)
(** [static_cast<unsigned char>(buf[k])]; the terminating NUL stands past the end. *)
Definition byte (buf : string) (k : nat) : Z :=
  match s_at buf k with Some c => byte_of c | None => 0 end.

(** [for (int k = 0; k < 8; ++k) len = (len << 8) | byte(2 + k)]. *)
Fixpoint be_value (k : nat) (acc : Z) (buf : string) (i : nat) : Z :=
  match k with
  | O => acc
  | S k => be_value k (Z.lor (u64 (Z.shiftl acc 8)) (byte buf i)) buf (S i)
  end.

(** The payload loop from index [j] on, over the characters that follow. *)
Fixpoint unmask (masked : bool) (mask : nat -> Z) (j : nat) (s : string) : string :=
  match s with
  | "" => ""
  | String c s' =>
      let c := if masked then chr (Z.lxor (byte_of c) (mask (j mod 4)%nat)) else c in
      String c (unmask masked mask (S j) s')
  end.

Definition no_mask (k : nat) : Z := 0.
Definition mask_at (buf : string) (i k : nat) : Z := byte buf (i + k).

(** [decode]: one frame assumed complete (its header reads past the end of a shorter
    one are not guarded). *)
Definition decode (frame : string) : string :=
  if size frame <? 2 then ""
  else
    let masked := negb (Z.land (byte frame 1) 0x80 =? 0) in
    let len := Z.land (byte frame 1) 0x7F in
    let '(len, i) :=
      if len =? 126 then (Z.lor (Z.shiftl (byte frame 2) 8) (byte frame 3), 4%nat)
      else if len =? 127 then (be_value 8 0 frame 2, 10%nat)
      else (len, 2%nat) in
    let mask := if masked then mask_at frame i else no_mask in
    let i := if masked then (i + 4)%nat else i in
    unmask masked mask 0 (substr frame i (Z.to_nat len)).

Inductive Opcode : Type :=
  | Continuation | Text | Binary | Close | Ping | Pong
  | Reserved (code : Z).   (* a value of the 4-bit field with no enumerator *)
#[export] Instance Opcode_eq_dec : EqDecision Opcode.
Proof. solve_decision. Defined.
Definition opcode_of (b : Z) : Opcode :=
  if b =? 0 then Continuation
  else if b =? 1 then Text
  else if b =? 2 then Binary
  else if b =? 8 then Close
  else if b =? 9 then Ping
  else if b =? 10 then Pong
  else Reserved b.

Record Frame : Type := mkFrame {
  f_opcode : Opcode;
  f_payload : string;
  f_fin : bool;
  f_masked : bool;
  f_ok : bool;
  f_too_big : bool;
  f_consumed : nat
}.
Definition empty_frame : Frame := mkFrame Text "" false false false false 0.
#[export] Instance Frame_eq_dec : EqDecision Frame.
Proof. solve_decision. Defined.

(** [std::string::reserve] beyond [max_size()]. *)
Definition length_error : exn := StdExn "std::length_error".
Definition max_size : Z := 2 ^ 63 - 1.

(** The extended length: [None] when its bytes have not arrived. *)
Definition frame_length (buf : string) : option (Z * nat) :=
  let len := Z.land (byte buf 1) 0x7F in
  if len =? 126 then
    if size buf <? 4 then None
    else Some (Z.lor (Z.shiftl (byte buf 2) 8) (byte buf 3), 4%nat)
  else if len =? 127 then
    if size buf <? 10 then None else Some (be_value 8 0 buf 2, 10%nat)
  else Some (len, 2%nat).

Definition parse_frame (buf : string) (max_payload : Z) : res Frame :=
  if size buf <? 2 then Ok empty_frame
  else
    let fin := negb (Z.land (byte buf 0) 0x80 =? 0) in
    let opcode := opcode_of (Z.land (byte buf 0) 0x0F) in
    let masked := negb (Z.land (byte buf 1) 0x80 =? 0) in
    let partial := mkFrame opcode "" fin masked false false 0 in
    match frame_length buf with
    | None => Ok partial
    | Some (len, i) =>
        if max_payload <? len then Ok (mkFrame opcode "" fin masked false true 0)
        else if masked && (size buf <? Z.of_nat i + 4) then Ok partial
        else
          let mask := if masked then mask_at buf i else no_mask in
          let i := if masked then (i + 4)%nat else i in
          if size buf <? u64 (Z.of_nat i + len) then Ok partial
          else if max_size <? len then Throw length_error
          else
            Ok (mkFrame opcode (unmask masked mask 0 (substr buf i (Z.to_nat len))) fin masked
                  true false (Z.to_nat (u64 (Z.of_nat i + len))))
    end.

(** ** The length field *)
Lemma lor_shiftl_8 a b : 0 <= b < 256 -> Z.lor (Z.shiftl a 8) b = a * 256 + b.
Proof.
  intros Hb. rewrite <- (Z.add_0_r (Z.lor _ _)).
  replace 0 with (Z.land (Z.shiftl a 8) b); [rewrite Z.add_lor_land, Z.shiftl_mul_pow2 by lia; lia|].
  apply Z.bits_inj'. intros i Hi. rewrite Z.land_spec, Z.bits_0.
  destruct (decide (i < 8)) as [Hlt|Hge].
  - by rewrite Z.shiftl_spec_low.
  - rewrite <- (Z.mod_small b (2 ^ 8)) by lia. rewrite Z.mod_pow2_bits_high by lia. apply andb_false_r.
Qed.

Lemma byte_app_l s t k : (k < len s)%nat -> byte (s +:+ t) k = byte s k.
Proof. intros. unfold byte. by rewrite s_at_app_l. Qed.
Lemma byte_app_r s t k : byte (s +:+ t) (len s + k) = byte t k.
Proof. unfold byte. by rewrite s_at_app_r. Qed.
Lemma byte_bound s k : 0 <= byte s k < 256.
Proof. unfold byte. destruct (s_at s k) as [c|]; [apply byte_of_bound|lia]. Qed.

Lemma land_FF n : Z.land n 0xFF = n mod 256.
Proof. change 0xFF with (Z.ones 8). rewrite Z.land_ones by lia. done. Qed.
Lemma land_7F n : Z.land n 0x7F = n mod 128.
Proof. change 0x7F with (Z.ones 7). rewrite Z.land_ones by lia. done. Qed.

Lemma len_be_bytes k n : len (be_bytes k n) = k.
Proof. induction k; cbn; congruence. Qed.

(** The low bytes depend on the low bits only. *)
Lemma be_bytes_mod i k n : (i <= k)%nat -> be_bytes i n = be_bytes i (n mod 256 ^ Z.of_nat k).
Proof.
  induction i as [|i IHi]; intros Hi; [done|]. cbn [be_bytes]. rewrite IHi by lia. f_equal. f_equal.
  rewrite !land_FF, !Z.shiftr_div_pow2, Z.pow_mul_r by lia. change (2 ^ 8) with 256.
  replace (Z.of_nat k) with (Z.of_nat i + (1 + (Z.of_nat k - Z.of_nat i - 1))) by lia.
  rewrite !Z.pow_add_r by lia. set (A := 256 ^ Z.of_nat i).
  set (B := 256 ^ (Z.of_nat k - Z.of_nat i - 1)). change (256 ^ 1) with 256.
  assert (0 < A) by (apply Z.pow_pos_nonneg; lia). assert (0 < B) by (apply Z.pow_pos_nonneg; lia).
  rewrite Z.rem_mul_r by lia.
  rewrite (Z.mul_comm A), Z.div_add by lia. rewrite (Z.div_small (n mod A)) by (apply Z.mod_pos_bound; lia).
  rewrite Z.add_0_l. rewrite Z.mod_mod_divide; [done|]. exists B. lia.
Qed.

Lemma be_value_bytes k n acc u t :
  0 <= n < 256 ^ Z.of_nat k -> 0 <= acc -> acc * 256 ^ Z.of_nat k + n < 2 ^ 64 ->
  be_value k acc (u +:+ be_bytes k n +:+ t) (len u) = acc * 256 ^ Z.of_nat k + n.
Proof.
  revert n acc u; induction k as [|k IH]; intros n acc u Hn Ha Hb.
  - cbn in *. lia.
  - cbn [be_value be_bytes]. rewrite Nat2Z.inj_succ, Z.pow_succ_r in * by lia.
    set (P := 256 ^ Z.of_nat k) in *.
    assert (HP : 0 < P) by (apply Z.pow_pos_nonneg; lia).
    assert (Eb : byte (u +:+ String (chr (Z.land (Z.shiftr n (8 * Z.of_nat k)) 0xFF)) (be_bytes k n) +:+ t)
      (len u) = n / P).
    { rewrite <- (Nat.add_0_r (len u)), byte_app_r, s_app_cons. unfold byte. cbn [s_at].
      rewrite byte_of_chr_small; rewrite land_FF, Z.shiftr_div_pow2 by lia.
      - rewrite Z.pow_mul_r by lia. change (2 ^ 8) with 256. fold P. apply Z.mod_small.
        split; [apply Z.div_pos; lia|apply Z.div_lt_upper_bound; lia].
      - apply Z.mod_pos_bound. lia. }
    rewrite Eb.
    assert (Hq : 0 <= n / P < 256) by (split; [apply Z.div_pos; lia|apply Z.div_lt_upper_bound; lia]).
    pose proof (Z.div_mod n P ltac:(lia)) as Hdm. pose proof (Z.mod_pos_bound n P HP) as Hmod.
    rewrite u64_small by (rewrite Z.shiftl_mul_pow2 by lia; change (2 ^ 8) with 256; nia).
    rewrite lor_shiftl_8 by done.
    set (c := chr _) in *.
    replace (u +:+ String c (be_bytes k n) +:+ t) with ((u +:+ str1 c) +:+ be_bytes k n +:+ t)
      by (by rewrite s_app_assoc).
    replace (S (len u)) with (len (u +:+ str1 c)) by (rewrite length_s_app; cbn; lia).
    rewrite (be_bytes_mod k k n) by lia. fold P. rewrite IH; nia.
Qed.

(** ** A frame found in a prefix of the stream is the frame of the stream *)
Lemma be_value_app k acc s t i :
  (i + k <= len s)%nat -> be_value k acc (s +:+ t) i = be_value k acc s i.
Proof.
  revert acc i; induction k as [|k IH]; intros acc i Hi; [done|]. cbn [be_value].
  rewrite byte_app_l by lia. apply IH. lia.
Qed.

Lemma frame_length_app s t r :
  2 <= size s -> frame_length s = Some r -> frame_length (s +:+ t) = Some r.
Proof.
  intros H2 H. unfold frame_length in *. rewrite size_app, byte_app_l by (unfold size in *; lia).
  pose proof (size_nonneg t). cbn zeta in *.
  destruct (_ =? 126); [|destruct (_ =? 127)]; [..|done];
    (destruct (size s <? _) eqn:E; [done|]); bools;
    (replace (_ <? _) with false by (symmetry; apply Z.ltb_ge; lia)).
  - by rewrite !byte_app_l by (unfold size in *; lia).
  - by rewrite be_value_app by (unfold size in *; lia).
Qed.

Lemma be_value_bound k acc s i :
  0 <= acc < 2 ^ 64 -> 0 <= be_value k acc s i < 2 ^ 64.
Proof.
  revert acc i; induction k as [|k IH]; intros acc i Ha; [done|]. cbn [be_value]. apply IH.
  assert (Hm : u64 (Z.shiftl acc 8) = Z.shiftl (acc mod 2 ^ 56) 8).
  { unfold u64. rewrite !Z.shiftl_mul_pow2 by lia. change (2 ^ 64) with (2 ^ 56 * 2 ^ 8).
    by rewrite Z.mul_mod_distr_r by lia. }
  rewrite Hm, lor_shiftl_8 by apply byte_bound.
  pose proof (Z.mod_pos_bound acc (2 ^ 56) ltac:(lia)). pose proof (byte_bound s i).
  change (2 ^ 64) with (2 ^ 56 * 256). nia.
Qed.

Lemma frame_length_bound s n i :
  frame_length s = Some (n, i) -> 0 <= n < 2 ^ 64 /\ (2 <= i <= 10)%nat.
Proof.
  unfold frame_length. pose proof (byte_bound s 2). pose proof (byte_bound s 3).
  destruct (_ =? 126); [|destruct (_ =? 127)]; [case_goal; [done|]..|];
    intros [<- <-]%(inj Some)%pair_equal_spec.
  - rewrite lor_shiftl_8 by done. lia.
  - split; [apply be_value_bound|]; lia.
  - rewrite land_7F. pose proof (Z.mod_pos_bound (byte s 1) 128). lia.
Qed.

Lemma unmask_ext masked m m' j s :
  (masked = true -> forall k, (k < 4)%nat -> m k = m' k) -> unmask masked m j s = unmask masked m' j s.
Proof.
  intros Hm. revert j; induction s as [|c s IH]; intros j; [done|]. cbn [unmask]. rewrite IH. f_equal.
  destruct masked; [|done]. rewrite Hm; [done|done|]. by apply Nat.mod_upper_bound.
Qed.

Lemma len_unmask masked m j s : len (unmask masked m j s) = len s.
Proof. revert j; induction s; intros; cbn; congruence. Qed.

Lemma unmask_involutive masked m j s : unmask masked m j (unmask masked m j s) = s.
Proof.
  revert j; induction s as [|c s IH]; intros j; [done|]. cbn [unmask]. rewrite IH. f_equal.
  destruct masked; [|done]. apply (inj byte_of). rewrite !byte_of_chr.
  pose proof (byte_of_bound c) as Hc.
  change 256 with (2 ^ 8). rewrite <- !Z.land_ones by lia.
  apply Z.bits_inj'. intros i Hi. rewrite !Z.land_spec, !Z.lxor_spec, !Z.land_spec, !Z.lxor_spec.
  destruct (decide (i < 8)) as [Hlt|Hge].
  - rewrite Z.ones_spec_low by lia. rewrite !andb_true_r. by destruct (Z.testbit _ i), (Z.testbit _ i).
  - rewrite Z.ones_spec_high by lia. rewrite !andb_false_r. symmetry.
    rewrite <- (Z.mod_small (byte_of c) (2 ^ 8)) by (change (2 ^ 8) with 256; lia).
    apply Z.mod_pow2_bits_high. lia.
Qed.

(** A result that does not ask for more bytes. *)
Definition settled (r : res Frame) : bool :=
  match r with Ok f => f_ok f || f_too_big f | Throw _ => true end.

Lemma parse_frame_app s t cap :
  settled (parse_frame s cap) = true -> parse_frame (s +:+ t) cap = parse_frame s cap.
Proof.
  unfold parse_frame. pose proof (size_nonneg t). rewrite size_app.
  destruct (size s <? 2) eqn:E2; [done|]. bools. intros Hs.
  replace (_ <? 2) with false by (symmetry; apply Z.ltb_ge; lia).
  rewrite !byte_app_l by (unfold size in *; lia). cbn zeta in *.
  destruct (frame_length s) as [[n i]|] eqn:El; [|done].
  rewrite (frame_length_app _ t _ E2 El). destruct (cap <? n); [done|].
  destruct (frame_length_bound _ _ _ El) as [Hn Hi].
  destruct (negb (Z.land (byte s 1) 128 =? 0)) eqn:Em; cbn [andb] in *.
  - destruct (size s <? Z.of_nat i + 4) eqn:E4; [done|]. bools.
    replace (size s + size t <? Z.of_nat i + 4) with false by (symmetry; apply Z.ltb_ge; lia).
    destruct (size s <? u64 _) eqn:Eu; [done|]. bools.
    replace (size s + size t <? _) with false by (symmetry; apply Z.ltb_ge; lia).
    destruct (max_size <? n) eqn:Ex; [done|]. bools. unfold max_size in *.
    rewrite u64_small in * by lia. f_equal. f_equal.
    rewrite (unmask_ext _ (mask_at (s +:+ t) i) (mask_at s i)).
    2:{ intros _ k Hk. unfold mask_at. rewrite byte_app_l; [done|]. unfold size in *. lia. }
    unfold substr. rewrite s_drop_app_le, s_take_app_le; [done|rewrite length_s_drop|]; unfold size in *; lia.
  - destruct (size s <? u64 _) eqn:Eu; [done|]. bools.
    replace (size s + size t <? _) with false by (symmetry; apply Z.ltb_ge; lia).
    destruct (max_size <? n) eqn:Ex; [done|]. bools. unfold max_size in *.
    rewrite u64_small in * by lia. f_equal. f_equal. f_equal.
    unfold substr. rewrite s_drop_app_le, s_take_app_le; [done|rewrite length_s_drop|]; unfold size in *; lia.
Qed.

Lemma parse_frame_ok s cap f :
  parse_frame s cap = Ok f -> f_ok f = true ->
  f_too_big f = false /\ (2 <= f_consumed f <= len s)%nat /\ size (f_payload f) <= cap.
Proof.
  unfold parse_frame. destruct (size s <? 2); [by intros [= <-]|].
  destruct (frame_length s) as [[n i]|] eqn:El; [|by intros [= <-]].
  destruct (frame_length_bound _ _ _ El) as [Hn Hi]. cbn zeta.
  destruct (cap <? n) eqn:Ec; [by intros [= <-]|].
  set (b := negb (Z.land (byte s 1) 128 =? 0)). destruct (b && _); [by intros [= <-]|].
  set (j := if b then (i + 4)%nat else i). assert (2 <= j <= 14)%nat by (subst j; destruct b; lia).
  destruct (size s <? _) eqn:Eu; [by intros [= <-]|].
  destruct (max_size <? n) eqn:Ex; [done|]. intros [= <-] _. cbn. bools. unfold max_size in *.
  rewrite u64_small in * by lia. unfold size in *. rewrite len_unmask. unfold substr.
  rewrite length_s_take, length_s_drop. split_and!; [done|lia|lia|lia].
Qed.

(** ** Frames a peer sends *)
Definition len_field (mb n : Z) : string :=
  if n <? 126 then str1 (chr (mb + n))
  else if n <=? 0xFFFF then String (chr (mb + 126)) (be_bytes 2 n)
  else String (chr (mb + 127)) (be_bytes 8 n).

(** [key] is the masking key of a client frame, [None] for a server frame. *)
Definition frame_bytes (fin : bool) (op : Z) (key : option string) (payload : string) : string :=
  String (chr ((if fin then 0x80 else 0) + op))
    (len_field (if key is Some _ then 0x80 else 0) (size payload)
     +:+ match key with
         | Some k => k +:+ unmask true (byte k) 0 payload
         | None => payload
         end).

Lemma mask_bit mb x : (mb = 0 \/ mb = 128) -> 0 <= x < 128 ->
  Z.land (byte_of (chr (mb + x))) 0x7F = x /\
  negb (Z.land (byte_of (chr (mb + x))) 0x80 =? 0) = negb (mb =? 0).
Proof.
  intros Hm Hx. rewrite byte_of_chr_small by lia. split.
  - rewrite land_7F. destruct Hm as [-> | ->].
    + apply Z.mod_small. lia.
    + rewrite Z.add_mod, Z_mod_same_full, Z.add_0_l, Z.mod_mod by lia. apply Z.mod_small. lia.
  - assert (E : Z.land (mb + x) 128 = mb).
    { change 128 with (2 ^ 7). destruct Hm as [-> | ->].
      - apply Z.bits_inj'. intros i Hi. rewrite Z.land_spec, Z.bits_0, Z.pow2_bits_eqb by lia.
        destruct (7 =? i) eqn:Ei; bools; [|apply andb_false_r]. subst i.
        rewrite Z.add_0_l. rewrite <- (Z.mod_small x (2 ^ 7)) by lia. by rewrite Z.mod_pow2_bits_high by lia.
      - rewrite Z.add_comm. change (x + 128) with (x + 1 * 2 ^ 7). change 128 with (2 ^ 7).
        apply Z.bits_inj'. intros i Hi. rewrite Z.land_spec, !Z.pow2_bits_eqb by lia.
        destruct (7 =? i) eqn:Ei; bools; [|apply andb_false_r]. subst i. rewrite andb_true_r.
        rewrite Z.testbit_true by lia. rewrite Z.div_add, Z.div_small by lia. reflexivity. }
    by rewrite E.
Qed.

Lemma frame_length_field c mb n t :
  (mb = 0 \/ mb = 128) -> 0 <= n < 2 ^ 64 ->
  frame_length (String c (len_field mb n +:+ t)) = Some (n, S (len (len_field mb n))) /\
  negb (Z.land (byte (String c (len_field mb n +:+ t)) 1) 0x80 =? 0) = negb (mb =? 0).
Proof.
  intros Hm Hn. unfold len_field, frame_length.
  destruct (n <? 126) eqn:E1; [|destruct (n <=? 65535) eqn:E2]; bools.
  - change (byte (String c (str1 (chr (mb + n)) +:+ t)) 1) with (byte_of (chr (mb + n))).
    destruct (mask_bit mb n Hm ltac:(lia)) as [-> ->]. cbn zeta.
    by replace (n =? 126) with false by (symmetry; apply Z.eqb_neq; lia);
      replace (n =? 127) with false by (symmetry; apply Z.eqb_neq; lia).
  - rewrite s_app_cons. change (byte (String c (String (chr (mb + 126)) _)) 1)
      with (byte_of (chr (mb + 126))).
    destruct (mask_bit mb 126 Hm ltac:(lia)) as [-> ->]. cbn zeta. cbn [Z.eqb].
    split; [|done]. rewrite !size_cons, size_app.
    replace (size (be_bytes 2 n)) with 2 by (by unfold size; rewrite len_be_bytes).
    pose proof (size_nonneg t). change (126 =? 126) with true. cbn [negb].
    replace (_ <? 4) with false by (symmetry; apply Z.ltb_ge; lia).
    cbn [String.length]. rewrite len_be_bytes.
    assert (Hv : be_value 2 0 (String c (String (chr (mb + 126)) (be_bytes 2 n +:+ t))) 2 = n).
    { refine (be_value_bytes 2 n 0 (String c (str1 (chr (mb + 126)))) t _ _ _); cbn; lia. }
    cbn [be_value] in Hv. change (126 =? 126)%positive with true. cbn match.
    match type of Hv with context [byte ?b 2] => pose proof (byte_bound b 2) as Hb end.
    rewrite (lor_shiftl_8 0), Z.mul_0_l, Z.add_0_l in Hv by done.
    rewrite u64_small in Hv
      by (rewrite Z.shiftl_mul_pow2 by lia; change (2 ^ 8) with 256; lia).
    by rewrite Hv.
  - rewrite s_app_cons. change (byte (String c (String (chr (mb + 127)) _)) 1)
      with (byte_of (chr (mb + 127))).
    destruct (mask_bit mb 127 Hm ltac:(lia)) as [-> ->]. cbn zeta.
    split; [|done]. rewrite !size_cons, size_app.
    replace (size (be_bytes 8 n)) with 8 by (by unfold size; rewrite len_be_bytes).
    pose proof (size_nonneg t). change (127 =? 126) with false. change (127 =? 127) with true. cbn [negb].
    replace (_ <? 10) with false by (symmetry; apply Z.ltb_ge; lia).
    cbn [String.length]. rewrite len_be_bytes.
    do 2 f_equal.
    refine (be_value_bytes 8 n 0 (String c (str1 (chr (mb + 127)))) t _ _ _);
      change (256 ^ Z.of_nat 8) with (2 ^ 64); lia.
Qed.

Definition good_key (key : option string) : Prop := match key with Some k => len k = 4%nat | None => True end.
Definition masked_by (key : option string) : bool := match key with Some _ => true | None => false end.

Lemma len_len_field mb n : (1 <= len (len_field mb n) <= 9)%nat.
Proof. unfold len_field. repeat case_goal; cbn [String.length str1]; rewrite ?len_be_bytes; lia. Qed.

Lemma first_byte fin op :
  0 <= op < 16 ->
  let b := byte_of (chr ((if fin : bool then 0x80 else 0) + op)) in
  negb (Z.land b 0x80 =? 0) = fin /\ Z.land b 0x0F = op.
Proof.
  intros Hop. cbn zeta. split.
  - destruct (mask_bit (if fin then 128 else 0) op ltac:(destruct fin; lia) ltac:(lia)) as [_ ->].
    by destruct fin.
  - rewrite byte_of_chr_small by (destruct fin; lia).
    change 0x0F with (Z.ones 4). rewrite Z.land_ones by lia. change (2 ^ 4) with 16. destruct fin.
    + change 128 with (8 * 16). rewrite Z.add_comm, Z.mod_add by lia. apply Z.mod_small. lia.
    + apply Z.mod_small. lia.
Qed.

Lemma parse_frame_text fin op key payload rest cap :
  0 <= op < 16 -> good_key key -> size payload <= cap -> size payload <= max_size ->
  parse_frame (frame_bytes fin op key payload +:+ rest) cap =
    Ok (mkFrame (opcode_of op) payload fin (masked_by key) true false
          (len (frame_bytes fin op key payload))).
Proof.
  intros Hop Hk Hc Hx. unfold frame_bytes, parse_frame.
  set (mb := if key is Some _ then 0x80 else 0). assert (Hm : mb = 0 \/ mb = 128) by (subst mb; case_match; lia).
  set (body := match key with Some k => k +:+ unmask true (byte k) 0 payload | None => payload end).
  set (c := chr _). rewrite !s_app_cons, !s_app_assoc.
  pose proof (size_nonneg payload) as Hp. unfold max_size in Hx.
  destruct (frame_length_field c mb (size payload) (body +:+ rest) Hm ltac:(lia)) as [El Eb].
  pose proof (len_len_field mb (size payload)) as Hl.
  set (lf := len_field mb (size payload)) in *. set (buf := String c (lf +:+ body +:+ rest)) in *.
  rewrite El, Eb. change (byte buf 0) with (byte_of c).
  destruct (first_byte fin op Hop) as [Ef Eo]. fold c in Ef, Eo. cbn zeta. rewrite Ef, Eo.
  assert (Hbuf : size buf = 1 + Z.of_nat (len lf) + size body + size rest).
  { subst buf. rewrite size_cons, !size_app. unfold size. lia. }
  assert (Hbody : size body = size payload + if key is Some _ then 4 else 0).
  { subst body. destruct key as [k|]; [|lia]. rewrite size_app. cbn in Hk. unfold size. rewrite len_unmask. lia. }
  pose proof (size_nonneg rest).
  replace (size buf <? 2) with false by (symmetry; apply Z.ltb_ge; destruct key; lia).
  replace (cap <? size payload) with false by (symmetry; by apply Z.ltb_ge).
  assert (Edrop : forall k, (k <= len body)%nat -> s_drop (S (len lf) + k) buf = s_drop k body +:+ rest).
  { intros k Hk'. subst buf. cbn [s_drop Nat.add]. rewrite <- s_drop_drop, s_drop_app by done.
    by apply s_drop_app_le. }
  destruct key as [k|]; cbn [masked_by] in *; subst mb.
  - change (negb (128 =? 0)) with true. cbn [andb].
    replace (size buf <? _) with false by (symmetry; apply Z.ltb_ge; lia).
    rewrite u64_small by (unfold size in *; lia).
    replace (size buf <? _) with false by (symmetry; apply Z.ltb_ge; unfold size in *; lia).
    replace (max_size <? _) with false by (symmetry; apply Z.ltb_ge; done).
    f_equal. f_equal.
    + unfold substr. rewrite Edrop by (unfold size in *; lia). unfold body.
      rewrite s_drop_app by done. rewrite s_take_app by (unfold size; rewrite len_unmask; lia).
      rewrite (unmask_ext _ _ (byte k)); [apply unmask_involutive|].
      intros _ j Hj. unfold mask_at. subst buf. change (String c (lf +:+ body +:+ rest))
        with ((String c lf) +:+ body +:+ rest).
      change (S (len lf)) with (len (String c lf)). rewrite byte_app_r. subst body.
      rewrite s_app_assoc. apply byte_app_l. cbn in Hk. lia.
    + subst body. cbn [String.length]. rewrite !length_s_app, len_unmask. cbn in Hk. unfold size. lia.
  - change (negb (0 =? 0)) with false. cbn [andb].
    rewrite u64_small by (unfold size in *; lia).
    replace (size buf <? _) with false by (symmetry; apply Z.ltb_ge; unfold size in *; lia).
    replace (max_size <? _) with false by (symmetry; apply Z.ltb_ge; done).
    f_equal. f_equal.
    + unfold substr. rewrite <- (Nat.add_0_r (S (len lf))), Edrop by lia. rewrite s_drop_0.
      unfold body. rewrite s_take_app by (unfold size; lia).
      rewrite <- (unmask_involutive false no_mask 0 payload) at 2.
      clear. generalize 0%nat. induction payload as [|d p IH]; intros j; [done|]. cbn [unmask]. by f_equal.
    + subst body. cbn [String.length]. rewrite !length_s_app. unfold size. lia.
Qed.

Lemma encode_binary_bytes s : encode_binary s = frame_bytes true 2 None s.
Proof.
  unfold encode_binary, frame_bytes, len_field. cbn zeta.
  destruct (size s <? 126); [done|]. destruct (size s <=? 65535); [|done].
  cbn [be_bytes]. change (8 * Z.of_nat 1) with 8. change (8 * Z.of_nat 0) with 0.
  by rewrite Z.shiftr_0_r.
Qed.

Lemma parse_frame_prefix fin op key payload cap p t :
  0 <= op < 16 -> good_key key -> size payload <= cap -> size payload <= max_size ->
  frame_bytes fin op key payload = p +:+ t -> t ≠ "" ->
  exists f, parse_frame p cap = Ok f /\ f_ok f = false /\ f_too_big f = false.
Proof.
  intros Hop Hk Hc Hx E Ht.
  pose proof (parse_frame_text fin op key payload "" cap Hop Hk Hc Hx) as Hp.
  rewrite s_app_nil_r in Hp.
  destruct (settled (parse_frame p cap)) eqn:Es.
  - pose proof (parse_frame_app p t cap Es) as Ha. rewrite <- E in Ha. rewrite Ha in Hp.
    destruct (parse_frame_ok _ _ _ Hp eq_refl) as (_ & [_ Hle] & _). cbn [f_consumed] in Hle.
    rewrite E, length_s_app in Hle. destruct t; [done|]. cbn in Hle. lia.
  - destruct (parse_frame p cap) as [f|]; [|done]. cbn in Es. bools. eauto.
Qed.



(** [encode_binary] frames of every length form are read back whole. *)
Theorem encode_binary_parses (payload rest : string) (cap : Z) :
  size payload <= cap -> size payload <= max_size ->
  parse_frame (encode_binary payload +:+ rest) cap =
    Ok (mkFrame Binary payload true false true false (len (encode_binary payload))).
Proof. intros. rewrite !encode_binary_bytes. by rewrite parse_frame_text. Qed.

Lemma encode_binary_parses_witness :
  parse_frame (encode_binary "abc" +:+ "rest") 10 =
    Ok (mkFrame Binary "abc" true false true false (len (encode_binary "abc"))).
Proof. apply encode_binary_parses; vm_compute; discriminate. Defined.

Lemma encode_text_bytes s :
  size s < 65536 -> encode_text s = frame_bytes true 1 None s.
Proof.
  intros H. unfold encode_text, frame_bytes, len_field.
  destruct (size s <? 126); [done|]. destruct (size s <=? 65535) eqn:E; bools; [|lia].
  cbn [be_bytes]. change (8 * Z.of_nat 1) with 8. change (8 * Z.of_nat 0) with 0.
  by rewrite Z.shiftr_0_r.
Qed.

Lemma encode_text_long s :
  65536 <= size s -> let n := size s mod 65536 in
  126 <= n ->
  encode_text s = frame_bytes true 1 None (s_take (Z.to_nat n) s) +:+ s_drop (Z.to_nat n) s.
Proof.
  intros H n Hn. unfold encode_text, frame_bytes, len_field.
  assert (Hl : size (s_take (Z.to_nat n) s) = n).
  { unfold size. rewrite length_s_take. subst n. unfold size in *.
    pose proof (Z.mod_pos_bound (Z.of_nat (len s)) 65536 ltac:(lia)).
    assert (Z.of_nat (len s) mod 65536 <= Z.of_nat (len s)) by (apply Z.mod_le; lia). lia. }
  rewrite Hl. replace (size s <? 126) with false by (symmetry; apply Z.ltb_ge; lia).
  replace (n <? 126) with false by (symmetry; apply Z.ltb_ge; lia).
  pose proof (Z.mod_pos_bound (size s) 65536 ltac:(lia)).
  replace (n <=? 65535) with true by (symmetry; apply Z.leb_le; subst n; lia).
  assert (E : be_bytes 2 (size s) = be_bytes 2 n) by (apply (be_bytes_mod 2 2); lia).
  cbn [be_bytes] in E |- *. change (8 * Z.of_nat 1) with 8 in *. change (8 * Z.of_nat 0) with 0 in *.
  rewrite !Z.shiftr_0_r in *. injection E as E1 E2. rewrite E1, E2.
  unfold str1. rewrite !s_app_cons, !s_app_nil_l. by rewrite s_take_drop.
Qed.

(** Text frames carry the low 16 bits of the length only.  Below 64 KiB a text
    frame is read back whole; from 64 KiB on the receiver takes the first
    [size mod 65536] bytes for the message and the rest for the next frames. *)
Theorem encode_text_parses (payload : string) (cap : Z) :
  size payload <= cap -> (126 <= size payload mod 65536 \/ size payload < 65536) ->
  let n := size payload mod 65536 in
  exists frame rest, encode_text payload = frame +:+ rest /\
    rest = s_drop (Z.to_nat n) payload /\
    parse_frame (encode_text payload) cap =
      Ok (mkFrame Text (s_take (Z.to_nat n) payload) true false true false (len frame)).
Proof.
  intros Hc Hn n. pose proof (size_nonneg payload) as Hp.
  destruct (decide (size payload < 65536)) as [Hs|Hs].
  - assert (n = size payload) as -> by (subst n; apply Z.mod_small; lia).
    assert (E : Z.to_nat (size payload) = len payload) by (unfold size; lia). rewrite E.
    exists (encode_text payload), "". rewrite s_drop_ge, s_take_ge, s_app_nil_r by lia.
    split; [done|]. split; [done|]. rewrite encode_text_bytes by done.
    rewrite <- (s_app_nil_r (frame_bytes _ _ _ _)) at 1. rewrite parse_frame_text; try done.
    unfold max_size. lia.
  - destruct Hn as [Hn|]; [|lia]. fold n in Hn. pose proof (encode_text_long payload ltac:(lia) Hn) as E.
    cbn zeta in E. fold n in E. do 2 eexists. split; [exact E|]. split; [done|].
    rewrite E. pose proof (Z.mod_pos_bound (size payload) 65536 ltac:(lia)).
    assert (size (s_take (Z.to_nat n) payload) <= size payload /\ size (s_take (Z.to_nat n) payload) <= n).
    { unfold size. rewrite length_s_take. subst n. lia. }
    rewrite parse_frame_text; [done|lia|done|lia|unfold max_size; lia].
Qed.

Lemma encode_text_parses_witness :
  let payload := s_concat (replicate (Z.to_nat 65736) "x") in
  exists frame rest, encode_text payload = frame +:+ rest /\
    rest = s_drop (Z.to_nat (size payload mod 65536)) payload /\
    parse_frame (encode_text payload) 100000 =
      Ok (mkFrame Text (s_take (Z.to_nat (size payload mod 65536)) payload) true false true false (len frame)).
Proof.
  assert (E : size (s_concat (replicate (Z.to_nat 65736) "x")) = 65736).
  { unfold size. assert (H : forall k, len (s_concat (replicate k "x")) = k).
    { induction k as [|k IH]; [done|]. cbn [replicate s_concat foldr]. rewrite length_s_app.
      unfold s_concat in IH. rewrite IH. done. }
    rewrite H. lia. }
  apply (encode_text_parses (s_concat (replicate (Z.to_nat 65736) "x")) 100000); rewrite E; [lia|left; vm_compute; discriminate].
Defined.

Lemma parse_frame_no_throw buf cap : cap < max_size -> exists f, parse_frame buf cap = Ok f.
Proof.
  intros Hc. unfold parse_frame. cbn zeta. destruct (size buf <? 2); [eauto|].
  destruct (frame_length buf) as [[n i]|]; [|eauto].
  destruct (cap <? n) eqn:E; [eauto|]. bools. set (b := negb (Z.land (byte buf 1) 128 =? 0)).
  destruct (b && _); [eauto|]. destruct (size buf <? _); [eauto|].
  replace (max_size <? n) with false by (symmetry; apply Z.ltb_ge; lia). eauto.
Qed.

(** [parse_frame] never throws under a cap below 2^63, but with the default cap a
    ten-byte header announcing 2^64 - 1 bytes wraps the length check and throws. *)
Theorem parse_frame_throws (buf : string) :
  (forall cap, cap < max_size -> exists f, parse_frame buf cap = Ok f) /\
  (forall c, parse_frame (String c (String (chr 127) (be_bytes 8 (2 ^ 64 - 1)))) (2 ^ 64 - 1)
             = Throw length_error).
Proof.
  split.
  - intros cap Hc. by apply parse_frame_no_throw.
  - intros c. vm_compute. reflexivity.
Qed.
