(* ===== verification/WsServer.v ===== *)
(** * websocket_server.hpp: a live WebSocket connection

    The handshake with its origin gate, [receive] with fragment reassembly, size
    caps and control frames, the broadcast hub and the terminal loop.  The socket
    is scripted as in HttpServer.v.  [on_frame] is the switch of [receive].
    [session] is the contract of [receive], stated over the frames on the wire without the
    code's definitions; [receive_refines] shows that [receive] keeps it for any
    segmentation of the stream.
    The mutexes serialise whole sends, so a send is one atomic step here. *)
From S2P Require Import Prelude CppString CppNum Http Base64 Websocket HttpServer.

Local Open Scope Z_scope.

Section header.
Context `{MapOrder string}.
(** The first header, in iteration order, equal to [name] up to case. *)
Fixpoint header_scan (l : list (string * string)) (name : string) : string :=
  match l with
  | [] => ""
  | (k, v) :: l =>
      if negb (len k =? len name)%nat then header_scan l name
      else if bool_decide (lower k = lower name) then v else header_scan l name
  end.
Definition header_ci (req : Request) (name : string) : string :=
  header_scan (iter_map (headers req)) name.
End header.

(** One call of [send_all]: what it was given and what left. *)
Record Write : Type := mkWrite { w_out : string; w_sent : string }.

Record Connection : Type := mkConnection {
  fd_ : Z;
  client_key_ : string;
  origin_ : string;
  buf_ : string;
  max_message_bytes_ : Z;
  allowed_origins_ : list string;
  require_masked_ : bool;
  c_recvs : list string;
  c_sends : list Z;
  c_log : list Write
}.

Definition new_connection `{MapOrder string} (fd : Z) (req : Request) (recvs : list string)
    (sends : list Z) : Connection :=
  mkConnection fd (header_ci req "Sec-WebSocket-Key") (header_ci req "Origin") "" (1024 * 1024) []
    true recvs sends [].
Definition set_max_message_bytes (n : Z) (c : Connection) : Connection :=
  mkConnection (fd_ c) (client_key_ c) (origin_ c) (buf_ c) n (allowed_origins_ c)
    (require_masked_ c) (c_recvs c) (c_sends c) (c_log c).
Definition set_require_masked (on : bool) (c : Connection) : Connection :=
  mkConnection (fd_ c) (client_key_ c) (origin_ c) (buf_ c) (max_message_bytes_ c)
    (allowed_origins_ c) on (c_recvs c) (c_sends c) (c_log c).
Definition set_allowed_origins (os : list string) (c : Connection) : Connection :=
  mkConnection (fd_ c) (client_key_ c) (origin_ c) (buf_ c) (max_message_bytes_ c) os
    (require_masked_ c) (c_recvs c) (c_sends c) (c_log c).
Definition set_buf (b : string) (rs : list string) (c : Connection) : Connection :=
  mkConnection (fd_ c) (client_key_ c) (origin_ c) b (max_message_bytes_ c) (allowed_origins_ c)
    (require_masked_ c) rs (c_sends c) (c_log c).
Definition close (c : Connection) : Connection :=
  if 0 <=? fd_ c
  then mkConnection (-1) (client_key_ c) (origin_ c) (buf_ c) (max_message_bytes_ c)
         (allowed_origins_ c) (require_masked_ c) (c_recvs c) (c_sends c) (c_log c)
  else c.

(** [send_all] on this connection: true when everything left. *)
Definition conn_send (out : string) (c : Connection) : bool * Connection :=
  let '(sent, rest) := send_all (c_sends c) out in
  (bool_decide (sent = out),
   mkConnection (fd_ c) (client_key_ c) (origin_ c) (buf_ c) (max_message_bytes_ c)
     (allowed_origins_ c) (require_masked_ c) (c_recvs c) rest (c_log c ++ [mkWrite out sent])).

Definition send_text (payload : string) : Connection -> bool * Connection :=
  conn_send (encode_text payload).
Definition send_binary (bytes : string) : Connection -> bool * Connection :=
  conn_send (encode_binary bytes).
Definition send_control (out : string) (c : Connection) : Connection := (conn_send out c).2.

Section handshake.
Variable sha1 : string -> string.

Definition switching_protocols (key : string) : string :=
  "HTTP/1.1 101 Switching Protocols" +:+ crlf +:+ "Upgrade: websocket" +:+ crlf
  +:+ "Connection: Upgrade" +:+ crlf +:+ "Sec-WebSocket-Accept: " +:+ accept_key sha1 key
  +:+ crlf +:+ crlf.
Definition forbidden : string :=
  "HTTP/1.1 403 Forbidden" +:+ crlf +:+ "Connection: close" +:+ crlf +:+ crlf.

Fixpoint origin_ok (allowed : list string) (origin : string) : bool :=
  match allowed with
  | [] => false
  | o :: allowed => if bool_decide (o = origin) then true else origin_ok allowed origin
  end.

Definition handshake (c : Connection) : bool * Connection :=
  if bool_decide (client_key_ c = "") then (false, c)
  else
    match allowed_origins_ c with
    | [] => conn_send (switching_protocols (client_key_ c)) c
    | allowed =>
        if origin_ok allowed (origin_ c) then conn_send (switching_protocols (client_key_ c)) c
        else (false, (conn_send forbidden c).2)
    end.
End handshake.

(** ** receive *)
(** The inner loop: read until [parse_frame] settles.  [None] is [n <= 0]. *)
Fixpoint read_frame (cap : Z) (recvs : list string) (buf : string)
    : res (option Frame) * string * list string :=
  match parse_frame buf cap with
  | Throw e => (Throw e, buf, recvs)
  | Ok f =>
      if f_ok f || f_too_big f then (Ok (Some f), buf, recvs)
      else match recvs with
           | [] => (Ok None, buf, [])
           | "" :: recvs => (Ok None, buf, recvs)
           | chunk :: recvs => read_frame cap recvs (buf +:+ chunk)
           end
  end.

Inductive Outcome : Type :=
  | Deliver (m : string)                              (* return the message *)
  | Stop (reply : string)                             (* send, return nullopt *)
  | Go (reply : option string) (message : string) (fragmenting : bool).   (* continue *)

(** The switch over the opcode. *)
Definition on_frame (cap : Z) (message : string) (fragmenting : bool) (f : Frame) : Outcome :=
  match f_opcode f with
  | Close =>
      if 2 <=? size (f_payload f)
      then Stop (encode_close_code (Z.lor (Z.shiftl (byte (f_payload f) 0) 8) (byte (f_payload f) 1)))
      else Stop encode_close
  | Ping => Go (Some (encode_pong (f_payload f))) message fragmenting
  | Pong => Go None message fragmenting
  | Text | Binary =>
      if fragmenting then Stop (encode_close_code 1002)
      else if f_fin f then Deliver (f_payload f)
      else Go None (f_payload f) true
  | Continuation =>
      if negb fragmenting then Stop (encode_close_code 1002)
      else if cap <? u64 (size message + size (f_payload f)) then Stop (encode_close_code 1009)
      else
        let message := message +:+ f_payload f in
        if f_fin f then Deliver message else Go None message fragmenting
  | Reserved _ => Go None message fragmenting
  end.

Definition send_reply (r : option string) (c : Connection) : Connection :=
  match r with Some out => send_control out c | None => c end.

(** [for (;;)]: each turn that goes on consumes a frame of at least two bytes, so the
    bytes at hand bound the number of turns.  [None] is fuel running out. *)
Fixpoint receive_loop (fuel : nat) (message : string) (fragmenting : bool) (c : Connection)
    : option (res (option string) * Connection) :=
  match fuel with
  | O => None
  | S fuel =>
      let '(r, buf, rs) := read_frame (max_message_bytes_ c) (c_recvs c) (buf_ c) in
      let c := set_buf buf rs c in
      match r with
      | Throw e => Some (Throw e, c)
      | Ok None => Some (Ok None, c)
      | Ok (Some f) =>
          if f_too_big f then Some (Ok None, send_control (encode_close_code 1009) c)
          else if require_masked_ c && negb (f_masked f)
          then Some (Ok None, send_control (encode_close_code 1002) c)
          else
            let c := set_buf (s_drop (f_consumed f) (buf_ c)) rs c in
            match on_frame (max_message_bytes_ c) message fragmenting f with
            | Deliver m => Some (Ok (Some m), c)
            | Stop reply => Some (Ok None, send_control reply c)
            | Go reply message fragmenting =>
                receive_loop fuel message fragmenting (send_reply reply c)
            end
      end
  end.

(** The bytes this connection will still see. *)
Definition stream (c : Connection) : string := buf_ c +:+ s_concat (c_recvs c).
Definition receive (c : Connection) : option (res (option string) * Connection) :=
  receive_loop (S (len (stream c))) "" false c.

(** [while (auto msg = conn.receive()) on_input(conn, *msg)]; the callback may send. *)
Fixpoint run_terminal (fuel : nat) (on_input : Connection -> string -> Connection) (c : Connection)
    : option (res unit * Connection) :=
  match fuel with
  | O => None
  | S fuel =>
      match receive c with
      | None => None
      | Some (Throw e, c) => Some (Throw e, c)
      | Some (Ok None, c) => Some (Ok tt, c)
      | Some (Ok (Some m), c) => run_terminal fuel on_input (on_input c m)
      end
  end.

(** ** Hub: a registry of connections, by identity *)
Record Hub : Type := mkHub { conns_ : gset nat }.
Definition hub_add (i : nat) (h : Hub) : Hub := mkHub ({[i]} ∪ conns_ h).
Definition hub_remove (i : nat) (h : Hub) : Hub := mkHub (conns_ h ∖ {[i]}).
Definition hub_size (h : Hub) : nat := base.size (conns_ h).
Definition snapshot (h : Hub) : list nat := elements (conns_ h).

(** The connections live in a store; [c->send_text(text)] updates one of them. *)
Definition send_to (out : Connection -> bool * Connection) (st : gmap nat Connection) (i : nat)
    : gmap nat Connection :=
  match st !! i with Some c => <[i := (out c).2]> st | None => st end.
Definition broadcast (text : string) (h : Hub) (st : gmap nat Connection) : gmap nat Connection :=
  fold_left (send_to (send_text text)) (snapshot h) st.
Definition broadcast_binary (bytes : string) (h : Hub) (st : gmap nat Connection)
    : gmap nat Connection :=
  fold_left (send_to (send_binary bytes)) (snapshot h) st.

(** ** [receive] over whole frames *)
Record Wire : Type := mkWire { w_fin : bool; w_op : Z; w_key : option string; w_payload : string }.
Definition wire (w : Wire) : string := frame_bytes (w_fin w) (w_op w) (w_key w) (w_payload w).
Definition wires (ws : list Wire) : string := s_concat (map wire ws).
Definition wire_frame (w : Wire) : Frame :=
  mkFrame (opcode_of (w_op w)) (w_payload w) (w_fin w) (masked_by (w_key w)) true false (len (wire w)).
Definition good_wire (cap : Z) (w : Wire) : Prop :=
  0 <= w_op w < 16 /\ good_key (w_key w) /\ size (w_payload w) <= cap.

(** The loop with the segmentation taken out: what is returned, what was written, and the
    frames left on the stream; [None]
    when the frames end before a message does. *)
Fixpoint consume (cap : Z) (require_masked : bool) (message : string) (fragmenting : bool)
    (ws : list Wire) : option (option string * list string * list Wire) :=
  match ws with
  | [] => None
  | w :: rest =>
      if require_masked && negb (masked_by (w_key w)) then Some (None, [encode_close_code 1002], ws)
      else
        match on_frame cap message fragmenting (wire_frame w) with
        | Deliver m => Some (Some m, [], rest)
        | Stop reply => Some (None, [reply], rest)
        | Go reply message fragmenting =>
            match consume cap require_masked message fragmenting rest with
            | Some (r, out, rest) =>
                Some (r, match reply with Some o => o :: out | None => out end, rest)
            | None => None
            end
        end
  end.

(** ** [receive] implements [consume], for every segmentation of the stream *)
Lemma len_wire w : (2 <= len (wire w))%nat.
Proof.
  unfold wire, frame_bytes. cbn [String.length]. rewrite length_s_app.
  match goal with |- context [len_field ?m ?n] => pose proof (len_len_field m n) end. lia.
Qed.

Lemma read_frame_wire cap w t recvs buf :
  cap < max_size -> good_wire cap w -> Forall (fun c => c ≠ "") recvs ->
  buf +:+ s_concat recvs = wire w +:+ t ->
  exists buf' recvs', read_frame cap recvs buf = (Ok (Some (wire_frame w)), wire w +:+ buf', recvs') /\
    buf' +:+ s_concat recvs' = t /\ Forall (fun c => c ≠ "") recvs'.
Proof.
  intros Hcap (Hop & Hk & Hs) Hne. revert buf; induction recvs as [|c recvs IH]; intros buf E.
  - cbn [s_concat foldr] in E. rewrite s_app_nil_r in E. subst buf. exists t, [].
    cbn [read_frame]. unfold wire. rewrite parse_frame_text by (done || lia). cbn [s_concat foldr].
    split; [done|]. split; [apply s_app_nil_r|done].
  - apply Forall_cons in Hne as [Hc Hne].
    destruct (decide (len (wire w) <= len buf)%nat) as [Hle|Hgt].
    + assert (Eb : buf = wire w +:+ s_drop (len (wire w)) buf).
      { rewrite <- (s_take_drop (len (wire w)) buf) at 1. f_equal.
        rewrite <- (s_take_app_le _ buf (s_concat (c :: recvs))) by done. rewrite E. by apply s_take_app. }
      exists (s_drop (len (wire w)) buf), (c :: recvs). split; [|split; [|by apply Forall_cons]].
      * rewrite Eb at 1. cbn [read_frame]. unfold wire at 1 2. rewrite parse_frame_text by (done || lia).
        cbn [f_ok f_too_big orb]. by rewrite <- Eb.
      * rewrite Eb, s_app_assoc in E. apply (f_equal (s_drop (len (wire w)))) in E.
        by rewrite !s_drop_app in E by done.
    + assert (Eb : exists u, wire w = buf +:+ u /\ u ≠ "").
      { exists (s_drop (len buf) (wire w)). split.
        - rewrite <- (s_take_drop (len buf) (wire w)) at 1. f_equal.
          rewrite <- (s_take_app_le _ (wire w) t) by lia. rewrite <- E. by apply s_take_app.
        - intros Eu. apply (f_equal len) in Eu. rewrite length_s_drop in Eu. change (len "") with 0%nat in Eu. lia. }
      destruct Eb as (u & Eb & Hu).
      destruct (parse_frame_prefix _ _ _ (w_payload w) cap buf u Hop Hk ltac:(lia) ltac:(lia) Eb Hu)
        as (f & Ef & Hok & Hbig).
      cbn [read_frame]. rewrite Ef, Hok, Hbig. cbn [orb]. destruct c as [|x c]; [done|].
      apply IH; [done|]. rewrite <- E. cbn [s_concat foldr]. by rewrite s_app_assoc.
Qed.

(** What sending leaves alone. *)
Definition same_input (c c' : Connection) : Prop :=
  stream c' = stream c /\ c_recvs c' = c_recvs c /\ max_message_bytes_ c' = max_message_bytes_ c /\
  require_masked_ c' = require_masked_ c.
Definition written (c : Connection) : list string := map w_out (c_log c).

Lemma conn_send_spec out c :
  same_input c (conn_send out c).2 /\ written (conn_send out c).2 = written c ++ [out].
Proof.
  unfold conn_send, written. destruct (send_all _ _) as [sent rest]. cbn.
  split; [done|]. by rewrite map_app.
Qed.

Lemma send_reply_spec r c :
  same_input c (send_reply r c) /\
  written (send_reply r c) = written c ++ match r with Some o => [o] | None => [] end.
Proof.
  destruct r as [o|]; [apply conn_send_spec|]. split; [done|]. symmetry. apply app_nil_r.
Qed.

Lemma receive_loop_consume ws tail :
  forall cap rm message fragmenting r out rest fuel c,
  cap < max_size -> Forall (good_wire cap) ws -> Forall (fun x => x ≠ "") (c_recvs c) ->
  max_message_bytes_ c = cap -> require_masked_ c = rm ->
  stream c = wires ws +:+ tail -> (len (stream c) < fuel)%nat ->
  consume cap rm message fragmenting ws = Some (r, out, rest) ->
  exists c', receive_loop fuel message fragmenting c = Some (Ok r, c') /\
    stream c' = wires rest +:+ tail /\ written c' = written c ++ out /\
    Forall (fun x => x ≠ "") (c_recvs c') /\ max_message_bytes_ c' = cap /\ require_masked_ c' = rm.
Proof.
  induction ws as [|w ws IH]; intros cap rm message fragmenting r out rest fuel c Hcap Hws Hne Hm Hr E Hf H; [done|].
  apply Forall_cons in Hws as [Hw Hws]. destruct fuel as [|fuel]; [lia|].
  cbn [receive_loop consume] in *. unfold wires in E. cbn [map s_concat foldr] in E.
  fold (s_concat (map wire ws)) in E. fold (wires ws) in E. rewrite s_app_assoc in E.
  destruct (read_frame_wire cap w (wires ws +:+ tail) (c_recvs c) (buf_ c) Hcap Hw Hne E)
    as (buf' & recvs' & Er & E' & Hne').
  rewrite Hm, Er. cbn [f_too_big wire_frame f_masked set_buf require_masked_ max_message_bytes_]. rewrite Hr.
  destruct (rm && negb (masked_by (w_key w))).
  - injection H as <- <- <-. eexists. split; [done|]. unfold send_control.
    match goal with |- context [conn_send ?o ?c1] => destruct (conn_send_spec o c1) as [(S1 & S2 & S3 & S4) W] end.
    rewrite S1, S2, S3, S4, W. split; [|done].
    unfold stream. cbn [set_buf buf_ c_recvs]. rewrite s_app_assoc, E'. unfold wires.
    cbn [map s_concat foldr]. by rewrite s_app_assoc.
  - cbn [set_buf buf_]. rewrite Hm. change (f_consumed (wire_frame w)) with (len (wire w)).
    rewrite s_drop_app by done.
    set (c1 := set_buf buf' recvs' _).
    assert (E1 : stream c1 = wires ws +:+ tail) by done.
    destruct (on_frame cap message fragmenting (wire_frame w)) as [m|reply|reply m' fr'].
    + injection H as <- <- <-. exists c1. by rewrite app_nil_r.
    + injection H as <- <- <-. eexists. split; [done|]. unfold send_control.
      destruct (conn_send_spec reply c1) as [(S1 & S2 & S3 & S4) W].
      by rewrite S1, S2, S3, S4, W.
    + destruct (consume cap rm m' fr' ws) as [[[r0 out0] rest0]|] eqn:Ec; [|done]. injection H as <- <- <-.
      destruct (send_reply_spec reply c1) as [(S1 & S2 & S3 & S4) W].
      destruct (IH cap rm m' fr' r0 out0 rest0 fuel (send_reply reply c1)) as (c' & Hc' & Hs' & Hw' & Hrest);
        [done|done|by rewrite S2|by rewrite S3|by rewrite S4|by rewrite S1| |done|].
      { rewrite S1, E1. rewrite E, length_s_app in Hf. pose proof (len_wire w). lia. }
      exists c'. split; [done|]. split; [done|]. split; [|done]. rewrite Hw', W.
      destruct reply; cbn; by rewrite <- app_assoc, ?app_nil_r.
Qed.

(** ** The contract of [receive] *)
(** What RFC 6455 and the class comment ask for, over the frames on the wire.  Replies are
    whole unmasked frames; none of these definitions is the code's. *)
Definition server_frame (op : Z) (payload : string) : string := wire (mkWire true op None payload).
Definition close_frame (code : Z) : string :=
  server_frame 8 (String (chr (code / 256)) (str1 (chr (code mod 256)))).
(** A close is answered with its status code, or with none when it has none. *)
Definition close_answer (payload : string) : string :=
  match payload with
  | String a (String b _) => server_frame 8 (String a (str1 b))
  | _ => server_frame 8 ""
  end.
(** A frame a peer may send: a 4-bit opcode, a 4-byte key or none, a 64-bit length. *)
Definition wire_ok (w : Wire) : Prop :=
  0 <= w_op w < 16 /\ good_key (w_key w) /\ size (w_payload w) < 2 ^ 64.

Section contract.
Variables (cap : Z) (masked_only : bool) (tail : string).

(** The frames end in the middle of one, or between two. *)
Definition incomplete : Prop := exists w u, good_wire cap w /\ wire w = tail +:+ u /\ u ≠ "".
Definition accepted (key : option string) (payload : string) : Prop :=
  size payload <= cap /\ (masked_only = true -> key ≠ None).

(** [session so_far ws r out rest]: with the fragments [so_far] of a message at hand
    ([None]: no message begun), the frames [ws] make [receive] return [r], having sent
    [out], with the frames [rest] unread. *)
Inductive session : option (list string) -> list Wire -> option string -> list string ->
    list Wire -> Prop :=
  | S_ended st : incomplete -> session st [] None [] []
  | S_oversize st w ws :
      cap < size (w_payload w) -> session st (w :: ws) None [close_frame 1009] (w :: ws)
  | S_unmasked st w ws :
      size (w_payload w) <= cap -> masked_only = true -> w_key w = None ->
      session st (w :: ws) None [close_frame 1002] (w :: ws)
  | S_close st fin key p ws :
      accepted key p -> session st (mkWire fin 8 key p :: ws) None [close_answer p] ws
  | S_ping st fin key p ws r out rest :
      accepted key p -> size p <= 125 -> session st ws r out rest ->
      session st (mkWire fin 9 key p :: ws) r (server_frame 10 p :: out) rest
  | S_pong st fin key p ws r out rest :
      accepted key p -> session st ws r out rest ->
      session st (mkWire fin 10 key p :: ws) r out rest
  | S_reserved st fin op key p ws r out rest :
      accepted key p -> op ∉ [0; 1; 2; 8; 9; 10] -> session st ws r out rest ->
      session st (mkWire fin op key p :: ws) r out rest
  | S_whole op key p ws :
      accepted key p -> op = 1 \/ op = 2 ->
      session None (mkWire true op key p :: ws) (Some p) [] ws
  | S_first op key p ws r out rest :
      accepted key p -> op = 1 \/ op = 2 -> session (Some [p]) ws r out rest ->
      session None (mkWire false op key p :: ws) r out rest
  | S_again so_far fin op key p ws :
      accepted key p -> op = 1 \/ op = 2 ->
      session (Some so_far) (mkWire fin op key p :: ws) None [close_frame 1002] ws
  | S_orphan fin key p ws :
      accepted key p -> session None (mkWire fin 0 key p :: ws) None [close_frame 1002] ws
  | S_sum_too_big so_far fin key p ws :
      accepted key p -> cap < size (s_concat so_far) + size p ->
      session (Some so_far) (mkWire fin 0 key p :: ws) None [close_frame 1009] ws
  | S_next so_far key p ws r out rest :
      accepted key p -> size (s_concat so_far) + size p <= cap ->
      session (Some (so_far ++ [p])) ws r out rest ->
      session (Some so_far) (mkWire false 0 key p :: ws) r out rest
  | S_last so_far key p ws :
      accepted key p -> size (s_concat so_far) + size p <= cap ->
      session (Some so_far) (mkWire true 0 key p :: ws) (Some (s_concat (so_far ++ [p]))) [] ws.

(** Pings within the limit of a control frame. *)
Definition ping_ok (w : Wire) : Prop := w_op w = 9 -> size (w_payload w) <= 125.

(** The contract says what happens for any frames. *)
Lemma session_total ws st : incomplete -> Forall ping_ok ws ->
  exists r out rest, session st ws r out rest.
Proof.
  intros Hi H. revert st; induction H as [|[fin op key p] ws Hp H IH]; intros st.
  { do 3 eexists. by constructor. }
  destruct (Z_lt_le_dec cap (size p)) as [Hb|Hb]; [do 3 eexists; by apply S_oversize|].
  destruct (decide (masked_only = true /\ key = None)) as [[Hm ->]|Hm];
    [do 3 eexists; by apply S_unmasked|].
  assert (Ha : accepted key p) by (split; [done|]; intros ? ->; by apply Hm).
  destruct (decide (op = 8)) as [->|]; [do 3 eexists; by apply S_close|].
  destruct (decide (op = 9)) as [->|].
  { destruct (IH st) as (r & out & rest & Hs). do 3 eexists. apply S_ping; [done|by apply Hp|exact Hs]. }
  destruct (decide (op = 10)) as [->|].
  { destruct (IH st) as (r & out & rest & Hs). do 3 eexists. by apply S_pong. }
  destruct (decide (op = 1 \/ op = 2)) as [Hd|Hd].
  { destruct st as [so_far|]; [do 3 eexists; by apply S_again|].
    destruct fin; [do 3 eexists; by apply S_whole|].
    destruct (IH (Some [p])) as (r & out & rest & Hs). do 3 eexists. by apply S_first. }
  destruct (decide (op = 0)) as [->|].
  - destruct st as [so_far|]; [|do 3 eexists; by apply S_orphan].
    destruct (Z_lt_le_dec cap (size (s_concat so_far) + size p)); [do 3 eexists; by apply S_sum_too_big|].
    destruct fin; [do 3 eexists; by apply S_last|].
    destruct (IH (Some (so_far ++ [p]))) as (r & out & rest & Hs). do 3 eexists. by apply S_next.
  - destruct (IH st) as (r & out & rest & Hs). do 3 eexists. apply S_reserved; [done| |exact Hs].
    intros Hin. set_solver.
Qed.
End contract.

(** ** [receive] keeps the contract *)
(** A connection whose unread bytes are [t]. *)
Definition reading (cap : Z) (rm : bool) (t : string) (c : Connection) : Prop :=
  stream c = t /\ Forall (fun x => x ≠ "") (c_recvs c) /\ max_message_bytes_ c = cap /\
  require_masked_ c = rm.

Lemma reading_send cap rm t out c : reading cap rm t c ->
  reading cap rm t (conn_send out c).2 /\ written (conn_send out c).2 = written c ++ [out].
Proof.
  intros (? & ? & ? & ?). destruct (conn_send_spec out c) as [(S1 & S2 & S3 & S4) W].
  split; [|done]. unfold reading. by rewrite S1, S2, S3, S4.
Qed.

(** One frame within the cap: the loop takes the branch of its opcode. *)
Lemma loop_frame cap rm w t m fr fuel c :
  cap < max_size -> good_wire cap w -> reading cap rm (wire w +:+ t) c ->
  exists c0 c1, reading cap rm (wire w +:+ t) c0 /\ written c0 = written c /\
    reading cap rm t c1 /\ written c1 = written c /\
    receive_loop (S fuel) m fr c =
      if rm && negb (masked_by (w_key w)) then Some (Ok None, send_control (encode_close_code 1002) c0)
      else match on_frame cap m fr (wire_frame w) with
           | Deliver m => Some (Ok (Some m), c1)
           | Stop reply => Some (Ok None, send_control reply c1)
           | Go reply m fr => receive_loop fuel m fr (send_reply reply c1)
           end.
Proof.
  intros Hcap Hw (E & Hne & Hm & Hr). cbn [receive_loop].
  destruct (read_frame_wire cap w t (c_recvs c) (buf_ c) Hcap Hw Hne E) as (buf' & recvs' & Er & E' & Hne').
  exists (set_buf (wire w +:+ buf') recvs' c), (set_buf buf' recvs' c).
  rewrite Hm, Er. cbn [f_too_big wire_frame f_masked set_buf require_masked_ max_message_bytes_].
  rewrite Hr, Hm. unfold reading, stream, written.
  cbn [set_buf buf_ c_recvs max_message_bytes_ require_masked_ c_log].
  change (f_consumed (wire_frame w)) with (len (wire w)). rewrite s_drop_app by done.
  rewrite s_app_assoc, E'. done.
Qed.

Lemma wires_cons w ws : wires (w :: ws) = wire w +:+ wires ws.
Proof. reflexivity. Qed.

(** A stream that ends inside a frame. *)
Lemma loop_ended cap rm t m fr fuel c :
  cap < max_size -> incomplete cap t -> reading cap rm t c ->
  exists c', reading cap rm t c' /\ written c' = written c /\
    receive_loop (S fuel) m fr c = Some (Ok None, c').
Proof.
  intros Hcap (w & u & (Hop & Hk & Hsz) & Ew & Hu) (E & Hne & Hm & Hr). cbn [receive_loop].
  assert (Hread : read_frame cap (c_recvs c) (buf_ c) = (Ok None, t, [])).
  { unfold stream in E. revert E Hne. generalize (buf_ c) as buf.
    induction (c_recvs c) as [|x recvs IH]; intros buf E Hne.
    - cbn [s_concat foldr] in E. rewrite s_app_nil_r in E. subst buf.
      destruct (parse_frame_prefix _ _ _ _ cap t u Hop Hk Hsz ltac:(lia) Ew Hu) as (f & Ef & Ho & Hb).
      cbn [read_frame]. by rewrite Ef, Ho, Hb.
    - apply Forall_cons in Hne as [Hx Hne]. rewrite <- E, s_app_assoc in Ew.
      assert (Hu' : s_concat (x :: recvs) +:+ u ≠ "") by (destruct x; [done|]; discriminate).
      destruct (parse_frame_prefix _ _ _ _ cap buf _ Hop Hk Hsz ltac:(lia) Ew Hu') as (f & Ef & Ho & Hb).
      cbn [read_frame]. rewrite Ef, Ho, Hb. cbn [orb]. destruct x as [|d x]; [done|].
      apply IH; [|done]. rewrite <- E. cbn [s_concat foldr]. by rewrite s_app_assoc. }
  exists (set_buf t [] c). rewrite Hm, Hread. unfold reading, stream. cbn. rewrite s_app_nil_r. done.
Qed.

Lemma parse_frame_too_big b mb n t cap :
  (mb = 0 \/ mb = 128) -> 0 <= n < 2 ^ 64 -> cap < n ->
  exists f, parse_frame (String b (len_field mb n +:+ t)) cap = Ok f /\ f_too_big f = true.
Proof.
  intros Hm Hn Hc. unfold parse_frame.
  destruct (frame_length_field b mb n t Hm Hn) as [El _]. rewrite El.
  pose proof (len_len_field mb n) as Hl.
  replace (_ <? 2) with false
    by (symmetry; apply Z.ltb_ge; rewrite size_cons, size_app; unfold size; lia).
  cbn zeta. replace (cap <? n) with true by (symmetry; by apply Z.ltb_lt). eauto.
Qed.

(** A frame above the cap is refused and left where it is. *)
Lemma loop_oversize cap rm w t m fr fuel c :
  wire_ok w -> cap < size (w_payload w) -> reading cap rm (wire w +:+ t) c ->
  exists c', reading cap rm (wire w +:+ t) c' /\ written c' = written c /\
    receive_loop (S fuel) m fr c = Some (Ok None, send_control (encode_close_code 1009) c').
Proof.
  intros (Hop & Hk & Hsz) Hc (E & Hne & Hm & Hr). cbn [receive_loop].
  assert (Hbig : exists f, parse_frame (wire w +:+ t) cap = Ok f /\ f_too_big f = true).
  { unfold wire, frame_bytes. rewrite s_app_cons, s_app_assoc. pose proof (size_nonneg (w_payload w)).
    apply parse_frame_too_big; [destruct (w_key w); tauto|lia|done]. }
  destruct Hbig as (f & Ef & Hf).
  assert (Hread : exists buf recvs, read_frame cap (c_recvs c) (buf_ c) = (Ok (Some f), buf, recvs) /\
    buf +:+ s_concat recvs = wire w +:+ t /\ Forall (fun x => x ≠ "") recvs).
  { unfold stream in E. revert E Hne. generalize (buf_ c) as buf.
    assert (Hset : forall buf u, buf +:+ u = wire w +:+ t ->
      settled (parse_frame buf cap) = true -> parse_frame buf cap = Ok f)
      by (intros buf u Eb Hs; rewrite <- (parse_frame_app _ u _ Hs), Eb; exact Ef).
    induction (c_recvs c) as [|x recvs IH]; intros buf E Hne.
    - cbn [s_concat foldr] in E. rewrite s_app_nil_r in E. subst buf. cbn [read_frame].
      rewrite Ef, Hf, orb_true_r. exists (wire w +:+ t), []. by rewrite s_app_nil_r.
    - cbn [read_frame]. destruct (settled (parse_frame buf cap)) eqn:Es.
      + rewrite (Hset _ _ E Es), Hf, orb_true_r. by exists buf, (x :: recvs).
      + destruct (parse_frame buf cap) as [g|]; [|done]. cbn [settled] in Es. rewrite Es.
        apply Forall_cons in Hne as [Hx Hne]. destruct x as [|d x]; [done|].
        apply IH; [|done]. rewrite <- E. cbn [s_concat foldr]. by rewrite s_app_assoc. }
  destruct Hread as (buf & recvs & Er & E' & Hne').
  exists (set_buf buf recvs c). rewrite Hm, Er, Hf. unfold reading, stream. by rewrite <- E'.
Qed.

(** The code's replies are the frames of the contract. *)
Lemma close_code_frame hi lo : 0 <= hi < 256 -> 0 <= lo < 256 ->
  encode_close_code (Z.lor (Z.shiftl hi 8) lo) = server_frame 8 (String (chr hi) (str1 (chr lo))).
Proof.
  intros Hh Hl. unfold encode_close_code. rewrite lor_shiftl_8 by done.
  rewrite !land_FF, Z.shiftr_div_pow2 by lia. change (2 ^ 8) with 256.
  rewrite Z.div_add_l, Z.div_small, Z.add_0_r, Z.mod_small by lia.
  rewrite Z.add_comm, Z.mod_add, Z.mod_small by lia. reflexivity.
Qed.

Lemma on_close cap m fr fin key p :
  on_frame cap m fr (wire_frame (mkWire fin 8 key p)) = Stop (close_answer p).
Proof.
  unfold on_frame, wire_frame. cbn [f_opcode w_op f_payload w_payload].
  change (opcode_of 8) with Close. cbn match. destruct p as [|a [|b p]]; [done|done|].
  replace (2 <=? size (String a (String b p))) with true
    by (symmetry; apply Z.leb_le; unfold size; cbn; lia).
  change (byte (String a (String b p)) 0) with (byte_of a).
  change (byte (String a (String b p)) 1) with (byte_of b).
  rewrite close_code_frame by apply byte_of_bound. by rewrite !chr_byte_of.
Qed.

Lemma pong_frame p : size p <= 125 -> encode_pong p = server_frame 10 p.
Proof.
  intros H. unfold encode_pong, server_frame, wire, frame_bytes, len_field. pose proof (size_nonneg p).
  cbn [w_fin w_op w_key w_payload]. rewrite land_7F, Z.mod_small by lia.
  replace (size p <? 126) with true by (symmetry; apply Z.ltb_lt; lia). reflexivity.
Qed.

Lemma reserved_opcode op : op ∉ [0; 1; 2; 8; 9; 10] -> opcode_of op = Reserved op.
Proof. intros H. unfold opcode_of. repeat case_match; bools; subst; set_solver. Qed.

Definition text_so_far (st : option (list string)) : string :=
  match st with Some l => s_concat l | None => "" end.
Definition begun (st : option (list string)) : bool :=
  match st with Some _ => true | None => false end.

Lemma s_concat_snoc l x : s_concat (l ++ [x]) = s_concat l +:+ x.
Proof.
  induction l as [|y l IH]; [apply s_app_nil_r|]. cbn [app s_concat foldr] in *.
  fold (s_concat (l ++ [x])). rewrite IH. by rewrite s_app_assoc.
Qed.

Lemma fits cap (m p : string) : cap < max_size -> size p <= cap -> size m <= cap ->
  (cap <? u64 (size m + size p)) = bool_decide (cap < size m + size p).
Proof.
  intros Hc Hp Hm. unfold max_size in Hc. pose proof (size_nonneg m). pose proof (size_nonneg p).
  rewrite u64_small by lia. symmetry.
  destruct (Z.ltb_spec cap (size m + size p)); [by apply bool_decide_eq_true_2|apply bool_decide_eq_false_2; lia].
Qed.

(** An accepted frame: the loop is where the outcome of the switch says. *)
Lemma loop_accepted cap rm tail fin op key p ws st fuel c o :
  cap < max_size -> accepted cap rm key p -> wire_ok (mkWire fin op key p) ->
  reading cap rm (wires (mkWire fin op key p :: ws) +:+ tail) c -> (len (stream c) < fuel)%nat ->
  on_frame cap (text_so_far st) (begun st) (wire_frame (mkWire fin op key p)) = o ->
  exists fuel' c1, reading cap rm (wires ws +:+ tail) c1 /\ written c1 = written c /\
    (len (stream c1) < fuel')%nat /\
    receive_loop fuel (text_so_far st) (begun st) c =
      match o with
      | Deliver m => Some (Ok (Some m), c1)
      | Stop reply => Some (Ok None, send_control reply c1)
      | Go reply m fr => receive_loop fuel' m fr (send_reply reply c1)
      end.
Proof.
  intros Hcap [Hs Hm] (Hop & Hk & _) Hc Hf <-. destruct fuel as [|fuel]; [lia|].
  rewrite wires_cons, s_app_assoc in Hc.
  destruct (loop_frame cap rm (mkWire fin op key p) (wires ws +:+ tail) (text_so_far st) (begun st) fuel c
    Hcap (conj Hop (conj Hk Hs)) Hc) as (c0 & c1 & _ & _ & Hc1 & Hw1 & ->).
  exists fuel, c1. split_and!; [done..| |].
  - destruct Hc1 as [-> _], Hc as [Ec _]. rewrite Ec, length_s_app in Hf.
    pose proof (len_wire (mkWire fin op key p)). lia.
  - cbn [w_key]. destruct rm; [|done]. destruct key; [done|]. by destruct Hm.
Qed.

Lemma end_reply cap rm t out c c1 : reading cap rm t c1 -> written c1 = written c ->
  exists c', Some (Ok (A := option string) None, send_control out c1) = Some (Ok None, c') /\
    stream c' = t /\ written c' = written c ++ [out].
Proof.
  intros H W. destruct (reading_send _ _ _ out _ H) as [[E _] W']. eexists. split; [done|].
  unfold send_control. by rewrite E, W', W.
Qed.

(** The branches of the switch, by the rules of the contract. *)
Lemma on_data cap st fin op key p : op = 1 \/ op = 2 ->
  on_frame cap (text_so_far st) (begun st) (wire_frame (mkWire fin op key p)) =
  match st with
  | Some _ => Stop (close_frame 1002)
  | None => if fin then Deliver p else Go None (s_concat [p]) true
  end.
Proof.
  intros [-> | ->]; destruct st, fin; try done; cbn; by rewrite s_app_nil_r.
Qed.

Lemma on_continuation cap so_far fin key p :
  cap < max_size -> size p <= cap -> size (s_concat so_far) <= cap ->
  on_frame cap (s_concat so_far) true (wire_frame (mkWire fin 0 key p)) =
  if bool_decide (cap < size (s_concat so_far) + size p) then Stop (close_frame 1009)
  else if fin then Deliver (s_concat (so_far ++ [p])) else Go None (s_concat (so_far ++ [p])) true.
Proof.
  intros Hcap Hp Hs. rewrite s_concat_snoc. unfold on_frame, wire_frame.
  cbn [f_opcode w_op negb f_payload w_payload f_fin w_fin].
  change (opcode_of 0) with Continuation. cbn match. rewrite fits by done.
  by case_bool_decide.
Qed.

(** The loop, with [st] at hand, does as the contract says of [ws]. *)
Definition keeps (cap : Z) (rm : bool) (tail : string) (st : option (list string)) (ws : list Wire)
    (r : option string) (out : list string) (rest : list Wire) : Prop :=
  forall fuel c, (len (stream c) < fuel)%nat -> reading cap rm (wires ws +:+ tail) c ->
  exists c', receive_loop fuel (text_so_far st) (begun st) c = Some (Ok r, c') /\
    stream c' = wires rest +:+ tail /\ written c' = written c ++ out.

Section keeps.
Context (cap : Z) (rm : bool) (tail : string) (Hcap : cap < max_size).
Local Abbreviation w_of := mkWire.

Lemma keeps_stop fin op key p ws st reply :
  accepted cap rm key p -> wire_ok (w_of fin op key p) ->
  on_frame cap (text_so_far st) (begun st) (wire_frame (w_of fin op key p)) = Stop reply ->
  keeps cap rm tail st (w_of fin op key p :: ws) None [reply] ws.
Proof.
  intros Ha Hw Ho fuel c Hf Hc.
  destruct (loop_accepted cap rm tail _ _ _ _ ws st fuel c _ Hcap Ha Hw Hc Hf Ho)
    as (f & c1 & Hc1 & W & _ & ->). by apply (end_reply cap rm).
Qed.

Lemma keeps_deliver fin op key p ws st m :
  accepted cap rm key p -> wire_ok (w_of fin op key p) ->
  on_frame cap (text_so_far st) (begun st) (wire_frame (w_of fin op key p)) = Deliver m ->
  keeps cap rm tail st (w_of fin op key p :: ws) (Some m) [] ws.
Proof.
  intros Ha Hw Ho fuel c Hf Hc.
  destruct (loop_accepted cap rm tail _ _ _ _ ws st fuel c _ Hcap Ha Hw Hc Hf Ho)
    as (f & c1 & [? _] & W & _ & ->). exists c1. by rewrite app_nil_r.
Qed.

Lemma keeps_go fin op key p ws st st' reply r out rest :
  accepted cap rm key p -> wire_ok (w_of fin op key p) ->
  on_frame cap (text_so_far st) (begun st) (wire_frame (w_of fin op key p))
    = Go reply (text_so_far st') (begun st') ->
  keeps cap rm tail st' ws r out rest ->
  keeps cap rm tail st (w_of fin op key p :: ws) r
    match reply with Some o => o :: out | None => out end rest.
Proof.
  intros Ha Hw Ho IH fuel c Hf Hc.
  destruct (loop_accepted cap rm tail _ _ _ _ ws st fuel c _ Hcap Ha Hw Hc Hf Ho)
    as (f & c1 & Hc1 & W & Hf1 & ->).
  destruct reply as [o|]; cbn [send_reply]; [|rewrite <- W; by apply IH].
  destruct (reading_send _ _ _ o _ Hc1) as [Hc2 W2].
  destruct (IH f (send_control o c1)) as (c' & E & S & W3); [|done|].
  - unfold send_control. destruct Hc1 as [E1 _], Hc2 as [-> _]. by rewrite E1 in Hf1.
  - exists c'. split_and!; [done..|]. rewrite W3. unfold send_control. rewrite W2, W. by rewrite <- app_assoc.
Qed.

Lemma receive_loop_session st ws r out rest :
  session cap rm tail st ws r out rest -> Forall wire_ok ws -> size (text_so_far st) <= cap ->
  keeps cap rm tail st ws r out rest.
Proof.
  intros H. induction H as [st Hi|st w ws Hb|st w ws Hb Hrm Hk|st fin key p ws Ha
    |st fin key p ws r out rest Ha Hp H IH|st fin key p ws r out rest Ha H IH
    |st fin op key p ws r out rest Ha Hop H IH|op key p ws Ha Hop|op key p ws r out rest Ha Hop H IH
    |so_far fin op key p ws Ha Hop|fin key p ws Ha|so_far fin key p ws Ha Hs
    |so_far key p ws r out rest Ha Hs H IH|so_far key p ws Ha Hs]; intros Hws Hst;
    try (apply Forall_cons in Hws as [Hw Hws]).
  - intros [|fuel] c Hf Hc; [lia|].
    destruct (loop_ended cap rm tail (text_so_far st) (begun st) fuel c Hcap Hi Hc) as (c' & [? _] & W & E).
    exists c'. by rewrite app_nil_r.
  - intros [|fuel] c Hf Hc; [lia|]. rewrite wires_cons, s_app_assoc in *.
    destruct (loop_oversize cap rm w (wires ws +:+ tail) (text_so_far st) (begun st) fuel c Hw Hb Hc)
      as (c' & Hc' & W & ->). by apply (end_reply cap rm).
  - intros [|fuel] c Hf Hc; [lia|]. rewrite wires_cons, s_app_assoc in *.
    destruct (loop_frame cap rm w (wires ws +:+ tail) (text_so_far st) (begun st) fuel c Hcap)
      as (c0 & c1 & Hc0 & W0 & _ & _ & ->); [by destruct Hw as (? & ? & _)|done|].
    rewrite Hrm, Hk. by apply (end_reply cap rm).
  - apply keeps_stop; [done..|apply on_close].
  - apply (keeps_go _ _ _ _ _ st st (Some _)); [done..| |by apply IH]. cbn. by rewrite pong_frame.
  - by apply (keeps_go _ _ _ _ _ st st None); [..|apply IH].
  - apply (keeps_go _ _ _ _ _ st st None); [done..| |by apply IH].
    unfold on_frame, wire_frame. cbn [f_opcode w_op]. by rewrite reserved_opcode.
  - apply keeps_deliver; [done..|]. by apply (on_data _ None).
  - apply (keeps_go _ _ _ _ _ None (Some [p]) None); [done..|by apply (on_data _ None)|].
    apply IH; [done|]. cbn. rewrite s_app_nil_r. apply Ha.
  - apply keeps_stop; [done..|]. by apply (on_data _ (Some so_far)).
  - by apply keeps_stop.
  - apply keeps_stop; [done..|]. cbn [text_so_far begun]. rewrite on_continuation by (done || apply Ha).
    by rewrite bool_decide_eq_true_2.
  - apply (keeps_go _ _ _ _ _ (Some so_far) (Some (so_far ++ [p])) None); [done..| |].
    + cbn [text_so_far begun]. rewrite on_continuation by (done || apply Ha).
      by rewrite bool_decide_eq_false_2 by lia.
    + apply IH; [done|]. cbn [text_so_far]. rewrite s_concat_snoc, size_app. lia.
  - apply keeps_deliver; [done..|]. cbn [text_so_far begun].
    rewrite on_continuation by (done || apply Ha). by rewrite bool_decide_eq_false_2 by lia.
Qed.
End keeps.

(** C11: [receive] keeps its contract, however the network segments the stream: what the
    contract [session] says of the frames a peer sends - the message it returns, the
    control frames it answers with, in order, and the frames it leaves unread - is what
    [receive] does; and for a stream that ends, with pings of at most 125 bytes, the
    contract says something. *)
Theorem receive_refines (ws : list Wire) (tail : string) (c : Connection) :
  let cap := max_message_bytes_ c in
  let rm := require_masked_ c in
  0 <= cap < max_size -> Forall wire_ok ws ->
  Forall (fun x => x ≠ "") (c_recvs c) -> stream c = wires ws +:+ tail ->
  (incomplete cap tail -> Forall ping_ok ws ->
     exists r out rest, session cap rm tail None ws r out rest) /\
  (forall r out rest, session cap rm tail None ws r out rest ->
     exists c', receive c = Some (Ok r, c') /\ stream c' = wires rest +:+ tail /\
       map w_out (c_log c') = map w_out (c_log c) ++ out).
Proof.
  intros cap rm [H0 Hm] Hws Hne E. split; [intros Hi Hp; by apply session_total|].
  intros r out rest H.
  by apply (receive_loop_session cap rm tail Hm None ws r out rest H Hws H0 (S (len (stream c))) c); [lia|].
Qed.

Definition demo_conn (recvs : list string) : Connection :=
  mkConnection 3 "key" "" "" 100 [] true recvs [1000; 1000] [].
Definition demo_wires : list Wire :=
  [mkWire false 1 (Some "abcd") "hel"; mkWire true 9 (Some "wxyz") "p";
   mkWire true 0 (Some "1234") "lo"; mkWire true 2 (Some "zzzz") "next"].

Lemma receive_refines_witness :
  let bytes := wires demo_wires +:+ "!" in
  let c := demo_conn [s_take 4 bytes; s_take 12 (s_drop 4 bytes); s_drop 16 bytes] in
  exists c', receive c = Some (Ok (Some "hello"), c') /\
    stream c' = wires [mkWire true 2 (Some "zzzz") "next"] +:+ "!" /\
    map w_out (c_log c') = map w_out (c_log c) ++ [encode_pong "p"].
Proof.
  intros bytes c. apply (receive_refines demo_wires "!" c).
  - vm_compute. split; [discriminate|reflexivity].
  - unfold demo_wires. repeat (apply Forall_cons; split; [split_and!; vm_compute; (congruence || done)|]).
    by apply Forall_nil.
  - repeat (apply Forall_cons; split; [by vm_compute|]). by apply Forall_nil.
  - vm_compute. reflexivity.
  - assert (Ha : forall k p, size p <= 100 -> accepted 100 true (Some k) p) by (intros; split; done).
    apply S_first; [apply Ha; by vm_compute|by left|].
    apply (S_ping 100 true "!" _ true _ "p"); [apply Ha; by vm_compute|by vm_compute|].
    apply (S_last 100 true "!" ["hel"] _ "lo"); [apply Ha; by vm_compute|by vm_compute].
Defined.

(** ** Reassembly *)
Definition data_op (op : Z) : Prop := op = 1 \/ op = 2.

(** [message started ws m out]: the frames [ws] carry the rest [m] of a message, whose
    first fragment has been seen when [started], with control frames between the
    fragments, and call for the replies [out]. *)
Inductive message : bool -> list Wire -> string -> list string -> Prop :=
  | m_ping b fin key p ws m out : masked_by key = true -> message b ws m out ->
      message b (mkWire fin 9 key p :: ws) m (encode_pong p :: out)
  | m_pong b fin key p ws m out : masked_by key = true -> message b ws m out ->
      message b (mkWire fin 10 key p :: ws) m out
  | m_single op key p : masked_by key = true -> data_op op ->
      message false [mkWire true op key p] p []
  | m_first op key p ws m out : masked_by key = true -> data_op op -> message true ws m out ->
      message false (mkWire false op key p :: ws) (p +:+ m) out
  | m_next key p ws m out : masked_by key = true -> message true ws m out ->
      message true (mkWire false 0 key p :: ws) (p +:+ m) out
  | m_last key p : masked_by key = true -> message true [mkWire true 0 key p] p [].

Lemma consume_message cap started ws m out rest acc :
  cap < max_size -> message started ws m out -> size acc + size m <= cap ->
  (started = false -> acc = "") ->
  consume cap true acc started (ws ++ rest) = Some (Some (acc +:+ m), out, rest).
Proof.
  intros Hcap H. revert acc. unfold max_size in Hcap.
  assert (Hno : forall acc p t : string, size acc + size (p +:+ t) <= cap ->
    (cap <? u64 (size acc + size p)) = false).
  { intros acc p t Hs. rewrite size_app in Hs.
    pose proof (size_nonneg acc). pose proof (size_nonneg p). pose proof (size_nonneg t).
    rewrite u64_small by lia. apply Z.ltb_ge. lia. }
  induction H as [b fin key p ws m out Hk _ IH|b fin key p ws m out Hk _ IH|op key p Hk Hop
                 |op key p ws m out Hk Hop _ IH|key p ws m out Hk _ IH|key p Hk];
    intros acc Hs Ha; cbn [app consume w_key w_payload wire_frame]; rewrite Hk; cbn [negb andb].
  - unfold on_frame, wire_frame. cbn [f_opcode w_op f_payload w_payload].
    change (opcode_of 9) with Ping. cbn match. by rewrite (IH acc Hs Ha).
  - unfold on_frame, wire_frame. cbn [f_opcode w_op].
    change (opcode_of 10) with Pong. cbn match. by rewrite (IH acc Hs Ha).
  - rewrite Ha by done. unfold on_frame, wire_frame. by destruct Hop as [-> | ->].
  - rewrite Ha in * by done. unfold on_frame, wire_frame.
    assert (E : consume cap true p true (ws ++ rest) = Some (Some (p +:+ m), out, rest)).
    { apply IH; [|done]. rewrite size_app in Hs. change (size "") with 0 in Hs. lia. }
    destruct Hop as [-> | ->]; cbn; by rewrite E.
  - unfold on_frame, wire_frame. cbn [f_opcode w_op negb f_payload w_payload f_fin w_fin].
    change (opcode_of 0) with Continuation. cbn match.
    rewrite (Hno acc p m Hs), IH; [by rewrite s_app_assoc| |done]. rewrite size_app in *. lia.
  - unfold on_frame, wire_frame. cbn [f_opcode w_op negb f_payload w_payload f_fin w_fin].
    change (opcode_of 0) with Continuation. cbn match.
    by rewrite (Hno acc p "") by (by rewrite s_app_nil_r).
Qed.

(** A message split into any number of masked fragments, with pings and pongs between
    them, arrives whole: [receive] returns the concatenation of the fragments, answers
    each ping with its payload in order and leaves what follows, whatever the
    segmentation of the bytes. *)
Theorem receive_reassembles (ws : list Wire) (m : string) (out : list string) (tail : string)
    (c : Connection) :
  message false ws m out -> size m <= max_message_bytes_ c < max_size ->
  Forall (good_wire (max_message_bytes_ c)) ws -> require_masked_ c = true ->
  Forall (fun x => x ≠ "") (c_recvs c) -> stream c = wires ws +:+ tail ->
  exists c', receive c = Some (Ok (Some m), c') /\ stream c' = tail /\
    map w_out (c_log c') = map w_out (c_log c) ++ out.
Proof.
  intros Hm [Hs Hcap] Hws Hr Hne E.
  pose proof (consume_message _ _ _ _ _ [] "" Hcap Hm ltac:(done) ltac:(done)) as H.
  rewrite app_nil_r in H.
  destruct (receive_loop_consume ws tail _ _ "" false _ _ _ (S (len (stream c))) c
    Hcap Hws Hne eq_refl Hr E ltac:(lia) H) as (c' & Hc & Hs' & Hw & _). eauto.
Qed.

Lemma receive_reassembles_witness :
  let ws := [mkWire false 1 (Some "abcd") "hel"; mkWire true 9 (Some "wxyz") "p";
             mkWire true 0 (Some "1234") "lo"] in
  let c := demo_conn [s_take 4 (wires ws); s_drop 4 (wires ws) +:+ "!"] in
  exists c', receive c = Some (Ok (Some "hello"), c') /\ stream c' = "!" /\
    map w_out (c_log c') = map w_out (c_log c) ++ [encode_pong "p"].
Proof.
  intros ws c. apply (receive_reassembles ws).
  - apply (m_first 1 (Some "abcd") "hel"); [done|by left|]. apply m_ping; [done|]. by apply m_last.
  - vm_compute. split; [discriminate|reflexivity].
  - subst ws. repeat (apply Forall_cons; split; [split_and!; vm_compute; (congruence || done)|]).
    by apply Forall_nil.
  - reflexivity.
  - repeat (apply Forall_cons; split; [by vm_compute|]). by apply Forall_nil.
  - vm_compute. reflexivity.
Defined.

(** ** Termination and the size bound, for every peer *)
Lemma read_frame_stream cap recvs buf r buf' recvs' :
  read_frame cap recvs buf = (r, buf', recvs') ->
  (len buf' + len (s_concat recvs') = len buf + len (s_concat recvs))%nat /\
  (forall f, r = Ok (Some f) -> parse_frame buf' cap = Ok f /\ f_ok f || f_too_big f = true).
Proof.
  assert (Hs : forall x l, s_concat (x :: l) = x +:+ s_concat l) by done.
  revert buf; induction recvs as [|c recvs IH]; intros buf H; cbn [read_frame] in H.
  - destruct (parse_frame buf cap) as [f|e] eqn:Ep; [|by injection H as <- <- <-].
    destruct (f_ok f || f_too_big f) eqn:Ef; injection H as <- <- <-; [|done].
    split; [done|]. by intros f' [= <-].
  - destruct (parse_frame buf cap) as [f|e] eqn:Ep; [|by injection H as <- <- <-].
    destruct (f_ok f || f_too_big f) eqn:Ef; [injection H as <- <- <-; split; [done|by intros f' [= <-]]|].
    destruct c as [|x c]; [by injection H as <- <- <-|].
    destruct (IH _ H) as [Hl Hr]. split; [|done].
    rewrite Hs, !length_s_app in *. rewrite Hl. lia.
Qed.

Lemma receive_loop_total fuel m fr c :
  (len (stream c) < fuel)%nat ->
  exists r c', receive_loop fuel m fr c = Some (r, c').
Proof.
  revert m fr c; induction fuel as [|fuel IH]; intros m fr c Hf; [lia|]. cbn [receive_loop].
  destruct (read_frame _ _ _) as [[r buf] rs] eqn:Er. apply read_frame_stream in Er as [Hl Hr].
  destruct r as [[f|]|e]; [|eauto..]. destruct (Hr f eq_refl) as [Hp Hf'].
  destruct (f_too_big f) eqn:Eb; [eauto|]. rewrite orb_false_r in Hf'.
  destruct (require_masked_ _ && _); [eauto|].
  destruct (parse_frame_ok _ _ _ Hp Hf') as (_ & Hc & _).
  destruct (on_frame _ _ _ _) as [m1|o|reply m1 fr1]; [eauto..|]. apply IH.
  destruct (send_reply_spec reply (set_buf (s_drop (f_consumed f) (buf_ (set_buf buf rs c))) rs (set_buf buf rs c)))
    as [(-> & _) _].
  unfold stream in *. cbn [set_buf buf_ c_recvs]. rewrite length_s_app, length_s_drop in *. lia.
Qed.

Lemma on_frame_bound cap m fr f :
  cap < max_size -> size m <= cap -> size (f_payload f) <= cap ->
  match on_frame cap m fr f with
  | Deliver m' => size m' <= cap
  | Go _ m' _ => size m' <= cap
  | Stop _ => True
  end.
Proof.
  intros Hcap Hm Hp. unfold max_size in Hcap. pose proof (size_nonneg m). pose proof (size_nonneg (f_payload f)).
  unfold on_frame. destruct (f_opcode f); try done.
  - destruct fr; cbn [negb]; [|done]. destruct (cap <? _) eqn:E; [done|]. bools.
    rewrite u64_small in E by lia. destruct (f_fin f); by rewrite size_app.
  - destruct fr, (f_fin f); done.
  - destruct fr, (f_fin f); done.
  - by destruct (2 <=? _).
Qed.

Lemma read_frame_no_throw cap recvs buf r buf' recvs' :
  cap < max_size -> read_frame cap recvs buf = (r, buf', recvs') -> forall e, r ≠ Throw e.
Proof.
  intros Hcap. revert buf; induction recvs as [|c recvs IH]; intros buf H e; cbn [read_frame] in H;
    destruct (parse_frame_no_throw buf cap Hcap) as [f Ef]; rewrite Ef in H;
    (destruct (f_ok f || f_too_big f); [by injection H as <- <- <-|]).
  - by injection H as <- <- <-.
  - destruct c as [|x c]; [by injection H as <- <- <-|]. by eapply IH.
Qed.

Lemma receive_loop_bound fuel m fr c r c' :
  max_message_bytes_ c < max_size -> size m <= max_message_bytes_ c ->
  receive_loop fuel m fr c = Some (r, c') ->
  (forall e, r ≠ Throw e) /\ (forall m', r = Ok (Some m') -> size m' <= max_message_bytes_ c).
Proof.
  revert m fr c; induction fuel as [|fuel IH]; intros m fr c Hcap Hm H; [done|]. cbn [receive_loop] in H.
  destruct (read_frame _ _ _) as [[r0 buf] rs] eqn:Er.
  pose proof (read_frame_no_throw _ _ _ _ _ _ Hcap Er) as Hthrow.
  apply read_frame_stream in Er as [Hl Hr].
  destruct r0 as [[f|]|e]; [|injection H as <- <-; split; naive_solver|by destruct (Hthrow e)].
  destruct (Hr f eq_refl) as [Hp Hf].
  destruct (f_too_big f) eqn:Eb; [injection H as <- <-; split; naive_solver|].
  destruct (_ && _) in H; [injection H as <- <-; split; naive_solver|]. rewrite orb_false_r in Hf.
  destruct (parse_frame_ok _ _ _ Hp Hf) as (_ & _ & Hs).
  pose proof (on_frame_bound _ m fr f Hcap Hm Hs) as Hb. cbn [set_buf max_message_bytes_] in H.
  destruct (on_frame _ _ _ _) as [m1|o|reply m1 fr1]; [injection H as <- <-; split; naive_solver..|].
  match type of H with context [send_reply reply ?c1] => destruct (send_reply_spec reply c1) as [(_ & _ & S3 & _) _] end.
  cbn [set_buf max_message_bytes_] in S3. rewrite <- S3 in *. by apply (IH m1 fr1 _ Hcap Hb).
Qed.

(** C12: Whatever a peer sends, [receive] returns: the loop is bounded by the bytes at
    hand.  It never throws, and a message it delivers is never larger than
    [max_message_bytes_], however it was fragmented. *)
Theorem receive_bounded (c : Connection) :
  0 <= max_message_bytes_ c < max_size ->
  exists r c', receive c = Some (Ok r, c') /\
    forall m, r = Some m -> size m <= max_message_bytes_ c.
Proof.
  intros [H0 Hcap]. destruct (receive_loop_total (S (len (stream c))) "" false c ltac:(lia)) as (r & c' & H).
  destruct (receive_loop_bound _ "" _ _ _ _ Hcap H0 H) as [Ht Hb].
  destruct r as [r|e]; [|by destruct (Ht e)]. exists r, c'. split; [exact H|]. intros m ->. by apply Hb.
Qed.

Lemma receive_bounded_witness :
  exists r c', receive (demo_conn ["garbage"; "more"]) = Some (Ok r, c') /\
    forall m, r = Some m -> size m <= 100.
Proof. apply (receive_bounded (demo_conn ["garbage"; "more"])). vm_compute. split; [discriminate|reflexivity]. Defined.

(** [receive] leaves the cap alone, and a message it delivers costs bytes of the stream. *)
Lemma receive_loop_progress fuel m fr c r c' :
  receive_loop fuel m fr c = Some (r, c') ->
  max_message_bytes_ c' = max_message_bytes_ c /\
  (forall m', r = Ok (Some m') -> (len (stream c') < len (stream c))%nat).
Proof.
  revert m fr c; induction fuel as [|fuel IH]; intros m fr c H; [done|]. cbn [receive_loop] in H.
  destruct (read_frame _ _ _) as [[r0 buf] rs] eqn:Er. apply read_frame_stream in Er as [Hl Hr].
  assert (Hend : forall o c1, max_message_bytes_ (send_control o c1) = max_message_bytes_ c1)
    by (intros o c1; apply conn_send_spec).
  destruct r0 as [[f|]|e]; [|injection H as <- <-; by split..].
  destruct (Hr f eq_refl) as [Hp Hf].
  destruct (f_too_big f) eqn:Eb; [injection H as <- <-; split; [by rewrite Hend|done]|].
  destruct (_ && _) in H; [injection H as <- <-; split; [by rewrite Hend|done]|]. rewrite orb_false_r in Hf.
  destruct (parse_frame_ok _ _ _ Hp Hf) as (_ & Hc & _).
  set (c1 := set_buf (s_drop _ _) rs _) in H.
  assert (Hs : (len (stream c1) < len (stream c))%nat).
  { subst c1. unfold stream. cbn [set_buf buf_ c_recvs]. rewrite !length_s_app, length_s_drop in *. lia. }
  destruct (on_frame _ _ _ _) as [m1|o|reply m1 fr1].
  - injection H as <- <-. by split.
  - injection H as <- <-. by rewrite Hend.
  - destruct (send_reply_spec reply c1) as [(S1 & _ & S3 & _) _].
    destruct (IH _ _ _ H) as [E1 E2]. split; [by rewrite E1, S3|]. intros m' Em. specialize (E2 m' Em).
    rewrite S1 in E2. lia.
Qed.

(** One call of [receive] on any stream: it returns without a throw, and a message costs
    bytes. *)
Lemma receive_total c : 0 <= max_message_bytes_ c < max_size ->
  exists r c', receive c = Some (Ok r, c') /\ max_message_bytes_ c' = max_message_bytes_ c /\
    forall m, r = Some m -> (len (stream c') < len (stream c))%nat.
Proof.
  intros [H0 Hcap]. destruct (receive_loop_total (S (len (stream c))) "" false c ltac:(lia)) as (r & c' & H).
  destruct (receive_loop_bound _ "" _ _ _ _ Hcap H0 H) as [Ht _].
  destruct (receive_loop_progress _ _ _ _ _ _ H) as [Hm Hl].
  destruct r as [r|e]; [|by destruct (Ht e)]. exists r, c'. split_and!; [exact H|done|]. intros m ->. by apply (Hl m).
Qed.

Lemma handshake_input sha1 c : same_input c (handshake sha1 c).2.
Proof.
  unfold handshake. destruct (bool_decide _); [done|].
  destruct (allowed_origins_ c); [apply conn_send_spec|].
  destruct (origin_ok _ _); [apply conn_send_spec|]. apply conn_send_spec.
Qed.

(** ** Refusals *)
(** A frame whose header declares more than the cap is refused from its header: Close
    1009 is written and nothing more is read from the socket. *)
Theorem receive_refuses_oversize (c : Connection) (b : ascii) (mb n : Z) (t : string)
    (later : list string) :
  (mb = 0 \/ mb = 128) -> max_message_bytes_ c < n < 2 ^ 64 -> 0 <= n ->
  buf_ c = "" -> c_recvs c = String b (len_field mb n +:+ t) :: later ->
  exists c', receive c = Some (Ok None, c') /\ c_recvs c' = later /\
    map w_out (c_log c') = map w_out (c_log c) ++ [encode_close_code 1009].
Proof.
  intros Hm [Hc Hn] H0 Hb Hr. unfold receive. cbn [receive_loop].
  destruct (parse_frame_too_big b mb n t _ Hm (conj H0 Hn) Hc) as (f & Ef & Hf).
  rewrite Hb, Hr. cbn [read_frame].
  change (parse_frame "" _) with (@Ok Frame empty_frame). cbn [empty_frame f_ok f_too_big orb].
  rewrite s_app_nil_l. destruct later as [|x later]; cbn [read_frame]; rewrite Ef, Hf, orb_true_r; rewrite Hf;
    (eexists; split; [done|]); unfold send_control;
    (match goal with |- context [conn_send ?o ?c1] => destruct (conn_send_spec o c1) as [(_ & S2 & _) W] end);
    by rewrite S2.
Qed.

Lemma receive_refuses_oversize_witness :
  exists c', receive (demo_conn (String (chr 0x82) (len_field 128 (2 ^ 40) +:+ "") :: ["never read"]))
      = Some (Ok None, c') /\ c_recvs c' = ["never read"] /\
    map w_out (c_log c') = [] ++ [encode_close_code 1009].
Proof.
  apply (receive_refuses_oversize (demo_conn (String (chr 0x82) (len_field 128 (2 ^ 40) +:+ "") :: ["never read"]))
    (chr 0x82) 128 (2 ^ 40) ""); [by right|vm_compute; done|vm_compute; discriminate|done|done].
Defined.

Lemma origin_ok_iff allowed o : origin_ok allowed o = true <-> o ∈ allowed.
Proof.
  induction allowed as [|a l IH]; cbn [origin_ok]; [set_solver|].
  destruct (bool_decide (a = o)) eqn:E; bools; set_solver.
Qed.

(** The handshake succeeds only for a request that has a key and, under an
    allowlist, one of its origins: then the 101 with the accept key is written.  A
    foreign or missing origin gets a 403, and a missing key gets nothing. *)
Theorem handshake_gate (sha1 : string -> string) (c : Connection) :
  let '(ok, c') := handshake sha1 c in
  (ok = true -> client_key_ c ≠ "" /\ (allowed_origins_ c = [] \/ origin_ c ∈ allowed_origins_ c)) /\
  map w_out (c_log c') = map w_out (c_log c) ++
    (if bool_decide (client_key_ c = "") then []
     else if bool_decide (allowed_origins_ c = [] \/ origin_ c ∈ allowed_origins_ c)
     then [switching_protocols sha1 (client_key_ c)] else [forbidden]).
Proof.
  unfold handshake. destruct (bool_decide (client_key_ c = "")) eqn:Ek; bools.
  { split; [done|]. symmetry. apply app_nil_r. }
  assert (Hw : forall out, map w_out (c_log (conn_send out c).2) = map w_out (c_log c) ++ [out])
    by (intros out; apply conn_send_spec).
  destruct (allowed_origins_ c) as [|o l] eqn:Eo.
  - rewrite bool_decide_eq_true_2 by (by left). specialize (Hw (switching_protocols sha1 (client_key_ c))).
    destruct (conn_send _ c) as [ok c']. split; [by split; [|left]|done].
  - destruct (origin_ok (o :: l) (origin_ c)) eqn:Ea.
    + apply origin_ok_iff in Ea. rewrite bool_decide_eq_true_2 by (by right).
      specialize (Hw (switching_protocols sha1 (client_key_ c))).
      destruct (conn_send _ c) as [ok c']. split; [by split; [|right]|done].
    + rewrite bool_decide_eq_false_2.
      * split; [done|]. apply Hw.
      * intros [|Hin]; [done|]. apply origin_ok_iff in Hin. congruence.
Qed.

Lemma fold_send_to out l (st : gmap nat Connection) i :
  NoDup l ->
  fold_left (send_to out) l st !! i =
    if decide (i ∈ l) then (fun c => (out c).2) <$> st !! i else st !! i.
Proof.
  revert st; induction l as [|j l IH]; intros st Hnd; cbn [fold_left].
  { rewrite decide_False by set_solver. done. }
  apply NoDup_cons in Hnd as [Hj Hnd]. rewrite IH by done.
  assert (E : send_to out st j !! i = if decide (i = j) then (fun c => (out c).2) <$> st !! i else st !! i).
  { unfold send_to. destruct (decide (i = j)) as [->|Hn].
    - destruct (st !! j) eqn:Ej; [by rewrite lookup_insert_eq|by rewrite Ej].
    - destruct (st !! j); [by rewrite lookup_insert_ne|done]. }
  rewrite E. destruct (decide (i = j)) as [->|Hn].
  - rewrite decide_False by done. by rewrite decide_True by set_solver.
  - destruct (decide (i ∈ l)); [rewrite decide_True by set_solver|rewrite decide_False by set_solver]; done.
Qed.

(** A broadcast writes the text frame exactly once to every registered connection and
    touches no other. *)
Theorem broadcast_reaches (text : string) (h : Hub) (st : gmap nat Connection) (i : nat) :
  broadcast text h st !! i =
    if decide (i ∈ conns_ h) then (fun c => (send_text text c).2) <$> st !! i else st !! i.
Proof.
  unfold broadcast, snapshot. rewrite fold_send_to by apply NoDup_elements.
  by destruct (decide (i ∈ conns_ h)), (decide (i ∈ elements (conns_ h))); set_solver.
Qed.
