(* ===== verification/Database.v ===== *)
(** * database.hpp / database.cpp: values, rows, queries and connections

    [Value] is the variant of the wire format, with [double] as the standard
    library's [spec_float] in binary64.  [Connection] is the abstract class: a
    record of operations over a backend state, with the default bodies of the
    virtual functions that have one.  [MemoryConnection] is the shipped in-memory
    backend; its mutex makes each operation one atomic step, so an interleaving of
    workers is a sequence of calls.  [ConnectionLaws] is what clients rely on; the
    memory backend discharges it. *)
From S2P Require Import Prelude CppString CppNum.
From Stdlib Require Import Floats.SpecFloat Sorting.Sorted.

Local Open Scope Z_scope.

(** ** double *)
Definition double : Type := spec_float.
#[export] Instance spec_float_eq_dec : EqDecision spec_float.
Proof. solve_decision. Defined.

Definition double_of_int (z : Z) : double := binary_normalize 53 1024 z 0 false.
(** Truncation toward zero; out of range it is undefined in C++ and kept unbounded here. *)
Definition int_of_double (d : double) : Z :=
  match d with
  | S754_finite s m e =>
      let n := if 0 <=? e then Zpos m * 2 ^ e else Zpos m / 2 ^ (- e) in
      if s then - n else n
  | _ => 0
  end.

(** [std::to_string(double)] is printf "%f": six decimals, ties to even. *)
Definition round_scaled (m : positive) (e : Z) : Z :=
  let n := Zpos m * 10 ^ 6 in
  if 0 <=? e then n * 2 ^ e
  else
    let d := 2 ^ (- e) in
    let q := n / d in
    let r := n mod d in
    if 2 * r <? d then q else if d <? 2 * r then q + 1 else if Z.even q then q else q + 1.
Fixpoint pad_zeros (k : nat) (s : string) : string :=
  match k with O => s | S k => if (len s <? 6)%nat then pad_zeros k ("0" +:+ s) else s end.
Definition double_to_string (d : double) : string :=
  match d with
  | S754_zero s => (if s then "-" else "") +:+ "0.000000"
  | S754_infinity s => (if s then "-" else "") +:+ "inf"
  | S754_nan => "nan"
  | S754_finite s m e =>
      let n := round_scaled m e in
      (if s then "-" else "") +:+ dec (n / 10 ^ 6) +:+ "." +:+ pad_zeros 6 (dec (n mod 10 ^ 6))
  end.

(** ** Values *)
Inductive Value : Type :=
  | VInt (z : Z)
  | VDouble (d : double)
  | VStr (s : string)
  | VBool (b : bool).
#[export] Instance Value_eq_dec : EqDecision Value.
Proof. solve_decision. Defined.

Definition value_string (v : Value) : string :=
  match v with
  | VStr s => s
  | VBool b => if b then "1" else "0"
  | VInt z => to_string z
  | VDouble d => double_to_string d
  end.
Definition value_bool (v : Value) : bool :=
  match v with
  | VStr s => negb (bool_decide (s = "")) && negb (bool_decide (s = "0"))
  | VBool b => b
  | VInt z => negb (z =? 0)
  | VDouble d => match d with S754_zero _ => false | _ => true end
  end.
Definition value_int (v : Value) : Z :=
  match v with
  | VStr _ => 0
  | VBool b => if b then 1 else 0
  | VInt z => z
  | VDouble d => int_of_double d
  end.
Definition value_double (v : Value) : double :=
  match v with
  | VStr _ => S754_zero false
  | VBool b => double_of_int (if b then 1 else 0)
  | VInt z => double_of_int z
  | VDouble d => d
  end.

(** ** Comparison: variants compare by alternative first *)
Fixpoint str_ltb (a b : string) : bool :=
  match a, b with
  | _, "" => false
  | "", String _ _ => true
  | String c a, String d b =>
      if byte_of c <? byte_of d then true
      else if byte_of d <? byte_of c then false else str_ltb a b
  end.
Definition index (v : Value) : Z :=
  match v with VInt _ => 0 | VDouble _ => 1 | VStr _ => 2 | VBool _ => 3 end.
Definition value_eqb (a b : Value) : bool :=
  match a, b with
  | VInt x, VInt y => x =? y
  | VDouble x, VDouble y => SFeqb x y
  | VStr x, VStr y => bool_decide (x = y)
  | VBool x, VBool y => Bool.eqb x y
  | _, _ => false
  end.
Definition value_ltb (a b : Value) : bool :=
  match a, b with
  | VInt x, VInt y => x <? y
  | VDouble x, VDouble y => SFltb x y
  | VStr x, VStr y => str_ltb x y
  | VBool x, VBool y => negb x && y
  | _, _ => index a <? index b
  end.
Definition value_leb (a b : Value) : bool :=
  match a, b with
  | VInt x, VInt y => x <=? y
  | VDouble x, VDouble y => SFleb x y
  | VStr x, VStr y => negb (str_ltb y x)
  | VBool x, VBool y => implb x y
  | _, _ => index a <? index b
  end.

(** ** Rows and queries *)
Definition Row : Type := gmap string Value.
Definition row_at (r : Row) (key : string) : res Value :=
  match r !! key with Some v => Ok v | None => Throw out_of_range end.
Definition get_int (r : Row) (key : string) : res Z := v ← row_at r key; mret (value_int v).
Definition get_string (r : Row) (key : string) : res string := v ← row_at r key; mret (value_string v).
Definition get_bool (r : Row) (key : string) : res bool := v ← row_at r key; mret (value_bool v).
Definition get_double (r : Row) (key : string) : res double := v ← row_at r key; mret (value_double v).
Definition set_cell (key : string) (v : Value) (r : Row) : Row := <[key := v]> r.
Definition has (r : Row) (key : string) : bool := bool_decide (r !! key ≠ None).

(** [r.has(key) ? r.get<T>(key) : default]. *)
Definition int_or (r : Row) (key : string) : Z :=
  match r !! key with Some v => value_int v | None => 0 end.
Definition string_or (r : Row) (key : string) : string :=
  match r !! key with Some v => value_string v | None => "" end.

Definition word (c : ascii) : bool := in_range "a" "z" c || in_range "A" "Z" c || is_char "_" c.
Definition is_sql_identifier (s : string) : bool :=
  match s with
  | "" => false
  | String c _ => word c && forallb (fun c => word c || is_digit c) (chars s)
  end.

Inductive Op : Type := Eq | Ne | Lt | Lte | Gt | Gte | In.
Record WhereClause : Type := mkWhere { w_column : string; w_op_ : Op; w_value : Value; w_values : list Value }.
Record OrderClause : Type := mkOrder { o_column : string; o_descending : bool }.
Record Query : Type := mkQuery {
  wheres : list WhereClause;
  order : option OrderClause;
  limit : option Z;
  offset : option Z
}.
Definition empty_query : Query := mkQuery [] None None None.

Definition matches (cell : Value) (op : Op) (v : Value) : bool :=
  match op with
  | Eq => value_eqb cell v
  | Ne => negb (value_eqb cell v)
  | Lt => value_ltb cell v
  | Lte => value_leb cell v
  | Gt => value_ltb v cell
  | Gte => value_leb v cell
  | In => false
  end.
Definition clause_ok (r : Row) (w : WhereClause) : bool :=
  match r !! w_column w with
  | None => false
  | Some cell =>
      match w_op_ w with
      | In => existsb (value_eqb cell) (w_values w)
      | op => matches cell op (w_value w)
      end
  end.
Definition row_ok (q : Query) (r : Row) : bool := forallb (clause_ok r) (wheres q).

(** [std::stable_sort]: with two rows or more every row is compared, so a row without
    the column throws; the stable order of the rest is that of insertion. *)
Definition cell (col : string) (r : Row) : Value := default (VInt 0) (r !! col).
Definition before (oc : OrderClause) (a b : Row) : bool :=
  if o_descending oc then value_ltb (cell (o_column oc) b) (cell (o_column oc) a)
  else value_ltb (cell (o_column oc) a) (cell (o_column oc) b).
Fixpoint insert_sorted {A} (lt : A -> A -> bool) (x : A) (l : list A) : list A :=
  match l with
  | [] => [x]
  | y :: l' => if lt y x then y :: insert_sorted lt x l' else x :: l
  end.
Definition stable_sort {A} (lt : A -> A -> bool) (l : list A) : list A :=
  foldr (insert_sorted lt) [] l.
Definition order_rows (q : Query) (rows : list Row) : res (list Row) :=
  match order q with
  | None => Ok rows
  | Some oc =>
      if (2 <=? length rows)%nat && existsb (fun r => negb (has r (o_column oc))) rows
      then Throw out_of_range
      else Ok (stable_sort (before oc) rows)
  end.
Definition offset_rows (q : Query) (rows : list Row) : list Row :=
  match offset q with
  | None => rows
  | Some o => if Z.of_nat (length rows) <=? o then [] else drop (Z.to_nat o) rows
  end.
Definition limit_rows (q : Query) (rows : list Row) : list Row :=
  match limit q with
  | Some l => if l <? Z.of_nat (length rows) then take (Z.to_nat l) rows else rows
  | None => rows
  end.
(** The query over the rows of a table. *)
Definition run_query (q : Query) (rows : list Row) : res (list Row) :=
  rows ← order_rows q (List.filter (row_ok q) rows);
  mret (limit_rows q (offset_rows q rows)).

(** ** The Connection contract *)
Record Connection (D : Type) : Type := mkConnection {
  insert : string -> Row -> M D Z;
  find : string -> Z -> M D (option Row);
  all : string -> M D (list Row);
  select : string -> Query -> M D (list Row);
  update : string -> Z -> Row -> M D bool;
  remove : string -> Z -> M D bool;
  statement : string -> M D unit;
  update_if : string -> Z -> string -> Value -> Row -> M D bool;
  count : string -> Query -> M D Z;
  begin : M D unit;
  commit : M D unit;
  rollback : M D unit
}.
Arguments insert {_} _. Arguments find {_} _. Arguments all {_} _. Arguments select {_} _.
Arguments update {_} _. Arguments remove {_} _. Arguments statement {_} _.
Arguments update_if {_} _. Arguments count {_} _. Arguments begin {_} _. Arguments commit {_} _.
Arguments rollback {_} _.

(** The default bodies of the base class. *)
Definition where_only (q : Query) : Query := mkQuery (wheres q) None None None.
Definition default_count {D} (sel : string -> Query -> M D (list Row)) (table : string) (q : Query)
    : M D Z :=
  rows ← sel table (where_only q); mret (Z.of_nat (length rows)).
Definition default_update_if {D} (fnd : string -> Z -> M D (option Row))
    (upd : string -> Z -> Row -> M D bool) (table : string) (id : Z) (guard_col : string)
    (guard_value : Value) (row : Row) : M D bool :=
  current ← fnd table id;
  match current with
  | Some r => match r !! guard_col with
              | Some v => if value_eqb v guard_value then upd table id row else mret false
              | None => mret false
              end
  | None => mret false
  end.

(** Commit on normal return, roll back and rethrow otherwise. *)
Definition transaction {D} (conn : Connection D) (fn : M D unit) : M D unit :=
  _ ← begin conn;
  _ ← try_catch fn (fun e => _ ← rollback conn; throw e);
  commit conn.

(** ** MemoryConnection *)
Record Memory : Type := mkMemory {
  tables_ : gmap string (list Row);
  next_id_ : gmap string Z;
  snapshot_ : option (gmap string (list Row) * gmap string Z)
}.
Definition empty_memory : Memory := mkMemory ∅ ∅ None.
Definition set_tables (t : gmap string (list Row)) (m : Memory) : Memory :=
  mkMemory t (next_id_ m) (snapshot_ m).

(** [tables_[table]]: the rows, [] when the table does not exist. *)
Definition rows_of (m : Memory) (table : string) : list Row :=
  match tables_ m !! table with Some rows => rows | None => [] end.
(** [r.has("id") && r.get<std::int64_t>("id") == id]. *)
Definition is_id (id : Z) (r : Row) : bool :=
  match r !! "id" with Some v => value_int v =? id | None => false end.

Definition mem_insert (table : string) (row : Row) : M Memory Z := fun m =>
  let id := s64 (default 0 (next_id_ m !! table) + 1) in
  (Ok id, mkMemory (<[table := rows_of m table ++ [set_cell "id" (VInt id) row]]> (tables_ m))
            (<[table := id]> (next_id_ m)) (snapshot_ m)).

Fixpoint find_row (id : Z) (rows : list Row) : option Row :=
  match rows with
  | [] => None
  | r :: rows => if is_id id r then Some r else find_row id rows
  end.
Definition mem_find (table : string) (id : Z) : M Memory (option Row) :=
  gets (fun m => find_row id (rows_of m table)).
Definition mem_all (table : string) : M Memory (list Row) := gets (fun m => rows_of m table).
Definition mem_select (table : string) (q : Query) : M Memory (list Row) := fun m =>
  match tables_ m !! table with
  | None => (Ok [], m)
  | Some rows => (run_query q rows, m)
  end.

(** Replace the first row with the id: the scan of [update] and [update_if]. *)
Fixpoint replace_row (id : Z) (new : Row -> option Row) (rows : list Row) : option (list Row) :=
  match rows with
  | [] => None
  | r :: rows =>
      if is_id id r then
        match new r with Some r' => Some (set_cell "id" (VInt id) r' :: rows) | None => None end
      else match replace_row id new rows with Some rows => Some (r :: rows) | None => None end
  end.
Definition mem_replace (table : string) (id : Z) (new : Row -> option Row) : M Memory bool := fun m =>
  match tables_ m !! table with
  | None => (Ok false, m)
  | Some rows =>
      match replace_row id new rows with
      | Some rows => (Ok true, set_tables (<[table := rows]> (tables_ m)) m)
      | None => (Ok false, m)
      end
  end.
Definition mem_update (table : string) (id : Z) (row : Row) : M Memory bool :=
  mem_replace table id (fun _ => Some row).
Definition mem_update_if (table : string) (id : Z) (guard_col : string) (guard_value : Value)
    (row : Row) : M Memory bool :=
  mem_replace table id (fun r =>
    match r !! guard_col with
    | Some v => if value_eqb v guard_value then Some row else None
    | None => None
    end).
Definition mem_remove (table : string) (id : Z) : M Memory bool := fun m =>
  match tables_ m !! table with
  | None => (Ok false, m)
  | Some rows =>
      let rows' := List.filter (fun r => negb (is_id id r)) rows in
      (Ok (negb (length rows' =? length rows)%nat), set_tables (<[table := rows']> (tables_ m)) m)
  end.
Definition mem_begin : M Memory unit :=
  modify (fun m => mkMemory (tables_ m) (next_id_ m) (Some (tables_ m, next_id_ m))).
Definition mem_commit : M Memory unit :=
  modify (fun m => mkMemory (tables_ m) (next_id_ m) None).
Definition mem_rollback : M Memory unit :=
  modify (fun m => match snapshot_ m with
                   | None => m
                   | Some (t, n) => mkMemory t n None
                   end).

Definition MemoryConnection : Connection Memory :=
  mkConnection Memory mem_insert mem_find mem_all mem_select mem_update mem_remove
    (fun _ => mret tt) mem_update_if (default_count mem_select) mem_begin mem_commit mem_rollback.

(** ** Sorting *)
Lemma value_ltb_irrefl v : value_ltb v v = false.
Proof.
  destruct v as [z|d|s|b]; cbn.
  - apply Z.ltb_irrefl.
  - unfold SFltb, SFcompare. destruct d as [s|s| |s m e]; try done; [by destruct s|].
    destruct s; by rewrite Z.compare_refl, Pos.compare_cont_refl.
  - induction s as [|c s IH]; [done|]. cbn. by rewrite Z.ltb_irrefl.
  - by destruct b.
Qed.

Lemma str_ltb_asym a b : str_ltb a b = true -> str_ltb b a = false.
Proof.
  revert b; induction a as [|c a IH]; intros [|d b]; cbn; try done.
  destruct (byte_of c <? byte_of d) eqn:E1; bools.
  - intros _. replace (byte_of d <? byte_of c) with false by (symmetry; apply Z.ltb_ge; lia). done.
  - destruct (byte_of d <? byte_of c) eqn:E2; [done|]. apply IH.
Qed.

Lemma SFcompare_antisym a b : SFcompare b a = CompOpp <$> SFcompare a b.
Proof.
  destruct a as [s|s| |s m e], b as [s'|s'| |s' m' e']; cbn; try (by repeat case_match; simplify_eq).
  destruct s, s'; cbn; try done; rewrite (Z.compare_antisym e e');
    destruct (e ?= e'); cbn; try done; f_equal;
    change (Pos.compare_cont Datatypes.Eq m' m) with (m' ?= m)%positive;
    change (Pos.compare_cont Datatypes.Eq m m') with (m ?= m')%positive;
    rewrite (Pos.compare_antisym m m'); by destruct (m ?= m')%positive.
Qed.

Lemma value_ltb_asym a b : value_ltb a b = true -> value_ltb b a = false.
Proof.
  destruct a as [x|x|x|x], b as [y|y|y|y]; cbn; try done.
  - intros H%Z.ltb_lt. apply Z.ltb_ge. lia.
  - unfold SFltb. rewrite (SFcompare_antisym x y). by destruct (SFcompare x y) as [[]|].
  - apply str_ltb_asym.
  - by destruct x, y.
Qed.

Section sorting.
Context {A : Type} (lt : A -> A -> bool).

Lemma insert_sorted_perm x l : insert_sorted lt x l ≡ₚ x :: l.
Proof.
  induction l as [|y l IH]; [done|]. cbn. destruct (lt y x); [|done]. rewrite IH. apply Permutation_swap.
Qed.
Lemma stable_sort_perm l : stable_sort lt l ≡ₚ l.
Proof. induction l as [|x l IH]; [done|]. cbn. by rewrite insert_sorted_perm, IH. Qed.

Definition ascending (a b : A) : Prop := lt b a = false.
Context (asym : forall a b, lt a b = true -> lt b a = false).

Lemma insert_sorted_sorted x l : Sorted ascending l -> Sorted ascending (insert_sorted lt x l).
Proof.
  induction 1 as [|y l Hl IH Hy]; cbn; [by repeat constructor|].
  destruct (lt y x) eqn:E; [|by repeat constructor].
  constructor; [done|]. destruct Hy as [|z l Hz]; cbn.
  - constructor. by apply asym.
  - destruct (lt z x) eqn:E2; constructor; [done|by apply asym].
Qed.
Lemma stable_sort_sorted l : Sorted ascending (stable_sort lt l).
Proof. induction l; cbn; [constructor|by apply insert_sorted_sorted]. Qed.

(** Elements a key does not separate keep their order. *)
Context {K : Type} `{EqDecision K} (key : A -> K).
Context (key_lt : forall a b, lt a b = true -> key a ≠ key b).

Definition same (k : K) (a : A) : bool := bool_decide (key a = k).
Lemma insert_sorted_stable k x l :
  List.filter (same k) (insert_sorted lt x l) = List.filter (same k) (x :: l).
Proof.
  induction l as [|y l IH]; [done|]. cbn [insert_sorted]. destruct (lt y x) eqn:E; [|done].
  cbn [List.filter] in *. rewrite IH. pose proof (key_lt _ _ E). unfold same.
  destruct (bool_decide (key y = k)) eqn:E1, (bool_decide (key x = k)) eqn:E2; bools; congruence.
Qed.
Lemma stable_sort_stable k l : List.filter (same k) (stable_sort lt l) = List.filter (same k) l.
Proof.
  induction l as [|x l IH]; [done|]. cbn [stable_sort foldr].
  rewrite insert_sorted_stable. cbn [List.filter]. fold (stable_sort lt l). by rewrite IH.
Qed.
End sorting.

Lemma before_asym oc a b : before oc a b = true -> before oc b a = false.
Proof. unfold before. destruct (o_descending oc); apply value_ltb_asym. Qed.
Lemma before_key oc a b : before oc a b = true -> cell (o_column oc) a ≠ cell (o_column oc) b.
Proof.
  unfold before. destruct (o_descending oc); intros H E; rewrite E in H; by rewrite value_ltb_irrefl in H.
Qed.

(** ** What a query asks for *)
(** The meaning of a query, stated without the code's comparisons: values are equal or
    in order as their contents are, those of different alternatives in the order of the
    alternatives; doubles by the IEEE comparison, strings byte by byte. *)
Definition str_lt (a b : string) : Prop :=
  (exists c t, b = a +:+ String c t) \/
  (exists p c d s t, a = p +:+ String c s /\ b = p +:+ String d t /\ byte_of c < byte_of d).
Definition same_value (a b : Value) : Prop :=
  match a, b with
  | VDouble x, VDouble y => SFcompare x y = Some Datatypes.Eq
  | _, _ => a = b
  end.
Definition kind_rank (v : Value) : nat :=
  match v with VInt _ => 0%nat | VDouble _ => 1%nat | VStr _ => 2%nat | VBool _ => 3%nat end.
Definition less_value (a b : Value) : Prop :=
  match a, b with
  | VInt x, VInt y => x < y
  | VDouble x, VDouble y => SFcompare x y = Some Datatypes.Lt
  | VStr x, VStr y => str_lt x y
  | VBool x, VBool y => x = false /\ y = true
  | _, _ => (kind_rank a < kind_rank b)%nat
  end.

(** A row satisfies a clause when it has the column and its cell compares as asked. *)
Definition compares (op : Op) (x v : Value) (vs : list Value) : Prop :=
  match op with
  | Eq => same_value x v
  | Ne => ~ same_value x v
  | Lt => less_value x v
  | Lte => less_value x v \/ same_value x v
  | Gt => less_value v x
  | Gte => less_value v x \/ same_value v x
  | In => exists y, y ∈ vs /\ same_value x y
  end.
Definition satisfies (r : Row) (w : WhereClause) : Prop :=
  exists x, r !! w_column w = Some x /\ compares (w_op_ w) x (w_value w) (w_values w).

(** [kept P l k]: [k] is the elements of [l] with [P], in their order. *)
Inductive kept {A} (P : A -> Prop) : list A -> list A -> Prop :=
  | kept_nil : kept P [] []
  | kept_yes x l k : P x -> kept P l k -> kept P (x :: l) (x :: k)
  | kept_no x l k : ~ P x -> kept P l k -> kept P (x :: l) k.

(** A stable order on the order column, ascending or descending. *)
Definition precedes (oc : OrderClause) (a b : Row) : Prop :=
  exists x y, a !! o_column oc = Some x /\ b !! o_column oc = Some y /\
    if o_descending oc then less_value y x else less_value x y.
Definition ordered (q : Query) (rows sorted : list Row) : Prop :=
  match order q with
  | None => sorted = rows
  | Some oc =>
      sorted ≡ₚ rows /\ Sorted (fun a b => ~ precedes oc b a) sorted /\
      forall v, filter (fun r => r !! o_column oc = v) sorted
                = filter (fun r => r !! o_column oc = v) rows
  end.
(** Position [i] of the answer is position [offset + i], below the limit. *)
Definition window (q : Query) (sorted out : list Row) : Prop :=
  forall i r, out !! i = Some r <->
    sorted !! (Z.to_nat (default 0%Z (offset q)) + i)%nat = Some r /\
    forall l, limit q = Some l -> Z.of_nat i < l.

(** The code's comparisons have that meaning. *)
Lemma str_ltb_iff a b : str_ltb a b = true <-> str_lt a b.
Proof.
  split.
  - revert b; induction a as [|c a IH]; intros [|d b] H; cbn in H; try done.
    + left. by exists d, b.
    + destruct (byte_of c <? byte_of d) eqn:E1; bools.
      { right. by exists "", c, d, a, b. }
      destruct (byte_of d <? byte_of c) eqn:E2; [done|]; bools.
      assert (c = d) as -> by (rewrite <- (chr_byte_of c), <- (chr_byte_of d); f_equal; lia).
      destruct (IH _ H) as [(e & t & ->)|(p & e & f & u & v & -> & -> & Hlt)].
      * left. by exists e, t.
      * right. by exists (String d p), e, f, u, v.
  - assert (Hp : forall p a b, str_ltb (p +:+ a) (p +:+ b) = str_ltb a b).
    { intros p x y. induction p as [|e p IH]; [done|]. rewrite !s_app_cons. cbn. by rewrite Z.ltb_irrefl. }
    intros [(c & t & ->)|(p & c & d & u & v & -> & -> & H)].
    + rewrite <- (s_app_nil_r a) at 1. by rewrite Hp.
    + rewrite Hp. cbn. by rewrite (proj2 (Z.ltb_lt _ _) H).
Qed.

Lemma str_ltb_total a b : str_ltb a b = false -> str_ltb b a = false -> a = b.
Proof.
  revert b; induction a as [|c a IH]; intros [|d b] H1 H2; cbn in *; try done.
  destruct (byte_of c <? byte_of d) eqn:E1, (byte_of d <? byte_of c) eqn:E2; bools; try done.
  assert (c = d) as -> by (rewrite <- (chr_byte_of c), <- (chr_byte_of d); f_equal; lia).
  f_equal. by apply IH.
Qed.

Lemma value_eqb_iff a b : value_eqb a b = true <-> same_value a b.
Proof.
  destruct a, b; cbn; try done; unfold SFeqb.
  - rewrite Z.eqb_eq. split; congruence.
  - destruct (SFcompare _ _) as [[]|]; by split.
  - rewrite bool_decide_eq_true. split; congruence.
  - rewrite Bool.eqb_true_iff. split; congruence.
Qed.

Lemma value_ltb_iff a b : value_ltb a b = true <-> less_value a b.
Proof.
  destruct a, b; cbn; try (by vm_compute; split; (lia || congruence)); unfold SFltb.
  - apply Z.ltb_lt.
  - destruct (SFcompare _ _) as [[]|]; by split.
  - apply str_ltb_iff.
  - rewrite andb_true_iff, negb_true_iff. done.
Qed.

Lemma value_leb_iff a b : value_leb a b = true <-> less_value a b \/ same_value a b.
Proof.
  rewrite <- value_ltb_iff, <- value_eqb_iff. destruct a, b; cbn; unfold SFleb, SFltb, SFeqb; try tauto.
  - rewrite Z.leb_le, Z.ltb_lt, Z.eqb_eq. lia.
  - destruct (SFcompare _ _) as [[]|]; tauto.
  - rewrite negb_true_iff, bool_decide_eq_true.
    destruct (str_ltb s s0) eqn:E; destruct (str_ltb s0 s) eqn:E'.
    + by rewrite (str_ltb_asym _ _ E) in E'.
    + tauto.
    + split; [done|]. intros [H| ->]; [done|]. by rewrite E in E'.
    + split; [|done]. intros _. right. by apply str_ltb_total.
  - destruct b, b0; cbn; intuition congruence.
Qed.

Lemma clause_ok_iff r w : clause_ok r w = true <-> satisfies r w.
Proof.
  unfold clause_ok, satisfies. destruct (r !! w_column w) as [x|]; [|by split; [|intros (? & ? & ?)]].
  transitivity (compares (w_op_ w) x (w_value w) (w_values w));
    [|split; [eauto|by intros (? & [= <-] & ?)]].
  destruct (w_op_ w); cbn [matches compares].
  - apply value_eqb_iff.
  - by rewrite negb_true_iff, <- value_eqb_iff, not_true_iff_false.
  - apply value_ltb_iff.
  - apply value_leb_iff.
  - apply value_ltb_iff.
  - apply value_leb_iff.
  - rewrite existsb_exists. split; intros (y & Hy & E); exists y;
      (split; [by apply list_elem_of_In|by apply value_eqb_iff]).
Qed.

Lemma kept_filter {A} (P : A -> Prop) (f : A -> bool) l :
  (forall x, f x = true <-> P x) -> kept P l (List.filter f l).
Proof.
  intros H. induction l as [|x l IH]; [constructor|]. cbn. destruct (f x) eqn:E.
  - constructor; [by apply H|done].
  - constructor; [|done]. intros Hx. apply H in Hx. congruence.
Qed.
Lemma kept_unique {A} (P : A -> Prop) l k1 k2 : kept P l k1 -> kept P l k2 -> k1 = k2.
Proof. intros H. revert k2; induction H; intros k2 H2; inversion H2; subst; try done; [|by apply IHkept]. f_equal. by apply IHkept. Qed.

Lemma row_ok_iff q r : row_ok q r = true <-> Forall (satisfies r) (wheres q).
Proof.
  unfold row_ok. rewrite forallb_forall, Forall_forall. setoid_rewrite list_elem_of_In.
  by setoid_rewrite clause_ok_iff.
Qed.

(** The code's steps. *)
Lemma missing_column oc (rows : list Row) :
  existsb (fun r => negb (has r (o_column oc))) rows = true <->
  exists r, r ∈ rows /\ r !! o_column oc = None.
Proof.
  rewrite existsb_exists. unfold has. split; intros (r & Hr & E); exists r;
    (split; [by apply list_elem_of_In|]).
  - bools. destruct (r !! o_column oc); [by destruct E|done].
  - by rewrite E.
Qed.

Lemma cell_lookup oc (rows : list Row) r :
  existsb (fun r => negb (has r (o_column oc))) rows = false -> r ∈ rows ->
  r !! o_column oc = Some (cell (o_column oc) r).
Proof.
  intros H Hr. unfold cell. destruct (r !! o_column oc) eqn:E; [done|].
  assert (existsb (fun r => negb (has r (o_column oc))) rows = true); [|congruence].
  apply missing_column. by exists r.
Qed.

Lemma precedes_before oc a b : precedes oc a b -> before oc a b = true.
Proof.
  intros (x & y & Ha & Hb & H). unfold before, cell. rewrite Ha, Hb. cbn [default].
  destruct (o_descending oc); by apply value_ltb_iff.
Qed.

Lemma sort_ordered oc (rows : list Row) :
  existsb (fun r => negb (has r (o_column oc))) rows = false ->
  let sorted := stable_sort (before oc) rows in
  sorted ≡ₚ rows /\ Sorted (fun a b => ~ precedes oc b a) sorted /\
  forall v, filter (fun r => r !! o_column oc = v) sorted
            = filter (fun r => r !! o_column oc = v) rows.
Proof.
  intros Hall sorted. assert (Hp : sorted ≡ₚ rows) by apply stable_sort_perm. split; [done|]. split.
  - pose proof (stable_sort_sorted (before oc) (before_asym oc) rows) as H. fold sorted in H.
    clear -H. induction H as [|a l H IH Ha]; [constructor|]. constructor; [done|].
    destruct Ha as [|b l Hb]; constructor. intros E%precedes_before. unfold ascending in Hb. congruence.
  - intros v.
    assert (E : forall l, l ⊆ rows ->
      filter (fun r => r !! o_column oc = v) l
      = match v with Some x => List.filter (same (cell (o_column oc)) x) l | None => [] end).
    { intros l Hl. induction l as [|r l IH]; [by destruct v|]. rewrite filter_cons.
      rewrite (cell_lookup oc rows r Hall) by set_solver. rewrite IH by set_solver.
      destruct v as [x|]; [|by rewrite decide_False]. cbn [List.filter].
      change (same (cell (o_column oc)) x r) with (bool_decide (cell (o_column oc) r = x)).
      destruct (decide (cell (o_column oc) r = x)) as [->|Hn];
        [by rewrite decide_True, bool_decide_eq_true_2|].
      by rewrite decide_False, bool_decide_eq_false_2 by congruence. }
    rewrite !E; [|set_solver|intros r; by rewrite Hp].
    destruct v as [x|]; [|done]. apply stable_sort_stable, before_key.
Qed.

Lemma order_rows_spec q rows :
  match order_rows q rows with
  | Ok sorted => ordered q rows sorted /\
      forall oc, order q = Some oc -> (2 <= length rows)%nat -> Forall (fun r => has r (o_column oc) = true) rows
  | Throw e => e = out_of_range /\
      exists oc r, order q = Some oc /\ (2 <= length rows)%nat /\ r ∈ rows /\ r !! o_column oc = None
  end.
Proof.
  unfold order_rows, ordered. destruct (order q) as [oc|]; [|done].
  destruct (existsb _ rows) eqn:Ee.
  - pose proof Ee as (r & Hr & Hn)%missing_column.
    destruct (2 <=? length rows)%nat eqn:E2; bools; cbn [andb]; [by split; [|exists oc, r]|].
    split; [|intros; lia].
    destruct rows as [|x [|y l]]; [by apply elem_of_nil in Hr| |cbn in E2; lia].
    split_and!; [done| |done]. by repeat constructor.
  - rewrite andb_false_r. split; [by apply sort_ordered|].
    intros oc' [= <-] _. apply Forall_forall. intros r Hr. unfold has.
    by rewrite (cell_lookup _ _ _ Ee Hr).
Qed.

Lemma run_window q sorted : window q sorted (limit_rows q (offset_rows q sorted)).
Proof.
  intros i r. set (o := Z.to_nat (default 0 (offset q))).
  assert (Eo : offset_rows q sorted = drop o sorted).
  { unfold offset_rows, o. destruct (offset q) as [z|]; [|done].
    change (default 0 (Some z)) with z. case_goal; bools; [|done]. symmetry. apply drop_ge. lia. }
  rewrite Eo. unfold limit_rows. destruct (limit q) as [l|].
  - case_goal; bools.
    + rewrite lookup_take_Some, lookup_drop. split; intros [H Hi]; (split; [done|]).
      * intros l' [= <-]. lia.
      * specialize (Hi l eq_refl). lia.
    + rewrite lookup_drop. split; [|by intros []]. intros H. split; [done|]. intros l' [= <-].
      apply lookup_lt_Some in H. rewrite length_drop in *. lia.
  - rewrite lookup_drop. split; [|by intros []]. by intros H.
Qed.

(** C15: [select] keeps the rows that satisfy every clause of the query, orders them
    stably by the order column, and returns the positions from the offset up to the limit;
    it changes nothing, and it fails, with out_of_range, exactly when two or more rows
    are kept and one of them lacks the order column. *)
Theorem select_meets_query (table : string) (q : Query) (m : Memory) (rows : list Row) :
  kept (fun r => Forall (satisfies r) (wheres q)) (default [] (tables_ m !! table)) rows ->
  match mem_select table q m with
  | (Ok out, m') => m' = m /\
      (exists sorted, ordered q rows sorted /\ window q sorted out) /\
      forall oc, order q = Some oc -> (2 <= length rows)%nat -> Forall (fun r => is_Some (r !! o_column oc)) rows
  | (Throw e, m') => m' = m /\ e = out_of_range /\
      exists oc r, order q = Some oc /\ (2 <= length rows)%nat /\ r ∈ rows /\ r !! o_column oc = None
  end.
Proof.
  intros Hk. pose proof (kept_filter _ (row_ok q) (default [] (tables_ m !! table)) (row_ok_iff q)) as Hf.
  pose proof (kept_unique _ _ _ _ Hk Hf) as ->. clear Hk Hf.
  unfold mem_select. destruct (tables_ m !! table) as [rows|]; cbn [default].
  - unfold run_query. pose proof (order_rows_spec q (List.filter (row_ok q) rows)) as H.
    destruct (order_rows q _) as [sorted|e]; cbn; [|by split].
    destruct H as [Ho Hc]. split; [done|]. split; [exists sorted; split; [done|apply run_window]|].
    intros oc Eo Hl. eapply Forall_impl; [exact (Hc oc Eo Hl)|]. cbn. intros r Hr. unfold has in Hr.
    bools. by destruct (r !! o_column oc).
  - split; [done|]. split; [|cbn; intros; lia]. exists []. split.
    + unfold ordered. cbn. destruct (order q); [|done]. by repeat constructor.
    + pose proof (run_window q []) as Hw. unfold limit_rows, offset_rows in Hw.
      destruct (offset q) as [o|], (limit q) as [l|]; cbn in *; repeat case_match; rewrite ?drop_nil, ?take_nil in *; done.
Qed.

Lemma select_meets_query_witness :
  let row n : Row := {["n" := VInt n]} in
  let q := mkQuery [mkWhere "n" Gte (VInt 2) []] (Some (mkOrder "n" true)) (Some 1) (Some 1) in
  let m := mkMemory {["t" := [row 3; row 1; row 2]]} ∅ None in
  exists out, mem_select "t" q m = (Ok out, m) /\
    exists sorted, ordered q [row 3; row 2] sorted /\ window q sorted out.
Proof.
  intros row q m.
  assert (Hk : kept (fun r => Forall (satisfies r) (wheres q)) (default [] (tables_ m !! "t")) [row 3; row 2]).
  { change (default [] (tables_ m !! "t")) with [row 3; row 1; row 2].
    apply kept_yes; [apply (row_ok_iff q); vm_compute; reflexivity|].
    apply kept_no; [intros H%(row_ok_iff q); vm_compute in H; discriminate|].
    apply kept_yes; [apply (row_ok_iff q); vm_compute; reflexivity|]. apply kept_nil. }
  pose proof (select_meets_query "t" q m _ Hk) as H.
  destruct (mem_select "t" q m) as [[out|e] m'] eqn:E.
  - destruct H as (-> & H & _). exists out. split; [reflexivity|exact H].
  - vm_compute in E. discriminate.
Defined.

(** ** The store invariant *)
Definition row_id (r : Row) : Z := value_int (cell "id" r).
(** Every row has an integer id between 1 and the table's counter, and no two rows of
    a table share one. *)
Definition table_ok (k : Z) (rows : list Row) : Prop :=
  Forall (fun r => exists i, r !! "id" = Some (VInt i) /\ 1 <= i <= k) rows /\ NoDup (map row_id rows).
Definition tables_ok (t : gmap string (list Row)) (n : gmap string Z) : Prop :=
  (forall table rows, t !! table = Some rows -> table_ok (default 0 (n !! table)) rows) /\
  (forall table k, n !! table = Some k -> 0 <= k).
Definition memory_ok (m : Memory) : Prop :=
  tables_ok (tables_ m) (next_id_ m) /\
  match snapshot_ m with Some (t, n) => tables_ok t n | None => True end.

Lemma is_id_iff r i id : r !! "id" = Some (VInt i) -> is_id id r = bool_decide (i = id).
Proof.
  intros H. unfold is_id. rewrite H. cbn. destruct (i =? id) eqn:E; bools; symmetry;
    [by apply bool_decide_eq_true|by apply bool_decide_eq_false].
Qed.
Lemma row_id_of r i : r !! "id" = Some (VInt i) -> row_id r = i.
Proof. intros H. unfold row_id, cell. by rewrite H. Qed.

Lemma replace_row_app id new l1 r l2 :
  forallb (fun r => negb (is_id id r)) l1 = true -> is_id id r = true ->
  replace_row id new (l1 ++ r :: l2) =
    match new r with Some r' => Some (l1 ++ set_cell "id" (VInt id) r' :: l2) | None => None end.
Proof.
  intros Hl Hr. induction l1 as [|y l1 IH]; cbn; [by rewrite Hr|].
  cbn in Hl. bools. rewrite H, IH by done. by destruct (new r).
Qed.

Lemma find_row_split id rows r :
  find_row id rows = Some r -> exists l1 l2, rows = l1 ++ r :: l2 /\ is_id id r = true /\
    forallb (fun r => negb (is_id id r)) l1 = true.
Proof.
  induction rows as [|x rows IH]; [done|]. cbn. destruct (is_id id x) eqn:E.
  - intros [= ->]. by exists [], rows.
  - intros (l1 & l2 & -> & Hr & Hl)%IH. exists (x :: l1), l2. cbn. by rewrite E.
Qed.

(** The scan in terms of [find_row]. *)
Lemma replace_row_find id new rows :
  match find_row id rows with
  | None => replace_row id new rows = None
  | Some r => match new r with
              | None => replace_row id new rows = None
              | Some r' => exists l1 l2, rows = l1 ++ r :: l2 /\
                  forallb (fun r => negb (is_id id r)) l1 = true /\ is_id id r = true /\
                  replace_row id new rows = Some (l1 ++ set_cell "id" (VInt id) r' :: l2)
              end
  end.
Proof.
  destruct (find_row id rows) as [r|] eqn:E.
  - apply find_row_split in E as (l1 & l2 & -> & Hr & Hl). rewrite replace_row_app by done.
    destruct (new r); [|done]. by exists l1, l2.
  - induction rows as [|x rows IH]; [done|]. cbn in E |- *. destruct (is_id id x); [done|]. by rewrite IH.
Qed.

Lemma replace_row_Some id new rows rows' :
  replace_row id new rows = Some rows' ->
  exists l1 r l2 r', rows = l1 ++ r :: l2 /\ find_row id rows = Some r /\ is_id id r = true /\
    new r = Some r' /\ rows' = l1 ++ set_cell "id" (VInt id) r' :: l2 /\
    forallb (fun r => negb (is_id id r)) l1 = true.
Proof.
  intros H. pose proof (replace_row_find id new rows) as Hf. destruct (find_row id rows) as [r|] eqn:E; [|congruence].
  destruct (new r) as [r'|] eqn:En; [|congruence]. destruct Hf as (l1 & l2 & -> & Hl & Hr & E2).
  rewrite E2 in H. injection H as <-. by exists l1, r, l2, r'.
Qed.

Lemma lookup_set_cell k v r : set_cell k v r !! k = Some v.
Proof. apply lookup_insert_eq. Qed.
Lemma lookup_set_cell_ne k k' v r : k' ≠ k -> set_cell k' v r !! k = r !! k.
Proof. apply lookup_insert_ne. Qed.

Lemma is_id_set id r : is_id id (set_cell "id" (VInt id) r) = true.
Proof. unfold is_id. rewrite lookup_set_cell. apply Z.eqb_refl. Qed.

Lemma table_ok_mono k k' rows : table_ok k rows -> k <= k' -> table_ok k' rows.
Proof.
  intros [Hf Hn] Hk. split; [|done]. eapply Forall_impl; [done|]. cbn. intros r (i & Hr & Hi).
  exists i. split; [done|lia].
Qed.

Lemma table_ok_replace k id new rows rows' :
  table_ok k rows -> replace_row id new rows = Some rows' -> table_ok k rows'.
Proof.
  intros [Hf Hn] (l1 & r & l2 & r' & -> & _ & Hi & _ & -> & _)%replace_row_Some.
  apply Forall_app in Hf as [Hf1 Hf2]. apply Forall_cons in Hf2 as [(i & Hr & Hik) Hf2].
  rewrite (is_id_iff r i) in Hi by done. bools. subst i.
  assert (Hnew : set_cell "id" (VInt id) r' !! "id" = Some (VInt id)) by apply lookup_insert_eq.
  split.
  - apply Forall_app. split; [done|]. apply Forall_cons. split; [|done]. eauto.
  - rewrite map_app in *. cbn [map] in *. rewrite (row_id_of _ _ Hnew). by rewrite (row_id_of r id Hr) in Hn.
Qed.

Lemma table_ok_filter k p rows : table_ok k rows -> table_ok k (List.filter p rows).
Proof.
  intros [Hf Hn]. induction rows as [|r rows IH]; [done|]. cbn.
  apply Forall_cons in Hf as [Hr Hf]. cbn in Hn. apply NoDup_cons in Hn as [Hnr Hn].
  destruct (IH Hf Hn) as [If In]. destruct (p r); [|by split]. split; [by apply Forall_cons|].
  cbn. apply NoDup_cons. split; [|done]. intros H. apply Hnr.
  apply list_elem_of_In, in_map_iff in H as (x & Ex & Hx). apply filter_In in Hx as [Hx _].
  rewrite <- Ex. apply list_elem_of_In. by apply in_map.
Qed.

Lemma tables_ok_insert t n table rows :
  tables_ok t n -> table_ok (default 0 (n !! table)) rows -> tables_ok (<[table := rows]> t) n.
Proof.
  intros [Ht Hn] Hr. split; [|done]. intros t' rows' H.
  apply lookup_insert_Some in H as [[<- <-]|[Hne H]]; [done|by apply Ht].
Qed.

Lemma rows_of_ok m table :
  tables_ok (tables_ m) (next_id_ m) -> table_ok (default 0 (next_id_ m !! table)) (rows_of m table).
Proof.
  intros [Ht _]. unfold rows_of. destruct (tables_ m !! table) as [rows|] eqn:E; [by apply Ht|].
  cbn. split; constructor.
Qed.

Lemma next_id_nonneg m table : tables_ok (tables_ m) (next_id_ m) -> 0 <= default 0 (next_id_ m !! table).
Proof. intros [_ Hn]. destruct (next_id_ m !! table) eqn:E; cbn; [by eapply Hn|done]. Qed.

Lemma memory_ok_replace table id new m :
  memory_ok m -> memory_ok (mem_replace table id new m).2.
Proof.
  intros [Ht Hs]. unfold mem_replace. destruct (tables_ m !! table) as [rows|] eqn:E; [|by split].
  destruct (replace_row id new rows) as [rows'|] eqn:Er; [|by split]. split; [|done]. cbn.
  apply tables_ok_insert; [done|]. eapply table_ok_replace; [|done]. by apply Ht.
Qed.

Lemma memory_ok_insert table row m :
  memory_ok m -> default 0 (next_id_ m !! table) < 2 ^ 63 - 1 -> memory_ok (mem_insert table row m).2.
Proof.
  intros [Ht Hs] Hk. pose proof (next_id_nonneg m table Ht) as H0.
  pose proof (rows_of_ok m table Ht) as [Hf Hn]. split; [|done]. unfold mem_insert. cbn [snd tables_ next_id_].
  set (k := default 0 (next_id_ m !! table)) in *.
  assert (Ek : s64 (k + 1) = k + 1) by (unfold s64; rewrite Z.mod_small; lia). rewrite Ek.
  assert (Hrow : set_cell "id" (VInt (k + 1)) row !! "id" = Some (VInt (k + 1))) by apply lookup_insert_eq.
  split.
  - intros t rows H. destruct (decide (t = table)) as [->|Hne].
    + rewrite lookup_insert_eq in H. rewrite lookup_insert_eq. injection H as <-. cbn [default]. split.
      * apply Forall_app. split.
        { destruct (table_ok_mono k (k + 1) (rows_of m table)) as [Hf' _]; [by split|lia|done]. }
        apply Forall_singleton. exists (k + 1). split; [done|unfold id; lia].
      * rewrite map_app. apply NoDup_app. split; [done|]. split; [|by apply NoDup_singleton].
        intros x Hx Hx'. cbn in Hx'. apply list_elem_of_singleton in Hx'. subst x.
        rewrite (row_id_of _ _ Hrow) in Hx. apply list_elem_of_In, in_map_iff in Hx as (r & Er & Hr).
        rewrite Forall_forall in Hf. destruct (Hf r) as (i & Hi & Hb); [by apply list_elem_of_In|].
        rewrite (row_id_of _ _ Hi) in Er. lia.
    + rewrite lookup_insert_ne in H by done. rewrite lookup_insert_ne by done. by apply Ht.
  - intros t x H. apply lookup_insert_Some in H as [[_ <-]|[_ H]]; [lia|]. by eapply Ht.
Qed.

Inductive mem_step (m : Memory) : Memory -> Prop :=
  | step_insert table row : default 0 (next_id_ m !! table) < 2 ^ 63 - 1 ->
      mem_step m (insert MemoryConnection table row m).2
  | step_update table id row : mem_step m (update MemoryConnection table id row m).2
  | step_update_if table id col v row : mem_step m (update_if MemoryConnection table id col v row m).2
  | step_remove table id : mem_step m (remove MemoryConnection table id m).2
  | step_statement sql : mem_step m (statement MemoryConnection sql m).2
  | step_begin : mem_step m (begin MemoryConnection m).2
  | step_commit : mem_step m (commit MemoryConnection m).2
  | step_rollback : mem_step m (rollback MemoryConnection m).2.

Lemma mem_step_ok m m' : memory_ok m -> mem_step m m' -> memory_ok m'.
Proof.
  intros Hok []; try by apply memory_ok_replace.
  - by apply memory_ok_insert.
  - cbn. unfold mem_remove. destruct (tables_ m !! table) as [rows|] eqn:E; [|done].
    destruct Hok as [Ht Hs]. split; [|done]. cbn. apply tables_ok_insert; [done|].
    apply table_ok_filter. by apply Ht.
  - done.
  - destruct Hok as [Ht Hs]. by split.
  - destruct Hok as [Ht Hs]. by split.
  - destruct Hok as [Ht Hs]. cbn. destruct (snapshot_ m) as [[t n]|] eqn:E; [by split|].
    split; [done|]. by rewrite E.
Qed.

(** C16: In every store reachable from the empty one by any sequence of operations and
    transactions, every row carries an integer id between 1 and its table's counter
    and ids are unique within a table, in the current data and in the snapshot a
    rollback would restore. *)
Theorem memory_reachable_ok (m : Memory) : rtc mem_step empty_memory m -> memory_ok m.
Proof.
  intros H. assert (H0 : memory_ok empty_memory).
  { split; [|done]. split; intros t x Hx; cbn in Hx; by rewrite lookup_empty in Hx. }
  revert H0. induction H as [|m1 m2 m3 Hs _ IH]; [done|]. intros Hok. by apply IH, (mem_step_ok m1).
Qed.

Lemma memory_reachable_ok_witness :
  memory_ok (mem_rollback (mem_insert "t" ∅ (mem_begin (mem_insert "t" ∅ empty_memory).2).2).2).2.
Proof.
  apply memory_reachable_ok.
  eapply rtc_l; [apply (step_insert empty_memory "t" ∅); vm_compute; reflexivity|].
  eapply rtc_l; [apply step_begin|].
  eapply rtc_l; [apply (step_insert _ "t" ∅); vm_compute; reflexivity|].
  eapply rtc_l; [apply step_rollback|]. apply rtc_refl.
Defined.

(** ** What clients rely on *)
(** [view d t] is the table [t] as the rows in table order; [room d t] that another id
    can be assigned. *)
Class ConnectionLaws {D} (c : Connection D) (ok : D -> Prop) (view : D -> string -> list Row)
    (room : D -> string -> Prop) : Prop := {
  law_all t d : ok d -> all c t d = (Ok (view d t), d);
  law_select t q d : ok d -> select c t q d = (run_query q (view d t), d);
  law_find t id d : ok d -> find c t id d = (Ok (find_row id (view d t)), d);
  law_count t q d : ok d ->
    count c t q d = (Ok (Z.of_nat (length (List.filter (row_ok q) (view d t)))), d);
  law_insert t r d : ok d -> room d t ->
    exists id d', insert c t r d = (Ok id, d') /\ ok d' /\ find_row id (view d t) = None /\
      view d' t = view d t ++ [set_cell "id" (VInt id) r] /\
      (forall t', t' ≠ t -> view d' t' = view d t');
  law_update t id r d : ok d -> exists d', ok d' /\
    update c t id r d = (Ok (bool_decide (find_row id (view d t) ≠ None)), d') /\
    view d' t = default (view d t) (replace_row id (fun _ => Some r) (view d t)) /\
    (forall t', t' ≠ t -> view d' t' = view d t');
  law_update_if t id col v r d : ok d ->
    let guard row := match row !! col with
                     | Some x => if value_eqb x v then Some r else None
                     | None => None
                     end in
    exists d', ok d' /\
    update_if c t id col v r d = (Ok (bool_decide (replace_row id guard (view d t) ≠ None)), d') /\
    view d' t = default (view d t) (replace_row id guard (view d t)) /\
    (forall t', t' ≠ t -> view d' t' = view d t');
  law_remove t id d : ok d -> exists d', ok d' /\
    remove c t id d = (Ok (bool_decide (find_row id (view d t) ≠ None)), d') /\
    view d' t = List.filter (fun r => negb (is_id id r)) (view d t) /\
    (forall t', t' ≠ t -> view d' t' = view d t');
  law_room t id col v r d t' : room d t' ->
    room (update c t id r d).2 t' /\ room (update_if c t id col v r d).2 t' /\ room (remove c t id d).2 t'
}.

Lemma filter_length_same {A} (p : A -> bool) l :
  length (List.filter p l) = length l <-> forallb p l = true.
Proof.
  assert (H : forall l', (length (List.filter p l') <= length l')%nat) by (intros; apply List.filter_length_le).
  induction l as [|x l IH]; [done|]. cbn. destruct (p x); cbn.
  - rewrite <- IH. lia.
  - specialize (H l). split; [lia|done].
Qed.

Lemma find_row_None id rows : find_row id rows = None <-> forallb (fun r => negb (is_id id r)) rows = true.
Proof.
  induction rows as [|r rows IH]; [done|]. cbn. destruct (is_id id r); cbn; [done|]. done.
Qed.

Lemma replace_row_always id r rows :
  replace_row id (fun _ => Some r) rows = None <-> find_row id rows = None.
Proof.
  induction rows as [|x rows IH]; [done|]. cbn. destruct (is_id id x); [done|].
  rewrite <- IH. by destruct (replace_row id _ rows).
Qed.

Lemma run_query_nil q : run_query q [] = Ok [].
Proof.
  unfold run_query, order_rows. cbn [List.filter length existsb]. rewrite andb_false_r.
  assert (E : limit_rows q (offset_rows q []) = []).
  { assert (E : offset_rows q [] = []).
    { unfold offset_rows. destruct (offset q); [|done]. destruct (_ <=? _); [done|apply drop_nil]. }
    rewrite E. unfold limit_rows. destruct (limit q); [|done]. destruct (_ <? _); [apply take_nil|done]. }
  destruct (order q); cbn; by rewrite E.
Qed.

Lemma mem_replace_law table id new m :
  memory_ok m -> exists m', memory_ok m' /\
    mem_replace table id new m = (Ok (bool_decide (replace_row id new (rows_of m table) ≠ None)), m') /\
    rows_of m' table = default (rows_of m table) (replace_row id new (rows_of m table)) /\
    (forall t', t' ≠ table -> rows_of m' t' = rows_of m t').
Proof.
  intros Hok. pose proof (memory_ok_replace table id new m Hok) as Hok'.
  unfold mem_replace, rows_of in *. destruct (tables_ m !! table) as [rows|] eqn:E; cbn [default] in *.
  - destruct (replace_row id new rows) as [rows'|] eqn:Er; cbn [snd] in Hok'.
    + eexists. split; [exact Hok'|]. split; [by rewrite bool_decide_eq_true_2|]. cbn [set_tables tables_]. rewrite lookup_insert_eq.
      split; [done|]. intros t' Hne. by rewrite lookup_insert_ne.
    + exists m. by rewrite E.
  - exists m. by rewrite E.
Qed.

Lemma empty_memory_ok : memory_ok empty_memory.
Proof. split; [|done]. split; intros t x Hx; cbn in Hx; by rewrite lookup_empty in Hx. Qed.
(** Any number of inserts into one table. *)
Lemma memory_ok_inserts table rows m :
  memory_ok m -> default 0 (next_id_ m !! table) + Z.of_nat (length rows) < 2 ^ 63 - 1 ->
  memory_ok (fold_left (fun m r => (mem_insert table r m).2) rows m).
Proof.
  revert m. induction rows as [|r rows IH]; intros m Hok Hr; [done|]. cbn [fold_left length] in *. apply IH.
  - apply memory_ok_insert; [done|lia].
  - destruct Hok as [Ht _]. pose proof (next_id_nonneg m table Ht).
    unfold mem_insert. cbn [snd next_id_]. set (k := default 0 (next_id_ m !! table)) in *.
    rewrite lookup_insert_eq. cbn [default from_option]. unfold id, s64. rewrite Z.mod_small; lia.
Qed.

#[export] Instance memory_laws :
  ConnectionLaws MemoryConnection memory_ok rows_of
    (fun m t => default 0 (next_id_ m !! t) < 2 ^ 63 - 1).
Proof.
  assert (Hsel : forall t q d, mem_select t q d = (run_query q (rows_of d t), d)).
  { intros t q d. unfold mem_select, rows_of. destruct (tables_ d !! t); [done|]. by rewrite run_query_nil. }
  split; [done|intros; apply Hsel|done|..].
  - intros t q d _. cbn. unfold default_count, mbind, M_bind. rewrite Hsel.
    unfold run_query, order_rows. cbn. done.
  - intros t r d Hok Hroom. pose proof (memory_ok_insert t r d Hok Hroom) as Hok'. cbn.
    destruct Hok as [Ht _]. pose proof (next_id_nonneg d t Ht) as H0. pose proof (rows_of_ok d t Ht) as [Hf _].
    eexists _, _. split; [reflexivity|]. split; [exact Hok'|]. set (k := default 0 _) in *.
    assert (Ek : s64 (k + 1) = k + 1) by (unfold s64; rewrite Z.mod_small; lia). rewrite Ek.
    split; [|split].
    + apply find_row_None, forallb_forall. intros r' Hr'. apply negb_true_iff.
      rewrite Forall_forall in Hf. destruct (Hf r') as (i & Hi & Hb); [by apply list_elem_of_In|].
      rewrite (is_id_iff _ i) by done. apply bool_decide_eq_false. unfold id in Hb. lia.
    + unfold rows_of. cbn. by rewrite lookup_insert_eq.
    + intros t' Hne. unfold rows_of. cbn. by rewrite lookup_insert_ne.
  - intros t id r d Hok. destruct (mem_replace_law t id (fun _ => Some r) d Hok) as (d' & Hd & E & Hv & Ho).
    exists d'. split; [done|]. split; [|done]. cbn. unfold mem_update. rewrite E. do 2 f_equal.
    apply bool_decide_ext. by rewrite <- replace_row_always with (r := r).
  - intros t id col v r d Hok. by apply mem_replace_law.
  - intros t id d Hok. pose proof (mem_step_ok d _ Hok (step_remove d t id)) as Hok'. cbn in Hok' |- *.
    unfold mem_remove, rows_of in *. destruct (tables_ d !! t) as [rows|] eqn:E; cbn [default] in *.
    + eexists. split; [exact Hok'|]. split; [|split].
      * do 2 f_equal. destruct (length _ =? length rows)%nat eqn:El; cbn [negb]; bools; symmetry.
        -- apply bool_decide_eq_false. intros Hn. by apply Hn, find_row_None, filter_length_same.
        -- apply bool_decide_eq_true. intros Hn. apply find_row_None in Hn. by apply filter_length_same in Hn.
      * cbn. by rewrite lookup_insert_eq.
      * intros t' Hne. cbn. by rewrite lookup_insert_ne.
    + exists d. split; [done|]. by rewrite E.
  - intros t id col v r d t' Hr. cbn. unfold mem_update, mem_update_if, mem_replace, mem_remove.
    destruct (tables_ d !! t) as [rows|]; [|done].
    by destruct (replace_row id (fun _ => Some r) rows), (replace_row id _ rows).
Qed.

(** C17: A transaction on the memory backend is atomic: when the function throws, the
    tables and the id counters are those from before it and the exception goes on;
    when it returns, its writes stay.  (The function must not open one itself.) *)
Theorem transaction_atomic (fn : M Memory unit) (m : Memory) :
  let r := fn (mem_begin m).2 in
  snapshot_ r.2 = snapshot_ (mem_begin m).2 ->
  transaction MemoryConnection fn m =
    match r with
    | (Ok _, m') => (Ok tt, mkMemory (tables_ m') (next_id_ m') None)
    | (Throw e, _) => (Throw e, mkMemory (tables_ m) (next_id_ m) None)
    end.
Proof.
  cbn zeta. unfold transaction, try_catch, mbind, M_bind. cbn [begin MemoryConnection].
  cbn [mem_begin modify fst snd]. destruct (fn _) as [[u|e] m'] eqn:E; cbn [snd]; intros Hs.
  - by destruct u.
  - cbn. rewrite Hs. done.
Qed.

Lemma transaction_atomic_witness :
  let m := (mem_insert "t" ∅ empty_memory).2 in
  let fn : M Memory unit := _ ← mem_insert "t" ∅; _ ← mem_remove "t" 1; throw OtherExn in
  transaction MemoryConnection fn m = (Throw OtherExn, mkMemory (tables_ m) (next_id_ m) None).
Proof. intros m fn. apply (transaction_atomic fn m). vm_compute. reflexivity. Defined.

(** The guard of a compare-and-set. *)
Definition cas_guard (col : string) (v : Value) (row r : Row) : option Row :=
  match r !! col with
  | Some x => if value_eqb x v then Some row else None
  | None => None
  end.

Lemma replace_row_cas_once id col v row row' rows rows' :
  replace_row id (cas_guard col v row) rows = Some rows' -> col ≠ "id" ->
  (forall x, row !! col = Some x -> value_eqb x v = false) ->
  replace_row id (cas_guard col v row') rows' = None.
Proof.
  intros (l1 & r & l2 & r' & -> & _ & Hi & Hn & -> & Hl)%replace_row_Some Hc Hrow.
  rewrite replace_row_app by (done || apply is_id_set). unfold cas_guard in *.
  rewrite lookup_set_cell_ne by done.
  assert (r' = row) as -> by (destruct (r !! col) as [x|]; [destruct (value_eqb x v); congruence|done]).
  destruct (row !! col) as [x|] eqn:E; [|done]. by rewrite (Hrow x).
Qed.

(** The memory backend's compare-and-set does in one step what the base class's
    read-compare-write does in one thread; and once a call has moved the guard column
    off the observed value, a second call with the same observation fails and changes
    nothing: of any number of racing callers, one wins. *)
Theorem update_if_compare_and_set (table : string) (id : Z) (col : string) (v : Value)
    (row row' : Row) (m : Memory) :
  mem_update_if table id col v row m = default_update_if mem_find mem_update table id col v row m /\
  (col ≠ "id" -> (forall x, row !! col = Some x -> value_eqb x v = false) ->
   forall m', mem_update_if table id col v row m = (Ok true, m') ->
   mem_update_if table id col v row' m' = (Ok false, m')).
Proof.
  split.
  - unfold mem_update_if, default_update_if, mem_replace, mem_find, mem_update, gets, mbind, M_bind, rows_of.
    destruct (tables_ m !! table) as [rows|] eqn:Et; cbn [default]; [|done].
    pose proof (replace_row_find id (cas_guard col v row) rows) as H.
    pose proof (replace_row_find id (fun _ => Some row) rows) as H2.
    fold (cas_guard col v row). unfold cas_guard at 1 in H.
    destruct (find_row id rows) as [r|]; [|by rewrite H]. destruct (r !! col) as [x|]; [|by rewrite H].
    destruct (value_eqb x v); [|by rewrite H]. unfold mem_replace. rewrite Et.
    destruct H as (l1 & l2 & -> & Hl & Hr & ->). by rewrite replace_row_app.
  - intros Hc Hrow m' H. unfold mem_update_if, mem_replace in *.
    destruct (tables_ m !! table) as [rows|] eqn:Et; [|done]. fold (cas_guard col v row) in H.
    destruct (replace_row id (cas_guard col v row) rows) as [rows'|] eqn:Er; [|done]. injection H as <-.
    cbn. rewrite lookup_insert_eq. fold (cas_guard col v row').
    by rewrite (replace_row_cas_once _ _ _ _ _ _ _ Er).
Qed.

Lemma find_row_app id l1 l2 :
  find_row id (l1 ++ l2) = match find_row id l1 with Some r => Some r | None => find_row id l2 end.
Proof. induction l1 as [|r l1 IH]; [done|]. cbn. by destruct (is_id id r). Qed.

Lemma is_id_set_ne id id' r : id ≠ id' -> is_id id (set_cell "id" (VInt id') r) = false.
Proof. intros H. unfold is_id. rewrite lookup_set_cell. cbn. apply Z.eqb_neq. congruence. Qed.

Lemma find_row_replace id new rows rows' id' :
  replace_row id new rows = Some rows' ->
  find_row id' rows' = if decide (id' = id) then set_cell "id" (VInt id) <$> (find_row id rows ≫= new)
                       else find_row id' rows.
Proof.
  intros (l1 & r & l2 & r' & -> & Hf & Hi & Hn & -> & Hl)%replace_row_Some.
  rewrite Hf. cbn [mbind option_bind]. rewrite Hn. cbn [fmap option_fmap option_map].
  rewrite !find_row_app. destruct (decide (id' = id)) as [->|Hne].
  - apply find_row_None in Hl. rewrite Hl. cbn. by rewrite is_id_set.
  - destruct (find_row id' l1); [done|]. cbn. rewrite is_id_set_ne by done.
    replace (is_id id' r) with false; [done|]. symmetry. unfold is_id in *.
    destruct (r !! "id"); [|done]. bools. apply Z.eqb_neq. congruence.
Qed.

Section crud.
Context {D} (c : Connection D) ok view room `{!ConnectionLaws c ok view room}.

(** On any lawful connection, [insert] assigns an id no row of the table had, under
    which [find] then returns the inserted row with that id; every other row is found
    as before.  [update] makes [find] return the new row under the same id, whatever
    id the supplied row carried, and [remove] makes it return nothing. *)
Theorem crud_find (t : string) (r : Row) (d : D) :
  ok d -> room d t ->
  exists id d1, insert c t r d = (Ok id, d1) /\
    find c t id d = (Ok None, d) /\
    find c t id d1 = (Ok (Some (set_cell "id" (VInt id) r)), d1) /\
    (forall id', id' ≠ id -> (find c t id' d1).1 = (find c t id' d).1) /\
    (forall r2, exists d2, update c t id r2 d1 = (Ok true, d2) /\
       find c t id d2 = (Ok (Some (set_cell "id" (VInt id) r2)), d2) /\
       (forall id', id' ≠ id -> (find c t id' d2).1 = (find c t id' d1).1)) /\
    (exists d2, remove c t id d1 = (Ok true, d2) /\ find c t id d2 = (Ok None, d2)).
Proof.
  intros Hok Hroom. destruct (law_insert t r d Hok Hroom) as (id & d1 & E & Hok1 & Hf & Hv & _).
  exists id, d1. split; [done|]. rewrite !law_find by done. rewrite Hf, Hv, find_row_app, Hf. cbn [find_row].
  rewrite is_id_set. do 2 (split; [done|]).
  assert (Hf1 : find_row id (view d1 t) = Some (set_cell "id" (VInt id) r))
    by (rewrite Hv, find_row_app, Hf; cbn [find_row]; by rewrite is_id_set).
  split; [|split].
  - intros id' Hne. rewrite !law_find by done. cbn [fst]. rewrite Hv, find_row_app. cbn [find_row].
    rewrite is_id_set_ne by done. by destruct (find_row id' (view d t)).
  - intros r2. destruct (law_update t id r2 d1 Hok1) as (d2 & Hok2 & Eu & Hv2 & _).
    exists d2. rewrite Eu, Hf1. split; [by rewrite bool_decide_eq_true_2|].
    destruct (replace_row id (fun _ => Some r2) (view d1 t)) as [rows'|] eqn:Er.
    2:{ apply replace_row_always in Er. congruence. }
    cbn in Hv2. split.
    + rewrite law_find by done. rewrite Hv2, (find_row_replace _ _ _ _ id Er), decide_True by done.
      by rewrite Hf1.
    + intros id' Hne. rewrite !law_find by done. cbn [fst].
      by rewrite Hv2, (find_row_replace _ _ _ _ id' Er), decide_False.
  - destruct (law_remove t id d1 Hok1) as (d2 & Hok2 & Er & Hv2 & _).
    exists d2. rewrite Er, Hf1. split; [by rewrite bool_decide_eq_true_2|].
    rewrite law_find by done. rewrite Hv2. do 2 f_equal. apply find_row_None, forallb_forall.
    intros x Hx%filter_In. apply Hx.
Qed.
End crud.

Lemma crud_find_witness :
  exists id d1, insert MemoryConnection "t" ∅ empty_memory = (Ok id, d1) /\
      find MemoryConnection "t" id empty_memory = (Ok None, empty_memory) /\
      find MemoryConnection "t" id d1 = (Ok (Some (set_cell "id" (VInt id) ∅)), d1) /\
      (forall id', id' ≠ id -> (find MemoryConnection "t" id' d1).1 = (find MemoryConnection "t" id' empty_memory).1) /\
      (forall r2, exists d2, update MemoryConnection "t" id r2 d1 = (Ok true, d2) /\
         find MemoryConnection "t" id d2 = (Ok (Some (set_cell "id" (VInt id) r2)), d2) /\
         (forall id', id' ≠ id -> (find MemoryConnection "t" id' d2).1 = (find MemoryConnection "t" id' d1).1)) /\
      (exists d2, remove MemoryConnection "t" id d1 = (Ok true, d2) /\ find MemoryConnection "t" id d2 = (Ok None, d2)).
Proof.
  apply (crud_find MemoryConnection memory_ok rows_of
    (fun m t => default 0 (next_id_ m !! t) < 2 ^ 63 - 1) "t" ∅ empty_memory); [|vm_compute; reflexivity].
  split; [|done]. split; intros t x Hx; cbn in Hx; by rewrite lookup_empty in Hx.
Defined.

Lemma is_sql_identifier_iff s :
  is_sql_identifier s = true <->
  exists c t, s = String c t /\ word c = true /\ s_all (fun c => word c || is_digit c) s.
Proof.
  destruct s as [|c t]; cbn [is_sql_identifier]; [naive_solver|].
  rewrite andb_true_iff, forallb_forall, <- List.Forall_forall. unfold s_all. naive_solver.
Qed.
