(* ===== verification/Tables.v ===== *)
(** * What the two backends promise alike

    [ConnectionLaws] (Database.v) holds of the memory backend, which keeps any row under
    any name and gives every value back as it was.  A database with columns does less: it
    has the tables its migrations made, gives a value back in its column's form and
    promises no order.  [TableLaws] is the part that both backends keep; the clients that
    are proved against it run on either. *)
From S2P Require Import Prelude CppString CppNum Database.

Local Open Scope Z_scope.

(** Every row has an integer key, and no two the same. *)
Definition sole_keys (rows : list Row) : Prop :=
  NoDup (map (fun r => r !! "id") rows) /\ Forall (fun r => exists k, r !! "id" = Some (VInt k)) rows.
(** The rows with a text in a column. *)
Definition text_query (col text : string) : Query := mkQuery [mkWhere col Eq (VStr text) []] None None None.

(** [known t]: the table exists; [fits t r]: [r] names every column of [t] but the key, with
    values of the columns' kinds; [norm]: a value as it is read back; [room d t n]: [t] has
    keys for [n] rows more. *)
Class TableLaws {D} (c : Connection D) (ok : D -> Prop) (view : D -> string -> list Row) (room : D -> string -> nat -> Prop)
    (known : string -> Prop) (fits : string -> Row -> Prop) (norm : Value -> Value) : Prop := {
  tl_norm_int z : norm (VInt z) = VInt z;
  tl_norm_str s : c_str s = s -> norm (VStr s) = VStr s;
  tl_norm_bool b : value_bool (norm (VBool b)) = b;
  tl_fewer d t n : room d t (S n) -> room d t n;
  tl_fits t d : known t -> ok d -> Forall (fits t) (view d t);
  tl_stable t d : known t -> ok d -> Forall (fun r => norm <$> r = r) (view d t);
  tl_keys t d : known t -> ok d -> sole_keys (view d t);
  tl_all t d : known t -> ok d -> exists rows, all c t d = (Ok rows, d) /\ rows ≡ₚ view d t;
  tl_find t id d : known t -> ok d -> find c t id d = (Ok (find_row id (view d t)), d);
  tl_select t col s r d : known t -> ok d -> col ≠ "id" -> c_str s = s -> fits t (set_cell col (VStr s) r) ->
    exists rows, select c t (text_query col s) d = (Ok rows, d) /\ rows ≡ₚ List.filter (row_ok (text_query col s)) (view d t);
  tl_insert t r d n : known t -> ok d -> room d t (S n) -> fits t r -> r !! "id" = None ->
    exists id d', insert c t r d = (Ok id, d') /\ ok d' /\ find_row id (view d t) = None /\
      view d' t = view d t ++ [set_cell "id" (VInt id) (norm <$> r)] /\ room d' t n /\
      (forall t', t' ≠ t -> view d' t' = view d t' /\ forall m, room d t' m -> room d' t' m);
  tl_update t id r d : known t -> ok d -> fits t r -> exists d', ok d' /\
    update c t id r d = (Ok (bool_decide (find_row id (view d t) ≠ None)), d') /\
    view d' t = default (view d t) (replace_row id (fun _ => Some (norm <$> r)) (view d t)) /\
    (forall t', t' ≠ t -> view d' t' = view d t') /\ (forall t' m, room d t' m -> room d' t' m);
  tl_update_if t id col z r d : known t -> ok d -> fits t r -> col ≠ "id" -> fits t (set_cell col (VInt z) r) ->
    let guard := cas_guard col (VInt z) (norm <$> r) in exists d', ok d' /\
    update_if c t id col (VInt z) r d = (Ok (bool_decide (replace_row id guard (view d t) ≠ None)), d') /\
    view d' t = default (view d t) (replace_row id guard (view d t)) /\
    (forall t', t' ≠ t -> view d' t' = view d t') /\ (forall t' m, room d t' m -> room d' t' m);
  tl_remove t id d : known t -> ok d -> exists d', ok d' /\
    remove c t id d = (Ok (bool_decide (find_row id (view d t) ≠ None)), d') /\
    view d' t = List.filter (fun r => negb (is_id id r)) (view d t) /\
    (forall t', t' ≠ t -> view d' t' = view d t') /\ (forall t' m, room d t' m -> room d' t' m)
}.

(** The memory backend keeps rows as they are: it has every table, and any row fits. *)
Lemma mem_change_next t id r m : next_id_ (mem_update t id r m).2 = next_id_ m.
Proof. unfold mem_update, mem_replace. destruct (tables_ m !! t); [|done]. by destruct (replace_row _ _ _). Qed.
Lemma mem_update_if_next t id col v r m : next_id_ (mem_update_if t id col v r m).2 = next_id_ m.
Proof. unfold mem_update_if, mem_replace. destruct (tables_ m !! t); [|done]. by destruct (replace_row _ _ _). Qed.
Lemma mem_remove_next t id m : next_id_ (mem_remove t id m).2 = next_id_ m.
Proof. unfold mem_remove. by destruct (tables_ m !! t). Qed.
Definition memory_room (m : Memory) (t : string) (n : nat) : Prop := default 0 (next_id_ m !! t) + Z.of_nat n < 2 ^ 63.
#[export] Instance memory_tables :
  TableLaws MemoryConnection memory_ok rows_of memory_room (fun _ => True) (fun _ _ => True) id.
Proof.
  split.
  - done.
  - done.
  - done.
  - unfold memory_room. lia.
  - intros t d _ _. by apply Forall_forall.
  - intros t d _ _. apply Forall_forall. intros r _. apply map_fmap_id.
  - intros t d _ [Ht _]. destruct (rows_of_ok d t Ht) as [Hf Hn]. split.
    + revert Hf Hn. clear. induction (rows_of d t) as [|r rows IH]; intros Hf Hn; [by constructor|]. cbn [map] in *.
      apply Forall_cons in Hf as [(i & Hi & _) Hf]. apply NoDup_cons in Hn as [Hn1 Hn]. apply NoDup_cons. split; [|by apply IH].
      intros Hin. apply Hn1. apply list_elem_of_In, in_map_iff in Hin as (x & Ex & Hx). apply list_elem_of_In, in_map_iff.
      exists x. split; [|done]. rewrite Hi in Ex. by rewrite (row_id_of x i), (row_id_of r i).
    + eapply Forall_impl; [exact Hf|]. intros r (i & Hi & _). by exists i.
  - intros t d _ Hok. exists (rows_of d t). by rewrite law_all.
  - intros t i d _ Hok. by apply law_find.
  - intros t col s r d _ Hok _ _ _. rewrite law_select by done. exists (List.filter (row_ok (text_query col s)) (rows_of d t)).
    split; [|done]. unfold run_query, order_rows. cbn [text_query order limit offset]. done.
  - intros t r d n _ Hok Hroom _ _. rewrite map_fmap_id. unfold memory_room in *.
    assert (Hr : default 0 (next_id_ d !! t) < 2 ^ 63 - 1) by lia.
    destruct (law_insert (ConnectionLaws := memory_laws) t r d Hok Hr) as (i & d' & E & Hok' & Hf & Hv & Ho).
    exists i, d'. do 4 (split; [done|]). cbn [insert MemoryConnection] in E. unfold mem_insert in E. injection E as _ <-. cbn [next_id_].
    pose proof (next_id_nonneg d t (proj1 Hok)) as H0. split.
    + set (k := default 0 (next_id_ d !! t)) in *. rewrite lookup_insert_eq. change (s64 (k + 1) + Z.of_nat n < 2 ^ 63). unfold s64. rewrite Z.mod_small; lia.
    + intros t' Hne. split; [by apply Ho|]. intros m. by rewrite lookup_insert_ne.
  - intros t i r d _ Hok _. rewrite map_fmap_id. destruct (law_update t i r d Hok) as (d' & Hok' & E & Hv & Ho).
    exists d'. do 4 (split; [done|]). intros t' m. pose proof (mem_change_next t i r d) as En. cbn [update MemoryConnection] in E.
    rewrite E in En. unfold memory_room. cbn [snd] in En. by rewrite En.
  - intros t i col z r d _ Hok _ _ _. cbn zeta. rewrite map_fmap_id.
    destruct (law_update_if t i col (VInt z) r d Hok) as (d' & Hok' & E & Hv & Ho).
    exists d'. do 4 (split; [done|]). intros t' m. pose proof (mem_update_if_next t i col (VInt z) r d) as En. cbn [update_if MemoryConnection] in E.
    rewrite E in En. unfold memory_room. cbn [snd] in En. by rewrite En.
  - intros t i d _ Hok. destruct (law_remove t i d Hok) as (d' & Hok' & E & Hv & Ho).
    exists d'. do 4 (split; [done|]). intros t' m. pose proof (mem_remove_next t i d) as En. cbn [remove MemoryConnection] in E.
    rewrite E in En. unfold memory_room. cbn [snd] in En. by rewrite En.
Qed.

(** A replacement as a map over the table, when no two rows share a key. *)
Section replaced.
Context (id : Z) (new : Row -> option Row).
Definition replaced (r : Row) : Row :=
  if is_id id r then match new r with Some r' => set_cell "id" (VInt id) r' | None => r end else r.
Definition taken (r : Row) : bool := is_id id r && bool_decide (new r ≠ None).

Lemma not_id_replaced rows : forallb (fun r => negb (is_id id r)) rows = true ->
  map replaced rows = rows /\ List.filter taken rows = [].
Proof.
  induction rows as [|r rows IH]; [done|]. cbn. intros H. bools. destruct (IH ltac:(done)) as [-> E].
  unfold replaced, taken. destruct (is_id id r); [done|]. cbn. split; [done|]. exact E.
Qed.
Lemma sole_tail l1 r l2 : sole_keys (l1 ++ r :: l2) -> is_id id r = true -> forallb (fun r => negb (is_id id r)) l2 = true.
Proof.
  intros [Hnd Hk] Hr. apply forallb_forall. intros x Hx. apply negb_true_iff.
  rewrite map_app in Hnd. apply NoDup_app in Hnd as (_ & _ & Hnd). cbn [map] in Hnd. apply NoDup_cons in Hnd as [Hn _].
  apply Forall_app in Hk as [_ Hk]. apply Forall_cons in Hk as [[k Ek] Hk].
  rewrite Forall_forall in Hk. destruct (Hk x) as [k' Ek']; [by apply list_elem_of_In|].
  unfold is_id in *. rewrite Ek in Hr. rewrite Ek'. cbn in *. bools. apply Z.eqb_neq. intros ->. subst k. apply Hn.
  apply list_elem_of_In, in_map_iff. exists x. split; [congruence|done].
Qed.
Lemma replace_row_map rows : sole_keys rows ->
  default rows (replace_row id new rows) = map replaced rows /\
  bool_decide (replace_row id new rows ≠ None) = (0 <? Z.of_nat (length (List.filter taken rows))).
Proof.
  intros Hs. pose proof (replace_row_find id new rows) as Hf. destruct (find_row id rows) as [r|] eqn:E.
  - apply find_row_split in E as (l1 & l2 & -> & Hr & Hl). pose proof (sole_tail _ _ _ Hs Hr) as Ht.
    destruct (not_id_replaced l1 Hl) as [E1 F1], (not_id_replaced l2 Ht) as [E2 F2].
    rewrite map_app, List.filter_app, E1, F1. cbn [map List.filter]. rewrite E2, F2.
    unfold replaced, taken. rewrite Hr, replace_row_app by done. destruct (new r); [done|]. done.
  - rewrite Hf. apply find_row_None in E. destruct (not_id_replaced rows E) as [-> ->]. done.
Qed.
End replaced.
Lemma find_row_replaced id r rows : bool_decide (find_row id rows ≠ None) = bool_decide (replace_row id (fun _ => Some r) rows ≠ None).
Proof. apply bool_decide_ext. by rewrite <- replace_row_always with (r := r). Qed.
(** With such keys, the rows of one key are the one [find] gives. *)
Lemma find_row_filtered id rows : sole_keys rows ->
  (find_row id rows = None /\ List.filter (is_id id) rows = []) \/
  exists r, find_row id rows = Some r /\ List.filter (is_id id) rows = [r].
Proof.
  intros Hs. assert (Hno : forall l, forallb (fun r => negb (is_id id r)) l = true -> List.filter (is_id id) l = []).
  { intros l Hl. induction l as [|r l IH]; [done|]. cbn in Hl |- *. bools. rewrite IH by done. by destruct (is_id id r). }
  destruct (find_row id rows) as [r|] eqn:E; [|left; by split; [|apply Hno, find_row_None]].
  right. exists r. split; [done|]. apply find_row_split in E as (l1 & l2 & -> & Hr & Hl).
  pose proof (sole_tail id _ _ _ Hs Hr) as Ht. rewrite List.filter_app, (Hno l1 Hl). cbn. by rewrite Hr, (Hno l2 Ht).
Qed.

(** ** One row of a table *)
Lemma fmap_set_cell (f : Value -> Value) k v r : f <$> set_cell k v r = set_cell k (f v) (f <$> r).
Proof. exact (fmap_insert f r k v). Qed.
Lemma is_id_of row id : row !! "id" = Some (VInt id) -> is_id id row = true.
Proof. intros H. unfold is_id. rewrite H. apply Z.eqb_refl. Qed.
Lemma sole_perm rows rows' : rows ≡ₚ rows' -> sole_keys rows -> sole_keys rows'.
Proof. intros Hp [Hn Hf]. split; [by rewrite <- (Permutation_map _ Hp)|by rewrite <- Hp]. Qed.
(** The row of a key, wherever it is. *)
Lemma sole_split rows r rest id : sole_keys rows -> rows ≡ₚ r :: rest -> is_id id r = true ->
  exists l1 l2, rows = l1 ++ r :: l2 /\ l1 ++ l2 ≡ₚ rest /\
    forallb (fun r => negb (is_id id r)) l1 = true /\ forallb (fun r => negb (is_id id r)) l2 = true.
Proof.
  intros Hs Hp Hr. assert (Hin : r ∈ rows) by (rewrite Hp; by left). apply list_elem_of_split in Hin as (l1 & l2 & ->).
  exists l1, l2. split; [done|]. split.
  - apply (Permutation_cons_inv (a := r)). rewrite <- Hp. apply Permutation_middle.
  - split; [|by apply (sole_tail id l1 r l2)]. apply (sole_tail id l2 r l1); [|done].
    eapply sole_perm; [|exact Hs]. solve_Permutation.
Qed.
Lemma find_perm rows r rest id : sole_keys rows -> rows ≡ₚ r :: rest -> is_id id r = true -> find_row id rows = Some r.
Proof.
  intros Hs Hp Hr. destruct (sole_split rows r rest id Hs Hp Hr) as (l1 & l2 & -> & _ & H1 & _).
  apply find_row_None in H1. rewrite find_row_app, H1. cbn. by rewrite Hr.
Qed.
Lemma replace_perm rows r r' rest id new : sole_keys rows -> rows ≡ₚ r :: rest -> is_id id r = true -> new r = Some r' ->
  exists rows', replace_row id new rows = Some rows' /\ rows' ≡ₚ set_cell "id" (VInt id) r' :: rest.
Proof.
  intros Hs Hp Hr Hn. destruct (sole_split rows r rest id Hs Hp Hr) as (l1 & l2 & -> & Hl & H1 & _).
  rewrite replace_row_app, Hn by done. eexists. split; [reflexivity|]. by rewrite <- Permutation_middle, Hl.
Qed.
Lemma filter_not_id id rows : forallb (fun r => negb (is_id id r)) rows = true -> List.filter (fun r => negb (is_id id r)) rows = rows.
Proof. induction rows as [|r rows IH]; [done|]. cbn. intros H. bools. rewrite H, IH by done. done. Qed.
Lemma remove_perm rows r rest id : sole_keys rows -> rows ≡ₚ r :: rest -> is_id id r = true ->
  List.filter (fun r => negb (is_id id r)) rows ≡ₚ rest.
Proof.
  intros Hs Hp Hr. destruct (sole_split rows r rest id Hs Hp Hr) as (l1 & l2 & -> & Hl & H1 & H2).
  rewrite List.filter_app. cbn [List.filter]. rewrite Hr. cbn [negb]. by rewrite !filter_not_id.
Qed.

Section row.
Context {D} (c : Connection D) ok view room known fits norm `{!TableLaws c ok view room known fits norm}.
Context (t : string) (Hknown : known t) (d : D) (r : Row) (id : Z) (rest : list Row).
Context (Hok : ok d) (Hrow : view d t ≡ₚ r :: rest) (Hid : r !! "id" = Some (VInt id)).
(** The other tables, and the room everywhere, as before. *)
Definition rest_kept (d' : D) : Prop :=
  (forall t', t' ≠ t -> view d' t' = view d t') /\ (forall t' m, room d t' m -> room d' t' m).

Lemma row_stable : norm <$> r = r.
Proof. pose proof (tl_stable t d Hknown Hok) as H. rewrite Hrow in H. by apply Forall_cons in H as [? _]. Qed.
Lemma row_fits : fits t r.
Proof. pose proof (tl_fits t d Hknown Hok) as H. rewrite Hrow in H. by apply Forall_cons in H as [? _]. Qed.
Lemma set_id r' : r' !! "id" = Some (VInt id) -> set_cell "id" (VInt id) r' = r'.
Proof. intros H. by apply insert_id. Qed.

Lemma remove_row : exists d', remove c t id d = (Ok true, d') /\ ok d' /\ view d' t ≡ₚ rest /\ rest_kept d'.
Proof.
  destruct (tl_remove t id d Hknown Hok) as (d' & Hok' & E & Hv & Ho). exists d'. pose proof (tl_keys t d Hknown Hok) as Hs.
  rewrite (find_perm _ _ _ id Hs Hrow (is_id_of r id Hid)) in E. split; [done|]. split; [done|]. split; [|done].
  rewrite Hv. apply (remove_perm _ r); [done|done|by apply is_id_of].
Qed.
Lemma update_row r' : r' !! "id" = Some (VInt id) -> fits t r' -> norm <$> r' = r' ->
  exists d', update c t id r' d = (Ok true, d') /\ ok d' /\ view d' t ≡ₚ r' :: rest /\ rest_kept d'.
Proof.
  intros Hi Hf Hn. destruct (tl_update t id r' d Hknown Hok Hf) as (d' & Hok' & E & Hv & Ho). exists d'.
  pose proof (tl_keys t d Hknown Hok) as Hs. rewrite (find_perm _ _ _ id Hs Hrow (is_id_of r id Hid)) in E.
  split; [done|]. split; [done|]. split; [|done].
  destruct (replace_perm _ r r' rest id (fun _ => Some r') Hs Hrow (is_id_of r id Hid) eq_refl) as (rows' & Er & Hp).
  rewrite Hn in Hv. assert (Hv' : view d' t = rows') by (etrans; [exact Hv|exact (f_equal (default (view d t)) Er)]).
  by rewrite Hv', Hp, set_id.
Qed.
(** A compare-and-set on a column that has the value seen. *)
Lemma claim_row col z z' : col ≠ "id" -> r !! col = Some (VInt z) -> (forall v r, fits t r -> fits t (set_cell col (VInt v) r)) ->
  let r' := set_cell col (VInt z') r in
  exists d', update_if c t id col (VInt z) r' d = (Ok true, d') /\ ok d' /\ view d' t ≡ₚ r' :: rest /\ rest_kept d'.
Proof.
  intros Hne Hz Hf r'. assert (Hn : norm <$> r' = r') by (unfold r'; by rewrite fmap_set_cell, tl_norm_int, row_stable).
  destruct (tl_update_if t id col z r' d Hknown Hok (Hf _ _ row_fits) Hne (Hf _ _ (Hf _ _ row_fits))) as (d' & Hok' & E & Hv & Ho).
  exists d'. rewrite Hn in E, Hv.
  destruct (replace_perm _ r r' rest id (cas_guard col (VInt z) r') (tl_keys t d Hknown Hok) Hrow (is_id_of r id Hid)) as (rows' & Er & Hp).
  { unfold cas_guard. rewrite Hz. cbn. by rewrite Z.eqb_refl. }
  rewrite Er in E, Hv. rewrite bool_decide_eq_true_2 in E by done. split; [done|]. split; [done|]. split; [|done].
  rewrite Hv. cbn [default from_option]. unfold Datatypes.id. rewrite Hp, set_id; [done|]. unfold r'. by rewrite lookup_set_cell_ne.
Qed.
End row.
