(* ===== verification/Repository.v ===== *)
(** * repository.hpp / relations.hpp: typed repositories and the query builder

    A [Mapper] bridges a model type and rows; [QueryBuilder] accumulates a [Query]
    and refuses column names that are not plain identifiers; [Repository] and the
    relations are thin clients of a [Connection].  The theorems use the
    [ConnectionLaws] interface only. *)
From S2P Require Import Prelude CppString CppNum Database.

Local Open Scope Z_scope.

Record Mapper (T : Type) : Type := mkMapper {
  table : string;
  hydrate : Row -> res T;
  to_row : T -> Row;
  model_id : T -> Z;
  set_id : Z -> T -> T
}.
Arguments mkMapper {_} _ _ _ _ _.
Arguments table {_} _. Arguments hydrate {_} _. Arguments to_row {_} _. Arguments model_id {_} _.
Arguments set_id {_} _.

Record Page (T : Type) : Type := mkPage {
  items : list T;
  total : Z;
  page : Z;
  per_page : Z;
  last_page : Z
}.
Arguments mkPage {_} _ _ _ _ _.
Arguments items {_} _. Arguments total {_} _. Arguments page {_} _. Arguments per_page {_} _.
Arguments last_page {_} _.

(** [for (r : rows) out.push_back(Mapper::hydrate(r))]. *)
Fixpoint hydrate_all {T} (mp : Mapper T) (rows : list Row) : res (list T) :=
  match rows with
  | [] => mret []
  | r :: rows => x ← hydrate mp r; xs ← hydrate_all mp rows; mret (x :: xs)
  end.

(** ** Building a query *)
Definition checked (column : string) : res string :=
  if negb (is_sql_identifier column)
  then Throw (StdExn ("unsafe SQL identifier: " +:+ column)) else Ok column.
Definition add_where (w : WhereClause) (q : Query) : Query :=
  mkQuery (wheres q ++ [w]) (order q) (limit q) (offset q).
Definition where_op (column : string) (op : Op) (v : Value) (q : Query) : res Query :=
  c ← checked column; mret (add_where (mkWhere c op v []) q).
Definition where_eq (column : string) (v : Value) (q : Query) : res Query := where_op column Eq v q.
Definition where_in (column : string) (vs : list Value) (q : Query) : res Query :=
  c ← checked column; mret (add_where (mkWhere c In (VInt 0) vs) q).
Definition order_by (column : string) (descending : bool) (q : Query) : res Query :=
  c ← checked column; mret (mkQuery (wheres q) (Some (mkOrder c descending)) (limit q) (offset q)).
Definition set_limit (n : Z) (q : Query) : Query := mkQuery (wheres q) (order q) (Some n) (offset q).
Definition set_offset (n : Z) (q : Query) : Query := mkQuery (wheres q) (order q) (limit q) (Some n).
Definition unwindowed (q : Query) : Query := mkQuery (wheres q) (order q) None None.

Section query.
Context {D T : Type} (conn : Connection D) (mp : Mapper T).

Definition get (q : Query) : M D (list T) :=
  rows ← select conn (table mp) q; lift_res (hydrate_all mp rows).
Definition first (q : Query) : M D (option T) :=
  rows ← select conn (table mp) (set_limit 1 q);
  match rows with
  | [] => mret None
  | r :: _ => x ← lift_res (hydrate mp r); mret (Some x)
  end.
Definition query_count (q : Query) : M D Z := count conn (table mp) q.

(** size_t arithmetic wraps at 64 bits. *)
Definition paginate (q : Query) (page per_page : Z) : M D (Page T) :=
  let base := unwindowed q in
  total ← count conn (table mp) base;
  rows ← select conn (table mp)
           (set_offset (u64 ((if page =? 0 then 0 else page - 1) * per_page)) (set_limit per_page base));
  items ← lift_res (hydrate_all mp rows);
  let last_page := if per_page =? 0 then 1 else u64 (total + per_page - 1) / per_page in
  mret (mkPage items total page per_page last_page).

(** ** Repository *)
Definition repo_find (id : Z) : M D (option T) :=
  row ← find conn (table mp) id;
  match row with
  | None => mret None
  | Some r => x ← lift_res (hydrate mp r); mret (Some x)
  end.
Definition repo_all : M D (list T) :=
  rows ← all conn (table mp); lift_res (hydrate_all mp rows).
Definition repo_where (column : string) (v : Value) : M D (list T) :=
  q ← lift_res (where_eq column v empty_query); get q.
(** Returns the model with the assigned id written back. *)
Definition repo_insert (model : T) : M D T :=
  id ← insert conn (table mp) (delete "id" (to_row mp model));
  mret (set_id mp id model).
Definition repo_update (model : T) : M D bool :=
  update conn (table mp) (model_id mp model) (to_row mp model).
Definition repo_remove (model : T) : M D bool := remove conn (table mp) (model_id mp model).

(** ** Relations: the mapper is the other side's *)
Definition has_many (foreign_key : string) (parent_id : Z) : res Query :=
  where_eq foreign_key (VInt parent_id) empty_query.
Definition has_one (foreign_key : string) (parent_id : Z) : M D (option T) :=
  q ← lift_res (has_many foreign_key parent_id); first q.
Definition belongs_to (foreign_id : Z) : M D (option T) :=
  q ← lift_res (where_eq "id" (VInt foreign_id) empty_query); first q.

(** [grouped[key_of(child)].push_back(child)]. *)
Definition group_by_key (key_of : T -> Z) (children : list T) : gmap Z (list T) :=
  fold_left (fun g c => <[key_of c := default [] (g !! key_of c) ++ [c]]> g) children ∅.
Definition load_has_many (foreign_key : string) (parent_ids : list Z) (key_of : T -> Z)
    : M D (gmap Z (list T)) :=
  q ← lift_res (where_in foreign_key (map VInt parent_ids) empty_query);
  children ← get q;
  mret (group_by_key key_of children).
End query.

(** ** Pages *)
Lemma hydrate_all_Forall2 {T} (mp : Mapper T) rows xs :
  hydrate_all mp rows = Ok xs <-> Forall2 (fun r x => hydrate mp r = Ok x) rows xs.
Proof.
  revert xs; induction rows as [|r rows IH]; intros xs; cbn.
  - split; [by intros [= <-]|]. by intros ->%Forall2_nil_inv_l.
  - destruct (hydrate mp r) as [x|e] eqn:Ex; cbn.
    + unfold mbind, res_bind. destruct (hydrate_all mp rows) as [ys|e].
      * split; [intros [= <-]; constructor; [done|by apply IH]|].
        intros (y & ys' & Hy & Hys & ->)%Forall2_cons_inv_l. apply IH in Hys. simplify_eq. by rewrite Hy in Ex; simplify_eq.
      * split; [done|]. intros (y & ys' & _ & Hys & ->)%Forall2_cons_inv_l. by apply IH in Hys.
    + split; [done|]. intros (y & ys' & Hy & _ & ->)%Forall2_cons_inv_l. congruence.
Qed.

Lemma hydrate_all_window {T} (mp : Mapper T) rows xs n k :
  hydrate_all mp rows = Ok xs -> hydrate_all mp (take n (drop k rows)) = Ok (take n (drop k xs)).
Proof. rewrite !hydrate_all_Forall2. intros H. by apply Forall2_take, Forall2_drop. Qed.

Lemma run_query_window q n k rows :
  0 <= n -> 0 <= k ->
  run_query (set_offset k (set_limit n (unwindowed q))) rows =
    (fun l => take (Z.to_nat n) (drop (Z.to_nat k) l)) <$> run_query (unwindowed q) rows.
Proof.
  intros Hn Hk. unfold run_query.
  change (order_rows (set_offset k (set_limit n (unwindowed q)))) with (order_rows (unwindowed q)).
  change (row_ok (set_offset k (set_limit n (unwindowed q)))) with (row_ok (unwindowed q)).
  destruct (order_rows _ _) as [sorted|e]; [|done]. cbn. unfold limit_rows, offset_rows. cbn.
  f_equal. destruct (Z.of_nat (length sorted) <=? k) eqn:E; bools.
  - rewrite drop_ge by lia. rewrite take_nil. destruct (n <? _); by rewrite ?take_nil.
  - destruct (n <? _) eqn:E2; bools; [done|]. rewrite take_ge; [done|lia].
Qed.

Lemma run_query_count q rows out :
  run_query (unwindowed q) rows = Ok out -> length (List.filter (row_ok (unwindowed q)) rows) = length out.
Proof.
  unfold run_query. pose proof (order_rows_spec (unwindowed q) (List.filter (row_ok (unwindowed q)) rows)) as H.
  destruct (order_rows _ _) as [sorted|e]; [|done]. cbn. intros [= <-]. destruct H as [H _]. unfold ordered in H.
  destruct (order (unwindowed q)); [|by subst]. destruct H as [H _]. by rewrite H.
Qed.

Lemma concat_windows {A} (n k : nat) (l : list A) :
  concat (map (fun p => take n (drop (p * n) l)) (seq 0 k)) = take (k * n) l.
Proof.
  induction k as [|k IH]; [done|]. rewrite seq_S, map_app, concat_app, IH. cbn [map concat Nat.add].
  rewrite app_nil_r. rewrite <- (take_drop (k * n) l) at 3.
  destruct (Nat.le_gt_cases (length l) (k * n)) as [Hle|Hgt].
  - rewrite (take_ge l (k * n)), (drop_ge l (k * n)), take_nil, !app_nil_r by lia.
    rewrite take_ge; [done|lia].
  - rewrite take_app. rewrite length_take, Nat.min_l by lia.
    rewrite (take_ge (take (k * n) l)) by (rewrite length_take; lia).
    do 2 f_equal. lia.
Qed.

Section pages.
Context {D T : Type} (conn : Connection D) ok view room `{!ConnectionLaws conn ok view room} (mp : Mapper T).

Lemma paginate_page q p n d rows xs :
  ok d -> select conn (table mp) (unwindowed q) d = (Ok rows, d) -> hydrate_all mp rows = Ok xs ->
  0 < n -> 1 <= p -> (p - 1) * n < 2 ^ 64 -> Z.of_nat (length xs) + n <= 2 ^ 64 ->
  paginate conn mp q p n d =
    (Ok (mkPage (take (Z.to_nat n) (drop (Z.to_nat ((p - 1) * n)) xs)) (Z.of_nat (length xs)) p n
           ((Z.of_nat (length xs) + n - 1) / n)), d).
Proof.
  intros Hok Hs Hx Hn Hp Hw Ht. unfold paginate. cbn zeta.
  rewrite law_select in Hs by done. injection Hs as Hs.
  unfold mbind, M_bind. rewrite law_count by done. rewrite (run_query_count _ _ _ Hs).
  replace (p =? 0) with false by (symmetry; apply Z.eqb_neq; lia).
  rewrite u64_small by nia. rewrite law_select, run_query_window, Hs by (done || nia). cbn [fmap res_bind].
  cbn. unfold lift_res. rewrite (hydrate_all_window _ _ _ _ _ Hx). cbn.
  replace (n =? 0) with false by (symmetry; apply Z.eqb_neq; lia).
  apply hydrate_all_Forall2, Forall2_length in Hx. rewrite Hx. by rewrite u64_small by lia.
Qed.
End pages.

(** The pages of a query, from 1 to the [last_page] each of them reports, put together
    are exactly the query's results in order, no row missing and none twice, as long
    as the sizes fit 64 bits; every page reports the full total. *)
Theorem paginate_covers {D T} (conn : Connection D) ok view room `{!ConnectionLaws conn ok view room}
    (mp : Mapper T) (q : Query) (n : Z) (d : D) (xs : list T) :
  ok d -> get conn mp (unwindowed q) d = (Ok xs, d) -> 0 < n -> Z.of_nat (length xs) + n <= 2 ^ 64 ->
  let last := (Z.of_nat (length xs) + n - 1) / n in
  exists pages,
    Forall2 (fun p pg => paginate conn mp q (Z.of_nat p) n d = (Ok pg, d) /\ total pg = Z.of_nat (length xs) /\ last_page pg = last)
      (seq 1 (Z.to_nat last)) pages /\ concat (map items pages) = xs.
Proof.
  intros Hok Hg Hn Ht last. unfold get, mbind, M_bind in Hg.
  destruct (select conn (table mp) (unwindowed q) d) as [[rows|e] d1] eqn:Es; [|done].
  unfold lift_res in Hg. injection Hg as Hx ->.
  set (pg := fun p : nat => mkPage (take (Z.to_nat n) (drop (p * Z.to_nat n) xs)) (Z.of_nat (length xs)) (Z.of_nat p + 1) n last).
  exists (map pg (seq 0 (Z.to_nat last))). split.
  - rewrite <- fmap_S_seq. apply (Forall2_fmap_2 S pg), Forall_Forall2_diag, Forall_forall.
    intros p Hp%elem_of_seq. subst pg. cbn [total last_page].
    assert (Z.of_nat p < last) by lia.
    assert (last * n <= Z.of_nat (length xs) + n - 1) by (subst last; rewrite Z.mul_comm; apply Z.mul_div_le; lia).
    split; [|done].
    rewrite (paginate_page conn ok view room mp q (Z.of_nat (S p)) n d rows xs) by (done || nia).
    do 4 f_equal; [|lia]. f_equal. f_equal. nia.
  - rewrite map_map. cbn [items pg]. subst pg. cbn [items]. rewrite concat_windows. apply take_ge.
    assert (Z.of_nat (length xs) <= last * n).
    { subst last. pose proof (Z.div_mod (Z.of_nat (length xs) + n - 1) n ltac:(lia)) as H.
      pose proof (Z.mod_pos_bound (Z.of_nat (length xs) + n - 1) n Hn). nia. }
    nia.
Qed.

Definition demo_mapper : Mapper Z :=
  mkMapper "t" (fun r => get_int r "v") (fun x => {["v" := VInt x]}) (fun x => x) (fun i _ => i).
Definition demo_memory : Memory :=
  fold_left (fun m x => (mem_insert "t" {["v" := VInt x]} m).2) [10; 20; 30; 40; 50] empty_memory.

Lemma fold_left_map {A B C} (f : C -> B -> C) (g : A -> B) l c :
  fold_left f (map g l) c = fold_left (fun c a => f c (g a)) l c.
Proof. revert c. induction l as [|a l IH]; intros c; [done|apply IH]. Qed.
Lemma demo_memory_ok : memory_ok demo_memory.
Proof.
  unfold demo_memory. rewrite <- (fold_left_map (fun m r => (mem_insert "t" r m).2) (fun x => {["v" := VInt x]} : Row)).
  apply memory_ok_inserts; [apply empty_memory_ok|vm_compute; reflexivity].
Qed.

Lemma paginate_covers_witness :
  exists pages,
    Forall2 (fun p pg => paginate MemoryConnection demo_mapper empty_query (Z.of_nat p) 2 demo_memory
        = (Ok pg, demo_memory) /\ total pg = 5 /\ last_page pg = 3)
      (seq 1 3) pages /\ concat (map items pages) = [10; 20; 30; 40; 50].
Proof.
  apply (paginate_covers MemoryConnection memory_ok rows_of _ demo_mapper empty_query 2 demo_memory
    [10; 20; 30; 40; 50]); [apply demo_memory_ok|vm_compute; reflexivity|lia|cbn; lia].
Defined.

Definition safe_query (q : Query) : Prop :=
  Forall (fun w => is_sql_identifier (w_column w) = true) (wheres q) /\
  match order q with Some oc => is_sql_identifier (o_column oc) = true | None => True end.
(** The query builder never lets an unchecked column name into a query: [where],
    [where_in] and [order_by] either throw an invalid_argument naming the column, or
    every column of the resulting query is a plain identifier. *)
Theorem query_builder_checks (column : string) (op : Op) (v : Value) (vs : list Value) (desc : bool)
    (q : Query) :
  safe_query q ->
  Forall (fun r => match r with
                   | Ok q' => is_sql_identifier column = true /\ safe_query q'
                   | Throw e => is_sql_identifier column = false /\
                                e = StdExn ("unsafe SQL identifier: " +:+ column)
                   end)
    [where_op column op v q; where_eq column v q; where_in column vs q; order_by column desc q].
Proof.
  intros [Hw Ho]. unfold where_eq, where_op, where_in, order_by, checked.
  destruct (is_sql_identifier column) eqn:E; cbn; repeat (apply Forall_cons; split; [|]); try (by apply Forall_nil);
    try done; (split; [done|]); (split; [|done]); cbn; try done;
    (apply Forall_app; split; [done|]); by apply Forall_singleton.
Qed.

Lemma query_builder_checks_witness :
  Forall (fun r => match r with
                   | Ok q' => is_sql_identifier "views" = true /\ safe_query q'
                   | Throw e => is_sql_identifier "views" = false /\
                                e = StdExn ("unsafe SQL identifier: " +:+ "views")
                   end)
    [where_op "views" Gt (VInt 3) empty_query; where_eq "views" (VInt 3) empty_query;
     where_in "views" [] empty_query; order_by "views" true empty_query].
Proof. apply query_builder_checks. split; [by apply Forall_nil|exact I]. Defined.

(** ** Eager loading *)
Lemma group_by_key_lookup {T} (key_of : T -> Z) l k :
  default [] (group_by_key key_of l !! k) = List.filter (fun x => key_of x =? k) l.
Proof.
  unfold group_by_key.
  assert (H : forall g : gmap Z (list T), default [] (fold_left (fun g c => <[key_of c := default [] (g !! key_of c) ++ [c]]> g) l g !! k)
    = default [] (g !! k) ++ List.filter (fun x => key_of x =? k) l).
  { induction l as [|x l IH]; intros g; cbn; [by rewrite app_nil_r|]. rewrite IH.
    destruct (key_of x =? k) eqn:E; bools.
    - subst k. rewrite lookup_insert_eq. cbn. by rewrite <- app_assoc.
    - by rewrite lookup_insert_ne. }
  rewrite H. by rewrite lookup_empty.
Qed.

Lemma run_query_plain q rows :
  order q = None -> limit q = None -> offset q = None -> run_query q rows = Ok (List.filter (row_ok q) rows).
Proof.
  intros Ho Hl Hf. unfold run_query, order_rows, limit_rows, offset_rows. rewrite Ho. cbn. by rewrite Hl, Hf.
Qed.

(** C21: Eager loading returns for every parent exactly the children its own query would:
    one WHERE fk IN query and a grouping replace the N queries. *)
Theorem load_has_many_eager {D T} (conn : Connection D) ok view room
    `{!ConnectionLaws conn ok view room} (mp : Mapper T) (fk : string) (key_of : T -> Z)
    (ids : list Z) (d : D) (g : gmap Z (list T)) :
  ok d -> (forall r x, hydrate mp r = Ok x -> r !! fk = Some (VInt (key_of x))) ->
  load_has_many conn mp fk ids key_of d = (Ok g, d) ->
  forall pid, pid ∈ ids ->
    (q ← lift_res (has_many fk pid); get conn mp q) d = (Ok (default [] (g !! pid)), d).
Proof.
  intros Hok Hkey H pid Hpid. unfold load_has_many, where_in, has_many, where_eq, where_op in *.
  destruct (checked fk) as [c|e] eqn:Ec; [|done].
  assert (c = fk) as -> by (unfold checked in Ec; by case_match; simplify_eq).
  cbn in H |- *. unfold get, mbind, M_bind, lift_res, mret, res_ret, M_ret in *.
  rewrite law_select in H by done. rewrite law_select by done.
  rewrite run_query_plain in H by done. rewrite run_query_plain by done.
  set (qi := add_where (mkWhere fk In (VInt 0) (map VInt ids)) empty_query) in *.
  set (qe := add_where (mkWhere fk Eq (VInt pid) []) empty_query) in *.
  set (rows := view d (table mp)) in *.
  destruct (hydrate_all mp (List.filter (row_ok qi) rows)) as [xs|] eqn:Ex; [|done].
  injection H as <-. rewrite group_by_key_lookup.
  assert (Ex' : hydrate_all mp (List.filter (row_ok qe) rows) = Ok (List.filter (fun x => key_of x =? pid) xs));
    [|by rewrite Ex'].
  apply hydrate_all_Forall2. apply hydrate_all_Forall2 in Ex. revert xs Ex.
  induction rows as [|r rows IH]; intros xs Ex; cbn [List.filter] in *.
  - apply Forall2_nil_inv_l in Ex as ->. constructor.
  - assert (Hin : row_ok qe r = true -> row_ok qi r = true).
    { unfold row_ok. cbn. rewrite !andb_true_r. unfold clause_ok. cbn.
      destruct (r !! fk) as [v|]; [|done]. cbn. destruct v as [z|?|?|?]; cbn; try done. intros Hz. bools. subst z.
      apply existsb_exists. exists (VInt pid). split; [|cbn; apply Z.eqb_refl]. by apply in_map, list_elem_of_In. }
    destruct (row_ok qi r) eqn:Ei.
    + apply Forall2_cons_inv_l in Ex as (x & xs' & Hx & Hxs & ->). cbn [List.filter].
      assert (Eq' : row_ok qe r = (key_of x =? pid)).
      { unfold row_ok. cbn. rewrite andb_true_r. unfold clause_ok. cbn. by rewrite (Hkey r x Hx). }
      rewrite Eq'. destruct (key_of x =? pid); [constructor; [done|]|]; by apply IH.
    + destruct (row_ok qe r); [by discriminate Hin|]. by apply IH.
Qed.

Lemma load_has_many_eager_witness :
  let mp := mkMapper "t" (fun r => match r !! "v" with Some (VInt z) => Ok z | _ => Throw out_of_range end)
              (fun x => ∅) (fun x => x) (fun i _ => i) in
  let children pid := q ← lift_res (has_many "v" pid); get MemoryConnection mp q in
  children 10 demo_memory = (Ok [10], demo_memory) /\ children 99 demo_memory = (Ok [], demo_memory).
Proof.
  intros mp children.
  assert (H : forall pid, pid ∈ [10; 99] -> children pid demo_memory
    = (Ok (default [] (({[10 := [10]]} : gmap Z (list Z)) !! pid)), demo_memory)).
  2:{ split; [exact (H 10 ltac:(by left))|exact (H 99 ltac:(right; by left))]. }
  apply (load_has_many_eager MemoryConnection memory_ok rows_of _ mp "v" (fun z => z)).
  - apply demo_memory_ok.
  - intros r x. cbn. destruct (r !! "v") as [[z|?|?|?]|]; by intros [= <-].
  - vm_compute. reflexivity.
Defined.
