(* ===== verification/DbQueue.v ===== *)
(** * db_queue.hpp: the database-backed queue

    [work] is a state machine, [worker_step], whose steps are the points at which
    another worker can interleave: one connection call or one handler call each.
    [work] runs it to the end; a pool of workers on one database interleaves the
    steps in any order.  Times are unix seconds; the wall clock is an argument. *)
From S2P Require Import Prelude CppString CppNum Database Tables.

Local Open Scope Z_scope.

Section queue.
Context {D W : Type} (conn : Connection D).

(** A handler runs on the database and on the rest of the world. *)
Definition Handler : Type := string -> M (D * W) unit.
Record DbQueue : Type := mkDbQueue {
  max_attempts_ : Z;
  retry_backoff_ : Z;
  retry_after_ : Z;
  handlers_ : gmap string Handler
}.
Definition new_queue : DbQueue := mkDbQueue 3 0 90 ∅.
Definition handler (job : string) (h : Handler) (q : DbQueue) : DbQueue :=
  mkDbQueue (max_attempts_ q) (retry_backoff_ q) (retry_after_ q) (<[job := h]> (handlers_ q)).

(** [handlers_.find(job)]. *)
Definition find_handler (q : DbQueue) (job : string) : option Handler := handlers_ q !! job.

Definition job_row (job payload : string) (attempts available : Z) : Row :=
  set_cell "reserved_at" (VInt 0) (set_cell "available_at" (VInt available)
    (set_cell "attempts" (VInt attempts) (set_cell "payload" (VStr payload)
      (set_cell "job" (VStr job) ∅)))).
Definition push (clock : Z) (job payload : string) (delay : Z) : M D unit :=
  _ ← insert conn "jobs" (job_row job payload 0 (if 0 <? delay then clock + delay else 0));
  mret tt.
Definition pending : M D nat := rows ← all conn "jobs"; mret (length rows).
Definition failed : M D nat := rows ← all conn "failed_jobs"; mret (length rows).

(** Where a worker stands: in the scan over its snapshot of the jobs table, or on
    a claimed job. *)
Inductive Worker : Type :=
  | Fetch
  | Scan (rows : list Row) (processed : Z)
  | Run (row : Row) (id : Z) (rows : list Row) (processed : Z)
  | Succeed (row : Row) (id : Z) (rows : list Row) (processed : Z)
  | Caught (e : exn) (row : Row) (id : Z) (rows : list Row) (processed : Z)
  | Drop (id : Z) (rows : list Row) (processed : Z)
  | Done (r : res Z).

Definition on_db {A} (m : M D A) : M (D * W) A := on_part fst (fun d s => (d, s.2)) m.

(** [row.has(key) ? row.get<std::int64_t>(key) : 0]. *)
Definition int_or_zero (row : Row) (key : string) : Z :=
  match row !! key with Some v => value_int v | None => 0 end.

(** What the catch block writes. *)
Definition failed_row (job payload what : string) : Row :=
  set_cell "error" (VStr what) (set_cell "payload" (VStr payload) (set_cell "job" (VStr job) ∅)).
Definition retry_row (q : DbQueue) (now attempts : Z) (row : Row) : Row :=
  set_cell "available_at" (VInt (if 0 <? retry_backoff_ q then now + retry_backoff_ q * attempts else 0))
    (set_cell "reserved_at" (VInt 0) (set_cell "attempts" (VInt attempts) row)).

(** Is the row due, and not held by another worker? *)
Definition due (q : DbQueue) (now : Z) (row : Row) : bool :=
  negb (now <? int_or_zero row "available_at") &&
  negb (negb (int_or_zero row "reserved_at" =? 0) && (now - int_or_zero row "reserved_at" <? retry_after_ q)).

Definition worker_step (q : DbQueue) (now : Z) (w : Worker) (s : D * W) : Worker * (D * W) :=
  match w with
  | Fetch =>
      match on_db (all conn "jobs") s with
      | (Ok rows, s) => (Scan rows 0, s)
      | (Throw e, s) => (Done (Throw e), s)
      end
  | Scan [] n => (Done (Ok n), s)
  | Scan (row :: rows) n =>
      match get_int row "id" with
      | Throw e => (Done (Throw e), s)
      | Ok id =>
          if negb (due q now row) then (Scan rows n, s)
          else
            let claim := set_cell "reserved_at" (VInt now) row in
            match on_db (update_if conn "jobs" id "reserved_at"
                           (VInt (int_or_zero row "reserved_at")) claim) s with
            | (Ok true, s) => (Run row id rows n, s)
            | (Ok false, s) => (Scan rows n, s)
            | (Throw e, s) => (Done (Throw e), s)
            end
      end
  | Run row id rows n =>
      match get_string row "job" with
      | Throw e => (Done (Throw e), s)
      | Ok job =>
          match find_handler q job with
          | None =>
              match on_db (remove conn "jobs" id) s with
              | (Ok _, s) => (Scan rows (n + 1), s)
              | (Throw e, s) => (Done (Throw e), s)
              end
          | Some h =>
              match get_string row "payload" with
              | Throw e => (Caught e row id rows n, s)
              | Ok payload =>
                  match h payload s with
                  | (Ok _, s) => (Succeed row id rows n, s)
                  | (Throw e, s) => (Caught e row id rows n, s)
                  end
              end
          end
      end
  | Succeed row id rows n =>
      match on_db (remove conn "jobs" id) s with
      | (Ok _, s) => (Scan rows (n + 1), s)
      | (Throw e, s) => (Caught e row id rows n, s)
      end
  | Caught OtherExn row id rows n => (Done (Throw OtherExn), s)
  | Caught (StdExn what) row id rows n =>
      match get_int row "attempts" with
      | Throw e => (Done (Throw e), s)
      | Ok a =>
          let attempts := a + 1 in
          if max_attempts_ q <=? attempts then
            match get_string row "job", get_string row "payload" with
            | Ok job, Ok payload =>
                match on_db (insert conn "failed_jobs" (failed_row job payload what)) s with
                | (Ok _, s) => (Drop id rows n, s)
                | (Throw e, s) => (Done (Throw e), s)
                end
            | Throw e, _ => (Done (Throw e), s)
            | _, Throw e => (Done (Throw e), s)
            end
          else
            match on_db (update conn "jobs" id (retry_row q now attempts row)) s with
            | (Ok _, s) => (Scan rows (n + 1), s)
            | (Throw e, s) => (Done (Throw e), s)
            end
      end
  | Drop id rows n =>
      match on_db (remove conn "jobs" id) s with
      | (Ok _, s) => (Scan rows (n + 1), s)
      | (Throw e, s) => (Done (Throw e), s)
      end
  | Done r => (Done r, s)
  end.

Fixpoint run_worker (fuel : nat) (q : DbQueue) (now : Z) (w : Worker) (s : D * W)
    : Worker * (D * W) :=
  match fuel with
  | O => (w, s)
  | S fuel => let '(w, s) := worker_step q now w s in run_worker fuel q now w s
  end.

(** [work(now)]; [now = 0] is the wall clock. *)
Definition rows_left (w : Worker) : list Row :=
  match w with
  | Scan rows _ | Run _ _ rows _ | Succeed _ _ rows _ | Caught _ _ _ rows _ | Drop _ rows _ => rows
  | _ => []
  end.
Definition work (q : DbQueue) (clock now : Z) (s : D * W) : option (res Z) * (D * W) :=
  let now := if now =? 0 then clock else now in
  let '(w, s) := worker_step q now Fetch s in
  match run_worker (5 * length (rows_left w) + 5) q now w s with
  | (Done r, s) => (Some r, s)
  | (_, s) => (None, s)
  end.

(** ** Workers on one database *)
Definition Pool : Type := list Worker * (D * W).
Inductive pool_step (q : DbQueue) (now : Z) : Pool -> Pool -> Prop :=
  | pool_one ws i w s w' s' :
      ws !! i = Some w -> worker_step q now w s = (w', s') ->
      pool_step q now (ws, s) (<[i := w']> ws, s').
End queue.
Arguments DbQueue : clear implicits.
Arguments Worker : clear implicits.
Arguments Pool : clear implicits.

(** ** Termination *)
Section termination.
Context {D W : Type} (conn : Connection D).
Implicit Types (q : DbQueue D W) (w : Worker).

(** Steps to the end of the pass: at most five per row. *)
Definition measure (w : Worker) : nat :=
  match w with
  | Fetch => 0
  | Scan rows _ => 5 * length rows + 1
  | Run _ _ rows _ => 5 * length rows + 5
  | Succeed _ _ rows _ => 5 * length rows + 4
  | Caught _ _ _ rows _ => 5 * length rows + 3
  | Drop _ rows _ => 5 * length rows + 2
  | Done _ => 0
  end.

Lemma worker_step_measure q now w s :
  w ≠ Fetch -> (forall r, w ≠ Done r) ->
  (measure (worker_step conn q now w s).1 < measure w)%nat /\ (worker_step conn q now w s).1 ≠ Fetch.
Proof.
  intros Hf Hd. destruct w as [|[|row rows] n|row id rows n|row id rows n|[what|] row id rows n|id rows n|r];
    try done; [..|by destruct (Hd r)]; cbn [worker_step]; repeat case_match; cbn; (split; [lia|done]).
Qed.

Lemma run_worker_done fuel q now w s :
  (measure w < fuel)%nat -> w ≠ Fetch -> exists r, (run_worker conn fuel q now w s).1 = Done r.
Proof.
  revert w s; induction fuel as [|fuel IH]; intros w s Hm Hf; [lia|]. cbn [run_worker].
  destruct (worker_step conn q now w s) as [w' s'] eqn:E.
  destruct w; try done; try (match type of E with worker_step _ _ _ ?w0 _ = _ =>
    destruct (worker_step_measure q now w0 s ltac:(done) ltac:(done)) as [Hl Hn];
    rewrite E in Hl, Hn; apply IH; [cbn [fst] in *; lia|done] end).
  cbn in E. injection E as <- <-. clear. exists r. induction fuel; [done|]. done.
Qed.
End termination.

(** A pass of [work] always ends: it returns the number of jobs it processed or lets
    an exception out, whatever the table holds, whatever the handlers throw. *)
Theorem work_terminates {D W} (conn : Connection D) (q : DbQueue D W) (clock now : Z) (s : D * W) :
  exists r s', work conn q clock now s = (Some r, s').
Proof.
  unfold work. cbn zeta. set (t := if now =? 0 then clock else now).
  destruct (worker_step conn q t Fetch s) as [w s1] eqn:E.
  destruct (run_worker_done conn (5 * length (rows_left w) + 5) q t w s1) as [r Hr].
  - cbn in E. destruct (on_db _ s) as [[rows|e] s2]; injection E as <- <-; cbn; lia.
  - cbn in E. destruct (on_db _ s) as [[rows|e] s2]; by injection E as <- <-.
  - destruct (run_worker _ _ _ _ _ _) as [w' s']. cbn in Hr. subst w'. eauto.
Qed.

(** ** Mutual exclusion *)
Lemma find_row_filter id id' rows :
  id ≠ id' -> find_row id' (List.filter (fun r => negb (is_id id r)) rows) = find_row id' rows.
Proof.
  intros Hne. induction rows as [|r rows IH]; [done|]. cbn. destruct (is_id id r) eqn:E; cbn; rewrite IH; [|done].
  replace (is_id id' r) with false; [done|]. symmetry. unfold is_id in *. destruct (r !! "id"); [|done].
  bools. apply Z.eqb_neq. congruence.
Qed.

(** What the queue needs of its two tables: they are there, with a text column for each
    text it writes and an integer column for each number. *)
Class QueueTables (known : string -> Prop) (fits : string -> Row -> Prop) : Prop := {
  qt_jobs : known "jobs";
  qt_failed : known "failed_jobs";
  qt_job_row job payload attempts available : fits "jobs" (job_row job payload attempts available);
  qt_failed_row job payload what : fits "failed_jobs" (failed_row job payload what);
  qt_number key z r : key ∈ ["reserved_at"; "attempts"; "available_at"] -> fits "jobs" r -> fits "jobs" (set_cell key (VInt z) r)
}.
#[export] Instance any_tables : QueueTables (fun _ => True) (fun _ _ => True).
Proof. done. Qed.

Section exclusion.
Context {D W : Type} (conn : Connection D) ok view room known fits norm
  `{!TableLaws conn ok view room known fits norm} `{!QueueTables known fits}.
Context (q : DbQueue D W) (now : Z).
Context (Hretry : 0 < retry_after_ q) (Hnow : now ≠ 0).
Implicit Types (w : Worker).

(** Handlers leave the database to the queue. *)
Definition quiet : Prop :=
  forall job h p s, find_handler q job = Some h -> (h p s).2.1 = s.1.
Context (Hquiet : quiet).

Definition running (w : Worker) : option Z :=
  match w with
  | Run _ id _ _ | Succeed _ id _ _ | Caught _ _ id _ _ | Drop id _ _ => Some id
  | _ => None
  end.
(** The rows a worker holds. *)
Definition held (w : Worker) : list Row :=
  match w with
  | Run row _ rows _ | Succeed row _ rows _ | Caught _ row _ rows _ => row :: rows
  | Scan rows _ | Drop _ rows _ => rows
  | _ => []
  end.
(** The row of a running job is stamped with the time of the pass. *)
Definition stamped (d : D) (id : Z) : Prop :=
  exists r, find_row id (view d "jobs") = Some r /\ r !! "reserved_at" = Some (VInt now).

(** What one step does to the jobs table. *)
Definition step_effect (w : Worker) (d : D) (w' : Worker) (d' : D) : Prop :=
  ok d' /\
  (forall id, running w ≠ Some id -> running w' ≠ Some id ->
     find_row id (view d' "jobs") = find_row id (view d "jobs")) /\
  (forall id, running w' = Some id ->
     (running w = Some id /\ find_row id (view d' "jobs") = find_row id (view d "jobs")) \/
     (running w = None /\ ~ stamped d id /\ stamped d' id)).

Lemma effect_same w d w' : ok d -> running w' = running w \/ running w' = None -> step_effect w d w' d.
Proof.
  intros Hok H. split; [done|]. split; [done|]. intros id Hid. left. destruct H; [|congruence].
  split; congruence.
Qed.

Lemma effect_remove w d id w' d' :
  ok d -> running w = Some id -> running w' = None ->
  remove conn "jobs" id d = (Ok true, d') \/ remove conn "jobs" id d = (Ok false, d') -> step_effect w d w' d'.
Proof.
  intros Hok Hw Hw' Hr. destruct (tl_remove "jobs" id d qt_jobs Hok) as (d1 & Hok1 & E & Hv & _ & _).
  assert (d1 = d') as -> by (destruct Hr; congruence). split; [done|]. split; [|congruence].
  intros id' Hne _. rewrite Hv. apply find_row_filter. congruence.
Qed.

(** The claim: the row was not stamped, and is. *)
Lemma claim_effect row rows n d id :
  ok d -> fits "jobs" row -> due q now row = true ->
  exists d' taken_, update_if conn "jobs" id "reserved_at" (VInt (int_or_zero row "reserved_at")) (set_cell "reserved_at" (VInt now) row) d =
    (Ok taken_, d') /\ step_effect (Scan (row :: rows) n) d (if taken_ : bool then Run row id rows n else Scan rows n) d'.
Proof.
  intros Hok Hfit Hdue. set (v := int_or_zero row "reserved_at") in *. set (claim := set_cell "reserved_at" (VInt now) row).
  assert (Hfc : forall z, fits "jobs" (set_cell "reserved_at" (VInt z) row)) by (intros z; apply qt_number; [by left|done]).
  destruct (tl_update_if "jobs" id "reserved_at" v claim d qt_jobs Hok (Hfc now) ltac:(done)) as (d1 & Hok1 & E & Hv & _).
  { apply qt_number; [by left|apply Hfc]. }
  exists d1. set (new := norm <$> claim) in *.
  assert (Hnew : new !! "reserved_at" = Some (VInt now)).
  { unfold new. etrans; [apply lookup_fmap|]. unfold claim. etrans; [by apply f_equal, lookup_set_cell|]. cbn. by rewrite tl_norm_int. }
  pose proof (replace_row_find id (cas_guard "reserved_at" (VInt v) new) (view d "jobs")) as Hf.
  rewrite E. eexists. split; [reflexivity|]. split; [done|]. rewrite Hv.
  destruct (replace_row id _ (view d "jobs")) as [rows'|] eqn:Er; cbn [default from_option]; unfold Datatypes.id.
  - rewrite bool_decide_eq_true_2 by done. split.
    + intros id' _ Hne. rewrite (find_row_replace _ _ _ _ id' Er), decide_False; [done|]. intros ->. by apply Hne.
    + intros id' [= <-]. right. split; [done|]. unfold stamped. rewrite Hv. cbn [default from_option]. unfold Datatypes.id.
      rewrite (find_row_replace _ _ _ _ id Er), decide_True by done.
      destruct (find_row id (view d "jobs")) as [r|] eqn:Efr; [|congruence].
      cbn [mbind option_bind]. unfold cas_guard in *. destruct (r !! "reserved_at") as [y|] eqn:Ey; [|congruence].
      destruct (value_eqb y (VInt v)) eqn:Eyv; [|congruence]. split.
      * intros (r0 & [= <-] & Hs). rewrite Ey in Hs. injection Hs as ->.
        cbn in Eyv. bools. unfold due in Hdue. fold v in Hdue. bools. rewrite <- Eyv in *.
        replace (now =? 0) with false in * by (symmetry; apply Z.eqb_neq; done).
        cbn [negb andb] in *. bools. lia.
      * eexists. split; [reflexivity|]. by rewrite lookup_set_cell_ne.
  - rewrite bool_decide_eq_false_2 by (intros Hn; by apply Hn). by split.
Qed.

Lemma worker_step_effect w d x w' d' x' :
  ok d -> Forall (fits "jobs") (held w) -> room d "failed_jobs" 1%nat -> worker_step conn q now w (d, x) = (w', (d', x')) ->
  step_effect w d w' d'.
Proof.
  intros Hok Hfit Hroom H.
  destruct w as [|[|row rows] n|row id rows n|row id rows n|[what|] row id rows n|id rows n|r];
    cbn [worker_step] in H; unfold on_db, on_part in H; cbn [fst snd held] in H, Hfit.
  - destruct (tl_all "jobs" d qt_jobs Hok) as (rows & E & _). rewrite E in H. injection H as <- <- <-. apply effect_same; [done|by right].
  - injection H as <- <- <-. apply effect_same; [done|by right].
  - destruct (get_int row "id") as [id|e]; [|injection H as <- <- <-; apply effect_same; [done|by right]].
    destruct (due q now row) eqn:Hdue; cbn [negb] in H;
      [|injection H as <- <- <-; apply effect_same; [done|by right]].
    apply Forall_cons in Hfit as [Hfit _].
    destruct (claim_effect row rows n d id Hok Hfit Hdue) as (d1 & [] & E & Heff); rewrite E in H; by injection H as <- <- <-.
  - destruct (get_string row "job") as [job|e]; [|injection H as <- <- <-; apply effect_same; [done|by right]].
    destruct (find_handler q job) as [h|] eqn:Eh.
    + destruct (get_string row "payload") as [p|e]; [|injection H as <- <- <-; apply effect_same; [done|by left]].
      pose proof (Hquiet job h p (d, x) Eh) as Hq. cbn [fst] in Hq.
      destruct (h p (d, x)) as [[u|e] [d2 x2]]; cbn [snd fst] in Hq; subst d2;
        injection H as <- <- <-; apply effect_same; (done || by left).
    + destruct (tl_remove "jobs" id d qt_jobs Hok) as (d1 & Hok1 & E & Hv & _ & _). rewrite E in H. injection H as <- <- <-.
      apply (effect_remove _ _ id); [done|done|done|]. rewrite E. destruct (bool_decide _); eauto.
  - destruct (tl_remove "jobs" id d qt_jobs Hok) as (d1 & Hok1 & E & Hv & _ & _). rewrite E in H. injection H as <- <- <-.
    apply (effect_remove _ _ id); [done|done|done|]. rewrite E. destruct (bool_decide _); eauto.
  - destruct (get_int row "attempts") as [a|e]; [|injection H as <- <- <-; apply effect_same; [done|by right]].
    destruct (max_attempts_ q <=? a + 1).
    + destruct (get_string row "job") as [job|e]; [|injection H as <- <- <-; apply effect_same; [done|by right]].
      destruct (get_string row "payload") as [p|e]; [|injection H as <- <- <-; apply effect_same; [done|by right]].
      destruct (tl_insert "failed_jobs" (failed_row job p what) d 0 qt_failed Hok Hroom (qt_failed_row job p what) eq_refl)
        as (i & d1 & E & Hok1 & _ & _ & _ & Ho).
      rewrite E in H. injection H as <- <- <-. destruct (Ho "jobs" ltac:(done)) as [Ho1 _].
      split; [done|]. rewrite Ho1. split; [done|]. intros id' [= <-]. by left.
    + apply Forall_cons in Hfit as [Hfit _].
      destruct (tl_update "jobs" id (retry_row q now (a + 1) row) d qt_jobs Hok) as (d1 & Hok1 & E & Hv & _).
      { unfold retry_row. apply qt_number; [by_eval|]. apply qt_number; [by_eval|]. apply qt_number; [by_eval|done]. }
      rewrite E in H. injection H as <- <- <-. split; [done|]. split; [|done].
      intros id' Hne _. rewrite Hv. destruct (replace_row id _ (view d "jobs")) as [rows'|] eqn:Er; [|done].
      cbn [default from_option]. unfold Datatypes.id.
      rewrite (find_row_replace _ _ _ _ id' Er), decide_False; [done|]. intros ->. by apply Hne.
  - injection H as <- <- <-. apply effect_same; [done|by right].
  - destruct (tl_remove "jobs" id d qt_jobs Hok) as (d1 & Hok1 & E & Hv & _ & _). rewrite E in H. injection H as <- <- <-.
    apply (effect_remove _ _ id); [done|done|done|]. rewrite E. destruct (bool_decide _); eauto.
  - injection H as <- <- <-. apply effect_same; [done|by right].
Qed.
(** Rows come from the table, and stay with the worker. *)
Lemma worker_step_held w d x w' s' : ok d -> Forall (fits "jobs") (held w) -> worker_step conn q now w (d, x) = (w', s') ->
  Forall (fits "jobs") (held w').
Proof.
  intros Hok Hfit H.
  destruct w as [|[|row rows] n|row id rows n|row id rows n|[what|] row id rows n|id rows n|r];
    cbn [worker_step] in H; unfold on_db, on_part in H; cbn [fst snd held] in H, Hfit.
  1:{ destruct (tl_all "jobs" d qt_jobs Hok) as (rows & E & Hp). rewrite E in H. injection H as <- <-. cbn [held]. rewrite Hp. by apply tl_fits; [apply qt_jobs|]. }
  all: repeat case_match; simplify_eq; cbn [held]; try apply Forall_nil_2; try done; by apply Forall_cons in Hfit as [? ?].
Qed.

Definition pool_ok (p : Pool D W) : Prop :=
  ok p.2.1 /\ (forall i w, p.1 !! i = Some w -> Forall (fits "jobs") (held w)) /\
  (forall i w id, p.1 !! i = Some w -> running w = Some id -> stamped p.2.1 id) /\
  (forall i j wi wj id, p.1 !! i = Some wi -> p.1 !! j = Some wj ->
     running wi = Some id -> running wj = Some id -> i = j).

Lemma pool_step_ok p p' :
  room p.2.1 "failed_jobs" 1%nat -> pool_step conn q now p p' -> pool_ok p -> pool_ok p'.
Proof.
  intros Hroom Hs. destruct Hs as [ws i w s w' s' Hi E]. destruct s as [d x], s' as [d' x'].
  unfold pool_ok. cbn [fst snd] in *. intros (Hok & Hfit & Hst & Hex).
  destruct (worker_step_effect w d x w' d' x' Hok (Hfit i w Hi) Hroom E) as (Hok' & Hothers & Hown).
  assert (Hlt : (i < length ws)%nat) by (by eapply lookup_lt_Some).
  (* a worker other than [i] that runs a job runs neither what [w] nor what [w'] runs *)
  assert (Hsep : forall j wj id, j ≠ i -> ws !! j = Some wj -> running wj = Some id ->
    running w ≠ Some id /\ running w' ≠ Some id).
  { intros j wj id Hne Hj Hr. assert (H1 : running w ≠ Some id) by (intros H; by destruct (Hne (Hex _ _ _ _ _ Hj Hi Hr H))).
    split; [done|]. intros H. destruct (Hown id H) as [[H2 _]|(_ & Hn & _)]; [done|].
    by destruct Hn; eapply Hst. }
  split; [done|]. split; [|split].
  - intros j wj Hj. destruct (decide (j = i)) as [->|Hne].
    + rewrite list_lookup_insert_eq in Hj by done. injection Hj as <-. by eapply worker_step_held, E; [|apply (Hfit i)].
    + rewrite list_lookup_insert_ne in Hj by done. by apply (Hfit j).
  - intros j wj id Hj Hr. destruct (decide (j = i)) as [->|Hne].
    + rewrite list_lookup_insert_eq in Hj by done. injection Hj as <-.
      destruct (Hown id Hr) as [[H1 H2]|(_ & _ & H)]; [|done].
      destruct (Hst i w id Hi H1) as (r & Hr1 & Hr2). exists r. by rewrite H2.
    + rewrite list_lookup_insert_ne in Hj by done. destruct (Hsep j wj id Hne Hj Hr) as [H1 H2].
      destruct (Hst j wj id Hj Hr) as (r & Hr1 & Hr2). exists r. by rewrite Hothers.
  - assert (Hcase : forall j k wj wk id, <[i := w']> ws !! j = Some wj -> <[i := w']> ws !! k = Some wk ->
      running wj = Some id -> running wk = Some id -> j = i -> j = k).
    { intros j k wj wk id Hj Hk Hrj Hrk ->. destruct (decide (k = i)) as [|Hne]; [done|]. exfalso.
      rewrite list_lookup_insert_eq in Hj by done. injection Hj as <-.
      rewrite list_lookup_insert_ne in Hk by done. by destruct (Hsep k wk id Hne Hk Hrk). }
    intros j k wj wk id Hj Hk Hrj Hrk. destruct (decide (j = i)) as [Hji|Hji]; [by eapply Hcase|].
    destruct (decide (k = i)) as [Hki|Hki]; [symmetry; by eapply (Hcase k j)|].
    rewrite list_lookup_insert_ne in Hj by done. rewrite list_lookup_insert_ne in Hk by done. by eapply Hex.
Qed.

(** What happens at once: a worker's step, a job pushed, a row written to another table
    (the scheduler's stamps, the rows of the application). *)
Inductive pool_move : Pool D W -> Pool D W -> Prop :=
  | move_worker p p' : room p.2.1 "failed_jobs" 1%nat -> pool_step conn q now p p' -> pool_move p p'
  | move_push ws d x clock job payload delay r d' :
      room d "jobs" 1%nat -> push conn clock job payload delay d = (r, d') -> pool_move (ws, (d, x)) (ws, (d', x))
  | move_insert ws d x t row r d' : t ≠ "jobs" -> known t -> fits t row -> row !! "id" = None -> room d t 1%nat ->
      insert conn t row d = (r, d') -> pool_move (ws, (d, x)) (ws, (d', x))
  | move_update ws d x t id row r d' : t ≠ "jobs" -> known t -> fits t row ->
      update conn t id row d = (r, d') -> pool_move (ws, (d, x)) (ws, (d', x)).

(** A move that keeps the rows of the jobs table. *)
Lemma kept_pool_ok ws d x d' : ok d' -> (forall id r, find_row id (view d "jobs") = Some r -> find_row id (view d' "jobs") = Some r) ->
  pool_ok (ws, (d, x)) -> pool_ok (ws, (d', x)).
Proof.
  intros Hok Hkept (_ & Hfit & Hst & Hex). split; [done|]. split; [done|]. split; [|done].
  intros i w id Hi Hr. destruct (Hst i w id Hi Hr) as (r & Hr1 & Hr2). exists r. split; [by apply Hkept|done].
Qed.
Lemma pool_move_ok p p' : pool_move p p' -> pool_ok p -> pool_ok p'.
Proof.
  intros [p1 p2 Hroom Hs|ws d x clock job payload delay r d' Hroom E|ws d x t row r d' Hne Hk Hf Hid Hroom E|ws d x t id row r d' Hne Hk Hf E] Hp.
  - by eapply pool_step_ok.
  - unfold push, mbind, M_bind in E. pose proof Hp as [Hok _].
    destruct (tl_insert "jobs" (job_row job payload 0 (if 0 <? delay then clock + delay else 0)) d 0 qt_jobs Hok Hroom (qt_job_row _ _ _ _) eq_refl)
      as (i & d1 & E1 & Hok1 & _ & Hv & _).
    rewrite E1 in E. injection E as <- <-. apply (kept_pool_ok ws d x d1); [done| |done]. intros id y Hy. by rewrite Hv, find_row_app, Hy.
  - pose proof Hp as [Hok _]. destruct (tl_insert t row d 0 Hk Hok Hroom Hf Hid) as (i & d1 & E1 & Hok1 & _ & _ & _ & Ho).
    rewrite E1 in E. injection E as <- <-. apply (kept_pool_ok ws d x d1); [done| |done]. intros id y Hy. by rewrite (proj1 (Ho "jobs" ltac:(done))).
  - pose proof Hp as [Hok _]. destruct (tl_update t id row d Hk Hok Hf) as (d1 & Hok1 & E1 & _ & Ho & _).
    rewrite E1 in E. injection E as <- <-. apply (kept_pool_ok ws d x d1); [done| |done]. intros id' y Hy. by rewrite Ho.
Qed.

Lemma pool_reachable_ok p p' : pool_ok p -> rtc pool_move p p' -> pool_ok p'.
Proof.
  intros Hok H. induction H as [|p1 p2 p3 Hm _ IH]; [done|]. by eapply IH, pool_move_ok.
Qed.
Lemma fetch_pool_ok workers s : ok s.1 -> pool_ok (replicate workers Fetch, s).
Proof.
  intros Hok. split; [done|]. split; [|split].
  - intros k w Hk. apply lookup_replicate in Hk as [-> _]. apply Forall_nil_2.
  - intros k w id' Hk Hw. by apply lookup_replicate in Hk as [-> _].
  - intros k l w1 w2 id' Hk _ Hw. by apply lookup_replicate in Hk as [-> _].
Qed.
(** No two workers of a pool run one job. *)
Definition exclusive (p : Pool D W) : Prop :=
  forall i j wi wj id, p.1 !! i = Some wi -> p.1 !! j = Some wj -> running wi = Some id -> running wj = Some id -> i = j.
Lemma passes_exclusive workers s p : ok s.1 -> rtc pool_move (replicate workers Fetch, s) p -> exclusive p.
Proof. intros Hok H. by apply (pool_reachable_ok _ _ (fetch_pool_ok workers s Hok)) in H as (_ & _ & _ & Hex). Qed.
End exclusion.


(** A schedule: which worker takes each step. *)
Fixpoint run_schedule {D W} (conn : Connection D) (q : DbQueue D W) (now : Z) (sched : list nat)
    (ws : list Worker) (s : D * W) : Pool D W :=
  match sched with
  | [] => (ws, s)
  | i :: sched =>
      match ws !! i with
      | None => run_schedule conn q now sched ws s
      | Some w => let '(w', s') := worker_step conn q now w s in
                  run_schedule conn q now sched (<[i := w']> ws) s'
      end
  end.

Lemma run_schedule_steps {D W} (conn : Connection D) room known fits (q : DbQueue D W) now sched ws s :
  (forall d, room d "failed_jobs" 1%nat) ->
  rtc (pool_move conn room known fits q now) (ws, s) (run_schedule conn q now sched ws s).
Proof.
  intros Hroom. revert ws s; induction sched as [|i sched IH]; intros ws s; [apply rtc_refl|].
  cbn [run_schedule]. destruct (ws !! i) as [w|] eqn:E; [|apply IH].
  destruct (worker_step conn q now w s) as [w' s'] eqn:Es.
  eapply rtc_l; [|apply IH]. apply move_worker; [apply Hroom|]. by eapply pool_one.
Qed.

(** A queue whose handler counts its calls and throws. *)
Definition failing_queue (max backoff : Z) : DbQueue Memory nat :=
  mkDbQueue max backoff 90 {["job" := fun _ s => (Throw (StdExn "boom"), (s.1, S s.2))]}.
Definition one_job : Memory := (push MemoryConnection 1000 "job" "p" 0 empty_memory).2.


(** The claim compares the reservation stamp only, so a worker whose snapshot is from
    before a failed attempt of another worker claims the released job, runs it at once
    and writes its stale attempt count back: with at most two attempts and a back-off
    of 60 seconds, two failed runs at the same second leave the job queued with one
    attempt counted, instead of moving it to failed_jobs. *)
Theorem stale_snapshot_loses_attempt :
  let '(ws, (d, calls)) := run_schedule MemoryConnection (failing_queue 2 60) 1000
      [0; 1; 0; 0; 0; 1; 1; 1; 0; 1]%nat (replicate 2 Fetch) (one_job, 0%nat) in
  ws = [Done (Ok 1); Done (Ok 1)] /\ calls = 2%nat /\ rows_of d "failed_jobs" = [] /\
  map (fun r => (r !! "attempts", r !! "available_at")) (rows_of d "jobs") = [(Some (VInt 1), Some (VInt 1060))].
Proof. vm_compute. done. Qed.

(** ** What one attempt does *)
Section attempt.
Context {D W : Type} (conn : Connection D) ok view room `{!ConnectionLaws conn ok view room}.
Context (q : DbQueue D W) (now : Z).

Record queued (row : Row) (id : Z) (job payload : string) (attempts : Z) : Prop := {
  q_id : row !! "id" = Some (VInt id);
  q_job : row !! "job" = Some (VStr job);
  q_payload : row !! "payload" = Some (VStr payload);
  q_attempts : row !! "attempts" = Some (VInt attempts);
  q_reserved : row !! "reserved_at" = Some (VInt 0);
  q_due : due q now row = true
}.

(** The jobs table after an attempt that ended in [r], and the rows it adds to
    failed_jobs. *)
Definition after_attempt (row : Row) (job payload : string) (attempts : Z) (r : res unit)
    : list Row * list Row :=
  match r with
  | Ok _ => ([], [])
  | Throw (StdExn what) =>
      if max_attempts_ q <=? attempts + 1 then ([], [failed_row job payload what])
      else ([retry_row q now (attempts + 1) row], [])
  | Throw OtherExn => ([set_cell "reserved_at" (VInt now) row], [])
  end.
End attempt.

Section one_attempt.
Context {D W : Type} (conn : Connection D) ok view room `{!ConnectionLaws conn ok view room}.
Context (q : DbQueue D W) (clock now : Z) (row : Row) (id : Z) (job payload : string) (attempts : Z).
Context (Hnow : now ≠ 0) (Hrow : queued q now row id job payload attempts).
Local Abbreviation claim := (set_cell "reserved_at" (VInt now) row).

Lemma claim_id : is_id id claim = true.
Proof. apply is_id_of. rewrite lookup_set_cell_ne by done. apply Hrow. Qed.

(** The pass up to the end of the handler's call. *)
Lemma attempt_start d x h :
  ok d -> view d "jobs" = [row] -> find_handler q job = Some h -> quiet q ->
  room d "failed_jobs" ->
  exists d1 r x1, ok d1 /\ room d1 "failed_jobs" /\ view d1 "jobs" = [claim] /\
    view d1 "failed_jobs" = view d "failed_jobs" /\ h payload (d1, x) = (r, (d1, x1)) /\
    work conn q clock now (d, x) =
      match run_worker conn 8 q now
              (match r with Ok _ => Succeed row id [] 0 | Throw e => Caught e row id [] 0 end) (d1, x1) with
      | (Done r, s) => (Some r, s)
      | (_, s) => (None, s)
      end.
Proof.
  intros Hok Hv Hh Hq Hroom. destruct Hrow as [Hid Hjob Hpay Hatt Hres Hdue].
  destruct (law_update_if "jobs" id "reserved_at" (VInt 0) claim d Hok) as (d1 & Hok1 & E1 & Hv1 & Ho1).
  fold (cas_guard "reserved_at" (VInt 0) claim) in E1, Hv1. rewrite Hv in E1, Hv1.
  assert (Er : replace_row id (cas_guard "reserved_at" (VInt 0) claim) [row] = Some [claim]).
  { cbn. rewrite (is_id_of row id Hid). unfold cas_guard. rewrite Hres. cbn. do 2 f_equal.
    apply insert_id. by rewrite lookup_set_cell_ne. }
  rewrite Er in E1, Hv1. rewrite bool_decide_eq_true_2 in E1 by done. cbn in Hv1.
  pose proof (Hq job h payload (d1, x) Hh) as Hqd. cbn [fst] in Hqd.
  destruct (h payload (d1, x)) as [r [d2 x2]] eqn:Ehp. cbn [fst snd] in Hqd. subst d2.
  exists d1, r, x2. split; [done|]. split; [|split; [done|split; [by apply Ho1|split; [done|]]]].
  { destruct (law_room "jobs" id "reserved_at" (VInt 0) claim d "failed_jobs" Hroom) as (_ & Hr1 & _).
    by rewrite E1 in Hr1. }
  unfold work. cbn zeta. replace (now =? 0) with false by (symmetry; by apply Z.eqb_neq).
  cbn [worker_step]. unfold on_db at 1, on_part. cbn [fst snd]. rewrite law_all, Hv by done.
  cbn [rows_left length Nat.mul Nat.add]. f_equal.
  cbn [run_worker worker_step]. unfold get_int, row_at. rewrite Hid. cbn [mbind res_bind mret res_ret value_int].
  rewrite Hdue. cbn [negb]. unfold int_or_zero. rewrite Hres. cbn [value_int].
  unfold on_db, on_part. cbn [fst snd]. rewrite E1. cbn [worker_step].
  unfold get_string, row_at. rewrite Hjob, Hpay. cbn [mbind res_bind mret res_ret value_string]. rewrite Hh, Ehp.
  by destruct r.
Qed.

(** After success: the row goes. *)
Lemma attempt_succeeds d1 x :
  ok d1 -> view d1 "jobs" = [claim] ->
  exists d', run_worker conn 8 q now (Succeed row id [] 0) (d1, x) = (Done (Ok 1), (d', x)) /\
    view d' "jobs" = [] /\ view d' "failed_jobs" = view d1 "failed_jobs".
Proof.
  intros Hok Hv. destruct (law_remove "jobs" id d1 Hok) as (d2 & _ & E & Hv2 & Ho).
  exists d2. cbn [run_worker worker_step]. unfold on_db, on_part. cbn [fst snd]. rewrite E.
  cbn [fst snd worker_step]. split; [done|]. split; [|by apply Ho].
  rewrite Hv2, Hv. cbn. by rewrite claim_id.
Qed.

(** After a std::exception: queued again, or moved at the last attempt. *)
Lemma attempt_fails d1 x what :
  ok d1 -> room d1 "failed_jobs" -> view d1 "jobs" = [claim] ->
  exists d', run_worker conn 8 q now (Caught (StdExn what) row id [] 0) (d1, x) = (Done (Ok 1), (d', x)) /\
    view d' "jobs" = (after_attempt q now row job payload attempts (Throw (StdExn what))).1 /\
    map (delete "id") (view d' "failed_jobs") = map (delete "id") (view d1 "failed_jobs")
      ++ (after_attempt q now row job payload attempts (Throw (StdExn what))).2.
Proof.
  intros Hok Hroom Hv. destruct Hrow as [Hid Hjob Hpay Hatt _ _]. unfold after_attempt.
  cbn [run_worker worker_step]. unfold get_int, get_string, row_at. rewrite Hatt, Hjob, Hpay.
  cbn [mbind res_bind mret res_ret value_int value_string].
  destruct (max_attempts_ q <=? attempts + 1).
  - destruct (law_insert "failed_jobs" (failed_row job payload what) d1 Hok Hroom)
      as (fid & d3 & E3 & Hok3 & _ & Hv3 & Ho3).
    destruct (law_remove "jobs" id d3 Hok3) as (d4 & Hok4 & E4 & Hv4 & Ho4).
    exists d4. unfold on_db, on_part. cbn [fst snd]. rewrite E3. cbn [fst snd worker_step].
    unfold on_db, on_part. cbn [fst snd]. rewrite E4. cbn [fst snd worker_step]. split; [done|]. split.
    + rewrite Hv4, (Ho3 "jobs"), Hv by done. cbn. by rewrite claim_id.
    + rewrite (Ho4 "failed_jobs"), Hv3, map_app by done. by cbn [map snd].
  - destruct (law_update "jobs" id (retry_row q now (attempts + 1) row) d1 Hok) as (d3 & Hok3 & E3 & Hv3 & Ho3).
    exists d3. unfold on_db, on_part. cbn [fst snd]. rewrite E3. cbn [fst snd worker_step].
    split; [done|]. split; [|by rewrite (Ho3 "failed_jobs"), app_nil_r by done].
    rewrite Hv3, Hv. cbn. rewrite claim_id. cbn. f_equal. apply insert_id.
    unfold retry_row. by rewrite !lookup_set_cell_ne.
Qed.
End one_attempt.

(** One attempt at a due job, alone in the table: the handler gets its payload; on
    success the job is gone; on a std::exception it is queued again, released, with
    its attempt counted and its back-off, or at the last attempt moved to failed_jobs
    with the error text; any other exception leaves it claimed and escapes. *)
Theorem work_one_attempt {D W} (conn : Connection D) ok view room
    `{!ConnectionLaws conn ok view room} (q : DbQueue D W) (clock now : Z) (d : D) (x : W)
    (row : Row) (id : Z) (job payload : string) (attempts : Z) (h : Handler (D := D) (W := W)) :
  ok d -> now ≠ 0 -> quiet q -> room d "failed_jobs" ->
  view d "jobs" = [row] -> queued q now row id job payload attempts -> find_handler q job = Some h ->
  exists claimed d' x' r, find_row id (view claimed "jobs") = Some (set_cell "reserved_at" (VInt now) row) /\
    h payload (claimed, x) = (r, (claimed, x')) /\
    work conn q clock now (d, x) =
      (Some (match r with Throw OtherExn => Throw OtherExn | _ => Ok 1 end), (d', x')) /\
    view d' "jobs" = (after_attempt q now row job payload attempts r).1 /\
    map (delete "id") (view d' "failed_jobs") =
      map (delete "id") (view d "failed_jobs") ++ (after_attempt q now row job payload attempts r).2.
Proof.
  intros Hok Hn Hq Hroom Hv Hrow Hh.
  destruct (attempt_start conn ok view room q clock now row id job payload attempts Hn Hrow d x h Hok Hv Hh Hq Hroom)
    as (d1 & r & x1 & Hok1 & Hroom1 & Hv1 & Hf1 & Hp & Hwork).
  exists d1. rewrite Hwork, Hv1, <- Hf1. cbn [find_row]. rewrite (claim_id q now row id job payload attempts Hrow).
  destruct r as [u|[what|]].
  - destruct (attempt_succeeds conn ok view room q now row id job payload attempts Hrow d1 x1 Hok1 Hv1)
      as (d' & E & Hj & Hf). exists d', x1, (Ok u). rewrite E, Hj, Hf. cbn. by rewrite app_nil_r.
  - destruct (attempt_fails conn ok view room q now row id job payload attempts Hrow d1 x1 what Hok1 Hroom1 Hv1)
      as (d' & E & Hj & Hf). exists d', x1, (Throw (StdExn what)). by rewrite E.
  - exists d1, x1, (Throw OtherExn). cbn. rewrite Hv1. by rewrite app_nil_r.
Qed.

Lemma work_one_attempt_witness :
  let q := failing_queue 2 60 in
  exists claimed d' x' r,
    find_row 1 (rows_of claimed "jobs") = Some (set_cell "reserved_at" (VInt 1000) (set_cell "id" (VInt 1) (job_row "job" "p" 0 0))) /\
    (fun _ s => (Throw (StdExn "boom"), (s.1, S s.2))) "p" (claimed, 0%nat) = (r, (claimed, x')) /\
    work MemoryConnection q 0 1000 (one_job, 0%nat) =
      (Some (match r with Throw OtherExn => Throw OtherExn | _ => Ok 1 end), (d', x')) /\
    rows_of d' "jobs" = (after_attempt q 1000 (set_cell "id" (VInt 1) (job_row "job" "p" 0 0)) "job" "p" 0 r).1 /\
    map (delete "id") (rows_of d' "failed_jobs") = map (delete "id") (rows_of one_job "failed_jobs")
      ++ (after_attempt q 1000 (set_cell "id" (VInt 1) (job_row "job" "p" 0 0)) "job" "p" 0 r).2.
Proof.
  cbn zeta.
  apply (work_one_attempt MemoryConnection memory_ok rows_of
    (fun m t => default 0 (next_id_ m !! t) < 2 ^ 63 - 1) (failing_queue 2 60) 0 1000 one_job 0%nat
    (set_cell "id" (VInt 1) (job_row "job" "p" 0 0)) 1 "job" "p" 0
    (fun _ s => (Throw (StdExn "boom"), (s.1, S s.2)))).
  - apply memory_ok_insert; [|vm_compute; reflexivity]. split; [|done].
    split; intros t x Hx; cbn in Hx; by rewrite lookup_empty in Hx.
  - done.
  - intros job h p s H. unfold failing_queue, find_handler in H. cbn [handlers_] in H.
    apply lookup_singleton_Some in H as [_ <-]. done.
  - vm_compute. reflexivity.
  - vm_compute. reflexivity.
  - split; vm_compute; reflexivity.
  - reflexivity.
Defined.
