(* ===== verification/QueueDrain.v ===== *)
(** * db_queue.hpp: the queue empties

    Liveness of the database queue, on any backend that keeps [TableLaws]: with handlers
    that leave the database alone and throw std::exceptions only, passes of [work] far
    enough apart for the back-off empty the jobs table after as many passes as attempts are
    allowed, given room for the rows failed_jobs may get. *)
From S2P Require Import Prelude CppString CppNum Database Tables DbQueue.

Local Open Scope Z_scope.

Section drain.
Context {D W : Type} (conn : Connection D) ok view room known fits norm
  `{!TableLaws conn ok view room known fits norm} `{!QueueTables known fits}.
Context (q : DbQueue D W).

(** Handlers leave the database to the queue and throw std::exceptions only. *)
Definition calm : Prop := quiet q /\
  forall job h p s e, find_handler q job = Some h -> (h p s).1 = Throw e -> exists what, e = StdExn what.

(** A row after its attempt: gone, or back with one more attempt. *)
Definition after_row (now : Z) (r : Row) (out : list Row) : Prop :=
  out = [] \/ exists a, r !! "attempts" = Some (VInt a) /\ a + 1 < max_attempts_ q /\ out = [retry_row q now (a + 1) r].
(** Room for [n] more rows in failed_jobs. *)
Local Abbreviation spare := (fun n d => room d "failed_jobs" n).

Lemma retry_lookup now a r c : c ∉ ["available_at"; "reserved_at"; "attempts"] -> retry_row q now a r !! c = r !! c.
Proof.
  intros Hc. unfold retry_row. rewrite !lookup_set_cell_ne; [done|..]; intros <-; apply Hc; by_eval.
Qed.

Context (Hcalm : calm).
Section row.
Context (now : Z) (r : Row) (id : Z) (job payload : string) (attempts : Z) (others : list Row).
Context (Hrow : queued q now r id job payload attempts).
Local Abbreviation claim := (set_cell "reserved_at" (VInt now) r).

Lemma run_worker_S fuel w s : run_worker conn (S fuel) q now w s =
  let '(w, s) := worker_step conn q now w s in run_worker conn fuel q now w s.
Proof. reflexivity. Qed.
Lemma removed_row d y n : ok d -> spare n d -> view d "jobs" ≡ₚ y :: others -> y !! "id" = Some (VInt id) ->
  exists d', remove conn "jobs" id d = (Ok true, d') /\ ok d' /\ spare n d' /\ view d' "jobs" ≡ₚ others.
Proof.
  intros Hok Hs Hv Hy. destruct (remove_row conn ok view room known fits norm "jobs" qt_jobs d y id others Hok Hv Hy) as (d' & E & Hok' & Hv' & _ & Hr).
  exists d'. do 2 (split; [done|]). split; [by apply Hr|done].
Qed.
Lemma claimed_id : claim !! "id" = Some (VInt id).
Proof. rewrite lookup_set_cell_ne by done. apply Hrow. Qed.

(** From a failed attempt on. *)
Lemma caught_row d x n what tail processed : ok d -> spare (S n) d -> norm <$> r = r -> fits "jobs" r -> view d "jobs" ≡ₚ claim :: others ->
  exists k d' out, (k <= 2)%nat /\ ok d' /\ spare n d' /\ view d' "jobs" ≡ₚ out ++ others /\ after_row now r out /\
    forall fuel, run_worker conn (k + fuel) q now (Caught (StdExn what) r id tail processed) (d, x) =
      run_worker conn fuel q now (Scan tail (processed + 1)) (d', x).
Proof.
  intros Hok Hs Hnorm Hfit Hv. destruct Hrow as [Hid Hjob Hpay Hatt Hres _].
  destruct (max_attempts_ q <=? attempts + 1) eqn:E; bools.
  - destruct (tl_insert "failed_jobs" (failed_row job payload what) d n qt_failed Hok Hs (qt_failed_row _ _ _) eq_refl) as (fid & d1 & E1 & Hok1 & _ & _ & Hs1 & Ho1).
    destruct (Ho1 "jobs" ltac:(done)) as [Hj1 _].
    destruct (removed_row d1 claim n Hok1 Hs1) as (d2 & E2 & Hok2 & Hs2 & Hv2); [by rewrite Hj1|apply claimed_id|].
    exists 2%nat, d2, []. split; [lia|]. split; [done|]. split; [done|]. split; [done|]. split; [by left|].
    intros fuel. cbn [Nat.add]. rewrite run_worker_S. cbn [worker_step]. unfold get_int, get_string, row_at.
    rewrite Hatt, Hjob, Hpay. cbn [mbind res_bind mret res_ret value_int value_string].
    rewrite (proj2 (Z.leb_le _ _)) by done. unfold on_db at 1, on_part. cbn [fst snd]. rewrite E1. cbn [fst snd].
    rewrite run_worker_S. cbn [worker_step]. unfold on_db, on_part. cbn [fst snd]. by rewrite E2.
  - destruct (update_row conn ok view room known fits norm "jobs" qt_jobs d claim id others Hok Hv claimed_id (retry_row q now (attempts + 1) r))
      as (d1 & E1 & Hok1 & Hv1 & _ & Hr1).
    { rewrite retry_lookup; [done|by_eval]. }
    { unfold retry_row. do 3 (apply qt_number; [by_eval|]). done. }
    { unfold retry_row. by rewrite !fmap_set_cell, !tl_norm_int, Hnorm. }
    exists 1%nat, d1, [retry_row q now (attempts + 1) r]. split; [lia|]. split; [done|].
    split; [by apply Hr1, tl_fewer|]. split; [done|]. split; [right; exists attempts; done|].
    intros fuel. cbn [Nat.add]. rewrite run_worker_S. cbn [worker_step]. unfold get_int, row_at. rewrite Hatt.
    cbn [mbind res_bind mret res_ret value_int]. rewrite (proj2 (Z.leb_gt _ _)) by done.
    unfold on_db, on_part. cbn [fst snd]. by rewrite E1.
Qed.

(** The whole attempt at one row of the table. *)
Lemma process_row d x n tail processed : ok d -> spare (S n) d -> view d "jobs" ≡ₚ r :: others ->
  exists k d' x' out, (k <= 5)%nat /\ ok d' /\ spare n d' /\ view d' "jobs" ≡ₚ out ++ others /\ after_row now r out /\
    forall fuel, run_worker conn (k + fuel) q now (Scan (r :: tail) processed) (d, x) =
      run_worker conn fuel q now (Scan tail (processed + 1)) (d', x').
Proof.
  intros Hok Hs Hv. pose proof (row_stable conn ok view room known fits norm "jobs" qt_jobs d r others Hok Hv) as Hnorm.
  pose proof (row_fits conn ok view room known fits norm "jobs" qt_jobs d r others Hok Hv) as Hfit.
  pose proof Hrow as [Hid Hjob Hpay Hatt Hres Hdue].
  destruct (claim_row conn ok view room known fits norm "jobs" qt_jobs d r id others Hok Hv Hid "reserved_at" 0 now ltac:(done) Hres)
    as (d1 & E1 & Hok1 & Hv1 & _ & Hr1); [intros v y; apply qt_number; by left|]. apply Hr1 in Hs.
  assert (Hclaim : forall fuel, run_worker conn (S fuel) q now (Scan (r :: tail) processed) (d, x) =
    run_worker conn fuel q now (Run r id tail processed) (d1, x)).
  { intros fuel. rewrite run_worker_S. cbn [worker_step]. unfold get_int, row_at. rewrite Hid.
    cbn [mbind res_bind mret res_ret value_int]. rewrite Hdue. cbn [negb]. unfold int_or_zero. rewrite Hres. cbn [value_int].
    unfold on_db, on_part. cbn [fst snd]. by rewrite E1. }
  destruct (removed_row d1 claim (S n) Hok1 Hs Hv1 claimed_id) as (d2 & E2 & Hok2 & Hs2 & Hv2).
  destruct Hcalm as [Hquiet Hstd]. destruct (find_handler q job) as [h|] eqn:Hh.
  - pose proof (Hquiet job h payload (d1, x) Hh) as Hqd. pose proof (Hstd job h payload (d1, x)) as He.
    cbn [fst] in Hqd. destruct (h payload (d1, x)) as [res [dh x2]] eqn:Ehp. cbn [fst snd] in Hqd, He. subst dh.
    destruct res as [u|e].
    + exists 3%nat, d2, x2, []. split; [lia|]. split; [done|]. split; [by apply tl_fewer|]. split; [done|]. split; [by left|].
      intros fuel. cbn [Nat.add]. rewrite Hclaim, run_worker_S. cbn [worker_step]. unfold get_string, row_at. rewrite Hjob, Hpay.
      cbn [mbind res_bind mret res_ret value_string]. rewrite Hh, Ehp. rewrite run_worker_S. cbn [worker_step].
      unfold on_db, on_part. cbn [fst snd]. by rewrite E2.
    + destruct (He e Hh eq_refl) as [what ->].
      destruct (caught_row d1 x2 n what tail processed Hok1 Hs Hnorm Hfit Hv1) as (k & d3 & out & Hkk & Hok3 & Hs3 & Hv3 & Hout & Hrun).
      exists (S (S k)), d3, x2, out. split; [lia|]. do 4 (split; [done|]). intros fuel. cbn [Nat.add].
      rewrite Hclaim, run_worker_S. cbn [worker_step]. unfold get_string, row_at. rewrite Hjob, Hpay.
      cbn [mbind res_bind mret res_ret value_string]. rewrite Hh, Ehp. apply Hrun.
  - exists 2%nat, d2, x, []. split; [lia|]. split; [done|]. split; [by apply tl_fewer|]. split; [done|]. split; [by left|].
    intros fuel. cbn [Nat.add]. rewrite Hclaim, run_worker_S. cbn [worker_step]. unfold get_string, row_at. rewrite Hjob.
    cbn [mbind res_bind mret res_ret value_string]. rewrite Hh. unfold on_db, on_part. cbn [fst snd]. by rewrite E2.
Qed.
End row.

(** ** A whole pass *)
Definition waiting (now floor : Z) (r : Row) : Prop :=
  exists id job payload attempts, queued q now r id job payload attempts /\ floor <= attempts.
(** The rows a pass leaves: some of those it found, each with one more attempt. *)
Definition retried (now : Z) (rows : list Row) (r' : Row) : Prop :=
  exists r a, r ∈ rows /\ r !! "attempts" = Some (VInt a) /\ a + 1 < max_attempts_ q /\ r' = retry_row q now (a + 1) r.
Lemma retried_more now r rows r' : retried now rows r' -> retried now (r :: rows) r'.
Proof. intros (y & a & Hy & H). exists y, a. split; [by right|done]. Qed.

Lemma scan_pass now floor rest : forall kept n d x processed,
  ok d -> spare (length rest + n)%nat d -> view d "jobs" ≡ₚ rest ++ kept -> Forall (waiting now floor) rest ->
  exists k d' x' out, (k <= 5 * length rest)%nat /\ ok d' /\ spare n d' /\ view d' "jobs" ≡ₚ out ++ kept /\
    Forall (retried now rest) out /\ (length out <= length rest)%nat /\
    forall fuel, run_worker conn (k + fuel) q now (Scan rest processed) (d, x) =
      run_worker conn fuel q now (Scan [] (processed + Z.of_nat (length rest))) (d', x').
Proof.
  induction rest as [|r rest IH]; intros kept n d x processed Hok Hs Hv Hw.
  { exists 0%nat, d, x, []. split; [lia|]. do 3 (split; [done|]). split; [constructor|]. split; [done|].
    intros fuel. cbn. by rewrite Z.add_0_r. }
  apply Forall_cons in Hw as [(id & job & payload & a & Hq & Ha) Hw].
  destruct (process_row now r id job payload a (rest ++ kept) Hq d x (length rest + n) rest processed Hok Hs Hv)
    as (k1 & d1 & x1 & out1 & Hk1 & Hok1 & Hs1 & Hv1 & Hout1 & Hrun1).
  assert (Hout : Forall (retried now (r :: rest)) out1 /\ (length out1 <= 1)%nat).
  { destruct Hout1 as [-> |(b & Hb & Hlt & ->)]; [split; [constructor|cbn; lia]|]. split; [|done].
    constructor; [|constructor]. exists r, b. split; [by left|done]. }
  destruct Hout as [Hret1 Hlen1].
  destruct (IH (out1 ++ kept) n d1 x1 (processed + 1) Hok1 Hs1) as (k2 & d2 & x2 & out2 & Hk2 & Hok2 & Hs2 & Hv2 & Hret2 & Hlen2 & Hrun2).
  { rewrite Hv1. solve_Permutation. }
  { done. }
  exists (k1 + k2)%nat, d2, x2, (out1 ++ out2). split; [cbn; lia|]. split; [done|]. split; [done|].
  split; [rewrite Hv2; solve_Permutation|]. split; [|split].
  - apply Forall_app. split; [done|]. eapply Forall_impl; [exact Hret2|]. intros y. apply retried_more.
  - rewrite length_app. cbn [length]. lia.
  - intros fuel. rewrite <- Nat.add_assoc, Hrun1, Hrun2. cbn [length]. do 2 f_equal. lia.
Qed.

Lemma run_worker_Done fuel now r s : run_worker conn fuel q now (Done r) s = (Done r, s).
Proof. induction fuel as [|fuel IH]; [done|]. cbn [run_worker worker_step]. exact IH. Qed.

Lemma work_pass now floor n clock d x :
  ok d -> now ≠ 0 -> spare (length (view d "jobs") + n)%nat d -> Forall (waiting now floor) (view d "jobs") ->
  exists d' x', work conn q clock now (d, x) = (Some (Ok (Z.of_nat (length (view d "jobs")))), (d', x')) /\
    ok d' /\ spare n d' /\ Forall (retried now (view d "jobs")) (view d' "jobs") /\
    (length (view d' "jobs") <= length (view d "jobs"))%nat.
Proof.
  intros Hok Hn Hs Hw. destruct (tl_all "jobs" d qt_jobs Hok) as (rows & Ea & Hp).
  rewrite <- Hp in Hs, Hw. assert (Hlen : length rows = length (view d "jobs")) by (by apply Permutation_length).
  destruct (scan_pass now floor rows [] n d x 0 Hok Hs) as (k & d' & x' & out & Hk & Hok' & Hs' & Hv & Hret & Hl & Hrun); [by rewrite app_nil_r|done|].
  rewrite app_nil_r in Hv. exists d', x'. split.
  - unfold work. cbn zeta. rewrite (proj2 (Z.eqb_neq now 0)) by done.
    cbn [worker_step]. unfold on_db at 1, on_part. cbn [fst snd]. rewrite Ea. cbn [rows_left].
    replace (5 * length rows + 5)%nat with (k + S (5 * length rows + 4 - k))%nat by lia.
    rewrite Hrun. rewrite run_worker_S. cbn [worker_step]. by rewrite run_worker_Done, Hlen.
  - split; [done|]. split; [done|]. split.
    + rewrite Hv. eapply Forall_impl; [exact Hret|]. intros y (r & a & Hr & Hy). exists r, a. by rewrite <- Hp.
    + rewrite Hv. lia.
Qed.

(** ** Pass after pass *)
Fixpoint passes (ts : list Z) (s : D * W) : list (option (res Z)) * (D * W) :=
  match ts with
  | [] => ([], s)
  | t :: ts => let '(r, s) := work conn q t t s in let '(rs, s) := passes ts s in (r :: rs, s)
  end.
(** Far enough apart for every back-off. *)
Fixpoint spaced (t : Z) (ts : list Z) : Prop :=
  match ts with
  | [] => True
  | t' :: ts => t + Z.max 0 (retry_backoff_ q) * Z.max 0 (max_attempts_ q) <= t' /\ spaced t' ts
  end.

Lemma retried_waiting t t' floor rows r' :
  Forall (waiting t floor) rows -> 0 < t -> t + Z.max 0 (retry_backoff_ q) * Z.max 0 (max_attempts_ q) <= t' ->
  retried t rows r' -> waiting t' (floor + 1) r' /\ floor + 1 < max_attempts_ q.
Proof.
  intros Hw Ht Ht' (r & a & Hr & Ha & Hlt & ->). rewrite Forall_forall in Hw.
  destruct (Hw r Hr) as (id & job & payload & b & [Hid Hjob Hpay Hatt Hres Hdue] & Hb).
  rewrite Ha in Hatt. injection Hatt as <-. split; [|lia]. exists id, job, payload, (a + 1). split; [|lia].
  split; unfold retry_row; rewrite ?lookup_set_cell_ne by done; try done; try apply lookup_set_cell.
  - unfold due, int_or_zero. rewrite lookup_set_cell. rewrite (lookup_set_cell_ne "reserved_at"), lookup_set_cell by done.
    cbn [value_int]. rewrite Z.eqb_refl. cbn [negb andb]. rewrite andb_true_r. apply negb_true_iff, Z.ltb_ge.
    destruct (0 <? retry_backoff_ q) eqn:E; bools; nia.
Qed.

Lemma spare_le m n d : (n <= m)%nat -> spare m d -> spare n d.
Proof. induction 1; [done|]. intros H1. by apply IHle, tl_fewer. Qed.
Lemma passes_advance ts : forall t floor d x,
  ok d -> 0 < t -> spaced t ts -> spare (S (length ts) * length (view d "jobs"))%nat d ->
  Forall (waiting t floor) (view d "jobs") ->
  exists rs d' x', passes (t :: ts) (d, x) = (rs, (d', x')) /\ Forall (fun r => exists k, r = Some (Ok k)) rs /\
    ok d' /\ (view d' "jobs" ≠ [] -> floor + Z.of_nat (length ts) + 1 < max_attempts_ q).
Proof.
  induction ts as [|t' ts IH]; intros t floor d x Hok Ht Hsp Hs Hw.
  - destruct (work_pass t floor 0 t d x Hok ltac:(lia)) as (d1 & x1 & E1 & Hok1 & _ & Hret & _); [|done|].
    { eapply spare_le; [|exact Hs]. cbn. lia. }
    exists [Some (Ok (Z.of_nat (length (view d "jobs"))))], d1, x1. cbn [passes]. rewrite E1.
    split; [done|]. split; [constructor; [eauto|constructor]|]. split; [done|]. intros Hne.
    destruct (view d1 "jobs") as [|r' rs]; [done|]. apply Forall_cons in Hret as [Hr _].
    destruct (retried_waiting t (t + Z.max 0 (retry_backoff_ q) * Z.max 0 (max_attempts_ q)) floor _ r' Hw Ht ltac:(lia) Hr) as [_ Hlt].
    cbn. lia.
  - destruct Hsp as [Hsp1 Hsp2].
    destruct (work_pass t floor (S (length ts) * length (view d "jobs")) t d x Hok ltac:(lia)) as (d1 & x1 & E1 & Hok1 & Hs1 & Hret & Hlen); [|done|].
    { eapply spare_le; [|exact Hs]. cbn. lia. }
    destruct (IH t' (floor + 1) d1 x1 Hok1) as (rs & d2 & x2 & E2 & Hrs & Hok2 & Hv2); [nia|done| | |].
    { eapply spare_le; [|exact Hs1]. cbn. nia. }
    { eapply Forall_impl; [exact Hret|]. intros r' Hr'. by apply (retried_waiting t t' floor _ r' Hw Ht Hsp1). }
    exists (Some (Ok (Z.of_nat (length (view d "jobs")))) :: rs), d2, x2. cbn [passes] in E2 |- *. rewrite E1. rewrite E2.
    split; [done|]. split; [constructor; eauto|]. split; [done|]. intros Hne. specialize (Hv2 Hne). cbn [length]. lia.
Qed.
End drain.

(** C23: The queue empties, on any backend that keeps [TableLaws] with the queue's tables in it
    (the in-memory one and SQLite among them).  With handlers that leave the database alone and throw
    std::exceptions only, and jobs that are due, unclaimed and not yet attempted at the
    first pass, passes of [work] by one worker, as many as attempts are allowed and far
    enough apart for the longest back-off, all return normally and leave no job behind:
    each has succeeded, was of an unknown kind, or is in failed_jobs. *)
Theorem queue_drains {D W} (conn : Connection D) ok view room known fits norm
    `{!TableLaws conn ok view room known fits norm} `{!QueueTables known fits}
    (q : DbQueue D W) (t : Z) (ts : list Z) (d : D) (x : W) :
  calm q -> ok d -> 0 < t -> spaced q t ts -> max_attempts_ q <= Z.of_nat (S (length ts)) ->
  room d "failed_jobs" (S (length ts) * length (view d "jobs"))%nat ->
  Forall (waiting q t 0) (view d "jobs") ->
  exists rs d' x', passes conn q (t :: ts) (d, x) = (rs, (d', x')) /\
    Forall (fun r => exists k, r = Some (Ok k)) rs /\ view d' "jobs" = [].
Proof.
  intros Hcalm Hok Ht Hsp Hmax Hs Hw.
  destruct (passes_advance conn ok view room known fits norm q Hcalm ts t 0 d x Hok Ht Hsp Hs Hw) as (rs & d' & x' & E & Hrs & _ & Hv).
  exists rs, d', x'. split; [done|]. split; [done|]. destruct (view d' "jobs"); [done|].
  specialize (Hv ltac:(done)). lia.
Qed.

Definition two_jobs : Memory := (push MemoryConnection 1000 "other" "p" 0 one_job).2.
Lemma queue_drains_witness :
  exists rs d' x', passes MemoryConnection (failing_queue 2 60) [1000; 2000] (two_jobs, 0%nat) = (rs, (d', x')) /\
    Forall (fun r => exists k, r = Some (Ok k)) rs /\ rows_of d' "jobs" = [].
Proof.
  apply (queue_drains MemoryConnection memory_ok rows_of memory_room (fun _ => True) (fun _ _ => True) id (failing_queue 2 60) 1000 [2000] two_jobs 0%nat).
  - split.
    + intros job h p s H. unfold failing_queue, find_handler in H. cbn [handlers_] in H. apply lookup_singleton_Some in H as [_ <-]. done.
    + intros job h p s e H E. unfold failing_queue, find_handler in H. cbn [handlers_] in H. apply lookup_singleton_Some in H as [_ <-].
      cbn in E. injection E as <-. eauto.
  - repeat (apply memory_ok_insert; [|vm_compute; reflexivity]). split; [|done]. split; intros t x Hx; cbn in Hx; by rewrite lookup_empty in Hx.
  - lia.
  - vm_compute. split; [discriminate|exact I].
  - vm_compute. discriminate.
  - vm_compute. reflexivity.
  - repeat constructor; (eexists _, _, _, 0; split; [split; vm_compute; reflexivity|lia]).
Defined.
