(* ===== verification/Session.v ===== *)
(** * session.hpp: session ids, the store and the handle

    [Env] is what the process reads from the outside: the n-th reading of the steady
    clock and the n-th draw from the kernel's random source.  [SessionStore] is the
    abstract class, a record of operations over a state; [ArraySessionStore] is the
    in-memory implementation with its optional time to live. *)
From S2P Require Import Prelude CppString CppNum.

Local Open Scope Z_scope.

(** ** The environment *)
Record Env : Type := mkEnv {
  clock : nat -> Z;          (* the n-th reading, in milliseconds *)
  reads : nat;
  entropy : nat -> nat -> string;   (* the n-th draw, of so many bytes *)
  draws : nat
}.
Definition now : M Env Z := fun e =>
  (Ok (clock e (reads e)), mkEnv (clock e) (S (reads e)) (entropy e) (draws e)).
Definition random_bytes (count : nat) : M Env string := fun e =>
  (Ok (entropy e (draws e) count), mkEnv (clock e) (reads e) (entropy e) (S (draws e))).

(** Bytes from the kernel, two hex digits each. *)
Definition csprng_hex (count : nat) : M Env string :=
  bytes ← random_bytes count; mret (hex_string bytes).
Definition new_session_id : M Env string := csprng_hex 16.

(** ** The SessionStore contract *)
Record SessionStore (W : Type) : Type := mkSessionStore {
  s_put : string -> string -> string -> M W unit;
  s_get : string -> string -> M W (option string);
  s_has : string -> string -> M W bool;
  s_forget : string -> string -> M W unit;
  s_flush : string -> M W unit;
  s_rename : string -> string -> M W bool
}.
Arguments mkSessionStore {_} _ _ _ _ _ _.
Arguments s_put {_} _. Arguments s_get {_} _. Arguments s_has {_} _. Arguments s_forget {_} _.
Arguments s_flush {_} _. Arguments s_rename {_} _.

(** The default body of the virtual [rename]. *)
Definition rename_unsupported {W} (from to : string) : M W bool := mret false.

(** ** ArraySessionStore *)
Record Sessions : Type := mkSessions {
  ttl_ : Z;
  data_ : gmap string (gmap string string);
  last_seen_ : gmap string Z
}.
Definition new_sessions (ttl : Z) : Sessions := mkSessions ttl ∅ ∅.
Definition Store : Type := Sessions * Env.

Definition in_env {A} (m : M Env A) : M Store A := on_part snd (fun e s => (s.1, e)) m.
Definition sessions (f : Sessions -> Sessions) : M Store unit := modify (fun s => (f s.1, s.2)).

Definition drop_session (sid : string) (s : Sessions) : Sessions :=
  mkSessions (ttl_ s) (delete sid (data_ s)) (delete sid (last_seen_ s)).
Definition touch (sid : string) : M Store unit :=
  s ← gets fst;
  if ttl_ s =? 0 then mret tt
  else t ← in_env now;
       sessions (fun s => mkSessions (ttl_ s) (data_ s) (<[sid := t]> (last_seen_ s))).
Definition drop_if_expired (sid : string) : M Store unit :=
  s ← gets fst;
  if ttl_ s =? 0 then mret tt
  else match last_seen_ s !! sid with
       | None => mret tt
       | Some seen =>
           t ← in_env now;
           if ttl_ s <? t - seen then sessions (drop_session sid) else mret tt
       end.

(** [data_[sid]]: the session's values, none when there is no such session. *)
Definition session_data (s : Sessions) (sid : string) : gmap string string :=
  match data_ s !! sid with Some d => d | None => ∅ end.

Definition array_put (sid key value : string) : M Store unit :=
  _ ← drop_if_expired sid;
  _ ← sessions (fun s => mkSessions (ttl_ s) (<[sid := <[key := value]> (session_data s sid)]> (data_ s))
                           (last_seen_ s));
  touch sid.
Definition array_get (sid key : string) : M Store (option string) :=
  _ ← drop_if_expired sid;
  s ← gets fst;
  match data_ s !! sid with
  | None => mret None
  | Some d => match d !! key with
              | None => mret None
              | Some v => _ ← touch sid; mret (Some v)
              end
  end.
Definition array_has (sid key : string) : M Store bool :=
  _ ← drop_if_expired sid;
  s ← gets fst;
  match data_ s !! sid with
  | None => mret false
  | Some d => match d !! key with
              | None => mret false
              | Some _ => _ ← touch sid; mret true
              end
  end.
Definition array_forget (sid key : string) : M Store unit :=
  _ ← drop_if_expired sid;
  sessions (fun s =>
    match data_ s !! sid with
    | None => s
    | Some d => mkSessions (ttl_ s) (<[sid := delete key d]> (data_ s)) (last_seen_ s)
    end).
Definition array_flush (sid : string) : M Store unit := sessions (drop_session sid).
Definition array_rename (from to : string) : M Store bool :=
  _ ← drop_if_expired from;
  s ← gets fst;
  match data_ s !! from with
  | None => mret false
  | Some d =>
      _ ← sessions (fun s => mkSessions (ttl_ s) (delete from (<[to := d]> (data_ s)))
                               (delete from (last_seen_ s)));
      _ ← touch to;
      mret true
  end.

(** The loop over [last_seen_] drops exactly the sessions past their time. *)
Definition fresh_at (ttl t : Z) (seen : option Z) : bool :=
  match seen with Some x => negb (ttl <? t - x) | None => true end.
Definition gc : M Store unit :=
  s ← gets fst;
  if ttl_ s =? 0 then mret tt
  else
    t ← in_env now;
    sessions (fun s =>
      mkSessions (ttl_ s)
        (filter (fun kv => fresh_at (ttl_ s) t (last_seen_ s !! kv.1) = true) (data_ s))
        (filter (fun kv => fresh_at (ttl_ s) t (Some kv.2) = true) (last_seen_ s))).

Definition ArraySessionStore : SessionStore Store :=
  mkSessionStore array_put array_get array_has array_forget array_flush array_rename.

(** ** The handle *)
Section session.
Context {W : Type} (store : SessionStore W) (fresh_id : M W string).

(** A Session is its id. *)
Definition get_or (id key def : string) : M W string :=
  v ← s_get store id key; mret (match v with Some v => v | None => def end).
Definition regenerate_id (id : string) : M W string :=
  fresh ← fresh_id;
  ok ← s_rename store id fresh;
  mret (if (ok : bool) then fresh else id).
End session.

(** ** Facts *)
Lemma new_session_id_spec e :
  exists s e', new_session_id e = (Ok s, e') /\ s = hex_string (entropy e (draws e) 16) /\
    s_all is_lower_hex s /\ draws e' = S (draws e).
Proof.
  eexists _, _. split; [reflexivity|]. split; [done|]. split; [apply hex_string_spec|done].
Qed.

Section array_facts.
Implicit Types (s : Store).

Lemma drop_if_expired_spec sid s :
  exists s', drop_if_expired sid s = (Ok tt, s') /\ ttl_ s'.1 = ttl_ s.1 /\
    (s'.1 = s.1 \/ (s'.1 = drop_session sid s.1 /\ ttl_ s.1 ≠ 0)) /\
    (ttl_ s.1 = 0 -> s' = s).
Proof.
  unfold drop_if_expired, gets, mbind, M_bind, mret, M_ret. destruct (ttl_ s.1 =? 0) eqn:E; bools; [eauto 8|].
  destruct (last_seen_ s.1 !! sid) as [seen|]; [|eauto 8]. cbn.
  destruct (_ <? _); eexists; (split; [reflexivity|]); cbn; naive_solver.
Qed.

Lemma touch_spec sid s :
  exists s', touch sid s = (Ok tt, s') /\ data_ s'.1 = data_ s.1 /\ ttl_ s'.1 = ttl_ s.1 /\
    (ttl_ s.1 = 0 -> s' = s).
Proof.
  unfold touch, gets, mbind, M_bind, mret, M_ret. destruct (ttl_ s.1 =? 0) eqn:E; bools; [eauto 8|].
  cbn. eexists. split; [reflexivity|]. cbn. naive_solver.
Qed.

(** Without a time to live the store is a map of maps. *)
Lemma plain_put sid key v s :
  ttl_ s.1 = 0 ->
  array_put sid key v s =
    (Ok tt, (mkSessions 0 (<[sid := <[key := v]> (session_data s.1 sid)]> (data_ s.1)) (last_seen_ s.1), s.2)).
Proof.
  intros H. unfold array_put, mbind, M_bind.
  destruct (drop_if_expired_spec sid s) as (s1 & -> & _ & _ & Hs). rewrite (Hs H). cbn. rewrite H.
  unfold touch, gets, mbind, M_bind. cbn. done.
Qed.
Lemma plain_get sid key s :
  ttl_ s.1 = 0 -> array_get sid key s = (Ok (session_data s.1 sid !! key), s).
Proof.
  intros H. unfold array_get, session_data, mbind, M_bind.
  destruct (drop_if_expired_spec sid s) as (s1 & -> & _ & _ & Hs). rewrite (Hs H). unfold gets.
  destruct (data_ s.1 !! sid) as [d|]; [|by rewrite lookup_empty].
  destruct (d !! key); [|done].
  destruct (touch_spec sid s) as (s2 & -> & _ & _ & Hs2). by rewrite (Hs2 H).
Qed.
Lemma plain_has sid key s :
  ttl_ s.1 = 0 -> array_has sid key s = (Ok (bool_decide (session_data s.1 sid !! key ≠ None)), s).
Proof.
  intros H. unfold array_has, session_data, mbind, M_bind.
  destruct (drop_if_expired_spec sid s) as (s1 & -> & _ & _ & Hs). rewrite (Hs H). unfold gets.
  destruct (data_ s.1 !! sid) as [d|]; [|by rewrite lookup_empty].
  destruct (d !! key); [|done].
  destruct (touch_spec sid s) as (s2 & -> & _ & _ & Hs2). by rewrite (Hs2 H).
Qed.
Lemma plain_rename from to s :
  ttl_ s.1 = 0 ->
  array_rename from to s =
    match data_ s.1 !! from with
    | None => (Ok false, s)
    | Some d => (Ok true, (mkSessions 0 (delete from (<[to := d]> (data_ s.1))) (delete from (last_seen_ s.1)), s.2))
    end.
Proof.
  intros H. unfold array_rename, mbind, M_bind.
  destruct (drop_if_expired_spec from s) as (s1 & -> & _ & _ & Hs). rewrite (Hs H). unfold gets.
  destruct (data_ s.1 !! from) as [d|]; [|done]. cbn. rewrite H.
  unfold touch, gets, mbind, M_bind. cbn. done.
Qed.
End array_facts.

(** A session left alone for longer than the time to live no longer answers: reading
    any of its keys finds nothing, and its data is gone from the store.  One touched
    within the time to live keeps its data. *)
Theorem session_expiry (sid key : string) (s : Store) (seen : Z) :
  ttl_ s.1 ≠ 0 -> last_seen_ s.1 !! sid = Some seen ->
  let t := clock s.2 (reads s.2) in
  if ttl_ s.1 <? t - seen
  then exists s', array_get sid key s = (Ok None, s') /\ array_has sid key s = (Ok false, s') /\
         data_ s'.1 = delete sid (data_ s.1)
  else exists s', array_get sid key s = (Ok (session_data s.1 sid !! key), s') /\ data_ s'.1 = data_ s.1.
Proof.
  intros Ht Hs t. assert (E : (ttl_ s.1 =? 0) = false) by (by apply Z.eqb_neq).
  unfold array_get, array_has, drop_if_expired, gets, mbind, M_bind, mret, M_ret.
  rewrite E, Hs. cbn [in_env on_part now fst snd]. fold t. destruct (ttl_ s.1 <? t - seen); cbn.
  - rewrite lookup_delete_eq. eexists. done.
  - unfold session_data. destruct (data_ s.1 !! sid) as [d|]; [|eexists; by rewrite lookup_empty].
    destruct (d !! key); [|by eexists].
    unfold touch, gets, mbind, M_bind. cbn. rewrite E. cbn. by eexists.
Qed.

Lemma session_expiry_witness :
  let s : Store := (mkSessions 1000 {["sid" := {["k" := "v"]}]} {["sid" := 5000]},
                    mkEnv (fun n => 6001 + Z.of_nat n) 0 (fun _ _ => "") 0) in
  exists s', array_get "sid" "k" s = (Ok None, s') /\ array_has "sid" "k" s = (Ok false, s') /\
    data_ s'.1 = delete "sid" (data_ s.1).
Proof.
  intros s. exact (session_expiry "sid" "k" s 5000 ltac:(discriminate) eq_refl).
Defined.
