(* ===== verification/Cache.v ===== *)
(** * cache.hpp: the cache contract, the in-memory store and its tags

    Time is the steady clock of Session.v's [Env], in milliseconds.  [get] purges an
    entry whose deadline has come; the tag index grows with every tagged put and is
    what [flush] walks. *)
From S2P Require Import Prelude CppString CppNum Session.

Local Open Scope Z_scope.

(** ** The CacheContract *)
Record CacheContract (W : Type) : Type := mkCacheContract {
  c_put : string -> string -> M W unit;
  c_put_ttl : string -> string -> Z -> M W unit;
  c_get : string -> M W (option string);
  c_has : string -> M W bool;
  c_forget : string -> M W unit
}.
Arguments mkCacheContract {_} _ _ _ _ _.
Arguments c_put {_} _. Arguments c_put_ttl {_} _. Arguments c_get {_} _. Arguments c_has {_} _.
Arguments c_forget {_} _.

Section contract.
Context {W : Type} (c : CacheContract W).
Definition cache_get_or (key def : string) : M W string :=
  v ← c_get c key; mret (match v with Some v => v | None => def end).
Definition remember (key : string) (compute : M W string) : M W string :=
  v ← c_get c key;
  match v with
  | Some v => mret v
  | None => value ← compute; _ ← c_put c key value; mret value
  end.
End contract.

(** ** ArrayCache *)
Record Entry : Type := mkEntry { e_value : string; e_expires : option Z }.
Record ArrayCache : Type := mkArrayCache {
  items_ : gmap string Entry;
  tagged_keys_ : gmap string (list string)
}.
Definition empty_cache : ArrayCache := mkArrayCache ∅ ∅.
Definition CacheState : Type := ArrayCache * Env.

Definition cache_env {A} (m : M Env A) : M CacheState A := on_part snd (fun e s => (s.1, e)) m.
Definition edit_items (f : gmap string Entry -> gmap string Entry) : M CacheState unit :=
  modify (fun s => (mkArrayCache (f (items_ s.1)) (tagged_keys_ s.1), s.2)).

Definition put (key value : string) : M CacheState unit :=
  edit_items (<[key := mkEntry value None]>).
Definition put_ttl (key value : string) (ttl : Z) : M CacheState unit :=
  t ← cache_env now;
  edit_items (<[key := mkEntry value (Some (t + ttl))]>).
(** [expired]: the clock is only read for an entry that has a deadline. *)
Definition expired (e : Entry) : M CacheState bool :=
  match e_expires e with
  | None => mret false
  | Some d => t ← cache_env now; mret (d <=? t)
  end.
Definition get (key : string) : M CacheState (option string) :=
  s ← gets fst;
  match items_ s !! key with
  | None => mret None
  | Some e =>
      x ← expired e;
      if (x : bool) then _ ← edit_items (delete key); mret None else mret (Some (e_value e))
  end.
Definition has (key : string) : M CacheState bool :=
  v ← get key; mret (bool_decide (v ≠ None)).
Definition forget (key : string) : M CacheState unit := edit_items (delete key).

Definition array_cache : CacheContract CacheState := mkCacheContract put put_ttl get has forget.

(** ** TaggedCache: a view scoped to a list of tags *)
Definition tag_key (key : string) (index : gmap string (list string)) (t : string)
    : gmap string (list string) :=
  <[t := default [] (index !! t) ++ [key]]> index.
Definition tagged_put (tags : list string) (key value : string) : M CacheState unit :=
  _ ← put key value;
  modify (fun s => (mkArrayCache (items_ s.1) (fold_left (tag_key key) tags (tagged_keys_ s.1)), s.2)).
Definition tagged_get (tags : list string) (key : string) : M CacheState (option string) := get key.
(** One turn of the flush loop. *)
Definition flush_tag (c : ArrayCache) (t : string) : ArrayCache :=
  match tagged_keys_ c !! t with
  | None => c
  | Some keys =>
      mkArrayCache (fold_left (fun items key => delete key items) keys (items_ c))
        (delete t (tagged_keys_ c))
  end.
Definition tagged_flush (tags : list string) : M CacheState unit :=
  modify (fun s => (fold_left flush_tag tags s.1, s.2)).

(** ** Facts *)
(** What [get] returns at the next reading of the clock. *)
Definition live (e : Entry) (t : Z) : bool :=
  match e_expires e with Some d => t <? d | None => true end.
Definition visible (s : CacheState) (key : string) : option string :=
  e ← items_ s.1 !! key;
  if live e (clock s.2 (reads s.2)) then Some (e_value e) else None.

Lemma get_visible key s :
  exists s', get key s = (Ok (visible s key), s') /\ clock s'.2 = clock s.2 /\
    (forall k, k ≠ key -> items_ s'.1 !! k = items_ s.1 !! k) /\
    (visible s key ≠ None -> s'.1 = s.1).
Proof.
  unfold get, visible, live, expired, gets, mbind, M_bind, option_bind, mret, M_ret.
  destruct (items_ s.1 !! key) as [e|] eqn:E; [|eexists; split_and!; done].
  destruct (e_expires e) as [d|]; [|eexists; split_and!; done].
  cbn. destruct (d <=? _) eqn:El; bools.
  - replace (_ <? d) with false by (symmetry; apply Z.ltb_ge; lia).
    eexists. split; [done|]. split; [done|]. split; [|done].
    intros k Hk. cbn. by apply lookup_delete_ne.
  - replace (_ <? d) with true by (symmetry; apply Z.ltb_lt; lia). eexists. split_and!; done.
Qed.

(** A value put with a time to live is returned until its deadline and from the deadline
    on is not, a value put without one is returned until it is forgotten, and other
    keys are unaffected by either. *)
Theorem cache_expiry (key value : string) (ttl : Z) (s : CacheState) :
  (exists s1, put key value s = (Ok tt, s1) /\ visible s1 key = Some value /\
     (exists s2, forget key s1 = (Ok tt, s2) /\ visible s2 key = None) /\
     forall k, k ≠ key -> visible s1 k = visible s k) /\
  (exists s1, put_ttl key value ttl s = (Ok tt, s1) /\
     forall n, (exists s2, get key (s1.1, mkEnv (clock s.2) n (entropy s.2) (draws s.2)) =
       (Ok (if clock s.2 n <? clock s.2 (reads s.2) + ttl then Some value else None), s2)) /\
     forall k, k ≠ key -> items_ s1.1 !! k = items_ s.1 !! k).
Proof.
  split.
  - eexists. split; [reflexivity|]. unfold visible. cbn. rewrite lookup_insert_eq. split; [done|].
    split; [eexists; split; [reflexivity|]; cbn; by rewrite lookup_delete_eq|].
    intros k Hk. by rewrite lookup_insert_ne.
  - eexists. split; [reflexivity|]. intros n. split.
    + set (s2 := (_, mkEnv _ _ _ _)). destruct (get_visible key s2) as (s3 & E & _). exists s3. rewrite E.
      do 2 f_equal. unfold visible. cbn. by rewrite lookup_insert_eq.
    + intros k Hk. cbn. by rewrite lookup_insert_ne.
Qed.

(** ** Tags *)
Lemma delete_keys_lookup (keys : list string) (items : gmap string Entry) k :
  fold_left (fun items key => delete key items) keys items !! k =
    if decide (k ∈ keys) then None else items !! k.
Proof.
  revert items; induction keys as [|key keys IH]; intros items; cbn; [by rewrite decide_False by set_solver|].
  rewrite IH. destruct (decide (k ∈ keys)); [by rewrite decide_True by set_solver|].
  destruct (decide (k = key)) as [->|Hne].
  - rewrite lookup_delete_eq. by rewrite decide_True by set_solver.
  - rewrite lookup_delete_ne by done. by rewrite decide_False by set_solver.
Qed.

(** The keys the index holds under some tag of the list. *)
Definition keys_under (c : ArrayCache) (tags : list string) (k : string) : Prop :=
  exists t keys, t ∈ tags /\ tagged_keys_ c !! t = Some keys /\ k ∈ keys.

Lemma flush_tags_lookup tags c k :
  (keys_under c tags k -> items_ (fold_left flush_tag tags c) !! k = None) /\
  (~ keys_under c tags k -> items_ (fold_left flush_tag tags c) !! k = items_ c !! k).
Proof.
  revert c; induction tags as [|t tags IH]; intros c; cbn.
  { split; [intros (t & keys & H & _); set_solver|done]. }
  assert (Hidx : forall t', t' ≠ t -> tagged_keys_ (flush_tag c t) !! t' = tagged_keys_ c !! t').
  { intros t' Hne. unfold flush_tag. destruct (tagged_keys_ c !! t); cbn; [by rewrite lookup_delete_ne|done]. }
  assert (Hgone : tagged_keys_ (flush_tag c t) !! t = None).
  { unfold flush_tag. destruct (tagged_keys_ c !! t) eqn:E; cbn; [by rewrite lookup_delete_eq|done]. }
  assert (Hitems : forall k, items_ (flush_tag c t) !! k =
    match tagged_keys_ c !! t with Some keys => if decide (k ∈ keys) then None else items_ c !! k | None => items_ c !! k end).
  { intros k'. unfold flush_tag. destruct (tagged_keys_ c !! t); [cbn; apply delete_keys_lookup|done]. }
  destruct (IH (flush_tag c t)) as [IH1 IH2].
  assert (Hnone : items_ (flush_tag c t) !! k = None -> items_ (fold_left flush_tag tags (flush_tag c t)) !! k = None).
  { intros H. destruct (IH (flush_tag c t)) as [_ _]. clear IH1 IH2 IH Hidx Hgone Hitems.
    revert H. generalize (flush_tag c t). induction tags as [|u tags IHt]; intros d H; [done|]. cbn. apply IHt.
    unfold flush_tag. destruct (tagged_keys_ d !! u); [|done]. cbn. rewrite delete_keys_lookup. by case_decide. }
  split.
  - intros (t' & keys & Ht & Hk & Hin). destruct (decide (t' = t)) as [->|Hne].
    + apply Hnone. rewrite Hitems, Hk. by rewrite decide_True.
    + apply IH1. exists t', keys. split; [set_solver|]. by rewrite Hidx.
  - intros Hn. rewrite IH2.
    + rewrite Hitems. destruct (tagged_keys_ c !! t) as [keys|] eqn:E; [|done]. rewrite decide_False; [done|].
      intros Hin. apply Hn. exists t, keys. split; [set_solver|done].
    + intros (t' & keys & Ht & Hk & Hin). apply Hn. destruct (decide (t' = t)) as [->|Hne]; [congruence|].
      exists t', keys. split; [set_solver|]. by rewrite <- Hidx.
Qed.

Lemma tag_key_lookup key tags index t :
  exists keys, fold_left (tag_key key) tags index !! t = keys /\
    (t ∈ tags -> exists l, keys = Some l /\ key ∈ l) /\
    (forall l, index !! t = Some l -> exists l', keys = Some l' /\ l ⊆ l').
Proof.
  eexists. split; [reflexivity|]. revert index; induction tags as [|u tags IH]; intros index; cbn.
  { split; [set_solver|]. intros l ->. by exists l. }
  destruct (IH (tag_key key index u)) as [IH1 IH2]. split.
  - intros Ht. destruct (decide (t = u)) as [->|Hne]; [|apply IH1; set_solver].
    destruct (IH2 (default [] (index !! u) ++ [key])) as (l' & E & Hl'); [apply lookup_insert_eq|].
    exists l'. split; [done|]. set_solver.
  - intros l Hl. destruct (decide (t = u)) as [->|Hne].
    + destruct (IH2 (default [] (index !! u) ++ [key])) as (l' & E & Hl'); [apply lookup_insert_eq|].
      exists l'. split; [done|]. rewrite Hl in Hl'. set_solver.
    + apply IH2. unfold tag_key. by rewrite lookup_insert_ne.
Qed.

(** Flushing any one of the tags a value was put under forgets it, and a flush forgets
    nothing that was not put under one of its tags. *)
Theorem tagged_flush_scope (tags flushed : list string) (key value : string) (s : CacheState) :
  (forall t, t ∈ tags -> t ∈ flushed ->
     exists s1 s2, tagged_put tags key value s = (Ok tt, s1) /\ tagged_flush flushed s1 = (Ok tt, s2) /\
       items_ s2.1 !! key = None) /\
  (forall k, ~ keys_under s.1 flushed k ->
     exists s2, tagged_flush flushed s = (Ok tt, s2) /\ items_ s2.1 !! k = items_ s.1 !! k).
Proof.
  split.
  - intros t Ht Hf. do 2 eexists. split; [reflexivity|]. split; [reflexivity|]. cbn.
    apply flush_tags_lookup. destruct (tag_key_lookup key tags (tagged_keys_ s.1) t) as (keys & E & H & _).
    destruct (H Ht) as (l & -> & Hl). by exists t, l.
  - intros k Hk. eexists. split; [reflexivity|]. cbn. by apply flush_tags_lookup.
Qed.
