(* ===== verification/Auth.v ===== *)
(** * hash.hpp, auth.hpp, gate.hpp: passwords, users, the guard and gates

    [Hasher] is the default salted FNV-1a; [UserProvider] and [HashContract] are the
    abstract classes.  The [Guard] keeps the logged-in user's id in its session
    under "auth_id", through any [SessionStore]. *)
From S2P Require Import Prelude CppString CppNum Session.

Local Open Scope Z_scope.

(** ** hash.hpp *)
Record HashContract : Type := mkHash {
  h_make : string -> M Env string;
  h_check : string -> string -> bool
}.

(** [for (int i = 15; i >= 0; --i) { out[i] = d[v & 0xF]; v >>= 4; }]. *)
Fixpoint to_hex_go (k : nat) (v : Z) (out : string) : string :=
  match k with
  | O => out
  | S k => to_hex_go k (Z.shiftr v 4) (String (hex_digit (Z.land v 0xF)) out)
  end.
Definition to_hex (v : Z) : string := to_hex_go 16 v "".

Fixpoint fnv (h : Z) (s : string) : Z :=
  match s with
  | "" => h
  | String c s => fnv (u64 (Z.lxor h (byte_of c) * 1099511628211)) s
  end.
Definition digest (s : string) : string := to_hex (fnv 1469598103934665603 s).

(** The generator's next 64-bit output. *)
Fixpoint bits_of (acc : Z) (s : string) : Z :=
  match s with "" => acc | String c s => bits_of (acc * 256 + byte_of c) s end.
Definition rng : M Env Z := b ← random_bytes 8; mret (u64 (bits_of 0 b)).
Definition random_salt : M Env string := v ← rng; mret (to_hex v).

Definition hasher_make (plain : string) : M Env string :=
  salt ← random_salt; mret (salt +:+ "$" +:+ digest (salt +:+ plain)).
Definition hasher_check (plain hashed : string) : bool :=
  match find_chr hashed "$" 0 with
  | None => false
  | Some pos =>
      let salt := substr hashed 0 pos in
      bool_decide (hashed = salt +:+ "$" +:+ digest (salt +:+ plain))
  end.
Definition Hasher : HashContract := mkHash hasher_make hasher_check.

(** ** auth.hpp *)
Record AuthUser : Type := mkAuthUser { user_id : Z; username : string; password : string }.

Record UserProvider : Type := mkUserProvider {
  retrieve_by_id : Z -> option AuthUser;
  retrieve_by_credentials : string -> option AuthUser;
  validate : AuthUser -> string -> bool
}.

Record ArrayUserProvider : Type := mkArrayUserProvider { users_ : list AuthUser; hasher_ : HashContract }.
(** The password is hashed on the way in. *)
Definition add_user (u : AuthUser) (p : ArrayUserProvider) : M Env ArrayUserProvider :=
  h ← h_make (hasher_ p) (password u);
  mret (mkArrayUserProvider (users_ p ++ [mkAuthUser (user_id u) (username u) h]) (hasher_ p)).
Definition array_users (p : ArrayUserProvider) : UserProvider :=
  mkUserProvider
    (fun id => List.find (fun u => user_id u =? id) (users_ p))
    (fun name => List.find (fun u => bool_decide (username u = name)) (users_ p))
    (fun u pw => h_check (hasher_ p) pw (password u)).

Section guard.
Context {W : Type} (store : SessionStore W) (provider : UserProvider).

(** A Guard is its provider and the id of its session. *)
Definition login (sid : string) (u : AuthUser) : M W unit :=
  s_put store sid "auth_id" (to_string (user_id u)).
Definition attempt (sid name pw : string) : M W bool :=
  match retrieve_by_credentials provider name with
  | Some u => if validate provider u pw then _ ← login sid u; mret true else mret false
  | None => mret false
  end.
Definition guard_logout (sid : string) : M W unit := s_forget store sid "auth_id".
Definition check (sid : string) : M W bool := s_has store sid "auth_id".
Definition guest (sid : string) : M W bool := b ← check sid; mret (negb b).
Definition auth_id (sid : string) : M W (option Z) :=
  v ← s_get store sid "auth_id";
  mret (match v with None => None | Some v => res_opt (stoll v) end).
Definition user (sid : string) : M W (option AuthUser) :=
  uid ← auth_id sid;
  mret (match uid with Some i => retrieve_by_id provider i | None => None end).
End guard.

(** ** gate.hpp *)
Section gate.
Context {W : Type}.
Definition Ability : Type := AuthUser -> string -> M W bool.
Definition BeforeHook : Type := AuthUser -> string -> M W (option bool).
Definition Policy : Type := string -> AuthUser -> string -> M W bool.

Record Gate : Type := mkGate {
  abilities_ : gmap string Ability;
  policies_ : gmap string Policy;
  before_ : option BeforeHook
}.
Definition new_gate : Gate := mkGate ∅ ∅ None.
Definition define (a : string) (f : Ability) (g : Gate) : Gate :=
  mkGate (<[a := f]> (abilities_ g)) (policies_ g) (before_ g).
Definition before (h : BeforeHook) (g : Gate) : Gate := mkGate (abilities_ g) (policies_ g) (Some h).
Definition policy (type : string) (p : Policy) (g : Gate) : Gate :=
  mkGate (abilities_ g) (<[type := p]> (policies_ g)) (before_ g).

Definition find_ability (g : Gate) (a : string) : option Ability := abilities_ g !! a.
Definition find_policy (g : Gate) (t : string) : option Policy := policies_ g !! t.

(** The hook's opinion, if there is a hook and it has one. *)
Definition decision (g : Gate) (u : AuthUser) (ability : string) : M W (option bool) :=
  match before_ g with Some h => h u ability | None => mret None end.
Definition allows (g : Gate) (ability : string) (u : AuthUser) (resource : string) : M W bool :=
  d ← decision g u ability;
  match d with
  | Some b => mret b
  | None => match find_ability g ability with
            | None => mret false
            | Some f => f u resource
            end
  end.
Definition denies (g : Gate) (ability : string) (u : AuthUser) (resource : string) : M W bool :=
  b ← allows g ability u resource; mret (negb b).
Definition authorize (g : Gate) (type ability : string) (u : AuthUser) (resource : string) : M W bool :=
  d ← decision g u (type +:+ "." +:+ ability);
  match d with
  | Some b => mret b
  | None => match find_policy g type with
            | None => mret false
            | Some p => p ability u resource
            end
  end.
End gate.

(** ** Hashing *)
Lemma to_hex_go_spec k v out :
  s_all is_lower_hex out -> s_all is_lower_hex (to_hex_go k v out) /\ len (to_hex_go k v out) = (k + len out)%nat.
Proof.
  revert v out; induction k as [|k IH]; intros v out Ho; [done|]. cbn [to_hex_go].
  destruct (IH (Z.shiftr v 4) (String (hex_digit (Z.land v 15)) out)) as [H1 H2].
  - apply s_all_cons. split; [|done]. apply is_lower_hex_digit. change 15 with (Z.ones 4).
    rewrite Z.land_ones by lia. apply Z.mod_pos_bound. lia.
  - split; [done|]. rewrite H2. cbn. lia.
Qed.

Lemma to_hex_no_dollar v : no_chr "$" (to_hex v).
Proof.
  destruct (to_hex_go_spec 16 v "" (s_all_nil _)) as [H _]. fold (to_hex v) in H.
  intros Hin. unfold s_all in H. rewrite Forall_forall in H. by apply H in Hin.
Qed.

Lemma hasher_check_split salt d pw :
  no_chr "$" salt -> hasher_check pw (salt +:+ "$" +:+ d) = bool_decide (d = digest (salt +:+ pw)).
Proof.
  intros Hs. unfold hasher_check. change ("$" +:+ d) with (String "$" d). rewrite find_chr_hit by done.
  unfold substr. rewrite s_drop_0. rewrite s_take_app by done. change ("$" +:+ digest (salt +:+ pw)) with (str1 "$" +:+ digest (salt +:+ pw)).
  apply bool_decide_ext. split; [|by intros ->]. intros H%(f_equal (s_drop (S (len salt)))).
  change (String "$" d) with (str1 "$" +:+ d) in H.
  rewrite <- !s_app_assoc in H. by rewrite !s_drop_app in H by (rewrite length_s_app; cbn; lia).
Qed.

(** A password checks against the hash [make] produced from it, for any salt, and another
    password checks against it only when their salted digests collide. *)
Theorem hasher_verifies (e : Env) (plain : string) :
  exists salt e', hasher_make plain e = (Ok (salt +:+ "$" +:+ digest (salt +:+ plain)), e') /\
    forall pw, hasher_check pw (salt +:+ "$" +:+ digest (salt +:+ plain))
               = bool_decide (digest (salt +:+ plain) = digest (salt +:+ pw)).
Proof.
  eexists _, _. split; [reflexivity|]. intros pw. apply hasher_check_split, to_hex_no_dollar.
Qed.

(** A gate denies every ability it does not know and every type without a policy, unless
    the before hook decides; a hook that decides is final, and [denies] is the negation
    of [allows]. *)
Theorem gate_decides {W} (g : Gate (W := W)) (ability type : string) (u : AuthUser) (r : string) (w : W) :
  match decision g u ability w with
  | (Ok (Some b), w') => allows g ability u r w = (Ok b, w') /\ denies g ability u r w = (Ok (negb b), w')
  | (Ok None, w') => find_ability g ability = None -> allows g ability u r w = (Ok false, w')
  | (Throw e, w') => allows g ability u r w = (Throw e, w')
  end /\
  match decision g u (type +:+ "." +:+ ability) w with
  | (Ok (Some b), w') => authorize g type ability u r w = (Ok b, w')
  | (Ok None, w') => find_policy g type = None -> authorize g type ability u r w = (Ok false, w')
  | (Throw e, w') => authorize g type ability u r w = (Throw e, w')
  end.
Proof.
  unfold denies, authorize, allows, mbind, M_bind. split.
  - destruct (decision g u ability w) as [[[b|]|e] w']; [done| |done]. by intros ->.
  - destruct (decision g u (type +:+ "." +:+ ability) w) as [[[b|]|e] w']; [done| |done]. by intros ->.
Qed.
