(* ===== verification/HttpAuth.v ===== *)
(** * http_auth.hpp: session cookies, CSRF, login and the rate limiter

    Every middleware is a [Middleware W] over an application state [W] that holds a
    session store, a cache and the environment, reached through their interfaces.
    The theorems on login and on the limiter instantiate them with the in-memory
    store and cache. *)
From S2P Require Import Prelude CppString CppNum Http Pipeline Session Cache Auth.

Local Open Scope Z_scope.

Record CookieOptions : Type := mkCookieOptions {
  o_name : string;
  o_path : string;
  o_http_only : bool;
  o_secure : bool;
  o_same_site : string
}.
Definition default_options : CookieOptions := mkCookieOptions "lwsid" "/" true false "Lax".

Definition cookie_header (value : string) (o : CookieOptions) : string :=
  let h := o_name o +:+ "=" +:+ value +:+ "; Path=" +:+ o_path o in
  let h := if o_http_only o then h +:+ "; HttpOnly" else h in
  let h := if o_secure o then h +:+ "; Secure" else h in
  if bool_decide (o_same_site o = "") then h else h +:+ "; SameSite=" +:+ o_same_site o.

(** [unsigned char diff |= a[i] ^ b[i]]. *)
Fixpoint diff_bytes (diff : Z) (a b : string) : Z :=
  match a, b with
  | String c a, String d b => diff_bytes (u8 (Z.lor diff (Z.lxor (byte_of c) (byte_of d)))) a b
  | _, _ => diff
  end.
Definition constant_time_equal (a b : string) : bool :=
  if negb (len a =? len b)%nat then false else diff_bytes 0 a b =? 0.

(** The id of the request's session: its cookie, or the empty id. *)
Definition session_of (opts : CookieOptions) (req : Request) : string :=
  match cookies req !! o_name opts with Some v => v | None => "" end.

Definition json_error (message : string) (st : Z) : Response :=
  response_json ("{" +:+ str1 quote +:+ "error" +:+ str1 quote +:+ ":" +:+ str1 quote +:+ message
                 +:+ str1 quote +:+ "}") st.

Section http_auth.
Context {W : Type} (store : SessionStore W) (fresh_id : M W string) (opts : CookieOptions).

(** Calling the rest of the chain. *)
Definition call_next (next : Next W) : M (Request * W) Response := next.

Definition session_middleware : Middleware W := fun next =>
  (_ ← edit_request (fun r =>
        set_cookies (parse_cookies (match headers r !! "Cookie" with Some v => v | None => "" end)) r);
  r ← on_request (fun r => r);
  let fresh := bool_decide (cookies r !! o_name opts = None) in
  _ ← (if fresh
       then id ← in_app fresh_id;
            edit_request (fun r => set_cookies (<[o_name opts := id]> (cookies r)) r)
       else mret tt);
  res ← call_next next;
  if fresh && bool_decide (res_headers res !! "Set-Cookie" = None)
  then r ← on_request (fun r => r);
       match cookies r !! o_name opts with
       | Some v => mret (set_res_header "Set-Cookie" (cookie_header v opts) res)
       | None => throw out_of_range
       end
  else mret res
  : M (Request * W) Response).

Definition csrf_token (sid : string) : M W string :=
  t ← s_get store sid "_csrf";
  match t with
  | Some t => mret t
  | None => token ← fresh_id; _ ← s_put store sid "_csrf" token; mret token
  end.

(** The token the request presents: form field, then header, then nothing. *)
Definition provided_token (req : Request) : string :=
  match parse_form (body req) !! "_token" with
  | Some v => v
  | None => match headers req !! "X-CSRF-Token" with Some v => v | None => "" end
  end.
Definition verify_csrf : Middleware W := fun next =>
  (req ← on_request (fun r => r);
  expected ← in_app (s_get store (session_of opts req) "_csrf");
  match expected with
  | Some e => if constant_time_equal (provided_token req) e then call_next next
              else mret (json_error "CSRF token mismatch" 419)
  | None => mret (json_error "CSRF token mismatch" 419)
  end
  : M (Request * W) Response).

Definition require_auth : Middleware W := fun next =>
  (req ← on_request (fun r => r);
  b ← in_app (s_has store (session_of opts req) "auth_id");
  if (b : bool) then call_next next else mret (json_error "unauthenticated" 401)
  : M (Request * W) Response).

(** Returns whether it logged in, the request with the live id and the response with
    the new cookie. *)
Definition attempt_login (users : UserProvider) (name pw : string) (req : Request) (res : Response)
    : M W (bool * Request * Response) :=
  let sid := session_of opts req in
  ok ← attempt store users sid name pw;
  if (ok : bool) then
    id ← regenerate_id store fresh_id sid;
    mret (true, set_cookies (<[o_name opts := id]> (cookies req)) req,
          set_res_header "Set-Cookie" (cookie_header id opts) res)
  else mret (false, req, res).

Definition logout (req : Request) : M W unit := s_flush store (session_of opts req).

(** ** throttle *)
Context (cache : CacheContract W) (steady_seconds : M W Z).

Definition client_of (req : Request) : string :=
  if bool_decide (remote_addr req ≠ "") then remote_addr req
  else match cookies req !! o_name opts with Some v => v | None => "anon" end.
Definition throttle_key (req : Request) : string := "throttle:" +:+ path req +:+ ":" +:+ client_of req.

(** The cached "count|start"; anything unreadable starts a window now. *)
Definition read_window (current : option string) (now : Z) : Z * Z :=
  match current with
  | None => (0, now)
  | Some v =>
      match find_chr v "|" 0 with
      | None => (0, now)
      | Some sep =>
          match stoi (substr v 0 sep), stoll (substr_from v (sep + 1)) with
          | Ok count, Ok start => (count, start)
          | _, _ => (0, now)
          end
      end
  end.
Definition roll_window (now window : Z) (cs : Z * Z) : Z * Z :=
  if window <=? now - cs.2 then (0, now) else cs.

Definition too_many (start now window : Z) : Response :=
  let retry := start + window - now in
  set_res_header "Retry-After" (to_string (if 0 <? retry then retry else window))
    (json_error "too many requests" 429).

Definition throttle (max window : Z) : Middleware W := fun next =>
  (req ← on_request (fun r => r);
  let key := throttle_key req in
  now ← in_app steady_seconds;
  current ← in_app (c_get cache key);
  let '(count, start) := roll_window now window (read_window current now) in
  let count := s32 (count + 1) in
  _ ← in_app (c_put_ttl cache key (to_string count +:+ "|" +:+ to_string start) (window * 1000 * 2));
  if max <? count then mret (too_many start now window) else call_next next
  : M (Request * W) Response).
End http_auth.

(** ** Comparison *)
Lemma diff_bytes_zero r a b :
  0 <= r < 256 -> len a = len b -> (diff_bytes r a b = 0 <-> r = 0 /\ a = b).
Proof.
  revert r b; induction a as [|c a IH]; intros r [|d b] Hr Hl; cbn in Hl; try lia; cbn; [tauto|].
  pose proof (byte_of_bound c). pose proof (byte_of_bound d).
  assert (Hx : 0 <= Z.lor r (Z.lxor (byte_of c) (byte_of d)) < 2 ^ 8).
  { split; [apply Z.lor_nonneg; split; [lia|]; apply Z.lxor_nonneg; lia|].
    assert (Hx : 0 <= Z.lxor (byte_of c) (byte_of d)) by (apply Z.lxor_nonneg; lia).
    destruct (decide (Z.lor r (Z.lxor (byte_of c) (byte_of d)) = 0)) as [->|Hne]; [lia|].
    apply Z.log2_lt_pow2.
    { apply Z.le_neq. split; [apply Z.lor_nonneg; lia|done]. }
    rewrite Z.log2_lor by lia. apply Z.max_lub_lt.
    - destruct (decide (r = 0)) as [->|]; [done|]. apply Z.log2_lt_pow2; lia.
    - eapply Z.le_lt_trans; [apply Z.log2_lxor; lia|]. apply Z.max_lub_lt.
      + destruct (decide (byte_of c = 0)) as [->|]; [done|]. apply Z.log2_lt_pow2; lia.
      + destruct (decide (byte_of d = 0)) as [->|]; [done|]. apply Z.log2_lt_pow2; lia. }
  unfold u8. rewrite Z.mod_small by lia. rewrite IH by (try done; lia).
  rewrite Z.lor_eq_0_iff, Z.lxor_eq_0_iff.
  split; [intros [[-> ?%(inj byte_of)] ->]|]; naive_solver.
Qed.

Lemma constant_time_equal_decide a b : constant_time_equal a b = bool_decide (a = b).
Proof.
  unfold constant_time_equal. destruct (len a =? len b)%nat eqn:E; bools; cbn [negb].
  - pose proof (diff_bytes_zero 0 a b ltac:(lia) E) as H.
    destruct (diff_bytes 0 a b =? 0) eqn:E2; bools; symmetry.
    + apply bool_decide_eq_true. by apply H.
    + apply bool_decide_eq_false. intros ->. apply E2. by apply H.
  - symmetry. apply bool_decide_eq_false. by intros ->.
Qed.

Lemma verify_csrf_spec {W} (store : SessionStore W) (opts : CookieOptions) (next : Next W) (req : Request) (w : W) :
  verify_csrf store opts next (req, w) =
    match s_get store (session_of opts req) "_csrf" w with
    | (Ok expected, w') =>
        if bool_decide (expected = Some (provided_token req)) then next (req, w')
        else (Ok (json_error "CSRF token mismatch" 419), (req, w'))
    | (Throw e, w') => (Throw e, (req, w'))
    end.
Proof.
  unfold verify_csrf, on_request, gets, in_app, mbind, M_bind, call_next. cbn [fst snd].
  destruct (s_get _ _ _ w) as [[[e|]|x] w']; [|done|done].
  rewrite constant_time_equal_decide.
  destruct (bool_decide (provided_token req = e)) eqn:E; bools.
  - by rewrite bool_decide_eq_true_2 by congruence.
  - by rewrite bool_decide_eq_false_2 by congruence.
Qed.
Lemma require_auth_spec {W} (store : SessionStore W) (opts : CookieOptions) (next : Next W) (req : Request) (w : W) :
  require_auth store opts next (req, w) =
    match s_has store (session_of opts req) "auth_id" w with
    | (Ok true, w') => next (req, w')
    | (Ok false, w') => (Ok (json_error "unauthenticated" 401), (req, w'))
    | (Throw e, w') => (Throw e, (req, w'))
    end.
Proof.
  unfold require_auth, on_request, gets, in_app, mbind, M_bind, call_next. cbn [fst snd].
  by destruct (s_has _ _ _ w) as [[[]|x] w'].
Qed.

(** The guards let a request through to the rest of the chain only when they should, and
    otherwise answer without running it: [verify_csrf] exactly when the session holds a
    token and the request presents the same one, [require_auth] exactly when the
    session has a logged-in user. *)
Theorem guards_block {W} (store : SessionStore W) (opts : CookieOptions) (next : Next W)
    (req : Request) (w : W) :
  verify_csrf store opts next (req, w) =
    match s_get store (session_of opts req) "_csrf" w with
    | (Ok expected, w') =>
        if bool_decide (expected = Some (provided_token req)) then next (req, w')
        else (Ok (json_error "CSRF token mismatch" 419), (req, w'))
    | (Throw e, w') => (Throw e, (req, w'))
    end /\
  require_auth store opts next (req, w) =
    match s_has store (session_of opts req) "auth_id" w with
    | (Ok true, w') => next (req, w')
    | (Ok false, w') => (Ok (json_error "unauthenticated" 401), (req, w'))
    | (Throw e, w') => (Throw e, (req, w'))
    end.
Proof. split; [apply verify_csrf_spec|apply require_auth_spec]. Qed.

(** [session_middleware] runs the rest of the chain with the Cookie header parsed and a
    session cookie always present: the client's own, or a fresh 128-bit hex id, which
    is then issued with Set-Cookie unless the handler set one itself. *)
Theorem session_middleware_spec {W} (fresh_id : M W string) (opts : CookieOptions) (next : Next W)
    (req : Request) (w : W) :
  let sent := parse_cookies (match headers req !! "Cookie" with Some v => v | None => "" end) in
  match sent !! o_name opts with
  | Some sid => session_middleware fresh_id opts next (req, w) = next (set_cookies sent req, w)
  | None =>
      match fresh_id w with
      | (Throw e, w') => (session_middleware fresh_id opts next (req, w)).1 = Throw e
      | (Ok sid, w') =>
          let req' := set_cookies (<[o_name opts := sid]> sent) req in
          match next (req', w') with
          | (Throw e, s) => session_middleware fresh_id opts next (req, w) = (Throw e, s)
          | (Ok res, (req2, w2)) =>
              cookies req2 = cookies req' ->
              session_middleware fresh_id opts next (req, w) =
                (Ok (if bool_decide (res_headers res !! "Set-Cookie" = None)
                     then set_res_header "Set-Cookie" (cookie_header sid opts) res else res), (req2, w2))
          end
      end
  end.
Proof.
  cbn zeta. unfold session_middleware, on_request, edit_request, modify, gets, in_app, mbind, M_bind, call_next.
  cbn [fst snd]. set (sent := parse_cookies _). cbn [cookies set_cookies].
  destruct (sent !! o_name opts) as [sid|] eqn:E.
  - rewrite bool_decide_eq_false_2 by done. cbn. by destruct (next _) as [[res|e] s].
  - rewrite bool_decide_eq_true_2 by done. cbn [fst snd].
    destruct (fresh_id w) as [[sid|e] w']; [|done]. cbn [fst snd cookies set_cookies].
    destruct (next _) as [[res|e] [req2 w2]]; [|done]. intros Hc. cbn [andb fst snd].
    destruct (bool_decide (res_headers res !! _ = None)); [|done]. cbn [fst snd]. rewrite Hc. by rewrite lookup_insert_eq.
Qed.

Lemma session_middleware_spec_witness :
  session_middleware (W := Env) new_session_id default_options
    (fun s => (Ok default_response, s)) (mkRequest "GET" "/" ∅ ∅ "" ∅ ∅ "", mkEnv (fun _ => 0) 0 (fun _ _ => "ab") 0)
  = (Ok (set_res_header "Set-Cookie" (cookie_header "6162" default_options) default_response),
     (set_cookies {["lwsid" := "6162"]} (mkRequest "GET" "/" ∅ ∅ "" ∅ ∅ ""), mkEnv (fun _ => 0) 0 (fun _ _ => "ab") 1)).
Proof.
  exact (session_middleware_spec new_session_id default_options (fun s => (Ok default_response, s))
    (mkRequest "GET" "/" ∅ ∅ "" ∅ ∅ "") (mkEnv (fun _ => 0) 0 (fun _ _ => "ab") 0) eq_refl).
Defined.

(** ** Login *)
Definition array_fresh : M Store string := in_env new_session_id.

(** A successful login moves the session to a fresh id: the old id, which an attacker may
    have planted, no longer names any data, the new one holds the session's data and
    the user's id, the cookie of the response and the rest of the request use it, and
    every other session is as before.  A failed login changes nothing. *)
Theorem login_regenerates (opts : CookieOptions) (users : UserProvider) (name pw : string)
    (req : Request) (res : Response) (s : Store) :
  ttl_ s.1 = 0 ->
  let old := session_of opts req in
  let fresh := hex_string (entropy s.2 (draws s.2) 16) in
  fresh ≠ old ->
  match retrieve_by_credentials users name with
  | Some u =>
      if validate users u pw then
        exists req' res' s',
          attempt_login ArraySessionStore array_fresh opts users name pw req res s = (Ok (true, req', res'), s') /\
          session_of opts req' = fresh /\
          res_headers res' !! "Set-Cookie" = Some (cookie_header fresh opts) /\
          data_ s'.1 !! old = None /\
          session_data s'.1 fresh = <["auth_id" := to_string (user_id u)]> (session_data s.1 old) /\
          (forall sid, sid ≠ old -> sid ≠ fresh -> data_ s'.1 !! sid = data_ s.1 !! sid)
      else attempt_login ArraySessionStore array_fresh opts users name pw req res s = (Ok (false, req, res), s)
  | None => attempt_login ArraySessionStore array_fresh opts users name pw req res s = (Ok (false, req, res), s)
  end.
Proof.
  intros Ht old fresh Hne. unfold attempt_login, attempt, login, mbind, M_bind. fold old.
  destruct (retrieve_by_credentials users name) as [u|]; [|done].
  destruct (validate users u pw); [|done]. cbn [s_put ArraySessionStore]. rewrite plain_put by done.
  cbn [fst snd]. unfold mret at 1, M_ret at 1. unfold regenerate_id, mbind, M_bind.
  cbn [array_fresh in_env on_part snd fst]. unfold array_fresh, in_env, on_part. cbn [fst snd].
  destruct (new_session_id_spec s.2) as (id & e' & E & Hid & _). rewrite E. fold fresh in Hid. subst id.
  cbn [s_rename ArraySessionStore]. rewrite plain_rename by done. cbn [fst snd data_].
  rewrite lookup_insert_eq. cbn [fst snd]. do 3 eexists. split; [reflexivity|].
  cbn [fst snd data_ cookies set_cookies session_of res_headers set_res_header].
  unfold session_of. cbn [cookies set_cookies]. rewrite !lookup_insert_eq, lookup_delete_eq.
  split; [done|]. split; [done|]. split; [done|]. split.
  - unfold session_data at 1. cbn [data_]. rewrite lookup_delete_ne by done. by rewrite lookup_insert_eq.
  - intros sid H1 H2. rewrite lookup_delete_ne by done. rewrite lookup_insert_ne by done. by rewrite lookup_insert_ne.
Qed.

Definition demo_users : UserProvider :=
  mkUserProvider (fun _ => None) (fun n => if bool_decide (n = "ann") then Some (mkAuthUser 7 "ann" "h") else None)
    (fun _ pw => bool_decide (pw = "secret")).

Lemma login_regenerates_witness :
  let s : Store := (mkSessions 0 {["planted" := {["_csrf" := "t"]}]} ∅, mkEnv (fun _ => 0) 0 (fun _ _ => "0123456789abcdef") 0) in
  let req := mkRequest "POST" "/login" ∅ ∅ "" {["lwsid" := "planted"]} ∅ "" in
  exists req' res' s',
    attempt_login ArraySessionStore array_fresh default_options demo_users "ann" "secret" req default_response s
      = (Ok (true, req', res'), s') /\
    session_of default_options req' = hex_string "0123456789abcdef" /\
    res_headers res' !! "Set-Cookie" = Some (cookie_header (hex_string "0123456789abcdef") default_options) /\
    data_ s'.1 !! "planted" = None /\
    session_data s'.1 (hex_string "0123456789abcdef") = <["auth_id" := "7"]> (session_data s.1 "planted") /\
    (forall sid, sid ≠ "planted" -> sid ≠ hex_string "0123456789abcdef" -> data_ s'.1 !! sid = data_ s.1 !! sid).
Proof.
  intros s req.
  apply (login_regenerates default_options demo_users "ann" "secret" req default_response s); [done|by vm_compute].
Defined.

(** ** The rate limiter over the in-memory cache *)
(** [duration_cast<seconds>] of a reading in milliseconds. *)
Definition array_seconds : M CacheState Z := t ← cache_env now; mret (t ÷ 1000).
Definition limiter (opts : CookieOptions) (max window : Z) : Middleware CacheState :=
  throttle opts array_cache array_seconds max window.
Definition pass : Next CacheState := fun s => (Ok default_response, s).

(** The statuses of [n] identical requests in a row. *)
Fixpoint hits (opts : CookieOptions) (max window : Z) (n : nat) (req : Request) (s : CacheState) : list Z :=
  match n with
  | O => []
  | S n => match limiter opts max window pass (req, s) with
           | (Ok res, (_, s)) => status res :: hits opts max window n req s
           | (Throw _, _) => []
           end
  end.

Definition window_entry (count start d : Z) : Entry :=
  mkEntry (to_string count +:+ "|" +:+ to_string start) (Some d).

Lemma read_window_entry count start now :
  in_s32 count = true -> in_s64 start = true ->
  read_window (Some (to_string count +:+ "|" +:+ to_string start)) now = (count, start).
Proof.
  intros Hc Hs. unfold read_window. change ("|" +:+ to_string start) with (String "|" (to_string start)).
  rewrite find_chr_hit by (by apply to_string_no_chr).
  unfold substr, substr_from. rewrite s_drop_0, s_take_app by done.
  change (String "|" (to_string start)) with ("|" +:+ to_string start). rewrite <- s_app_assoc.
  rewrite s_drop_app by (rewrite length_s_app; done).
  pose proof (stoi_to_string count "" Hc eq_refl) as Hi. rewrite s_app_nil_r in Hi. rewrite Hi.
  pose proof (stoll_to_string start "" Hs eq_refl) as Hl. rewrite s_app_nil_r in Hl. by rewrite Hl.
Qed.

Definition bump (k : string) (e : Entry) (used : nat) (s : CacheState) : CacheState :=
  (mkArrayCache (<[k := e]> (items_ s.1)) (tagged_keys_ s.1),
   mkEnv (clock s.2) (used + reads s.2) (entropy s.2) (draws s.2)).

Section limiter.
Context (opts : CookieOptions) (max window : Z) (req : Request).
Implicit Types (s : CacheState).
Local Abbreviation key := (throttle_key opts req).
Local Abbreviation ms s i := (clock s.2 (i + reads s.2)%nat).

Lemma hit_first s :
  items_ s.1 !! key = None -> 0 < window ->
  let start := ms s 0 ÷ 1000 in
  let s' := bump key (window_entry 1 start (ms s 1 + window * 2000)) 2 s in
  limiter opts max window pass (req, s) =
    (Ok (if max <? 1 then too_many start start window else default_response), (req, s')).
Proof.
  intros Hn Hw. unfold limiter, throttle, on_request, gets, in_app, mbind, M_bind, call_next. cbn [fst snd].
  unfold array_seconds, mbind, M_bind, cache_env, on_part, now. cbn [fst snd mret M_ret c_get array_cache].
  unfold get, gets, mbind, M_bind. cbn [fst snd]. rewrite Hn. unfold mret, M_ret.
  unfold read_window, roll_window. cbn [snd]. rewrite Z.sub_diag.
  replace (window <=? 0) with false by (symmetry; apply Z.leb_gt; lia).
  change (s32 (0 + 1)) with 1. cbn [c_put_ttl array_cache]. unfold put_ttl, edit_items, modify, mbind, M_bind.
  unfold cache_env, on_part, now. cbn [fst snd items_ tagged_keys_ reads clock entropy draws].
  unfold pass, bump, window_entry. cbn [Nat.add]. replace (window * 1000 * 2) with (window * 2000) by lia.
  by destruct (max <? 1).
Qed.

Lemma hit_again s count start d :
  items_ s.1 !! key = Some (window_entry count start d) -> 0 <= count < 2 ^ 31 - 1 ->
  in_s64 start = true -> ms s 1 < d -> ms s 0 ÷ 1000 - start < window ->
  let s' := bump key (window_entry (count + 1) start (ms s 2 + window * 2000)) 3 s in
  limiter opts max window pass (req, s) =
    (Ok (if max <? count + 1 then too_many start (ms s 0 ÷ 1000) window else default_response), (req, s')).
Proof.
  intros He Hc Hs Hd Hw. unfold limiter, throttle, on_request, gets, in_app, mbind, M_bind, call_next. cbn [fst snd].
  unfold array_seconds, mbind, M_bind, cache_env, on_part, now. cbn [fst snd mret M_ret c_get array_cache].
  unfold get, gets, expired, mbind, M_bind. cbn [fst snd]. rewrite He. unfold mret, M_ret.
  cbn [window_entry e_expires e_value]. unfold cache_env, on_part, now. cbn [fst snd reads clock].
  cbn [Nat.add] in Hd, Hw. replace (d <=? _) with false by (symmetry; apply Z.leb_gt; done). cbn [fst snd].
  rewrite read_window_entry by (done || (apply in_s32_iff; lia)). unfold roll_window. cbn [snd].
  replace (window <=? _) with false by (symmetry; apply Z.leb_gt; done).
  rewrite s32_small by lia. cbn [c_put_ttl array_cache]. unfold put_ttl, edit_items, modify, mbind, M_bind.
  unfold cache_env, on_part, now. cbn [fst snd items_ tagged_keys_ reads clock entropy draws].
  unfold pass, bump, window_entry. cbn [Nat.add]. replace (window * 1000 * 2) with (window * 2000) by lia.
  by destruct (max <? count + 1).
Qed.

(** The clock over the readings that matter: no earlier than the window's start, and
    within the window. *)
Definition within (start : Z) s : Prop :=
  forall i, start * 1000 <= ms s i < (start + window) * 1000.

Lemma within_bump start s e n : within start s -> within start (bump key e n s).
Proof. intros H i. unfold bump. cbn [snd clock reads]. rewrite Nat.add_assoc. apply H. Qed.

Lemma status_too_many a b c : status (too_many a b c) = 429.
Proof. done. Qed.

Lemma hits_window n s count start d :
  items_ s.1 !! key = Some (window_entry (Z.of_nat count) start d) ->
  Z.of_nat (count + n) < 2 ^ 31 - 1 -> in_s64 start = true -> 0 <= start -> 0 < window -> 0 <= max ->
  within start s -> (start + window) * 1000 <= d ->
  hits opts max window n req s =
    replicate (Nat.min n (Z.to_nat max - count)) 200 ++ replicate (n - (Z.to_nat max - count)) 429.
Proof.
  revert s count d; induction n as [|n IH]; intros s count d He Hc Hs H0 Hw Hm Hin Hd; [done|].
  cbn [hits]. pose proof (Hin 0%nat) as Hi0. pose proof (Hin 1%nat) as Hi1. pose proof (Hin 2%nat) as Hi2.
  rewrite (hit_again s (Z.of_nat count) start d He) by
    (done || lia || (rewrite Z.quot_div_nonneg by lia;
       enough (ms s 0 / 1000 < start + window) by lia; apply Z.div_lt_upper_bound; lia)).
  rewrite (IH _ (S count) (ms s 2 + window * 2000)); try done; try lia.
  - destruct (max <? Z.of_nat count + 1) eqn:E; bools.
    + rewrite status_too_many. replace (Z.to_nat max - count)%nat with 0%nat by lia.
      replace (Z.to_nat max - S count)%nat with 0%nat by lia. by rewrite !Nat.min_0_r, !Nat.sub_0_r.
    + change (status default_response) with 200.
      replace (Nat.min (S n) (Z.to_nat max - count)) with (S (Nat.min n (Z.to_nat max - S count))) by lia.
      replace (S n - (Z.to_nat max - count))%nat with (n - (Z.to_nat max - S count))%nat by lia. done.
  - cbn [bump fst items_]. rewrite lookup_insert_eq. do 2 f_equal. lia.
  - by apply within_bump.
Qed.
End limiter.

(** The limiter lets at most [max] requests of a client through per window and answers
    the rest with 429, however the requests are spread over the window and however many
    there are: hammering does not extend the window. *)
Theorem throttle_window (opts : CookieOptions) (max window : Z) (n : nat) (req : Request) (s : CacheState) :
  items_ s.1 !! throttle_key opts req = None -> 0 < window -> 0 <= max -> Z.of_nat n < 2 ^ 31 - 1 ->
  let start := clock s.2 (reads s.2) ÷ 1000 in
  in_s64 start = true -> 0 <= start ->
  (forall i, (reads s.2 <= i)%nat -> start * 1000 <= clock s.2 i < (start + window) * 1000) ->
  hits opts max window n req s =
    replicate (Nat.min n (Z.to_nat max)) 200 ++ replicate (n - Z.to_nat max) 429.
Proof.
  intros Hnone Hw Hm Hn start Hs H0 Hin. destruct n as [|n]; [done|]. cbn [hits].
  assert (Hwi : within window start s) by (intros i; apply Hin; lia).
  pose proof (Hwi 1%nat) as Hi1.
  rewrite hit_first by done. cbn [Nat.add]. fold start.
  rewrite (hits_window opts max window req n _ 1 start (clock s.2 (S (reads s.2)) + window * 2000)); try done; try lia.
  - destruct (max <? 1) eqn:E; bools.
    + rewrite status_too_many. replace (Z.to_nat max) with 0%nat by lia.
      by rewrite !Nat.min_0_r, !Nat.sub_0_r.
    + change (status default_response) with 200.
      replace (Nat.min (S n) (Z.to_nat max)) with (S (Nat.min n (Z.to_nat max - 1))) by lia.
      replace (S n - Z.to_nat max)%nat with (n - (Z.to_nat max - 1))%nat by lia. done.
  - cbn [bump fst items_]. by rewrite lookup_insert_eq.
  - by apply within_bump.
  - cbn [Nat.add] in Hi1. lia.
Qed.

Lemma throttle_window_witness :
  let s : CacheState := (empty_cache, mkEnv (fun n => 7000 + Z.of_nat (n mod 100)) 0 (fun _ _ => "") 0) in
  hits default_options 2 60 5 (mkRequest "GET" "/" ∅ ∅ "" ∅ ∅ "10.0.0.1") s = [200; 200; 429; 429; 429].
Proof.
  intros s. apply (throttle_window default_options 2 60 5 _ s); try (vm_compute; congruence).
  intros i _. pose proof (Nat.mod_upper_bound i 100 ltac:(lia)) as H.
  subst s. cbn [snd clock reads]. change ((7000 + Z.of_nat (0 mod 100)) ÷ 1000) with 7. lia.
Defined.
