(* ===== verification/Container.v ===== *)
(** * container.hpp / container_contract.hpp: the service container

    A factory is a C++ closure over the container; here it is a program ([Prog]) of the
    calls the container's API offers to one: resolve a type, enter a building context,
    construct an object.  Types are keys; a [std::any] holding a shared_ptr is the key
    it was stored under and the identity of the object.  Resolution recurses through
    the factories, so [make_erased] takes fuel and returns [None] when it runs out,
    which models a recursion that has not ended.  The recursive mutex makes each
    operation one atomic step. *)
From S2P Require Import Prelude CppString CppNum.

Definition Key : Type := string.
Record Any : Type := mkAny { any_type : Key; any_ref : nat }.
#[export] Instance Any_eq_dec : EqDecision Any.
Proof. solve_decision. Defined.

Inductive Prog : Type :=
  | Return (v : Any)
  | Fail (e : exn)
  | Resolve (T : Key) (k : Any -> Prog)                   (* c.resolve<T>() *)
  | Within (T : Key) (body : Prog) (k : Any -> Prog)      (* { auto g = c.enter_context(T); body } *)
  | Construct (T : Key) (deps : list nat) (k : Any -> Prog). (* std::make_shared<T>(deps...) *)

(** The closures the container keeps. *)
Inductive Factory : Type :=
  | Transient (p : Prog)
  | Singleton (key : Key) (p : Prog)
  | Scoped (key : Key) (p : Prog)
  | Constant (obj : Any).

Record Container : Type := mkContainer {
  factories_ : gmap Key Factory;
  instances_ : gmap Key Any;
  scoped_ : gmap Key Any;
  contextual_ : gmap Key (gmap Key Factory);
  tags_ : gmap string (list Factory);
  building_ : list Key;
  heap : list (Key * list nat)  (* the objects constructed so far, by identity *)
}.
Definition new_container : Container := mkContainer ∅ ∅ ∅ ∅ ∅ [] [].

Definition set_factories (f : gmap Key Factory) (c : Container) : Container :=
  mkContainer f (instances_ c) (scoped_ c) (contextual_ c) (tags_ c) (building_ c) (heap c).
Definition set_instance (key : Key) (v : Any) (c : Container) : Container :=
  mkContainer (factories_ c) (<[key := v]> (instances_ c)) (scoped_ c) (contextual_ c) (tags_ c)
    (building_ c) (heap c).
Definition set_scoped (key : Key) (v : Any) (c : Container) : Container :=
  mkContainer (factories_ c) (instances_ c) (<[key := v]> (scoped_ c)) (contextual_ c) (tags_ c)
    (building_ c) (heap c).
Definition set_building (b : list Key) (c : Container) : Container :=
  mkContainer (factories_ c) (instances_ c) (scoped_ c) (contextual_ c) (tags_ c) b (heap c).

Definition push_building (t : Key) (c : Container) : Container := set_building (building_ c ++ [t]) c.
(** [pop_back]; the guard makes it a no-op on an empty stack. *)
Definition pop_building (c : Container) : Container := set_building (removelast (building_ c)) c.
Definition alloc (T : Key) (deps : list nat) (c : Container) : Any * Container :=
  (mkAny T (length (heap c)),
   mkContainer (factories_ c) (instances_ c) (scoped_ c) (contextual_ c) (tags_ c) (building_ c)
     (heap c ++ [(T, deps)])).

(** ** Registration *)
Definition bind_erased (key : Key) (p : Prog) (c : Container) : Container :=
  set_factories (<[key := Transient p]> (factories_ c)) c.
Definition singleton_erased (key : Key) (p : Prog) (c : Container) : Container :=
  set_factories (<[key := Singleton key p]> (factories_ c)) c.
Definition scoped_erased (key : Key) (p : Prog) (c : Container) : Container :=
  set_factories (<[key := Scoped key p]> (factories_ c)) c.
Definition instance_erased (key : Key) (obj : Any) (c : Container) : Container :=
  set_factories (<[key := Constant obj]> (factories_ c)) (set_instance key obj c).
Definition bound_erased (key : Key) (c : Container) : bool := bool_decide (is_Some (factories_ c !! key)).
Definition forget_scoped (c : Container) : Container :=
  mkContainer (factories_ c) (instances_ c) ∅ (contextual_ c) (tags_ c) (building_ c) (heap c).
Definition contextual_of (consumer : Key) (c : Container) : gmap Key Factory :=
  match contextual_ c !! consumer with Some m => m | None => ∅ end.
Definition bind_contextual_erased (consumer dep : Key) (p : Prog) (c : Container) : Container :=
  mkContainer (factories_ c) (instances_ c) (scoped_ c)
    (<[consumer := <[dep := Transient p]> (contextual_of consumer c)]> (contextual_ c))
    (tags_ c) (building_ c) (heap c).
Definition tagged_factories (tag : string) (c : Container) : list Factory :=
  match tags_ c !! tag with Some l => l | None => [] end.
Definition tag_erased (tag : string) (p : Prog) (c : Container) : Container :=
  mkContainer (factories_ c) (instances_ c) (scoped_ c) (contextual_ c)
    (<[tag := tagged_factories tag c ++ [Transient p]]> (tags_ c)) (building_ c) (heap c).

(** ** Resolution *)
Definition Outcome (A : Type) : Type := option (res A * Container).
Definition continue {A B} (o : Outcome A) (k : A -> Container -> Outcome B) : Outcome B :=
  match o with
  | None => None
  | Some (Throw e, c) => Some (Throw e, c)
  | Some (Ok a, c) => k a c
  end.
Definition bad_any_cast : exn := StdExn "bad any_cast".
Definition any_cast (T : Key) (v : Any) : res Any :=
  if bool_decide (any_type v = T) then Ok v else Throw bad_any_cast.

Section resolution.
Variable demangle_type : Key -> string.

Definition chain_text (names : list Key) : string :=
  match names with
  | [] => ""
  | k :: ks => demangle_type k +:+ s_concat (map (fun k => " -> " +:+ demangle_type k) ks)
  end.
Definition unresolved (key : Key) (c : Container) : exn :=
  StdExn ("No binding registered for [" +:+ demangle_type key +:+ "]" +:+
    (if bool_decide (building_ c = []) then ""
     else " while building [" +:+ chain_text (building_ c) +:+ "]")).

Section run.
Variable mk : Key -> Container -> Outcome Any.

Definition resolve_with (T : Key) (c : Container) : Outcome Any :=
  continue (mk T c) (fun v c => Some (any_cast T v, c)).

Fixpoint exec (p : Prog) (c : Container) : Outcome Any :=
  match p with
  | Return v => Some (Ok v, c)
  | Fail e => Some (Throw e, c)
  | Resolve T k => continue (resolve_with T c) (fun v c => exec (k v) c)
  | Within T body k =>
      match exec body (push_building T c) with
      | None => None
      | Some (r, c) => continue (Some (r, pop_building c)) (fun v c => exec (k v) c)
      end
  | Construct T deps k => let (v, c) := alloc T deps c in exec (k v) c
  end.

Definition call (f : Factory) (c : Container) : Outcome Any :=
  match f with
  | Transient p => exec p c
  | Singleton key p =>
      match instances_ c !! key with
      | Some v => Some (Ok v, c)
      | None => continue (exec p c) (fun made c => Some (Ok made, set_instance key made c))
      end
  | Scoped key p =>
      match scoped_ c !! key with
      | Some v => Some (Ok v, c)
      | None => continue (exec p c) (fun made c => Some (Ok made, set_scoped key made c))
      end
  | Constant obj => Some (Ok obj, c)
  end.
End run.

(** The factory a request for [key] runs: the contextual one of the type being built
    if there is one, else the global one. *)
Definition factory_for (key : Key) (c : Container) : option Factory :=
  match last (building_ c) with
  | Some consumer =>
      match contextual_of consumer c !! key with
      | Some f => Some f
      | None => factories_ c !! key
      end
  | None => factories_ c !! key
  end.
Fixpoint make_erased (fuel : nat) (key : Key) (c : Container) : Outcome Any :=
  match fuel with
  | O => None
  | S fuel =>
      match factory_for key c with
      | None => Some (Throw (unresolved key c), c)
      | Some f => call (make_erased fuel) f c
      end
  end.
Definition resolve (fuel : nat) : Key -> Container -> Outcome Any := resolve_with (make_erased fuel).

Fixpoint tagged_loop (fuel : nat) (l : list Factory) (c : Container) : Outcome (list Any) :=
  match l with
  | [] => Some (Ok [], c)
  | f :: l => continue (call (make_erased fuel) f c) (fun v c =>
                continue (tagged_loop fuel l c) (fun vs c => Some (Ok (v :: vs), c)))
  end.
Definition tagged_erased (fuel : nat) (tag : string) (c : Container) : Outcome (list Any) :=
  tagged_loop fuel (tagged_factories tag c) c.
End resolution.

(** ** The template layer *)
(** [std::make_shared<T>(c.resolve<Deps>()...)]: [deps] in the order the compiler
    evaluates the arguments. *)
Fixpoint resolve_all (deps : list Key) (acc : list nat) (k : list nat -> Prog) : Prog :=
  match deps with
  | [] => k acc
  | d :: deps => Resolve d (fun v => resolve_all deps (acc ++ [any_ref v]) k)
  end.
Definition auto_prog (T : Key) (deps : list Key) : Prog :=
  Within T (resolve_all deps [] (fun refs => Construct T refs Return)) Return.
(** A factory of type [std::function<std::shared_ptr<T>(ContainerContract&)>] is a program
    that yields a [T] (ContainerTypes.yields); wrapping it in a [std::any] keeps it. *)
Definition bind (T : Key) (factory : Prog) : Container -> Container := bind_erased T factory.
Definition singleton (T : Key) (factory : Prog) : Container -> Container := singleton_erased T factory.
Definition scoped (T : Key) (factory : Prog) : Container -> Container := scoped_erased T factory.
Definition instance (T : Key) (obj : nat) : Container -> Container := instance_erased T (mkAny T obj).
Definition bound (T : Key) (c : Container) : bool := bound_erased T c.
Definition bind_auto (T : Key) (deps : list Key) : Container -> Container := bind T (auto_prog T deps).
Definition singleton_auto (T : Key) (deps : list Key) : Container -> Container :=
  singleton T (auto_prog T deps).
Definition scoped_auto (T : Key) (deps : list Key) : Container -> Container := scoped T (auto_prog T deps).
(** [std::static_pointer_cast<Base>(c.resolve<Impl>())]. *)
Definition cast_prog (base impl : Key) : Prog := Resolve impl (fun v => Return (mkAny base (any_ref v))).
Definition give (consumer dep impl : Key) : Container -> Container :=
  bind_contextual_erased consumer dep (cast_prog dep impl).
Definition tag (base : Key) (impls : list Key) (name : string) (c : Container) : Container :=
  fold_left (fun c impl => tag_erased name (cast_prog base impl) c) impls c.

(** [tagged<Base>(name)]: every value under the tag, cast to the base type. *)
Fixpoint cast_all (base : Key) (vs : list Any) : res (list Any) :=
  match vs with
  | [] => Ok []
  | v :: vs => v ← any_cast base v; vs ← cast_all base vs; Ok (v :: vs)
  end.
Definition tagged (demangle_type : Key -> string) (fuel : nat) (base : Key) (name : string) (c : Container)
    : Outcome (list Any) :=
  continue (tagged_erased demangle_type fuel name c) (fun vs c => Some (cast_all base vs, c)).

(** ** Resolution over an acyclic registration

    [below P p]: every type the program resolves satisfies [P].  A registration is ranked
    when the types a factory resolves have a smaller rank than the type it builds. *)
Fixpoint below (P : Key -> Prop) (p : Prog) : Prop :=
  match p with
  | Return _ | Fail _ => True
  | Resolve T k => P T /\ forall v, below P (k v)
  | Within _ body k => below P body /\ forall v, below P (k v)
  | Construct _ _ k => forall v, below P (k v)
  end.
Definition factory_ok (rank : Key -> nat) (key : Key) (f : Factory) : Prop :=
  match f with
  | Transient p => below (fun k => rank k < rank key) p
  | Singleton k p | Scoped k p => k = key /\ below (fun k => rank k < rank key) p
  | Constant _ => True
  end.
Definition ranked (rank : Key -> nat) (c : Container) : Prop :=
  (forall key f, factories_ c !! key = Some f -> factory_ok rank key f) /\
  (forall consumer dep f, contextual_of consumer c !! dep = Some f -> factory_ok rank dep f).

(** What a resolution of types below [n] may do to the container: add objects, and
    memoise instances of types below [n] that had none. *)
Definition grows (rank : Key -> nat) (n : nat) (m m' : gmap Key Any) : Prop :=
  m ⊆ m' /\ forall k, n <= rank k -> m' !! k = m !! k.
Record frame (rank : Key -> nat) (n : nat) (c c' : Container) : Prop := {
  frame_factories : factories_ c' = factories_ c;
  frame_contextual : contextual_ c' = contextual_ c;
  frame_tags : tags_ c' = tags_ c;
  frame_building : building_ c' = building_ c;
  frame_instances : grows rank n (instances_ c) (instances_ c');
  frame_scoped : grows rank n (scoped_ c) (scoped_ c');
  frame_heap : heap c `prefix_of` heap c'
}.

Lemma grows_refl rank n m : grows rank n m m.
Proof. by split. Qed.
Lemma grows_trans rank n m1 m2 m3 : grows rank n m1 m2 -> grows rank n m2 m3 -> grows rank n m1 m3.
Proof. intros [H1 E1] [H2 E2]. split; [by transitivity m2|]. intros k Hk. by rewrite E2, E1. Qed.
Lemma grows_le rank n n' m m' : n <= n' -> grows rank n m m' -> grows rank n' m m'.
Proof. intros Hn [H E]. split; [done|]. intros k Hk. apply E. lia. Qed.
Lemma grows_insert rank key m m' v :
  grows rank (rank key) m m' -> m !! key = None -> grows rank (S (rank key)) m (<[key := v]> m').
Proof.
  intros [H E] Hn. split.
  - transitivity m'; [done|]. apply insert_subseteq. by rewrite E.
  - intros k Hk. rewrite lookup_insert_ne by (intros ->; lia). apply E. lia.
Qed.

Lemma frame_refl rank n c : frame rank n c c.
Proof. split; try done. Qed.
Lemma frame_trans rank n c1 c2 c3 : frame rank n c1 c2 -> frame rank n c2 c3 -> frame rank n c1 c3.
Proof.
  intros [F1 C1 T1 B1 I1 S1 H1] [F2 C2 T2 B2 I2 S2 H2].
  split; [congruence..|by eapply grows_trans|by eapply grows_trans|by transitivity (heap c2)].
Qed.
Lemma frame_le rank n n' c c' : n <= n' -> frame rank n c c' -> frame rank n' c c'.
Proof. intros Hn [F C T B I S H]. split; [done..|by eapply grows_le|by eapply grows_le|done]. Qed.
#[export] Hint Resolve frame_refl : cpp.

Lemma frame_ranked rank n c c' : frame rank n c c' -> ranked rank c -> ranked rank c'.
Proof. intros [F C _ _ _ _ _]. unfold ranked, contextual_of. by rewrite F, C. Qed.
Lemma frame_push rank n T c c' :
  frame rank n (push_building T c) c' -> frame rank n c (pop_building c').
Proof.
  intros [F C Ta B I S H]. split; try done. cbn in *. by rewrite B, removelast_last.
Qed.
Lemma frame_alloc rank n T deps c : frame rank n c (alloc T deps c).2.
Proof. split; try done; try apply grows_refl. cbn. by exists [(T, deps)]. Qed.

(** [ends o rank n c]: the computation [o] from [c] has ended, within the frame. *)
Definition ends {A} (rank : Key -> nat) (n : nat) (c : Container) (o : Outcome A) : Prop :=
  exists r c', o = Some (r, c') /\ frame rank n c c'.

Lemma ends_continue {A B} rank n c (o : Outcome A) (k : A -> Container -> Outcome B) :
  ends rank n c o ->
  (forall v c', frame rank n c c' -> ends rank n c' (k v c')) -> ends rank n c (continue o k).
Proof.
  intros (r & c1 & -> & H1) Hk. destruct r as [v|e]; cbn.
  - destruct (Hk v c1 H1) as (r & c2 & -> & H2). exists r, c2. split; [done|by eapply frame_trans].
  - by exists (Throw e), c1.
Qed.

Section terminates.
Variables (demangle_type : Key -> string) (rank : Key -> nat).

Lemma exec_ends n (mk : Key -> Container -> Outcome Any) p c :
  (forall k c, rank k < n -> ranked rank c -> ends rank n c (mk k c)) ->
  below (fun k => rank k < n) p -> ranked rank c -> ends rank n c (exec mk p c).
Proof.
  intros Hmk. revert c. induction p as [v|e|T k IH|T body IHb k IH|T deps k IH]; intros c Hp Hc; cbn [exec].
  - exists (Ok v), c. eauto with cpp.
  - exists (Throw e), c. eauto with cpp.
  - destruct Hp as [HT Hk]. apply ends_continue.
    + unfold resolve_with. apply ends_continue; [by apply Hmk|]. intros v c' _. eexists _, _. eauto with cpp.
    + intros v c' Hf. apply IH; [done|by eapply frame_ranked].
  - destruct Hp as [Hb Hk]. destruct (IHb (push_building T c) Hb Hc) as (r & c1 & -> & H1%frame_push).
    apply ends_continue; [by exists r, (pop_building c1)|]. intros v c' Hf.
    apply IH; [done|by eapply frame_ranked].
  - pose proof (frame_alloc rank n T deps c) as Hf. destruct (alloc T deps c) as [v c1] eqn:E. cbn in Hf, Hp.
    destruct (IH v c1 (Hp v)) as (r & c2 & E2 & H2); [by eapply frame_ranked|].
    exists r, c2. split; [done|by eapply frame_trans].
Qed.

Lemma memo_ends key c (o : Outcome Any) (store : Any -> Container -> Container) :
  ends rank (rank key) c o ->
  (forall v c', frame rank (rank key) c c' -> frame rank (S (rank key)) c (store v c')) ->
  ends rank (S (rank key)) c (continue o (fun made c => Some (Ok made, store made c))).
Proof.
  intros (r & c1 & -> & H1) Hs. destruct r as [v|e]; cbn.
  - exists (Ok v), (store v c1). auto.
  - exists (Throw e), c1. split; [done|]. eapply frame_le; [|done]. lia.
Qed.

Lemma call_ends key (mk : Key -> Container -> Outcome Any) f c :
  (forall k c, rank k < rank key -> ranked rank c -> ends rank (rank key) c (mk k c)) ->
  factory_ok rank key f -> ranked rank c -> ends rank (S (rank key)) c (call mk f c).
Proof.
  intros Hmk Hf Hc. destruct f as [p|k p|k p|obj]; cbn [call factory_ok] in *.
  - destruct (exec_ends _ mk p c Hmk Hf Hc) as (r & c' & -> & H). exists r, c'.
    split; [done|]. eapply frame_le; [|done]. lia.
  - destruct Hf as [-> Hp]. destruct (instances_ c !! key) as [v|] eqn:E; [exists (Ok v), c; eauto with cpp|].
    apply memo_ends; [by apply exec_ends|]. intros v c' [F C T B I S H].
    split; try done; [by apply grows_insert|]. eapply grows_le; [|done]. lia.
  - destruct Hf as [-> Hp]. destruct (scoped_ c !! key) as [v|] eqn:E; [exists (Ok v), c; eauto with cpp|].
    apply memo_ends; [by apply exec_ends|]. intros v c' [F C T B I S H].
    split; try done; [|by apply grows_insert]. eapply grows_le; [|done]. lia.
  - exists (Ok obj), c. eauto with cpp.
Qed.

Lemma factory_for_ok key c f : ranked rank c -> factory_for key c = Some f -> factory_ok rank key f.
Proof.
  intros [Hf Hc]. unfold factory_for. destruct (last (building_ c)) as [consumer|]; [|apply Hf].
  destruct (contextual_of consumer c !! key) as [g|] eqn:E; [|apply Hf]. intros [= <-]. by apply (Hc consumer).
Qed.

Lemma make_ends fuel key c :
  rank key < fuel -> ranked rank c -> ends rank (S (rank key)) c (make_erased demangle_type fuel key c).
Proof.
  revert key c. induction fuel as [|fuel IH]; intros key c Hr Hc; [lia|]. cbn [make_erased].
  destruct (factory_for key c) as [f|] eqn:E; [|eexists _, c; eauto with cpp].
  apply call_ends; [|by eapply factory_for_ok|done]. intros k c' Hk Hc'.
  destruct (IH k c' ltac:(lia) Hc') as (r & c1 & -> & H). exists r, c1. split; [done|].
  eapply frame_le; [|done]. lia.
Qed.
End terminates.

(** ** More fuel gives the same result *)
Lemma continue_Some {A B} (o : Outcome A) (k : A -> Container -> Outcome B) x :
  continue o k = Some x ->
  exists r c, o = Some (r, c) /\ match r with Ok v => k v c = Some x | Throw e => x = (Throw e, c) end.
Proof. destruct o as [[[v|e] c]|]; cbn; intros H; simplify_eq; [by exists (Ok v), c|by exists (Throw e), c]. Qed.
Lemma continue_mono {A B} (o o' : Outcome A) (k k' : A -> Container -> Outcome B) x :
  (forall y, o = Some y -> o' = Some y) -> (forall v c y, k v c = Some y -> k' v c = Some y) ->
  continue o k = Some x -> continue o' k' = Some x.
Proof.
  intros Ho Hk (r & c & E & H)%continue_Some. rewrite (Ho _ E). destruct r; cbn; [by apply Hk|by subst].
Qed.

Section fuel.
Variable demangle_type : Key -> string.

Lemma exec_mono (mk mk' : Key -> Container -> Outcome Any) p c x :
  (forall k c y, mk k c = Some y -> mk' k c = Some y) -> exec mk p c = Some x -> exec mk' p c = Some x.
Proof.
  intros Hmk. revert c x. induction p as [v|e|T k IH|T body IHb k IH|T deps k IH]; intros c x; cbn [exec]; try done.
  - apply continue_mono; [|intros; by apply IH]. intros y. unfold resolve_with. apply continue_mono; [apply Hmk|done].
  - destruct (exec mk body _) as [[r c1]|] eqn:E; [|done]. rewrite (IHb _ _ E).
    apply continue_mono; [done|]. intros; by apply IH.
  - destruct (alloc T deps c). apply IH.
Qed.

Lemma call_mono (mk mk' : Key -> Container -> Outcome Any) f c x :
  (forall k c y, mk k c = Some y -> mk' k c = Some y) -> call mk f c = Some x -> call mk' f c = Some x.
Proof.
  intros Hmk. destruct f as [p|k p|k p|obj]; cbn [call]; try done; [by apply exec_mono|..].
  - destruct (instances_ c !! k); [done|]. apply continue_mono; [|done]. intros y. by apply exec_mono.
  - destruct (scoped_ c !! k); [done|]. apply continue_mono; [|done]. intros y. by apply exec_mono.
Qed.

Lemma make_mono fuel fuel' key c x :
  fuel <= fuel' -> make_erased demangle_type fuel key c = Some x -> make_erased demangle_type fuel' key c = Some x.
Proof.
  revert fuel' key c x. induction fuel as [|fuel IH]; intros fuel' key c x Hf; [done|].
  destruct fuel' as [|fuel']; [lia|]. cbn [make_erased]. destruct (factory_for key c); [|done].
  apply call_mono. intros k c' y. apply IH. lia.
Qed.
End fuel.

(** When the factories' dependencies are acyclic, contextual ones included, resolution
    always ends: [make_erased] returns a value or throws, the same for any sufficient fuel,
    registrations and tags untouched.  Whatever happened, an exception included, the stack
    of types under construction is as it was before the call. *)
Theorem make_terminates (demangle_type : Key -> string) (rank : Key -> nat) (key : Key) (c : Container) :
  ranked rank c ->
  exists r c', (forall fuel, rank key < fuel -> make_erased demangle_type fuel key c = Some (r, c')) /\
    building_ c' = building_ c /\ factories_ c' = factories_ c /\ contextual_ c' = contextual_ c /\
    tags_ c' = tags_ c.
Proof.
  intros Hc. destruct (make_ends demangle_type rank (S (rank key)) key c ltac:(lia) Hc) as (r & c' & E & [F C T B I S H]).
  exists r, c'. split; [|done]. intros fuel Hf. eapply make_mono; [|done]. lia.
Qed.

(** Resolutions by client code, from outside any factory. *)
Definition resolves (demangle_type : Key -> string) (c c' : Container) : Prop :=
  exists fuel key r, make_erased demangle_type fuel key c = Some (r, c').

Lemma resolves_frame demangle_type rank c c' :
  ranked rank c -> rtc (resolves demangle_type) c c' ->
  ranked rank c' /\ factories_ c' = factories_ c /\ contextual_ c' = contextual_ c /\
  building_ c' = building_ c /\ instances_ c ⊆ instances_ c' /\ scoped_ c ⊆ scoped_ c'.
Proof.
  intros Hc H. induction H as [c|c1 c2 c3 (fuel & key & r & E) _ IH]; [done|].
  destruct (make_ends demangle_type rank (fuel + S (rank key)) key c1 ltac:(lia) Hc) as (r' & c' & E' & Hf).
  rewrite (make_mono demangle_type fuel (fuel + S (rank key)) key c1 _ ltac:(lia) E) in E'. injection E' as <- <-.
  destruct (IH (frame_ranked _ _ _ _ Hf Hc)) as (Hr & F3 & C3 & B3 & I3 & S3).
  destruct Hf as [F C T B [I _] [S _] H]. split; [done|]. rewrite F3, C3, B3.
  split; [done|]. split; [done|]. split; [done|]. split; by etrans.
Qed.

Lemma memo_Ok (o : Outcome Any) (store : Any -> Container -> Container) v c1 :
  continue o (fun made c => Some (Ok made, store made c)) = Some (Ok v, c1) -> exists c0, c1 = store v c0.
Proof. intros (r & c0 & -> & H)%continue_Some. destruct r; [|done]. injection H as <- <-. by exists c0. Qed.

(** One instance per lifetime.  Once a singleton has been resolved, every later
    resolution of its type outside a factory, after any other resolutions, returns the same
    object and changes nothing; the same holds of a scoped binding, until [forget_scoped]
    drops its instance and the next resolution runs the factory again. *)
Theorem memoised_once (demangle_type : Key -> string) (rank : Key -> nat) (key : Key) (p : Prog)
    (c c1 c2 : Container) (fuel fuel' : nat) (v : Any) :
  ranked rank c -> building_ c = [] ->
  make_erased demangle_type fuel key c = Some (Ok v, c1) -> rtc (resolves demangle_type) c1 c2 ->
  (factories_ c !! key = Some (Singleton key p) ->
   make_erased demangle_type (S fuel') key c2 = Some (Ok v, c2)) /\
  (factories_ c !! key = Some (Scoped key p) ->
   make_erased demangle_type (S fuel') key c2 = Some (Ok v, c2) /\
   make_erased demangle_type (S fuel') key (forget_scoped c2) =
     continue (exec (make_erased demangle_type fuel') p (forget_scoped c2))
       (fun made c => Some (Ok made, set_scoped key made c))).
Proof.
  intros Hc Hb E H.
  destruct (resolves_frame demangle_type rank c c1 Hc) as (Hc1 & F1 & C1 & B1 & I1 & S1).
  { eapply rtc_l; [|apply rtc_refl]. by exists fuel, key, (Ok v). }
  destruct (resolves_frame demangle_type rank c1 c2 Hc1 H) as (Hc2 & F2 & C2 & B2 & I2 & S2).
  destruct fuel as [|fuel]; [done|]. cbn [make_erased] in *. unfold factory_for in *.
  cbn [forget_scoped building_ factories_] in *. rewrite Hb in E.
  rewrite B2, B1, Hb. cbn [last] in *. rewrite F2, F1.
  split; intros Hf; rewrite Hf in *; cbn [call] in *.
  - assert (Hi : instances_ c1 !! key = Some v).
    { destruct (instances_ c !! key) eqn:Ei; [injection E as -> ->; by rewrite Ei|].
      apply memo_Ok in E as [c0 ->]. apply lookup_insert_eq. }
    by rewrite (lookup_weaken _ _ _ _ Hi I2).
  - assert (Hi : scoped_ c1 !! key = Some v).
    { destruct (scoped_ c !! key) eqn:Ei; [injection E as -> ->; by rewrite Ei|].
      apply memo_Ok in E as [c0 ->]. apply lookup_insert_eq. }
    rewrite (lookup_weaken _ _ _ _ Hi S2). split; [done|]. cbn [forget_scoped scoped_]. by rewrite lookup_empty.
Qed.

(** A small registration: a singleton logger, a scoped session and a transient mailer. *)
Definition demo_rank (k : Key) : nat :=
  if bool_decide (k = "Mailer") then 2 else if bool_decide (k = "Session") then 1 else 0.
Definition demo_container : Container :=
  bind_auto "Mailer" ["Logger"; "Session"] (scoped_auto "Session" ["Logger"] (singleton_auto "Logger" [] new_container)).

Lemma demo_ranked : ranked demo_rank demo_container.
Proof.
  split.
  - intros key f H. unfold demo_container, bind_auto, scoped_auto, singleton_auto, bind_erased, scoped_erased,
      singleton_erased in H. cbn in H.
    repeat (apply lookup_insert_Some in H as [[<- <-]|[_ H]]; [cbn; repeat split; try done; vm_compute; lia|]).
    by rewrite lookup_empty in H.
  - intros consumer dep f H. unfold contextual_of in H. cbn in H. by rewrite lookup_empty in H.
Qed.

Lemma make_terminates_witness :
  exists r c', (forall fuel, 2 < fuel -> make_erased (fun k => k) fuel "Mailer" demo_container = Some (r, c')) /\
    building_ c' = [] /\ factories_ c' = factories_ demo_container /\
    contextual_ c' = contextual_ demo_container /\ tags_ c' = tags_ demo_container.
Proof. apply (make_terminates (fun k => k) demo_rank "Mailer" demo_container), demo_ranked. Defined.

Lemma memoised_once_witness :
  exists c1 v, make_erased (fun k => k) 5 "Session" demo_container = Some (Ok v, c1) /\
    make_erased (fun k => k) 1 "Session" c1 = Some (Ok v, c1).
Proof.
  eexists _, _. split; [vm_compute; reflexivity|].
  refine (proj1 (proj2 (memoised_once (fun k => k) demo_rank "Session" (auto_prog "Session" ["Logger"])
    demo_container _ _ 5 0 _ demo_ranked eq_refl _ (rtc_refl _ _)) _)); vm_compute; reflexivity.
Defined.

(** Re-registering a resolved singleton keeps the instance made by the first factory: the
    registration does not drop [instances_]. *)
Lemma rebound_singleton_is_stale :
  let c := singleton_erased "Clock" (Construct "Clock" [] Return) new_container in
  exists c1 c2 v, make_erased (fun k => k) 2 "Clock" c = Some (Ok v, c1) /\
    make_erased (fun k => k) 2 "Clock" (singleton_erased "Clock" (Fail OtherExn) c1) = Some (Ok v, c2).
Proof. eexists _, _, _. split; vm_compute; reflexivity. Qed.

(** A circular registration has no result at any depth: the container does not detect it. *)
Definition cyclic_container (b : list Key) : Container :=
  set_building b (bind_auto "B" ["A"] (bind_auto "A" ["B"] new_container)).
Lemma cycle_never_ends (fuel : nat) (b : list Key) :
  make_erased (fun k => k) fuel "A" (cyclic_container b) = None /\
  make_erased (fun k => k) fuel "B" (cyclic_container b) = None.
Proof.
  revert b. induction fuel as [|fuel IH]; intros b; [done|].
  assert (HA : factory_for "A" (cyclic_container b) = Some (Transient (auto_prog "A" ["B"])))
    by (unfold factory_for; cbn [cyclic_container set_building building_]; by destruct (last b)).
  assert (HB : factory_for "B" (cyclic_container b) = Some (Transient (auto_prog "B" ["A"])))
    by (unfold factory_for; cbn [cyclic_container set_building building_]; by destruct (last b)).
  assert (Hp : forall T, push_building T (cyclic_container b) = cyclic_container (b ++ [T])) by done.
  split; cbn [make_erased]; rewrite ?HA, ?HB.
  - cbn [call auto_prog resolve_all exec]. rewrite Hp. unfold resolve_with. by rewrite (proj2 (IH _)).
  - cbn [call auto_prog resolve_all exec]. rewrite Hp. unfold resolve_with. by rewrite (proj1 (IH _)).
Qed.

(** ** Autowiring *)
Section autowire.
Variables (demangle_type : Key -> string) (rank : Key -> nat) (deps : Key -> list Key).

(** Every registration autowires its type from [deps], which are registered and of
    smaller rank, and no contextual binding interferes. *)
Definition auto_factory (key : Key) (f : Factory) : Prop :=
  f = Transient (auto_prog key (deps key)) \/ f = Singleton key (auto_prog key (deps key)) \/
  f = Scoped key (auto_prog key (deps key)).
Definition wired (c : Container) : Prop :=
  contextual_ c = ∅ /\
  forall key f, factories_ c !! key = Some f -> auto_factory key f /\
    Forall (fun d => is_Some (factories_ c !! d) /\ rank d < rank key) (deps key).

(** Object [i] is a [T]; the graph of objects is complete when each holds, for each of
    its declared dependencies in order, an object of that type. *)
Definition is_a (h : list (Key * list nat)) (T : Key) (i : nat) : Prop := exists refs, h !! i = Some (T, refs).
Definition graph_ok (h : list (Key * list nat)) : Prop :=
  forall i T refs, h !! i = Some (T, refs) -> Forall2 (is_a h) (deps T) refs.
Definition memo_ok (h : list (Key * list nat)) (m : gmap Key Any) : Prop :=
  forall k v, m !! k = Some v -> any_type v = k /\ is_a h k (any_ref v).
Definition objects_ok (c : Container) : Prop :=
  graph_ok (heap c) /\ memo_ok (heap c) (instances_ c) /\ memo_ok (heap c) (scoped_ c).

Lemma is_a_mono h h' T i : h `prefix_of` h' -> is_a h T i -> is_a h' T i.
Proof. intros Hp [refs H]. exists refs. by eapply prefix_lookup_Some. Qed.
Lemma memo_mono h h' m : h `prefix_of` h' -> memo_ok h m -> memo_ok h' m.
Proof. intros Hp Hm k v H. destruct (Hm k v H). split; [done|]. by eapply is_a_mono. Qed.
Lemma memo_insert h m k v : memo_ok h m -> any_type v = k -> is_a h k (any_ref v) -> memo_ok h (<[k := v]> m).
Proof. intros Hm Ht Hi k' v' [[<- <-]|[_ H]]%lookup_insert_Some; [done|by apply Hm]. Qed.

(** What a resolution of [T] delivers. *)
Definition delivers (T : Key) (c : Container) (o : Outcome Any) : Prop :=
  exists v c', o = Some (Ok v, c') /\ any_type v = T /\ is_a (heap c') T (any_ref v) /\ objects_ok c' /\
    frame rank (S (rank T)) c c'.

Lemma objects_alloc T refs c :
  objects_ok c -> Forall2 (is_a (heap c)) (deps T) refs -> objects_ok (alloc T refs c).2.
Proof.
  intros (Hg & Hi & Hs) Hr. set (h' := heap c ++ [(T, refs)]).
  assert (Hp : heap c `prefix_of` h') by (by exists [(T, refs)]).
  split; [|split; by eapply memo_mono]. cbn. fold h'. intros i U us H.
  apply lookup_app_Some in H as [H|[_ H]].
  - eapply Forall2_impl; [by apply (Hg i)|]. intros d r. by apply is_a_mono.
  - apply list_lookup_singleton_Some in H as [_ [= <- <-]].
    eapply Forall2_impl; [done|]. intros d r. by apply is_a_mono.
Qed.

(** The loop over the remaining dependencies, with the earlier ones already held. *)
Lemma auto_delivers mk T c :
  (forall d c', d ∈ deps T -> factories_ c' = factories_ c -> wired c' -> objects_ok c' ->
     delivers d c' (mk d c')) ->
  wired c -> is_Some (factories_ c !! T) -> objects_ok c ->
  exists v c', exec mk (auto_prog T (deps T)) c = Some (Ok v, c') /\ any_type v = T /\
    is_a (heap c') T (any_ref v) /\ objects_ok c' /\ frame rank (rank T) c c'.
Proof.
  intros Hmk Hw [f Hf] Hok. set (F0 := factories_ c) in *.
  assert (Hrank : Forall (fun d => rank d < rank T) (deps T)).
  { eapply Forall_impl; [by apply Hw in Hf as [_ Hd]|]. by intros d [_ ?]. }
  assert (Hloop : forall ds acc done_ c, deps T = done_ ++ ds -> factories_ c = F0 -> wired c -> objects_ok c ->
    Forall2 (is_a (heap c)) done_ acc ->
    exists v c', exec mk (resolve_all ds acc (fun refs => Construct T refs Return)) c = Some (Ok v, c') /\
      any_type v = T /\ is_a (heap c') T (any_ref v) /\ objects_ok c' /\ frame rank (rank T) c c').
  { clearbody F0. clear c f Hw Hf Hok. induction ds as [|d ds IH]; intros acc done_ c Ed EF Hw Hok Hacc.
    - rewrite app_nil_r in Ed. subst done_. eexists _, _. split; [reflexivity|]. split; [done|].
      split; [exists acc; cbn; rewrite lookup_app_r by lia; by rewrite Nat.sub_diag|].
      split; [by apply objects_alloc|]. apply frame_alloc.
    - cbn [resolve_all exec].
      assert (Hd : d ∈ deps T) by (rewrite Ed; apply elem_of_app; right; by left).
      destruct (Hmk d c Hd EF Hw Hok) as (v & c1 & E & Hv & Ha & Hok1 & Hfr). unfold resolve_with. rewrite E. cbn.
      unfold any_cast. rewrite bool_decide_eq_true_2 by done. cbn.
      assert (Hw1 : wired c1).
      { destruct Hfr as [F C _ _ _ _ _]. destruct Hw as [Hw1 Hw2]. unfold wired. by rewrite C, F. }
      destruct (IH (acc ++ [any_ref v]) (done_ ++ [d]) c1) as (w & c2 & E2 & Hw2 & Ha2 & Hok2 & Hf2);
        [by rewrite <- app_assoc|by rewrite (frame_factories _ _ _ _ Hfr)|done|done|..].
      { apply Forall2_app; [|by constructor]. eapply Forall2_impl; [done|]. intros x r.
        apply is_a_mono, Hfr. }
      exists w, c2. do 4 (split; [done|]). eapply frame_trans; [|done]. eapply frame_le; [|done].
      eapply Forall_forall in Hrank; [|done]. cbn in Hrank. lia. }
  unfold auto_prog. cbn [exec].
  destruct (Hloop (deps T) [] [] (push_building T c)) as (v & c1 & E & Hv & Ha & Hok1 & Hfr);
    [done|done|done|done|constructor|].
  rewrite E. cbn. exists v, (pop_building c1). do 4 (split; [done|]). by apply frame_push in Hfr.
Qed.

Lemma make_delivers fuel T c :
  rank T < fuel -> wired c -> objects_ok c -> is_Some (factories_ c !! T) ->
  delivers T c (make_erased demangle_type fuel T c).
Proof.
  revert T c. induction fuel as [|fuel IH]; intros T c Hr Hw Hok Hb; [lia|]. cbn [make_erased].
  destruct Hb as [f Hf].
  assert (Hff : factory_for T c = Some f).
  { unfold factory_for, contextual_of. rewrite (proj1 Hw), Hf. destruct (last (building_ c)); [|done].
    by rewrite !lookup_empty. }
  rewrite Hff. destruct (proj2 Hw T f Hf) as [Ha Hd].
  assert (Hex : exists v c', exec (make_erased demangle_type fuel) (auto_prog T (deps T)) c = Some (Ok v, c') /\
    any_type v = T /\ is_a (heap c') T (any_ref v) /\ objects_ok c' /\ frame rank (rank T) c c').
  { apply auto_delivers; [|done|by exists f|done]. intros d c' Hin EF Hw' Hok'.
    eapply Forall_forall in Hd as [Hb Hrk]; [|done]. apply IH; [lia|done|done|by rewrite EF]. }
  clear IH. destruct Hok as (Hg & Hi & Hs). destruct Hex as (v & c1 & E & Hv & Hva & Hok1 & Hfr).
  assert (Hfr' : frame rank (S (rank T)) c c1) by (eapply frame_le; [|done]; lia).
  destruct Hok1 as (Hg1 & Hi1 & Hs1).
  destruct Ha as [->|[->| ->]]; cbn [call].
  - exists v, c1. by rewrite E.
  - destruct (instances_ c !! T) as [w|] eqn:Em.
    + destruct (Hi T w Em) as [Hwt Hwa]. exists w, c. do 4 (split; [done|]). apply frame_refl.
    + rewrite E. cbn. exists v, (set_instance T v c1). do 3 (split; [done|]). split.
      * split; [done|]. split; [by apply memo_insert|done].
      * destruct Hfr as [F C Ta B I S H]. split; try done; [by apply grows_insert|]. eapply grows_le; [|done]. lia.
  - destruct (scoped_ c !! T) as [w|] eqn:Em.
    + destruct (Hs T w Em) as [Hwt Hwa]. exists w, c. do 4 (split; [done|]). apply frame_refl.
    + rewrite E. cbn. exists v, (set_scoped T v c1). do 3 (split; [done|]). split.
      * split; [done|]. split; [done|by apply memo_insert].
      * destruct Hfr as [F C Ta B I S H]. split; try done; [|by apply grows_insert]. eapply grows_le; [|done]. lia.
Qed.
End autowire.

(** C32: Autowiring.  When every registration is [bind_auto], [singleton_auto] or
    [scoped_auto], the declared dependencies are registered and acyclic, and no contextual
    binding interferes, [resolve] of a registered type succeeds, never with a missing
    binding or a bad cast: it returns an object of that type, and every object of the
    container holds, for each declared dependency of its type in order, an object of the
    dependency's type. *)
Theorem autowire_resolves (demangle_type : Key -> string) (rank : Key -> nat) (deps : Key -> list Key)
    (T : Key) (c : Container) :
  wired rank deps c -> objects_ok deps c -> is_Some (factories_ c !! T) ->
  exists v c', (forall fuel, rank T < fuel -> resolve demangle_type fuel T c = Some (Ok v, c')) /\
    any_type v = T /\ is_a (heap c') T (any_ref v) /\ objects_ok deps c' /\ wired rank deps c' /\ building_ c' = building_ c.
Proof.
  intros Hw Hok Hb.
  destruct (make_delivers demangle_type rank deps (S (rank T)) T c ltac:(lia) Hw Hok Hb)
    as (v & c' & E & Hv & Ha & Hok' & [F C _ B _ _ _]).
  exists v, c'. split; [|do 3 (split; [done|]); split; [|done]].
  - intros fuel Hf. unfold resolve, resolve_with.
    rewrite (make_mono demangle_type (S (rank T)) fuel T c _ ltac:(lia) E). cbn. unfold any_cast.
    by rewrite bool_decide_eq_true_2.
  - destruct Hw. unfold wired. by rewrite C, F.
Qed.

Definition demo_deps (k : Key) : list Key :=
  if bool_decide (k = "Mailer") then ["Logger"; "Session"] else if bool_decide (k = "Session") then ["Logger"] else [].

Lemma autowire_resolves_witness :
  exists v c', (forall fuel, 2 < fuel -> resolve (fun k => k) fuel "Mailer" demo_container = Some (Ok v, c')) /\
    any_type v = "Mailer" /\ is_a (heap c') "Mailer" (any_ref v) /\ objects_ok demo_deps c' /\ wired demo_rank demo_deps c' /\ building_ c' = [].
Proof.
  apply (autowire_resolves (fun k => k) demo_rank demo_deps "Mailer" demo_container).
  - split; [done|]. intros key f H. unfold demo_container, bind_auto, scoped_auto, singleton_auto, bind_erased,
      scoped_erased, singleton_erased in H. cbn in H.
    repeat (apply lookup_insert_Some in H as [[<- <-]|[_ H]];
      [split; [unfold auto_factory; cbn; auto|];
       repeat (apply Forall_cons; split; [split; [eexists; vm_compute; reflexivity|vm_compute; lia]|]);
       by apply Forall_nil|]).
    by rewrite lookup_empty in H.
  - split; [by intros i T refs H|]. split; by intros k v H.
  - eexists. vm_compute. reflexivity.
Defined.
