(* ===== verification/ContainerTypes.v ===== *)
(** * container.hpp: typed resolution

    The container stores type-erased values and casts them back ([std::any_cast]); the
    template layer is what makes the casts succeed.  [typed] is the invariant it keeps:
    under a type's key there are only factories that yield, and instances that hold, a
    pointer of that type.  Every call of the template layer preserves it, resolutions
    included, so no cast ever fails. *)
From S2P Require Import Prelude CppString Container.

(** Every value the program returns has type [T], given values of the types it resolves. *)
Fixpoint yields (T : Key) (p : Prog) : Prop :=
  match p with
  | Return v => any_type v = T
  | Fail _ => True
  | Resolve T' k => forall v, any_type v = T' -> yields T (k v)
  | Within _ body k => exists T', yields T' body /\ forall v, any_type v = T' -> yields T (k v)
  | Construct T' _ k => forall v, any_type v = T' -> yields T (k v)
  end.
Definition factory_yields (T : Key) (f : Factory) : Prop :=
  match f with
  | Transient p => yields T p
  | Singleton key p | Scoped key p => key = T /\ yields T p
  | Constant obj => any_type obj = T
  end.
Definition holds_types (m : gmap Key Any) : Prop := map_Forall (fun key v => any_type v = key) m.

Section typed.
(** The base type the values under a tag are cast to. *)
Variable tag_type : string -> Key.
Record typed (c : Container) : Prop := {
  typed_factories : map_Forall factory_yields (factories_ c);
  typed_instances : holds_types (instances_ c);
  typed_scoped : holds_types (scoped_ c);
  typed_contextual : forall consumer, map_Forall factory_yields (contextual_of consumer c);
  typed_tags : forall tag, Forall (factory_yields (tag_type tag)) (tagged_factories tag c)
}.
Definition well_typed (T : Key) (o : Outcome Any) : Prop :=
  match o with
  | None => True
  | Some (r, c) => typed c /\ forall v, r = Ok v -> any_type v = T
  end.

Lemma typed_building b c : typed c -> typed (set_building b c).
Proof. by intros [F I S C T]. Qed.
Lemma typed_alloc T deps c : typed c -> typed (alloc T deps c).2.
Proof. by intros [F I S C Ta]. Qed.
Lemma typed_instance key v c : typed c -> any_type v = key -> typed (set_instance key v c).
Proof. intros [F I S C T] Hv. split; try done. by apply map_Forall_insert_2. Qed.
Lemma typed_scoped_set key v c : typed c -> any_type v = key -> typed (set_scoped key v c).
Proof. intros [F I S C T] Hv. split; try done. by apply map_Forall_insert_2. Qed.
Lemma any_cast_typed T v : any_type v = T -> any_cast T v = Ok v.
Proof. intros H. unfold any_cast. by rewrite bool_decide_eq_true_2. Qed.

Lemma resolve_with_typed (mk : Key -> Container -> Outcome Any) T c :
  well_typed T (mk T c) -> resolve_with mk T c = mk T c.
Proof.
  unfold resolve_with. destruct (mk T c) as [[[v|e] c']|]; cbn; try done. intros [_ Hv]. by rewrite (any_cast_typed T v (Hv v eq_refl)).
Qed.
Lemma exec_typed (mk : Key -> Container -> Outcome Any) p :
  (forall T c, typed c -> well_typed T (mk T c)) ->
  forall T c, yields T p -> typed c -> well_typed T (exec mk p c).
Proof.
  intros Hmk. induction p as [v|e|T' k IH|T' body IHb k IH|T' deps k IH]; intros T c Hp Hc; cbn [exec yields] in *.
  - split; [done|]. by intros v' [= <-].
  - by split.
  - rewrite resolve_with_typed by auto. pose proof (Hmk T' c Hc) as Hm. destruct (mk T' c) as [[[v|e] c']|]; [| |done]; destruct Hm as [Hc' Hv]; cbn.
    + apply IH; [apply Hp, Hv|]; done.
    + by split.
  - destruct Hp as (T1 & Hb & Hk). pose proof (IHb T1 _ Hb (typed_building (building_ c ++ [T']) c Hc)) as Hbody.
    unfold push_building. destruct (exec mk body _) as [[[v|e] c']|]; [| |done]; destruct Hbody as [Hc' Hv].
    + cbn. apply IH; [by apply Hk, Hv|by apply typed_building].
    + cbn. split; [by apply typed_building|done].
  - pose proof (typed_alloc T' deps c Hc) as Ha. cbn. cbn in Ha. by apply IH; [apply Hp|].
Qed.
Lemma call_typed (mk : Key -> Container -> Outcome Any) T f c :
  (forall T c, typed c -> well_typed T (mk T c)) -> factory_yields T f -> typed c -> well_typed T (call mk f c).
Proof.
  intros Hmk Hf Hc. destruct f as [p|key p|key p|obj]; cbn [call factory_yields] in *.
  - by apply exec_typed.
  - destruct Hf as [-> Hp]. destruct (instances_ c !! T) as [v|] eqn:E.
    { split; [done|]. intros v' [= <-]. by apply (typed_instances c Hc). }
    pose proof (exec_typed mk p Hmk T c Hp Hc) as H. destruct (exec mk p c) as [[[v|e] c']|]; [| |done]; destruct H as [Hc' Hv]; [|by split].
    cbn. split; [by apply typed_instance; auto|]. intros v' [= <-]. by auto.
  - destruct Hf as [-> Hp]. destruct (scoped_ c !! T) as [v|] eqn:E.
    { split; [done|]. intros v' [= <-]. by apply (typed_scoped c Hc). }
    pose proof (exec_typed mk p Hmk T c Hp Hc) as H. destruct (exec mk p c) as [[[v|e] c']|]; [| |done]; destruct H as [Hc' Hv]; [|by split].
    cbn. split; [by apply typed_scoped_set; auto|]. intros v' [= <-]. by auto.
  - split; [done|]. by intros v [= <-].
Qed.
Lemma factory_for_typed key c f : typed c -> factory_for key c = Some f -> factory_yields key f.
Proof.
  intros Hc. unfold factory_for. pose proof (typed_factories c Hc) as Hf.
  destruct (last (building_ c)) as [consumer|]; [|apply Hf].
  destruct (contextual_of consumer c !! key) as [g|] eqn:E; [|apply Hf].
  intros [= <-]. by apply (typed_contextual c Hc consumer).
Qed.
Lemma make_typed demangle_type fuel : forall T c, typed c -> well_typed T (make_erased demangle_type fuel T c).
Proof.
  induction fuel as [|fuel IH]; intros T c Hc; [done|]. cbn [make_erased].
  destruct (factory_for T c) as [f|] eqn:E; [|by split]. apply call_typed; [done| |done]. by eapply factory_for_typed.
Qed.

Lemma tagged_typed demangle_type fuel name l : forall c vs c',
  Forall (factory_yields (tag_type name)) l -> typed c -> tagged_loop demangle_type fuel l c = Some (Ok vs, c') ->
  Forall (fun v => any_cast (tag_type name) v = Ok v) vs.
Proof.
  induction l as [|f l IH]; intros c vs c' Hl Hc; cbn [tagged_loop]; [by intros [= <- _]|].
  apply Forall_cons in Hl as [Hf Hl]. intros (r & c1 & E1 & H)%continue_Some. destruct r as [v|e]; [|done].
  pose proof (call_typed _ _ f c (make_typed demangle_type fuel) Hf Hc) as Hm. rewrite E1 in Hm. destruct Hm as [Hc1 Hv].
  apply continue_Some in H as (r & c2 & E2 & H). destruct r as [vs'|e]; [|done]. injection H as <- _.
  constructor; [by apply any_cast_typed, Hv|]. by eapply IH.
Qed.

(** ** The calls of the template layer *)
Variable demangle_type : Key -> string.
Inductive template_call : Container -> Container -> Prop :=
  | call_bind T p c : yields T p -> template_call c (bind_erased T p c)
  | call_singleton T p c : yields T p -> template_call c (singleton_erased T p c)
  | call_scoped T p c : yields T p -> template_call c (scoped_erased T p c)
  | call_instance T obj c : any_type obj = T -> template_call c (instance_erased T obj c)
  | call_give consumer dep impl c : template_call c (give consumer dep impl c)
  | call_tag base impl name c : tag_type name = base -> template_call c (tag_erased name (cast_prog base impl) c)
  | call_forget c : template_call c (forget_scoped c)
  | call_enter T c : template_call c (push_building T c)
  | call_leave c : template_call c (pop_building c)
  | call_make fuel T r c c' : make_erased demangle_type fuel T c = Some (r, c') -> template_call c c'.

Lemma template_call_typed c c' : template_call c c' -> typed c -> typed c'.
Proof.
  intros H Hc. assert (Hc' := Hc). destruct Hc' as [F I S C Ta]. destruct H.
  - split; try done. by apply map_Forall_insert_2.
  - split; try done. by apply map_Forall_insert_2.
  - split; try done. by apply map_Forall_insert_2.
  - split; try done; by apply map_Forall_insert_2.
  - split; try done. intros consumer'. unfold contextual_of, give, bind_contextual_erased. cbn [contextual_].
    destruct (decide (consumer = consumer')) as [->|Hne].
    + rewrite lookup_insert_eq. apply map_Forall_insert_2; [|apply C]. by intros v Hv.
    + rewrite lookup_insert_ne by done. apply C.
  - split; try done. intros name'. unfold tagged_factories, tag_erased. cbn [tags_].
    destruct (decide (name = name')) as [->|Hne].
    + rewrite lookup_insert_eq. apply Forall_app. split; [apply Ta|]. constructor; [|constructor]. by intros v Hv.
    + rewrite lookup_insert_ne by done. apply Ta.
  - by split.
  - by apply typed_building.
  - by apply typed_building.
  - pose proof (make_typed demangle_type fuel T c Hc) as H0. rewrite H in H0. apply H0.
Qed.
(** The autowired registrations are such calls. *)
Lemma resolve_all_yields T l : forall acc k, (forall refs, yields T (k refs)) -> yields T (resolve_all l acc k).
Proof. induction l as [|d l IH]; intros acc k Hk; cbn; [apply Hk|]. intros v _. by apply IH. Qed.
Lemma auto_yields T l : yields T (auto_prog T l).
Proof. exists T. split; [|done]. apply resolve_all_yields. by intros refs v Hv. Qed.
Lemma typed_new : typed new_container.
Proof.
  split; try apply map_Forall_empty.
  - intros consumer. unfold contextual_of. cbn. rewrite lookup_empty. apply map_Forall_empty.
  - intros name. unfold tagged_factories. cbn. rewrite lookup_empty. constructor.
Qed.

(** C33: Resolution is typed.  In any container reached from a new one by calls of the
    template layer (bindings of every lifetime, instances, contextual and tagged bindings,
    scope resets, resolutions that return or throw, in any order), [resolve<T>] gives what
    the factory of [T] gives, a pointer of type [T]: the any_cast on its way never fails;
    and so for [tagged<Base>] under a tag used with one base type. *)
Theorem resolve_is_typed (c : Container) (fuel : nat) (T : Key) (name : string) :
  rtc template_call new_container c ->
  resolve demangle_type fuel T c = make_erased demangle_type fuel T c /\
  (forall v c', resolve demangle_type fuel T c = Some (Ok v, c') -> any_type v = T) /\
  (forall vs c', tagged_erased demangle_type fuel name c = Some (Ok vs, c') ->
     Forall (fun v => any_cast (tag_type name) v = Ok v) vs).
Proof.
  intros H. assert (Hc : typed c).
  { assert (H0 := typed_new). revert H0. induction H as [|c1 c2 c3 Hs _ IH]; [done|]. intros H1. by eapply IH, template_call_typed. }
  pose proof (make_typed demangle_type fuel) as Hmk. split; [|split].
  - by apply resolve_with_typed, Hmk.
  - unfold resolve. intros v c' E. rewrite resolve_with_typed in E by auto. pose proof (Hmk T c Hc) as Hm. rewrite E in Hm. by apply Hm.
  - intros vs c' E. apply (tagged_typed demangle_type fuel name (tagged_factories name c) c vs c' (typed_tags c Hc name) Hc E).
Qed.
End typed.

(** So [tagged<Base>] gives what the factories under the tag give. *)
Lemma tagged_is_erased (tag_type : string -> Key) demangle_type (c : Container) (fuel : nat) (name : string) :
  typed tag_type c -> tagged demangle_type fuel (tag_type name) name c = tagged_erased demangle_type fuel name c.
Proof.
  intros Hc. unfold tagged. destruct (tagged_erased _ _ _ _) as [[[vs|e] c']|] eqn:E; try done. cbn.
  pose proof (tagged_typed tag_type demangle_type fuel name _ c vs c' (typed_tags tag_type c Hc name) Hc E) as Hvs.
  assert (Hall : cast_all (tag_type name) vs = Ok vs) by
    (clear E; induction Hvs as [|v vs Hv _ IH]; cbn; [done|]; rewrite Hv; cbn; by rewrite IH).
  by rewrite Hall.
Qed.

(** A singleton and a transient that needs it, resolved once and then again. *)
Definition two_types : Container := bind_auto "Mailer" ["Logger"] (singleton_auto "Logger" [] new_container).
Definition two_types_used : Container :=
  match make_erased (fun k => k) 4 "Mailer" two_types with Some (_, c) => c | None => two_types end.

Lemma resolve_is_typed_witness :
  resolve (fun k => k) 4 "Mailer" two_types_used = make_erased (fun k => k) 4 "Mailer" two_types_used /\
  (exists v c, resolve (fun k => k) 4 "Mailer" two_types_used = Some (Ok v, c) /\ any_type v = "Mailer").
Proof.
  assert (Hc : rtc (template_call (fun _ => "Channel") (fun k => k)) new_container two_types_used).
  { eapply rtc_l; [apply (call_singleton _ _ "Logger" (auto_prog "Logger" [])), auto_yields|].
    eapply rtc_l; [apply (call_bind _ _ "Mailer" (auto_prog "Mailer" ["Logger"])), auto_yields|].
    apply rtc_once, (call_make _ _ 4 "Mailer" (Ok (mkAny "Mailer" 1))). vm_compute. reflexivity. }
  destruct (resolve_is_typed (fun _ => "Channel") (fun k => k) two_types_used 4 "Mailer" "channels" Hc) as (H1 & H2 & _).
  split; [exact H1|]. eexists _, _. split; [vm_compute; reflexivity|]. eapply H2. vm_compute. reflexivity.
Defined.
