(* ===== verification/Scheduler.v ===== *)
(** * scheduler.hpp: the task schedule

    [run_pending] over tasks with a cadence, and the two places last-run times live: a
    map of the process, or a table behind a Connection.  [Stamps] is what the tick needs
    of that place; both discharge it.  The local-time conversion [today_at] (localtime_r,
    mktime) is a parameter. *)
From S2P Require Import Prelude CppString CppNum Database Tables Repository.

Local Open Scope Z_scope.

Section schedule.
Context {D W : Type}.

(** The schedule's own map, the database, and the rest of the world. *)
Record Sched : Type := mkSched { memory_ : gmap string Z; data : D; world : W }.
Record Task : Type := mkTask { t_name : string; t_fn : M Sched unit; t_due : Z -> Z -> bool }.

Definition on_data {A} (m : M D A) : M Sched A :=
  on_part data (fun d s => mkSched (memory_ s) d (world s)) m.
Definition in_memory (f : gmap string Z -> gmap string Z) : M Sched unit :=
  modify (fun s => mkSched (f (memory_ s)) (data s) (world s)).

Definition name_query (name : string) : Query :=
  mkQuery [mkWhere "name" Eq (VStr name) []] None None None.
Definition run_row (name : string) (now : Z) : Row :=
  set_cell "last_run" (VInt now) (set_cell "name" (VStr name) ∅).

Section store.
Variables (conn : option (Connection D)) (table : string).

Definition last_run (name : string) : M Sched Z :=
  match conn with
  | None => gets (fun s => match memory_ s !! name with Some t => t | None => 0 end)
  | Some c =>
      rows ← on_data (select c table (name_query name));
      match rows with
      | [] => mret 0
      | r :: _ => mret (int_or r "last_run")
      end
  end.

Definition record_run (name : string) (now : Z) : M Sched unit :=
  match conn with
  | None => in_memory (fun m => <[name := now]> m)
  | Some c =>
      rows ← on_data (select c table (name_query name));
      match rows with
      | [] => _ ← on_data (insert c table (run_row name now)); mret tt
      | front :: _ =>
          let r := set_cell "last_run" (VInt now) front in
          id ← lift_res (get_int front "id");
          _ ← on_data (update c table id r); mret tt
      end
  end.

(** One task of the loop: stamp, then run; true when it was due. *)
Definition run_task (now : Z) (t : Task) : M Sched bool :=
  last ← last_run (t_name t);
  if t_due t now last then
    _ ← record_run (t_name t) now;
    _ ← t_fn t;
    mret true
  else mret false.
Fixpoint run_tasks (now ran : Z) (tasks : list Task) : M Sched Z :=
  match tasks with
  | [] => mret ran
  | t :: tasks => b ← run_task now t; run_tasks now (if b : bool then ran + 1 else ran) tasks
  end.
(** [now = 0] means the wall clock. *)
Definition run_pending (tasks : list Task) (now clock : Z) : M Sched Z :=
  run_tasks (if now =? 0 then clock else now) 0 tasks.
End store.

Definition every_due (secs now last : Z) : bool := (last =? 0) || (secs <=? now - last).
Definition every (secs : Z) (name : string) (fn : M Sched unit) (tasks : list Task) : list Task :=
  tasks ++ [mkTask name fn (every_due secs)].

(** "HH:MM"; without a colon both stay 0. *)
Definition parse_hhmm (s : string) : Z * Z :=
  match find_chr s ":" 0 with
  | None => (0, 0)
  | Some colon => (atoi (substr s 0 colon), atoi (substr_from s (colon + 1)))
  end.
Definition daily_due (today_at : Z -> Z -> Z -> Z) (hour minute now last : Z) : bool :=
  let trigger := today_at now hour minute in (trigger <=? now) && (last <? trigger).
Definition daily_at (today_at : Z -> Z -> Z -> Z) (hhmm name : string) (fn : M Sched unit)
    (tasks : list Task) : list Task :=
  let (hour, minute) := parse_hhmm hhmm in
  tasks ++ [mkTask name fn (daily_due today_at hour minute)].

(** ** What a tick needs of the place that keeps the stamps

    [named name]: the place can tell the name from others; [stamp s name] is the recorded
    time, 0 when there is none; [budget k s] that [k] more stamps can be recorded. *)
Class Stamps (conn : option (Connection D)) (table : string) (named : string -> Prop) (inv : Sched -> Prop)
    (stamp : Sched -> string -> Z) (budget : nat -> Sched -> Prop) : Prop := {
  law_budget k s : budget (S k) s -> budget k s;
  law_last name s : named name -> inv s -> last_run conn table name s = (Ok (stamp s name), s);
  law_record name now k s : named name -> inv s -> budget (S k) s ->
    exists s', record_run conn table name now s = (Ok tt, s') /\ inv s' /\ budget k s' /\
      stamp s' name = now /\ forall n, n ≠ name -> stamp s' n = stamp s n
}.

Definition memory_stamp (s : Sched) (name : string) : Z :=
  match memory_ s !! name with Some t => t | None => 0 end.
#[export] Instance memory_stamps table :
  Stamps None table (fun _ => True) (fun _ => True) memory_stamp (fun _ _ => True).
Proof.
  split; [done|done|]. intros name now k s _ _ _. eexists. split; [reflexivity|]. do 2 (split; [done|]).
  unfold memory_stamp. cbn. split; [by rewrite lookup_insert_eq|].
  intros n Hn. by rewrite lookup_insert_ne.
Qed.
End schedule.
Arguments Sched : clear implicits.
Arguments Task : clear implicits.

(** ** The stamps in a table behind a Connection *)
(** The table is there, with a text column for the name and an integer column for the time. *)
Class ScheduleTable (known : string -> Prop) (fits : string -> Row -> Prop) (table : string) : Prop := {
  st_known : known table;
  st_run_row name now : fits table (run_row name now);
  st_last_run r now : fits table r -> fits table (set_cell "last_run" (VInt now) r)
}.
#[export] Instance any_schedule table : ScheduleTable (fun _ => True) (fun _ _ => True) table.
Proof. done. Qed.

Lemma row_ok_name n r : row_ok (name_query n) r = bool_decide (r !! "name" = Some (VStr n)).
Proof.
  unfold row_ok. cbn. rewrite andb_true_r. unfold clause_ok. cbn.
  destruct (r !! "name") as [v|]; [|done]. destruct v; try done. cbn. apply bool_decide_ext. naive_solver.
Qed.

Section backend.
Context {D W : Type} (conn : Connection D) ok view room known fits norm `{!TableLaws conn ok view room known fits norm}.
Context (table : string) `{!ScheduleTable known fits table}.
Implicit Types (d : D) (s : Sched D W).

Definition runs_of d name : list Row := List.filter (row_ok (name_query name)) (view d table).
Definition run_stamp d name : Z := match runs_of d name with [] => 0 | r :: _ => int_or r "last_run" end.
(** A name has one row at most: [record_run] reads before it writes. *)
Definition single_runs d : Prop := forall name, (length (runs_of d name) <= 1)%nat.
Definition table_stamp s name : Z := run_stamp (data s) name.
Definition table_inv s : Prop := ok (data s) /\ single_runs (data s).
Definition table_budget (k : nat) s : Prop := room (data s) table k.

Lemma select_runs d name : ok d -> single_runs d -> c_str name = name ->
  select conn table (name_query name) d = (Ok (runs_of d name), d).
Proof.
  intros Hok Hone Hn. assert (E : set_cell "name" (VStr name) (run_row name 0) = run_row name 0) by (apply insert_id; reflexivity).
  destruct (tl_select table "name" name (run_row name 0) d st_known Hok ltac:(done) Hn) as (rows & Es & Hp); [rewrite E; apply st_run_row|].
  change (text_query "name" name) with (name_query name) in *. rewrite Es. do 2 f_equal. fold (runs_of d name) in Hp.
  specialize (Hone name). destruct (runs_of d name) as [|r [|r2 l]]; [by apply Permutation_nil_r in Hp|by apply Permutation_singleton_r in Hp|cbn in Hone; lia].
Qed.
Lemma sole_row rows i x r : sole_keys rows -> x ∈ rows -> r ∈ rows -> is_id i x = true -> is_id i r = true -> x = r.
Proof.
  intros Hs Hx Hr Hix Hir. assert (H : forall y, y ∈ rows -> is_id i y = true -> y ∈ List.filter (is_id i) rows).
  { intros y Hy Hiy. by apply list_elem_of_In, List.filter_In; split; [apply list_elem_of_In|]. }
  apply H in Hx, Hr; [|done..]. destruct (find_row_filtered i rows Hs) as [[_ E]|(y & _ & E)]; rewrite E in *.
  - by apply not_elem_of_nil in Hx.
  - apply list_elem_of_singleton in Hx, Hr. congruence.
Qed.

(** A row with a new time, in its place. *)
Section restamp.
Context (d : D) (name : string) (now i : Z) (r : Row).
Context (Hok : ok d) (Hone : single_runs d) (Hname : c_str name = name) (Hr : runs_of d name = [r]) (Hi : r !! "id" = Some (VInt i)).
Local Abbreviation stamped_row := (set_cell "last_run" (VInt now) r).
Local Abbreviation place := (replaced i (fun _ => Some (norm <$> stamped_row))).

Lemma run_row_in : r ∈ view d table /\ r !! "name" = Some (VStr name).
Proof.
  assert (Hin : r ∈ runs_of d name) by (rewrite Hr; by left).
  apply list_elem_of_In, List.filter_In in Hin as [Hin E]. rewrite row_ok_name in E. bools. by rewrite list_elem_of_In.
Qed.
Lemma place_other x : x ∈ view d table -> x ≠ r -> place x = x.
Proof.
  intros Hx Hne. unfold replaced. destruct (is_id i x) eqn:E; [|done]. destruct Hne.
  eapply (sole_row (view d table) i); [apply tl_keys; [apply st_known|done]|done|apply run_row_in|done|].
  rewrite (is_id_iff r i) by done. by apply bool_decide_eq_true.
Qed.
Lemma place_row : place r = set_cell "id" (VInt i) (norm <$> stamped_row).
Proof. unfold replaced. rewrite (is_id_iff r i) by done. by rewrite bool_decide_eq_true_2. Qed.
Lemma place_name n x : x ∈ view d table -> row_ok (name_query n) (place x) = row_ok (name_query n) x.
Proof.
  intros Hx. destruct (decide (x = r)) as [->|Hne]; [|by rewrite place_other]. rewrite place_row, !row_ok_name.
  rewrite lookup_set_cell_ne by done. destruct run_row_in as [_ En]. apply bool_decide_ext. rewrite En.
  assert (E : (norm <$> stamped_row : Row) !! "name" = Some (VStr name)); [|by rewrite E].
  etrans; [apply lookup_fmap|]. etrans; [apply f_equal, lookup_set_cell_ne; done|]. rewrite En. cbn. by rewrite tl_norm_str.
Qed.
Lemma runs_place n : List.filter (row_ok (name_query n)) (map place (view d table)) = map place (runs_of d n).
Proof.
  unfold runs_of. assert (H : forall l, (forall x, x ∈ l -> x ∈ view d table) ->
    List.filter (row_ok (name_query n)) (map place l) = map place (List.filter (row_ok (name_query n)) l)).
  { induction l as [|x l IH]; intros Hl; [done|]. cbn [map List.filter]. rewrite place_name by (apply Hl; by left).
    rewrite IH by (intros y Hy; apply Hl; by right). by destruct (row_ok _ x). }
  by apply H.
Qed.
Lemma runs_placed n : map place (runs_of d n) =
  if bool_decide (n = name) then [set_cell "id" (VInt i) (norm <$> stamped_row)] else runs_of d n.
Proof.
  case_bool_decide as E; [subst n; rewrite Hr; cbn; by rewrite place_row|]. etrans; [|apply map_id]. apply map_ext_in. intros x Hx.
  apply List.filter_In in Hx as [Hx Hn]. rewrite row_ok_name in Hn. bools. apply place_other; [by apply list_elem_of_In|].
  intros ->. destruct run_row_in as [_ En]. congruence.
Qed.
End restamp.

(** What [record_run] does to the database. *)
Lemma record_effect name now k m d (w : W) : c_str name = name -> ok d -> single_runs d -> room d table (S k) ->
  exists d', record_run (Some conn) table name now (mkSched m d w) = (Ok tt, mkSched m d' w) /\ ok d' /\ single_runs d' /\
    room d' table k /\ (forall t, t ≠ table -> view d' t = view d t /\ forall n, room d t n -> room d' t n) /\
    run_stamp d' name = now /\ forall n, n ≠ name -> run_stamp d' n = run_stamp d n.
Proof.
  intros Hn Hok Hone Hroom. unfold record_run, mbind, M_bind. unfold on_data at 1, on_part. cbn [data memory_ world].
  rewrite (select_runs d name Hok Hone Hn). pose proof (Hone name) as Hlen.
  destruct (runs_of d name) as [|r [|r2 l]] eqn:E; [| |cbn in Hlen; lia].
  - destruct (tl_insert table (run_row name now) d k st_known Hok Hroom (st_run_row name now) eq_refl) as (i & d' & Ei & Hok' & _ & Hv & Hr' & Ho).
    exists d'. unfold on_data, on_part. cbn [data memory_ world]. rewrite Ei. split; [done|]. split; [done|].
    set (row := set_cell "id" (VInt i) (norm <$> run_row name now)) in *.
    assert (Erow : row = set_cell "id" (VInt i) (run_row name now)).
    { unfold row. f_equal. unfold run_row. rewrite !fmap_set_cell, tl_norm_int, tl_norm_str by done. reflexivity. }
    assert (Hruns : forall n, runs_of d' n = runs_of d n ++ if bool_decide (n = name) then [row] else []).
    { intros n. unfold runs_of. rewrite Hv, List.filter_app. cbn [List.filter]. rewrite row_ok_name, Erow. f_equal.
      rewrite lookup_set_cell_ne by done. change (run_row name now !! "name") with (Some (VStr name)).
      do 2 case_bool_decide; naive_solver. }
    split; [|split; [done|split; [done|split]]].
    + intros n. rewrite Hruns, length_app. specialize (Hone n). case_bool_decide as En; [subst n; by rewrite E|cbn; lia].
    + unfold run_stamp. rewrite Hruns, E, bool_decide_eq_true_2 by done. cbn [app]. rewrite Erow. unfold int_or.
      by rewrite lookup_set_cell_ne.
    + intros n Hne. unfold run_stamp. rewrite Hruns, bool_decide_eq_false_2 by done. by rewrite app_nil_r.
  - destruct (run_row_in d name r E) as [Hin En].
    assert (Hid : exists i, r !! "id" = Some (VInt i)).
    { destruct (tl_keys table d st_known Hok) as [_ Hk]. rewrite Forall_forall in Hk. by apply Hk. }
    destruct Hid as [i Hi]. pose proof (tl_fits table d st_known Hok) as Hfit. rewrite Forall_forall in Hfit.
    destruct (tl_update table i (set_cell "last_run" (VInt now) r) d st_known Hok (st_last_run r now (Hfit r Hin))) as (d' & Hok' & Eu & Hv & Ho & Hr').
    exists d'. unfold get_int, row_at, lift_res. cbn [mbind res_bind]. rewrite Hi.
    change (Ok (VInt i) ≫= fun v => mret (value_int v)) with (Ok i : res Z). cbv iota.
    unfold on_data, on_part. cbn [data memory_ world]. rewrite Eu. split; [done|]. split; [done|].
    rewrite (proj1 (replace_row_map i _ (view d table) (tl_keys table d st_known Hok))) in Hv.
    assert (Hruns : forall n, runs_of d' n = if bool_decide (n = name) then
        [set_cell "id" (VInt i) (norm <$> set_cell "last_run" (VInt now) r)] else runs_of d n).
    { intros n. unfold runs_of at 1. rewrite Hv, (runs_place d name now i r) by done. by apply runs_placed. }
    split; [|split; [by apply Hr', tl_fewer|split; [|split]]].
    + clear Eu. intros n. rewrite Hruns. case_bool_decide; [cbn; lia|apply Hone].
    + intros t Ht. split; [by apply Ho|apply Hr'].
    + unfold run_stamp. rewrite Hruns, bool_decide_eq_true_2 by done. unfold int_or.
      rewrite lookup_set_cell_ne, fmap_set_cell, lookup_set_cell by done. cbn. by rewrite tl_norm_int.
    + intros n Hne. unfold run_stamp. by rewrite Hruns, bool_decide_eq_false_2.
Qed.
#[export] Instance table_stamps : Stamps (Some conn) table (fun name => c_str name = name) table_inv table_stamp table_budget.
Proof.
  split.
  - intros k s. apply tl_fewer.
  - intros name [m d w] Hn [Hok Hone]. unfold last_run, table_stamp, run_stamp, mbind, M_bind, on_data, on_part. cbn [data memory_ world] in *.
    rewrite (select_runs d name Hok Hone Hn). by destruct (runs_of d name).
  - intros name now k [m d w] Hn [Hok Hone] Hroom. cbn [data] in *.
    destruct (record_effect name now k m d w Hn Hok Hone Hroom) as (d' & E & Hok' & Hone' & Hr & _ & Hs & Ho).
    exists (mkSched m d' w). do 4 (split; [done|]). done.
Qed.
End backend.

(** ** Ticks *)
Section ticks.
Context {D W : Type} (conn : option (Connection D)) (table : string).
Context (named : string -> Prop) (inv : Sched D W -> Prop) (stamp : Sched D W -> string -> Z) (budget : nat -> Sched D W -> Prop).
Context `{!Stamps conn table named inv stamp budget}.

(** A task's function leaves the stamps alone, whether it returns or throws. *)
Definition keeps_stamps (fn : M (Sched D W) unit) : Prop :=
  forall s, inv s -> inv (fn s).2 /\ (forall n, stamp (fn s).2 n = stamp s n) /\
    forall k, budget k s -> budget k (fn s).2.
Definition due_now (now : Z) (s : Sched D W) (t : Task D W) : bool := t_due t now (stamp s (t_name t)).
(** Stamp the task, then run it. *)
Definition fire (now : Z) (t : Task D W) (s : Sched D W) : res unit * Sched D W :=
  t_fn t (record_run conn table (t_name t) now s).2.
Definition fire_all (now : Z) (l : list (Task D W)) (s : Sched D W) : Sched D W :=
  foldl (fun s t => (fire now t s).2) s l.
Definition stamped_by (now : Z) (fired : list (Task D W)) (s s' : Sched D W) : Prop :=
  forall n, stamp s' n = if bool_decide (n ∈ map t_name fired) then now else stamp s n.

Lemma fire_stamps now t k s :
  named (t_name t) -> inv s -> budget (S k) s -> keeps_stamps (t_fn t) ->
  record_run conn table (t_name t) now s = (Ok tt, (record_run conn table (t_name t) now s).2) /\
  inv (fire now t s).2 /\ budget k (fire now t s).2 /\ stamped_by now [t] s (fire now t s).2.
Proof.
  intros Hn Hi Hb Hk. destruct (law_record (Stamps := Stamps0) (t_name t) now k s Hn Hi Hb) as (s1 & E & Hi1 & Hb1 & Hs & Ho).
  unfold fire. rewrite E. cbn [snd]. destruct (Hk s1 Hi1) as (Hi2 & Hs2 & Hb2).
  split; [done|]. split; [done|]. split; [by apply Hb2|]. intros n. rewrite Hs2. cbn.
  case_bool_decide as Hin; [apply list_elem_of_singleton in Hin as ->; done|]. apply Ho. intros ->. apply Hin. by left.
Qed.

Lemma filter_due_ext now s s' l :
  (forall t, t ∈ l -> stamp s' (t_name t) = stamp s (t_name t)) ->
  List.filter (due_now now s') l = List.filter (due_now now s) l.
Proof.
  intros H. apply filter_ext_in. intros t Ht. unfold due_now. rewrite H; [done|by apply list_elem_of_In].
Qed.

(** What one pass over [tasks] does from [s]. *)
Definition tick_result (now ran : Z) (due : list (Task D W)) (s : Sched D W) (r : res Z) (s' : Sched D W) : Prop :=
  exists fired rest, due = fired ++ rest /\ s' = fire_all now fired s /\ stamped_by now fired s s' /\
    match r with
    | Ok n => rest = [] /\ n = ran + Z.of_nat (length due)
    | Throw e => exists before t, fired = before ++ [t] /\ (fire now t (fire_all now before s)).1 = Throw e
    end.

Lemma tick_result_cons now ran t u due s s1 r s' :
  fire now t s = (Ok u, s1) -> stamped_by now [t] s s1 -> tick_result now (ran + 1) due s1 r s' ->
  tick_result now ran (t :: due) s r s'.
Proof.
  intros Ef Hs1 (fired & rest & -> & -> & Hst & Hr). exists (t :: fired), rest.
  assert (Efa : forall l, fire_all now (t :: l) s = fire_all now l s1) by (intros l; cbn; by rewrite Ef).
  split; [done|]. split; [done|]. split.
  { intros n. rewrite Hst, Hs1. cbn [map]. repeat case_bool_decide; set_solver. }
  destruct r as [n|e]; [destruct Hr as [-> ->]; cbn [length app]; split; [done|lia]|].
  destruct Hr as (before & x & -> & Hx). exists (t :: before), x. by rewrite Efa.
Qed.

Lemma tick_result_throw now ran t e due s s1 :
  fire now t s = (Throw e, s1) -> stamped_by now [t] s s1 -> tick_result now ran (t :: due) s (Throw e) s1.
Proof.
  intros Ef Hs1. exists [t], due. split; [done|]. split; [cbn; by rewrite Ef|]. split; [done|].
  exists [], t. split; [done|]. cbn. by rewrite Ef.
Qed.

Lemma run_tasks_result now tasks ran s :
  NoDup (map t_name tasks) -> Forall (fun t => named (t_name t) /\ keeps_stamps (t_fn t)) tasks ->
  inv s -> budget (length tasks) s ->
  let (r, s') := run_tasks conn table now ran tasks s in
  inv s' /\ tick_result now ran (List.filter (due_now now s) tasks) s r s'.
Proof.
  revert ran s. induction tasks as [|t tasks IH]; intros ran s Hnd Hk Hi Hb; cbn [run_tasks].
  - split; [done|]. exists [], []. split; [done|]. split; [done|]. split; [by intros n|]. split; [done|]. cbn. lia.
  - cbn [map] in Hnd. apply NoDup_cons in Hnd as [Hn Hnd]. apply Forall_cons in Hk as [[Hnm Ht] Hk].
    unfold run_task, mbind, M_bind. rewrite (law_last (Stamps := Stamps0)) by done.
    cbn [List.filter]. unfold due_now at 1. destruct (t_due t now (stamp s (t_name t))) eqn:Ed.
    2:{ apply IH; [done|done|done|]. by apply (law_budget (Stamps := Stamps0)). }
    destruct (fire_stamps now t (length tasks) s Hnm Hi Hb Ht) as (Er & Hi1 & Hb1 & Hs1).
    rewrite Er. change (t_fn t _) with (fire now t s). destruct (fire now t s) as [[u|e] s1] eqn:Ef; cbn [snd] in *.
    + specialize (IH (ran + 1) s1 Hnd Hk Hi1 Hb1). unfold mret, M_ret.
      destruct (run_tasks conn table now (ran + 1) tasks s1) as [r s']. destruct IH as [Hi' Hr]. split; [done|].
      eapply tick_result_cons; [done|done|]. rewrite <- (filter_due_ext now s s1); [done|].
      intros x Hx. rewrite Hs1, bool_decide_eq_false_2; [done|]. intros Hm%list_elem_of_singleton.
      apply Hn. rewrite <- Hm. by apply list_elem_of_fmap_2.
    + split; [done|]. by apply tick_result_throw.
Qed.

(** A tick runs exactly the tasks that are due at its start, in registration order,
    each stamped with the tick's time before it runs: the final state is that of stamping
    and running them one after the other, the stamps of all other tasks are untouched and
    the count is theirs.  When a task throws, the tick ends with its exception, the task
    itself stamped, the due tasks after it neither stamped nor run. *)
Theorem tick_runs_due (tasks : list (Task D W)) (now clock : Z) (s : Sched D W) :
  NoDup (map t_name tasks) -> Forall (fun t => named (t_name t) /\ keeps_stamps (t_fn t)) tasks ->
  inv s -> budget (length tasks) s ->
  let time := if now =? 0 then clock else now in
  let due := List.filter (fun t => t_due t time (stamp s (t_name t))) tasks in
  let (r, s') := run_pending conn table tasks now clock s in
  exists fired rest, due = fired ++ rest /\ s' = fire_all time fired s /\
    (forall n, stamp s' n = if bool_decide (n ∈ map t_name fired) then time else stamp s n) /\
    match r with
    | Ok n => rest = [] /\ n = Z.of_nat (length due)
    | Throw e => exists before t, fired = before ++ [t] /\ (fire time t (fire_all time before s)).1 = Throw e
    end.
Proof.
  intros Hnd Hk Hi Hb. cbv zeta. unfold run_pending.
  pose proof (run_tasks_result (if now =? 0 then clock else now) tasks 0 s Hnd Hk Hi Hb) as H.
  destruct (run_tasks _ _ _ _ _ _) as [r s']. apply H.
Qed.

Lemma one_task_fires t now s :
  named (t_name t) -> keeps_stamps (t_fn t) -> inv s -> budget 1 s -> now ≠ 0 -> t_due t now (stamp s (t_name t)) = true ->
  inv (run_pending conn table [t] now 0 s).2 /\ stamp (run_pending conn table [t] now 0 s).2 (t_name t) = now.
Proof.
  intros Hnm Hk Hi Hb Hn Hd. unfold run_pending. rewrite (proj2 (Z.eqb_neq now 0)) by done.
  cbn [run_tasks]. unfold run_task, mbind, M_bind. rewrite (law_last (Stamps := Stamps0)) by done. rewrite Hd.
  destruct (fire_stamps now t 0 s Hnm Hi Hb Hk) as (Er & Hi1 & _ & Hs1). rewrite Er.
  change (t_fn t _) with (fire now t s). specialize (Hs1 (t_name t)).
  rewrite bool_decide_eq_true_2 in Hs1 by (by left).
  by destruct (fire now t s) as [[u|e] s1].
Qed.

Lemma one_task_idle t now s :
  named (t_name t) -> inv s -> now ≠ 0 -> t_due t now (stamp s (t_name t)) = false -> run_pending conn table [t] now 0 s = (Ok 0, s).
Proof.
  intros Hnm Hi Hn Hd. unfold run_pending. rewrite (proj2 (Z.eqb_neq now 0)) by done.
  cbn [run_tasks]. unfold run_task, mbind, M_bind. rewrite (law_last (Stamps := Stamps0)) by done. by rewrite Hd.
Qed.

(** Cadence.  After a tick in which a task was due, and even if it threw, a later tick
    does nothing while the interval of an [every] task has not passed, and while the day's
    trigger of a [daily_at] task is the one already served; the daily task is due again at
    the first tick at or after the next trigger. *)
Theorem task_cadence (t : Task D W) (now now' : Z) (s : Sched D W) :
  named (t_name t) -> keeps_stamps (t_fn t) -> inv s -> budget 1 s -> now ≠ 0 -> now' ≠ 0 ->
  t_due t now (stamp s (t_name t)) = true ->
  let s' := (run_pending conn table [t] now 0 s).2 in
  (forall secs, t_due t = every_due secs -> now' - now < secs ->
     run_pending conn table [t] now' 0 s' = (Ok 0, s')) /\
  (forall today_at hour minute, t_due t = daily_due today_at hour minute ->
     today_at now' hour minute = today_at now hour minute ->
     run_pending conn table [t] now' 0 s' = (Ok 0, s')) /\
  (forall today_at hour minute, t_due t = daily_due today_at hour minute ->
     now < today_at now' hour minute <= now' -> t_due t now' (stamp s' (t_name t)) = true).
Proof.
  intros Hnm Hk Hi Hb Hn Hn' Hd. destruct (one_task_fires t now s Hnm Hk Hi Hb Hn Hd) as [Hi' Hs]. cbv zeta.
  split; [|split].
  - intros secs E Hlt. apply one_task_idle; [done|done|done|]. rewrite Hs, E. unfold every_due.
    apply orb_false_iff. split; [by apply Z.eqb_neq|apply Z.leb_gt; lia].
  - intros today_at h m E Eq. apply one_task_idle; [done|done|done|]. rewrite Hs, E.
    rewrite E in Hd. unfold daily_due in *. bools. apply andb_false_iff. right. apply Z.ltb_ge. lia.
  - intros today_at h m E Hlt. rewrite Hs, E. unfold daily_due. apply andb_true_iff.
    split; [apply Z.leb_le|apply Z.ltb_lt]; lia.
Qed.
End ticks.

(** A schedule over the memory backend with a failing task between two others. *)
Definition log (msg : string) : M (Sched Memory (list string)) unit :=
  modify (fun s => mkSched (memory_ s) (data s) (world s ++ [msg])).
Definition demo_tasks : list (Task Memory (list string)) :=
  every 10 "c" (log "c") (every 10 "b" (_ ← log "b"; throw OtherExn) (every 60 "a" (log "a") [])).
Definition fresh_schedule : Sched Memory (list string) := mkSched ∅ empty_memory [].

Local Abbreviation demo_inv := (table_inv (W := list string) memory_ok rows_of "runs").
Local Abbreviation demo_stamp := (table_stamp (W := list string) rows_of "runs").
Local Abbreviation demo_budget := (table_budget (W := list string) memory_room "runs").
Lemma demo_keeps : Forall (fun t => c_str (t_name t) = t_name t /\ keeps_stamps demo_inv demo_stamp demo_budget (t_fn t)) demo_tasks.
Proof. repeat (apply Forall_cons; split; [split; [done|by intros s Hs]|]). by apply Forall_nil. Qed.
Lemma empty_single table : single_runs rows_of table empty_memory.
Proof. intros name. unfold runs_of, rows_of. cbn [empty_memory tables_]. rewrite lookup_empty. cbn. lia. Qed.
Lemma fresh_inv : demo_inv fresh_schedule.
Proof. split; [apply empty_memory_ok|apply empty_single]. Qed.

Lemma tick_runs_due_witness :
  let due := demo_tasks in
  let (r, s') := run_pending (Some MemoryConnection) "runs" demo_tasks 100 0 fresh_schedule in
  r = Throw OtherExn /\ world s' = ["a"; "b"] /\
  exists fired rest, due = fired ++ rest /\ s' = fire_all (Some MemoryConnection) "runs" 100 fired fresh_schedule /\
    (forall n, demo_stamp s' n =
       if bool_decide (n ∈ map t_name fired) then 100 else demo_stamp fresh_schedule n) /\
    match r with
    | Ok n => rest = [] /\ n = Z.of_nat (length due)
    | Throw e => exists before t, fired = before ++ [t] /\
        (fire (Some MemoryConnection) "runs" 100 t (fire_all (Some MemoryConnection) "runs" 100 before fresh_schedule)).1
          = Throw e
    end.
Proof.
  pose proof (tick_runs_due (Some MemoryConnection) "runs" (fun name => c_str name = name) demo_inv demo_stamp demo_budget
    demo_tasks 100 0 fresh_schedule) as H.
  specialize (H ltac:(apply (bool_decide_unpack _); vm_compute; exact I) demo_keeps fresh_inv ltac:(vm_compute; reflexivity)).
  assert (E : world (run_pending (Some MemoryConnection) "runs" demo_tasks 100 0 fresh_schedule).2 = ["a"; "b"] /\
    (run_pending (Some MemoryConnection) "runs" demo_tasks 100 0 fresh_schedule).1 = Throw OtherExn)
    by (vm_compute; split; reflexivity).
  destruct (run_pending (Some MemoryConnection) "runs" demo_tasks 100 0 fresh_schedule) as [r s'].
  destruct E as [E1 E2]. split; [exact E2|]. split; [exact E1|exact H].
Defined.

Lemma task_cadence_witness :
  let t := mkTask "a" (_ ← log "a"; throw OtherExn) (every_due 60) in
  let s' := (run_pending (Some MemoryConnection) "runs" [t] 100 0 fresh_schedule).2 in
  run_pending (Some MemoryConnection) "runs" [t] 159 0 s' = (Ok 0, s').
Proof.
  intros t s'. exact (proj1 (task_cadence (Some MemoryConnection) "runs" (fun name => c_str name = name) demo_inv demo_stamp
    demo_budget t 100 159 fresh_schedule eq_refl ltac:(by intros s Hs) fresh_inv ltac:(vm_compute; reflexivity) ltac:(done) ltac:(done)
    ltac:(vm_compute; reflexivity)) 60 eq_refl ltac:(lia)).
Defined.

(** "HH:MM" is read back; a time without a colon is midnight, hours alone included. *)
Lemma parse_hhmm_text h m : 0 <= h < 24 -> 0 <= m < 60 -> parse_hhmm (to_string h +:+ ":" +:+ to_string m) = (h, m).
Proof.
  intros Hh Hm. unfold parse_hhmm. change (":" +:+ to_string m) with (String ":" (to_string m)).
  rewrite find_chr_hit by (by apply to_string_no_chr). unfold substr, substr_from.
  rewrite s_drop_0, s_take_app, s_drop_app_ge by lia.
  replace (len (to_string h) + 1 - len (to_string h))%nat with 1%nat by lia. cbn [s_drop].
  assert (Ha : forall z, 0 <= z < 60 -> atoi (to_string z) = z).
  { intros z Hz. unfold atoi. rewrite <- (s_app_nil_r (to_string z)), parse_int_to_string by done.
    rewrite Z.min_r, Z.max_r by lia. apply s32_small. lia. }
  rewrite !Ha by lia. done.
Qed.
Lemma hours_alone_are_midnight : parse_hhmm "03" = (0, 0).
Proof. reflexivity. Qed.
