(* ===== verification/Pat.v ===== *)
(** * personal_access_token.hpp: API tokens hashed at rest

    [issue], [authenticate] and [revoke] over the Connection contract.  SHA-256 and the
    random bytes are parameters, the wall clock an argument; the theorem holds for any
    backend that keeps [TableLaws] with the tokens' table in it. *)
From S2P Require Import Prelude CppString CppNum Base64 Token Database Tables Repository.

Local Open Scope Z_scope.

Record Issued : Type := mkIssued { issued_id : Z; plaintext : string }.
Record PatRecord : Type := mkPatRecord {
  pat_id : Z;
  pat_user_id : Z;
  pat_expires_at : Z;
  pat_name : string;
  pat_abilities : list string
}.
Definition pat_can (r : PatRecord) (ability : string) : bool := can (pat_abilities r) ability.

Definition join (v : list string) : string := join_chr " " v.
Fixpoint split_ws_loop (cur s : string) : list string :=
  match s with
  | "" => if bool_decide (cur = "") then [] else [cur]
  | String c s =>
      if is_char " " c then
        if bool_decide (cur = "") then split_ws_loop cur s else cur :: split_ws_loop "" s
      else split_ws_loop (cur +:+ str1 c) s
  end.
Definition split_ws (s : string) : list string := split_ws_loop "" s.

Definition to_record (r : Row) : res PatRecord :=
  id ← get_int r "id";
  mret (mkPatRecord id (int_or r "user_id") (int_or r "expires_at") (string_or r "name")
          (split_ws (string_or r "abilities"))).

Section store.
Context {D : Type} (conn : Connection D) (sha256 : string -> string) (table : string).

Definition token_row (plain : string) (user_id : Z) (name : string) (abilities : list string)
    (expires_at : Z) : Row :=
  set_cell "expires_at" (VInt expires_at) (set_cell "abilities" (VStr (join abilities))
    (set_cell "token_hash" (VStr (sha256_hex sha256 plain)) (set_cell "name" (VStr name)
      (set_cell "user_id" (VInt user_id) ∅)))).
Definition issue (rand : string) (user_id : Z) (name : string) (abilities : list string)
    (expires_at : Z) : M D Issued :=
  let plain := random_token rand in
  id ← insert conn table (token_row plain user_id name abilities expires_at);
  mret (mkIssued id plain).

Definition hash_query (presented : string) : Query :=
  mkQuery [mkWhere "token_hash" Eq (VStr (sha256_hex sha256 presented)) []] None None None.
(** [now = 0] means the wall clock. *)
Definition authenticate (presented : string) (now clock : Z) : M D (option PatRecord) :=
  let now := if now =? 0 then clock else now in
  rows ← select conn table (hash_query presented);
  match rows with
  | [] => mret None
  | r :: _ =>
      if negb (int_or r "expires_at" =? 0) && (int_or r "expires_at" <? now) then mret None
      else lift_res (Some <$> to_record r)
  end.
Definition revoke (id : Z) : M D bool := remove conn table id.
End store.

(** ** Abilities *)
Definition ability_ok (a : string) : Prop := a ≠ "" /\ no_chr " " a.

Lemma split_ws_word cur w t : no_chr " " w -> split_ws_loop cur (w +:+ t) = split_ws_loop (cur +:+ w) t.
Proof.
  revert cur. induction w as [|c w IH]; intros cur Hw; [by rewrite s_app_nil_r|].
  apply no_chr_cons in Hw as [Hc Hw]. rewrite s_app_cons. cbn [split_ws_loop].
  unfold is_char. rewrite bool_decide_eq_false_2 by done. rewrite IH by done. by rewrite s_app_assoc.
Qed.

Lemma split_ws_join l : Forall ability_ok l -> split_ws (join l) = l.
Proof.
  intros Hl. unfold split_ws, join. induction Hl as [|a l [Hne Hn] Hl IH]; [done|].
  cbn [join_chr]. destruct l as [|b l].
  - rewrite <- (s_app_nil_r a) at 1. rewrite split_ws_word by done. rewrite s_app_nil_l. cbn.
    by rewrite bool_decide_eq_false_2.
  - rewrite split_ws_word by done. rewrite s_app_nil_l. cbn [split_ws_loop].
    change (is_char " " " ") with true. cbv iota. rewrite bool_decide_eq_false_2 by done. by rewrite IH.
Qed.

(** ** The lifecycle of a token *)
Definition hash_free (sha256 : string -> string) (token : string) (rows : list Row) : Prop :=
  Forall (fun r => r !! "token_hash" ≠ Some (VStr (sha256_hex sha256 token))) rows.

Lemma hash_free_filter sha256 token rows :
  hash_free sha256 token rows -> List.filter (row_ok (hash_query sha256 token)) rows = [].
Proof.
  induction 1 as [|r rows Hr _ IH]; [done|]. cbn [List.filter]. rewrite IH.
  replace (row_ok _ r) with false; [done|]. symmetry. unfold row_ok. cbn. rewrite andb_true_r.
  unfold clause_ok. cbn. destruct (r !! "token_hash") as [v|]; [|done].
  destruct v; try done. cbn. apply bool_decide_eq_false. congruence.
Qed.

(** The table of the tokens is there, with a column for each member. *)
Class TokenTable (sha256 : string -> string) (known : string -> Prop) (fits : string -> Row -> Prop) (table : string) : Prop := {
  tt_known : known table;
  tt_row plain user_id name abilities expires_at : fits table (token_row sha256 plain user_id name abilities expires_at)
}.
#[export] Instance any_tokens sha256 table : TokenTable sha256 (fun _ => True) (fun _ _ => True) table.
Proof. done. Qed.

Section lifecycle.
Context (sha256 : string -> string) (table : string).
Context {D} (conn : Connection D) ok view room known fits norm `{!TableLaws conn ok view room known fits norm} `{!TokenTable sha256 known fits table}.

(** The rows with the hash of a token. *)
Definition rows_with d token : list Row := List.filter (row_ok (hash_query sha256 token)) (view d table).
Lemma hash_plain token : c_str (sha256_hex sha256 token) = sha256_hex sha256 token.
Proof.
  apply c_str_id. destruct (hex_string_spec (sha256 token)) as [Hx _]. unfold sha256_hex, no_chr, s_all in *. intros Hin.
  eapply Forall_forall in Hx; [|exact Hin]. by vm_compute in Hx.
Qed.
Lemma authenticate_view token now clock d : ok d -> (length (rows_with d token) <= 1)%nat ->
  authenticate conn sha256 table token now clock d =
  match rows_with d token with
  | [] => (Ok None, d)
  | r :: _ => let now := if now =? 0 then clock else now in
              if negb (int_or r "expires_at" =? 0) && (int_or r "expires_at" <? now) then (Ok None, d)
              else (Some <$> to_record r, d)
  end.
Proof.
  intros Hok Hlen. set (row := token_row sha256 token 0 "" [] 0).
  assert (E : set_cell "token_hash" (VStr (sha256_hex sha256 token)) row = row) by (apply insert_id; reflexivity).
  destruct (tl_select table "token_hash" (sha256_hex sha256 token) row d tt_known Hok ltac:(done) (hash_plain token)) as (rows & Es & Hp);
    [rewrite E; apply tt_row|].
  change (text_query "token_hash" (sha256_hex sha256 token)) with (hash_query sha256 token) in *. fold (rows_with d token) in Hp.
  unfold authenticate, mbind, M_bind. rewrite Es.
  assert (Er : rows = rows_with d token).
  { destruct (rows_with d token) as [|r [|r2 l]]; [by apply Permutation_nil_r in Hp|by apply Permutation_singleton_r in Hp|cbn in Hlen; lia]. }
  rewrite Er. destruct (rows_with d token); [done|]. cbv zeta. by destruct (_ && _).
Qed.

(** C34: The life of a token, on any backend that keeps [TableLaws].  [issue] hands out the encoded random bytes and stores one
    row holding their SHA-256 and nothing else of them.  While the row stands, exactly
    the presented strings with the same hash are authenticated by it: the record carries
    the issued id, user, name and abilities until the expiry time and nothing after it;
    a string with another hash, which one row at most has, is answered as before the issue.
    After [revoke] the token is refused. *)
Theorem token_lifecycle (rand : string) (user_id : Z) (name : string) (abs : list string)
    (expires : Z) (d : D) :
  ok d -> room d table 1%nat -> Forall ability_ok abs -> norm (VStr name) = VStr name -> norm (VStr (join abs)) = VStr (join abs) ->
  hash_free sha256 (random_token rand) (view d table) ->
  exists id d1, let token := random_token rand in
    issue conn sha256 table rand user_id name abs expires d = (Ok (mkIssued id token), d1) /\
    view d1 table = view d table ++
      [set_cell "id" (VInt id) (token_row sha256 token user_id name abs expires)] /\
    (forall now clock, now ≠ 0 -> authenticate conn sha256 table token now clock d1 =
       (Ok (if negb (expires =? 0) && (expires <? now) then None
            else Some (mkPatRecord id user_id expires name abs)), d1)) /\
    (forall other now clock, sha256_hex sha256 other ≠ sha256_hex sha256 token -> (length (rows_with d other) <= 1)%nat ->
       (authenticate conn sha256 table other now clock d1).1 =
       (authenticate conn sha256 table other now clock d).1) /\
    (exists d2, revoke conn table id d1 = (Ok true, d2) /\
       forall now clock, authenticate conn sha256 table token now clock d2 = (Ok None, d2)).
Proof.
  intros Hok Hroom Habs Hname Habn Hfree. set (token := random_token rand) in *.
  set (row := token_row sha256 token user_id name abs expires).
  destruct (tl_insert table row d 0 tt_known Hok Hroom (tt_row _ _ _ _ _) eq_refl) as (id & d1 & E & Hok1 & Hf & Hv & _).
  assert (Hnorm : norm <$> row = row).
  { unfold row, token_row. by rewrite !fmap_set_cell, !tl_norm_int, Hname, Habn, (tl_norm_str (sha256_hex sha256 token)) by apply hash_plain. }
  rewrite Hnorm in Hv. exists id, d1. cbv zeta. unfold issue, mbind, M_bind. fold token row. rewrite E.
  set (stored := set_cell "id" (VInt id) row) in *.
  assert (Hs : forall other, row_ok (hash_query sha256 other) stored =
            bool_decide (sha256_hex sha256 token = sha256_hex sha256 other)).
  { intros other. unfold row_ok. cbn. by rewrite andb_true_r. }
  assert (Ht : to_record stored = Ok (mkPatRecord id user_id expires name (split_ws (join abs)))) by reflexivity.
  assert (Hrows : forall other, rows_with d1 other = rows_with d other ++
            if bool_decide (sha256_hex sha256 token = sha256_hex sha256 other) then [stored] else []).
  { intros other. unfold rows_with. rewrite Hv, List.filter_app. cbn [List.filter]. by rewrite Hs. }
  assert (Hnone : rows_with d token = []) by (by apply hash_free_filter).
  split; [done|]. split; [done|]. split; [|split].
  - intros now clock Hnow. assert (Et : rows_with d1 token = [stored]) by (by rewrite Hrows, Hnone, bool_decide_eq_true_2).
    rewrite authenticate_view by (done || by rewrite Et). rewrite Et. cbv zeta.
    rewrite (proj2 (Z.eqb_neq now 0)) by done. change (int_or stored "expires_at") with expires.
    destruct (_ && _); [done|]. by rewrite Ht, split_ws_join.
  - intros other now clock Hne Hone. assert (Eo : rows_with d1 other = rows_with d other)
      by (rewrite Hrows, bool_decide_eq_false_2 by congruence; by rewrite app_nil_r).
    rewrite !authenticate_view by (done || by rewrite Eo). rewrite Eo.
    destruct (rows_with d other) as [|r l]; [done|]. cbv zeta. by destruct (_ && _).
  - destruct (tl_remove table id d1 tt_known Hok1) as (d2 & Hok2 & Er & Hv2 & _). exists d2. unfold revoke. rewrite Er.
    split.
    + rewrite bool_decide_eq_true_2; [done|]. rewrite Hv, find_row_app, Hf. cbn [find_row].
      unfold stored. by rewrite is_id_set.
    + intros now clock. assert (E2 : rows_with d2 token = []).
      { unfold rows_with. rewrite Hv2, Hv. apply hash_free_filter.
        apply Forall_forall. intros r Hr%list_elem_of_In%filter_In. destruct Hr as [Hr Hn].
        apply in_app_or in Hr as [Hr|[<-|[]]].
        - eapply Forall_forall in Hfree; [done|]. by apply list_elem_of_In.
        - unfold stored in Hn. by rewrite is_id_set in Hn. }
      rewrite authenticate_view by (done || by rewrite E2; cbn; lia). by rewrite E2.
Qed.
End lifecycle.

Lemma token_lifecycle_witness :
  let hash := fun s : string => s in
  let token := random_token "secret" in
  exists id d1,
    issue MemoryConnection hash "pat" "secret" 7 "cli" ["post"; "room:library"] 100 empty_memory
      = (Ok (mkIssued id token), d1) /\
    authenticate MemoryConnection hash "pat" token 50 0 d1
      = (Ok (Some (mkPatRecord id 7 100 "cli" ["post"; "room:library"])), d1) /\
    authenticate MemoryConnection hash "pat" token 101 0 d1 = (Ok None, d1) /\
    exists d2, revoke MemoryConnection "pat" id d1 = (Ok true, d2).
Proof.
  intros hash token.
  destruct (token_lifecycle hash "pat" MemoryConnection memory_ok rows_of memory_room (fun _ => True) (fun _ _ => True) id "secret" 7 "cli" ["post"; "room:library"] 100
    empty_memory) as (id & d1 & E & _ & Ha & _ & d2 & Er & _).
  - split; [|done]. split; intros t x Hx; cbn in Hx; by rewrite lookup_empty in Hx.
  - vm_compute; reflexivity.
  - repeat constructor; try done; by_eval.
  - done.
  - done.
  - by apply Forall_nil.
  - exists id, d1. split; [exact E|]. split; [apply (Ha 50 0); lia|]. split; [apply (Ha 101 0); lia|].
    exists d2. exact Er.
Defined.

(** An ability that contains a blank comes back as several. *)
Lemma ability_with_blank_splits : split_ws (join ["edit posts"]) = ["edit"; "posts"].
Proof. reflexivity. Qed.
