(* ===== verification/Validation.v ===== *)
(** * validation.hpp: request validation

    [Validator] checks a field map against pipe-delimited rule strings and collects
    messages per field.  Against the rule language as data ([Rule], printed by
    [rule_text]) a validation passes exactly when every rule holds of its field. *)
From S2P Require Import Prelude CppString CppNum.

Local Open Scope Z_scope.

Definition Errors : Type := gmap string (list string).
Record Validator : Type := mkValidator { data_ : gmap string string; errors_ : Errors }.
Definition new_validator (data : gmap string string) : Validator := mkValidator data ∅.

Definition value_of (v : Validator) (field : string) : string :=
  match data_ v !! field with Some x => x | None => "" end.
(** [errors_[field].push_back(msg)]. *)
Definition add (field msg : string) (e : Errors) : Errors :=
  <[field := match e !! field with Some l => l | None => [] end ++ [msg]]> e.

Definition is_sign (c : ascii) : bool := is_char "-" c || is_char "+" c.
Definition is_integer (v : string) : bool :=
  let i := match v with String c _ => if is_sign c then 1%nat else 0%nat | "" => 0%nat end in
  if (i =? len v)%nat then false else forallb is_digit (chars (s_drop i v)).
Definition to_long (v : string) : Z := match stol v with Ok z => z | Throw _ => 0 end.
(** [static_cast<long>(v.size())] when the text is no integer. *)
Definition measure (v : string) : Z := if is_integer v then to_long v else s64 (size v).

Definition split_param (rule : string) : string * string :=
  match find_chr rule ":" 0 with
  | None => (rule, "")
  | Some colon => (substr rule 0 colon, substr_from rule (colon + 1))
  end.

Definition is_email (value : string) : bool :=
  match find_chr value "@" 0 with
  | None => false
  | Some at_ => match find_chr value "." at_ with None => false | Some _ => true end
  end.

Definition check (field value rule param : string) (e : Errors) : Errors :=
  if bool_decide (rule = "integer") then
    if negb (is_integer value) then add field ("The " +:+ field +:+ " must be an integer.") e else e
  else if bool_decide (rule = "boolean") then
    if negb (bool_decide (value = "0")) && negb (bool_decide (value = "1")) &&
       negb (bool_decide (value = "true")) && negb (bool_decide (value = "false"))
    then add field ("The " +:+ field +:+ " must be true or false.") e else e
  else if bool_decide (rule = "email") then
    if negb (is_email value) then add field ("The " +:+ field +:+ " must be a valid email address.") e else e
  else if bool_decide (rule = "min") then
    if measure value <? to_long param
    then add field ("The " +:+ field +:+ " is too small (min " +:+ param +:+ ").") e else e
  else if bool_decide (rule = "max") then
    if to_long param <? measure value
    then add field ("The " +:+ field +:+ " is too large (max " +:+ param +:+ ").") e else e
  else if bool_decide (rule = "in") then
    if negb (existsb (fun opt => bool_decide (opt = value)) (split_chr "," param))
    then add field ("The selected " +:+ field +:+ " is invalid.") e else e
  else e.

(** The loop body over one rule of a field, over the rules of a field, over the fields. *)
Definition apply_rule (field value : string) (e : Errors) (rule : string) : Errors :=
  let (name, param) := split_param rule in
  if bool_decide (name = "required") then
    if bool_decide (value = "") then add field ("The " +:+ field +:+ " field is required.") e else e
  else if bool_decide (value = "") then e
  else check field value name param e.
Definition apply_field (v : Validator) (e : Errors) (entry : string * string) : Errors :=
  foldl (apply_rule entry.1 (value_of v entry.1)) e (split_chr "|" entry.2).
Definition passes (v : Validator) : bool := bool_decide (errors_ v = ∅).
Definition fails (v : Validator) : bool := negb (passes v).
Definition validate (rules : list (string * string)) (v : Validator) : bool * Validator :=
  let v' := mkValidator (data_ v) (foldl (apply_field v) ∅ rules) in (passes v', v').

(** ** The rule language *)
Inductive Rule : Type :=
  | Required | IsInteger | IsBoolean | IsEmail
  | MinOf (n : Z) | MaxOf (n : Z) | OneOf (options : list string).
#[export] Instance rule_eq_dec : EqDecision Rule.
Proof. solve_decision. Defined.
Definition rule_text (r : Rule) : string :=
  match r with
  | Required => "required"
  | IsInteger => "integer"
  | IsBoolean => "boolean"
  | IsEmail => "email"
  | MinOf n => "min:" +:+ to_string n
  | MaxOf n => "max:" +:+ to_string n
  | OneOf options => "in:" +:+ join_chr "," options
  end.
Definition rules_text (rs : list Rule) : string := join_chr "|" (map rule_text rs).
Definition rule_ok (r : Rule) : bool :=
  match r with
  | MinOf n | MaxOf n => in_s64 n
  | OneOf options =>
      negb (bool_decide (options = [])) &&
      forallb (fun o => bool_decide (no_chr "," o) && bool_decide (no_chr "|" o)) options
  | _ => true
  end.

(** A signed decimal numeral, and what [min] and [max] compare. *)
Definition numeral (v : string) (z : Z) : Prop :=
  exists sign ds, v = sign +:+ ds /\ ds ≠ "" /\ s_all is_digit ds /\
    ((sign = "-" /\ z = - read_digits 0 ds) \/ ((sign = "+" \/ sign = "") /\ z = read_digits 0 ds)).
Definition magnitude (v : string) (m : Z) : Prop :=
  (exists z, numeral v z /\ m = if in_s64 z then z else 0) \/
  ((forall z, ~ numeral v z) /\ m = s64 (size v)).
Definition satisfied (r : Rule) (value : string) : Prop :=
  match r with
  | Required => value ≠ ""
  | IsInteger => value = "" \/ exists z, numeral value z
  | IsBoolean => value = "" \/ value ∈ ["0"; "1"; "true"; "false"]
  | IsEmail => value = "" \/ exists a b c, value = a +:+ String "@" (b +:+ String "." c)
  | MinOf n => value = "" \/ exists m, magnitude value m /\ n <= m
  | MaxOf n => value = "" \/ exists m, magnitude value m /\ m <= n
  | OneOf options => value = "" \/ value ∈ options
  end.

(** ** Numerals *)
Lemma read_digits_parse ds : ds ≠ "" -> s_all is_digit ds -> starts_digit ds = true.
Proof. destruct ds as [|c ds]; [done|]. rewrite s_all_cons. by intros _ [Hc _]. Qed.

Lemma numeral_parse v z : numeral v z -> parse_int v = Some z.
Proof.
  intros (sign & ds & -> & Hne & Hd & Hz). pose proof (read_digits_parse ds Hne Hd) as Hs.
  assert (Hp : forall c, is_space c = false -> is_sign c = true ->
                parse_int (String c ds) = Some (if is_char "-" c then - read_digits 0 ds else read_digits 0 ds)).
  { intros c Hc Hc'. unfold parse_int. cbn [skip_spaces]. rewrite Hc. unfold is_sign in Hc'. bools.
    destruct (is_char "-" c); [by rewrite Hs|]. cbn in Hc'. by rewrite Hc', Hs. }
  destruct Hz as [[-> ->]|[[->| ->] ->]]; rewrite ?s_app_cons, s_app_nil_l.
  - by rewrite Hp.
  - by rewrite Hp.
  - destruct ds as [|c ds]; [done|]. cbn in Hs. unfold parse_int. cbn [skip_spaces].
    by rewrite (digit_not_space c Hs), !digit_not_char, Hs.
Qed.

Lemma forallb_digits s : forallb is_digit (chars s) = true <-> s_all is_digit s.
Proof.
  unfold s_all. rewrite forallb_forall, Forall_forall. setoid_rewrite list_elem_of_In. done.
Qed.

Lemma is_integer_sign c ds : is_sign c = true ->
  is_integer (String c ds) = negb (bool_decide (ds = "")) && forallb is_digit (chars ds).
Proof.
  intros Hc. unfold is_integer. rewrite Hc. by destruct ds as [|d ds].
Qed.
Lemma is_integer_plain v : (forall c s, v = String c s -> is_sign c = false) ->
  is_integer v = negb (bool_decide (v = "")) && forallb is_digit (chars v).
Proof.
  intros H. destruct v as [|c s]; [done|]. unfold is_integer. by rewrite (H c s).
Qed.
Lemma digit_no_sign c : is_digit c = true -> is_sign c = false.
Proof. intros H. unfold is_sign. by rewrite !digit_not_char. Qed.

Lemma is_integer_iff v : is_integer v = true <-> exists z, numeral v z.
Proof.
  split.
  - intros H. destruct v as [|c ds]; [done|]. destruct (is_sign c) eqn:Hc.
    + rewrite is_integer_sign in H by done. bools. unfold is_sign in Hc. apply orb_true_iff in Hc.
      unfold numeral. destruct Hc as [<-%bool_decide_eq_true|<-%bool_decide_eq_true].
      * exists (- read_digits 0 ds), "-", ds. rewrite <- forallb_digits. eauto 10.
      * exists (read_digits 0 ds), "+", ds. rewrite <- forallb_digits. eauto 10.
    + rewrite is_integer_plain in H by (intros ? ? E; by injection E as <- <-). bools.
      exists (read_digits 0 (String c ds)), "", (String c ds). rewrite <- forallb_digits. eauto 10.
  - intros (z & sign & ds & -> & Hne & Hd & Hz). apply forallb_digits in Hd as Hd'.
    destruct Hz as [[-> _]|[[->| ->] _]]; rewrite ?s_app_cons, s_app_nil_l.
    1,2: rewrite is_integer_sign by done; rewrite Hd'; by rewrite bool_decide_eq_false_2.
    rewrite is_integer_plain; [by rewrite Hd', bool_decide_eq_false_2|].
    intros c s ->. apply s_all_cons in Hd as [Hc _]. by apply digit_no_sign.
Qed.

Lemma magnitude_measure v m : magnitude v m <-> m = measure v.
Proof.
  unfold measure. destruct (is_integer v) eqn:E.
  - apply is_integer_iff in E as E'. destruct E' as [z Hz]. unfold to_long, stol, stoll.
    rewrite (numeral_parse v z Hz). split.
    + intros [(z' & Hz' & ->)|[Hn _]]; [|by destruct (Hn z)].
      pose proof (numeral_parse v z' Hz') as Hp. rewrite (numeral_parse v z Hz) in Hp.
      injection Hp as ->. by destruct (in_s64 z').
    + intros ->. left. exists z. split; [done|]. by destruct (in_s64 z).
  - split.
    + intros [(z & Hz & _)|[_ ->]]; [|done].
      rewrite (proj2 (is_integer_iff v)) in E by eauto. done.
    + intros ->. right. split; [|done]. intros z Hz.
      rewrite (proj2 (is_integer_iff v)) in E by eauto. done.
Qed.

Lemma find_chr_first v c k : find_chr v c 0 = Some k ->
  exists u w, v = u +:+ String c w /\ len u = k /\ no_chr c u.
Proof.
  intros E. apply find_chr_split in E as (Hb & Ev & Hn). rewrite s_drop_0, Nat.sub_0_r in *.
  exists (substr v 0 k), (s_drop (S k) v). split; [done|]. split; [|done].
  unfold substr. rewrite length_s_take, length_s_drop. lia.
Qed.

Lemma first_unique c u w a b : no_chr c u -> u +:+ String c w = a +:+ String c b -> (len u <= len a)%nat.
Proof.
  revert a. induction u as [|d u IH]; intros a Hn E; [cbn; lia|]. apply no_chr_cons in Hn as [Hd Hn].
  destruct a as [|e a]; cbn in E; injection E as -> E; [done|]. apply IH in E; [cbn; lia|done].
Qed.

Lemma is_email_iff v : is_email v = true <-> exists a b c, v = a +:+ String "@" (b +:+ String "." c).
Proof.
  unfold is_email. destruct (find_chr v "@" 0) as [at_|] eqn:E.
  - apply find_chr_first in E as (u & w & -> & <- & Hn).
    destruct (find_chr _ "." _) as [k|] eqn:E2.
    + split; [intros _|done]. apply find_chr_split in E2 as (_ & E2 & _).
      rewrite s_drop_app in E2 by done. destruct (substr _ _ _) as [|c b]; [done|].
      rewrite s_app_cons in E2. injection E2 as -> ->. eauto.
    + split; [done|]. intros (a & b & c & E). apply find_chr_none in E2. exfalso.
      pose proof (first_unique _ _ _ _ _ Hn E) as Hle. rewrite E, s_drop_app_le in E2 by done.
      apply no_chr_app in E2 as [_ E2]. apply no_chr_cons in E2 as [_ E2].
      apply no_chr_app in E2 as [_ E2]. by apply no_chr_cons in E2 as [? _].
  - split; [done|]. intros (a & b & c & ->). apply find_chr_none in E. rewrite s_drop_0 in E.
    apply no_chr_app in E as [_ E]. by apply no_chr_cons in E as [? _].
Qed.

(** ** Rules *)
Lemma split_param_text n t : no_chr ":" n -> split_param (n +:+ String ":" t) = (n, t).
Proof.
  intros Hn. unfold split_param. rewrite find_chr_hit by done. unfold substr, substr_from.
  rewrite s_drop_0, s_take_app by done. f_equal. rewrite s_drop_app_ge by lia.
  by replace (len n + 1 - len n)%nat with 1%nat by lia.
Qed.

Lemma to_long_text n : in_s64 n = true -> to_long (to_string n) = n.
Proof.
  intros Hn. unfold to_long, stol. rewrite <- (s_app_nil_r (to_string n)). by rewrite stoll_to_string.
Qed.

Lemma in_options_iff (options : list string) value :
  options ≠ [] -> Forall (no_chr ",") options ->
  existsb (fun opt => bool_decide (opt = value)) (split_chr "," (join_chr "," options)) = true <-> value ∈ options.
Proof.
  intros Hne Hf. rewrite split_chr_join by done. rewrite existsb_exists, list_elem_of_In. split.
  - intros (x & Hx & ->%bool_decide_eq_true). done.
  - intros H. exists value. split; [done|]. by apply bool_decide_eq_true.
Qed.

Lemma rule_ok_options options : rule_ok (OneOf options) = true ->
  options ≠ [] /\ Forall (no_chr ",") options /\ Forall (no_chr "|") options.
Proof.
  cbn. intros H. bools. split; [done|]. rewrite forallb_forall in H0.
  split; apply Forall_forall; intros x Hx%list_elem_of_In%H0; by bools.
Qed.

(** One rule: the errors are untouched when it holds and gain a message for the field when not. *)
Definition verdict (field value : string) (e : Errors) (r : Rule) (e' : Errors) : Prop :=
  (satisfied r value /\ e' = e) \/ (~ satisfied r value /\ exists msg, e' = add field msg e).

Lemma verdict_if (P : Prop) (b : bool) field msg e :
  (b = true <-> ~ P) -> (P \/ ~ P) ->
  (P /\ (if b then add field msg e else e) = e) \/ (~ P /\ exists m, (if b then add field msg e else e) = add field m e).
Proof. intros Hb HP. destruct b; [right|left]; (split; [|eauto]); [by apply Hb|]. destruct HP as [|H]; [done|by apply Hb in H]. Qed.

Lemma verdict_bool (P : Prop) (b : bool) field msg e :
  (b = false <-> P) ->
  (P /\ (if b then add field msg e else e) = e) \/ (~ P /\ exists m, (if b then add field msg e else e) = add field m e).
Proof. intros Hb. destruct b; [right|left; split; [by apply Hb|done]]. split; [intros H%Hb; done|eauto]. Qed.

Lemma check_verdict field value e r :
  rule_ok r = true -> value ≠ "" -> r ≠ Required ->
  verdict field value e r (check field value (split_param (rule_text r)).1 (split_param (rule_text r)).2 e).
Proof.
  intros Hr Hv Hq.
  assert (Hor : forall P, value = "" \/ P <-> P) by (intros P; split; [by intros [|]|by right]).
  unfold verdict. destruct r as [| | | |n|n|options]; cbn [satisfied rule_text]; [done|..]; rewrite Hor.
  - apply verdict_bool. by rewrite negb_false_iff, is_integer_iff.
  - apply verdict_bool. rewrite !andb_false_iff, !negb_false_iff, !bool_decide_eq_true, !elem_of_cons, elem_of_nil.
    tauto.
  - apply verdict_bool. by rewrite negb_false_iff, is_email_iff.
  - change ("min:" +:+ ?x) with ("min" +:+ String ":" x). rewrite split_param_text by by_eval.
    cbn [fst snd]. unfold check. cbn [rule_ok] in Hr.
    apply verdict_bool. rewrite to_long_text by done. rewrite Z.ltb_ge. split.
    + intros H. exists (measure value). by rewrite magnitude_measure.
    + intros (m & ->%magnitude_measure & H). done.
  - change ("max:" +:+ ?x) with ("max" +:+ String ":" x). rewrite split_param_text by by_eval.
    apply verdict_bool. cbn [snd]. rewrite to_long_text by done. rewrite Z.ltb_ge. split.
    + intros H. exists (measure value). by rewrite magnitude_measure.
    + intros (m & ->%magnitude_measure & H). done.
  - change ("in:" +:+ ?x) with ("in" +:+ String ":" x). rewrite split_param_text by by_eval.
    apply rule_ok_options in Hr as (Hne & Hc & _).
    apply verdict_bool. cbn [snd]. by rewrite negb_false_iff, in_options_iff.
Qed.

Lemma rule_name r : r ≠ Required -> (split_param (rule_text r)).1 ≠ "required".
Proof.
  by destruct r.
Qed.

Lemma apply_rule_verdict field value e r :
  rule_ok r = true -> verdict field value e r (apply_rule field value e (rule_text r)).
Proof.
  intros Hr. destruct (decide (r = Required)) as [->|Hq].
  - unfold verdict, apply_rule. change (split_param (rule_text Required)) with ("required", "").
    cbv beta iota. rewrite (bool_decide_eq_true_2 ("required" = "required")) by done. cbn [satisfied]. destruct (bool_decide_reflect (value = "")); [right; split; [tauto|eauto]|left; by split].
  - unfold apply_rule. pose proof (check_verdict field value e r Hr) as H.
    destruct (split_param (rule_text r)) as [name param] eqn:E. cbn [fst snd] in H.
    assert (Hn : name ≠ "required") by (pose proof (rule_name r Hq) as Hn; by rewrite E in Hn).
    rewrite bool_decide_eq_false_2 by done. destruct (bool_decide_reflect (value = "")); [|by apply H].
    left. split; [|done]. destruct r; try done; by left.
Qed.

(** ** Whole validations *)
Lemma lookup_add field msg e f :
  add field msg e !! f = if decide (f = field) then Some (match e !! field with Some l => l | None => [] end ++ [msg])
                         else e !! f.
Proof.
  unfold add. destruct (decide (f = field)) as [->|Hne]; [apply lookup_insert_eq|by apply lookup_insert_ne].
Qed.
Lemma lookup_add_None field msg e f : add field msg e !! f = None <-> f ≠ field /\ e !! f = None.
Proof. rewrite lookup_add. destruct (decide (f = field)); [|tauto]. split; [done|tauto]. Qed.

(** The messages of a field stay absent exactly when the rules folded over it hold. *)
Lemma fold_rules_None field value rs e f :
  Forall (fun r => rule_ok r = true) rs ->
  foldl (apply_rule field value) e (map rule_text rs) !! f = None <->
  e !! f = None /\ (f = field -> Forall (fun r => satisfied r value) rs).
Proof.
  intros Hok. revert e. induction Hok as [|r rs Hr Hrs IH]; intros e; cbn [map foldl].
  - split; [by auto|by intros [? _]].
  - rewrite IH, Forall_cons. destruct (apply_rule_verdict field value e r Hr) as [[Hs ->]|[Hs [msg ->]]].
    + tauto.
    + rewrite lookup_add_None. split; [by intros [[? ?] _]|]. intros [H1 H2].
      destruct (decide (f = field)) as [Hf|Hf]; [by destruct (H2 Hf)|]. tauto.
Qed.

Lemma rule_text_no_bar r : rule_ok r = true -> no_chr "|" (rule_text r).
Proof.
  assert (Hz : forall p n, no_chr "|" p -> no_chr "|" (p +:+ to_string n)).
  { intros p n Hp. apply no_chr_app. split; [done|]. by apply to_string_no_chr. }
  intros Hr. destruct r; cbn [rule_text]; try by_eval; try (apply Hz; by_eval).
  apply rule_ok_options in Hr as (_ & _ & Hb). apply no_chr_app. split; [by_eval|].
  induction Hb as [|o l Ho Hl IH]; [by_eval|]. cbn. destruct l; [done|].
  apply no_chr_app. split; [done|]. apply no_chr_cons. split; [done|apply IH].
Qed.

Lemma split_rules_text rs :
  rs ≠ [] -> Forall (fun r => rule_ok r = true) rs -> split_chr "|" (rules_text rs) = map rule_text rs.
Proof.
  intros Hne Hok. apply split_chr_join; [by destruct rs|]. apply Forall_map.
  eapply Forall_impl; [done|]. apply rule_text_no_bar.
Qed.

Definition entry_ok (entry : string * list Rule) : Prop :=
  entry.2 ≠ [] /\ Forall (fun r => rule_ok r = true) entry.2.
Definition entry_text (entry : string * list Rule) : string * string := (entry.1, rules_text entry.2).

Lemma fold_fields_None v (entries : list (string * list Rule)) e f :
  Forall entry_ok entries ->
  foldl (apply_field v) e (map entry_text entries) !! f = None <->
  e !! f = None /\ forall rs, (f, rs) ∈ entries -> Forall (fun r => satisfied r (value_of v f)) rs.
Proof.
  intros Hok. revert e. induction Hok as [|[g rs] entries [Hne Hr] _ IH]; intros e; cbn [map foldl].
  - split; [intros H; split; [done|]; by intros rs H'%elem_of_nil|by intros [? _]].
  - rewrite IH. unfold apply_field at 1. cbn [entry_text fst snd]. rewrite split_rules_text by done.
    rewrite fold_rules_None by done. setoid_rewrite elem_of_cons. split.
    + intros [[He Hf] Hrest]. split; [done|]. intros rs' [[= <- <-]|H]; [by apply Hf|by apply Hrest].
    + intros [He H]. split; [split; [done|]|by eauto]. intros <-. apply H. by left.
Qed.

(** Validation decides the rule language.  For rules given as data and printed as
    pipe-delimited text, a field has messages exactly when one of its rules fails of its
    value (a missing field reads as empty, and an empty value fails [required] only), and
    [validate] returns true exactly when every rule of every field holds.  The messages of
    an earlier validation are forgotten. *)
Theorem validate_decides_rules (v : Validator) (entries : list (string * list Rule)) :
  Forall entry_ok entries ->
  let (ok, v') := validate (map entry_text entries) v in
  data_ v' = data_ v /\
  (forall f, errors_ v' !! f = None <->
     forall rs, (f, rs) ∈ entries -> Forall (fun r => satisfied r (value_of v f)) rs) /\
  (ok = true <-> forall f rs, (f, rs) ∈ entries -> Forall (fun r => satisfied r (value_of v f)) rs).
Proof.
  intros Hok. unfold validate. cbn [data_ errors_]. split; [done|].
  assert (H : forall f, foldl (apply_field v) ∅ (map entry_text entries) !! f = None <->
     forall rs, (f, rs) ∈ entries -> Forall (fun r => satisfied r (value_of v f)) rs).
  { intros f. rewrite fold_fields_None by done. pose proof (lookup_empty (A:=list string) f : (∅ : Errors) !! f = None).
    tauto. }
  split; [done|]. unfold passes. cbn [errors_]. rewrite bool_decide_eq_true. split.
  - intros E f. apply H. rewrite E. apply (lookup_empty (A:=list string)).
  - intros Hall. apply map_empty. intros f. apply H. apply Hall.
Qed.

Lemma validate_decides_rules_witness :
  let v := new_validator {["age" := "17"; "mail" := "a@b.c"]} in
  let entries := [("mail", [Required; IsEmail]); ("age", [IsInteger; MinOf 18])] in
  (validate (map entry_text entries) v).1 = false /\ entry_ok ("age", [IsInteger; MinOf 18]) /\
  (errors_ (validate (map entry_text entries) v).2 !! "mail" = None <->
   forall rs, ("mail", rs) ∈ entries -> Forall (fun r => satisfied r (value_of v "mail")) rs).
Proof.
  intros v entries. split; [vm_compute; reflexivity|]. split; [split; [done|]; repeat constructor|].
  assert (H : Forall entry_ok entries) by (repeat constructor; done).
  pose proof (validate_decides_rules v entries H) as Ht.
  destruct (validate (map entry_text entries) v) as [ok v']. destruct Ht as (_ & Hf & _). apply (Hf "mail").
Defined.

(** A number too large for [long] measures 0, so it slips under any [max]. *)
Lemma huge_integer_passes_max :
  (validate [("n", "integer|max:10")] (new_validator {["n" := "99999999999999999999"]})).1 = true.
Proof. vm_compute. reflexivity. Qed.
