(* ===== verification/Config.v ===== *)
(** * config.hpp: .env files and the configuration store

    [parse_env] reads back files printed from typed lines ([EnvLine]): blank lines,
    comments and assignments, quoted or plain. *)
From S2P Require Import Prelude CppString CppNum Http.

Definition newline : ascii := chr 10.
Definition env_ws (c : ascii) : bool := is_char " " c || is_char (chr 9) c || is_char (chr 13) c.

Definition is_quote (c : ascii) : bool := is_char quote c || is_char (chr 39) c.
(** Strip one pair of matching quotes. *)
Definition unquote (val : string) : string :=
  match s_at val 0, s_at val (len val - 1) with
  | Some front, Some back =>
      if (2 <=? len val) && is_quote front && is_char front back then substr val 1 (len val - 2) else val
  | _, _ => val
  end.

Definition parse_env_line (out : gmap string string) (line : string) : gmap string string :=
  match find_first_not env_ws line 0 with
  | None => out
  | Some b =>
      match s_at line b with
      | Some c =>
          if is_char "#" c then out
          else
            match find_chr line "=" b with
            | None => out
            | Some eq =>
                let key := trim_set env_ws (substr line b (eq - b)) in
                let val := unquote (trim_set env_ws (substr_from line (eq + 1))) in
                if bool_decide (key = "") then out else <[key := val]> out
            end
      | None => out
      end
  end.
Definition parse_env (text : string) : gmap string string :=
  fold_left parse_env_line (pieces newline text) ∅.

(** ** The store *)
Abbreviation Config := (gmap string string).
Definition set (key value : string) (c : Config) : Config := <[key := value]> c.
Definition has (key : string) (c : Config) : bool := bool_decide (is_Some (c !! key)).
Definition get (key def : string) (c : Config) : string :=
  match c !! key with Some v => v | None => def end.
Definition get_int (key : string) (def : Z) (c : Config) : Z :=
  match c !! key with
  | None => def
  | Some v => match stol v with Ok z => z | Throw _ => def end
  end.
Definition get_bool (key : string) (def : bool) (c : Config) : bool :=
  match c !! key with
  | None => def
  | Some v => bool_decide (v = "1") || bool_decide (v = "true") || bool_decide (v = "yes") || bool_decide (v = "on")
  end.
Section merge.
Context `{MapOrder string}.
Definition merge (items : gmap string string) (c : Config) : Config :=
  fold_left (fun c kv => <[kv.1 := kv.2]> c) (iter_map items) c.
End merge.

(** ** Files as data *)
Inductive EnvLine : Type :=
  | Blank (ws : string)
  | Comment (ws text : string)
  | Assign (ws key : string) (q : option ascii) (value : string).
Definition quoted_with (q : option ascii) (value : string) : string :=
  match q with Some c => str1 c +:+ value +:+ str1 c | None => value end.
Definition line_text (l : EnvLine) : string :=
  match l with
  | Blank ws => ws
  | Comment ws text => ws +:+ "#" +:+ text
  | Assign ws key q value => ws +:+ key +:+ "=" +:+ quoted_with q value
  end.
Definition env_text (ls : list EnvLine) : string := s_concat (map (fun l => line_text l +:+ str1 newline) ls).
Definition line_entry (l : EnvLine) : option (string * string) :=
  match l with Assign _ key _ value => Some (key, value) | _ => None end.

Definition key_ok (key : string) : Prop :=
  key ≠ "" /\ trimmed env_ws key /\ no_chr "=" key /\ no_chr newline key /\ s_at key 0 ≠ Some "#"%char.
Definition value_ok (q : option ascii) (value : string) : Prop :=
  no_chr newline value /\
  match q with
  | Some c => is_quote c = true
  | None => trimmed env_ws value /\ unquote value = value
  end.
Definition line_ok (l : EnvLine) : Prop :=
  match l with
  | Blank ws => s_all env_ws ws
  | Comment ws text => s_all env_ws ws /\ no_chr newline text
  | Assign ws key q value => s_all env_ws ws /\ key_ok key /\ value_ok q value
  end.

Lemma pieces_go_lines sep l fuel :
  Forall (no_chr sep) l -> length l < fuel ->
  pieces_go fuel sep (s_concat (map (fun p => p +:+ str1 sep) l)) 0 = l.
Proof.
  intros Hl. revert fuel. induction Hl as [|p l Hp Hl IH]; intros fuel Hf; destruct fuel as [|fuel]; cbn in Hf; try lia;
    [done|]. cbn [map s_concat foldr pieces_go]. fold (s_concat (map (fun p => p +:+ str1 sep) l)).
  set (rest := s_concat _) in *. rewrite s_app_assoc. change (str1 sep +:+ rest) with (String sep rest).
  replace (0 <? len (p +:+ String sep rest)) with true
    by (symmetry; apply Nat.ltb_lt; rewrite length_s_app; cbn; lia).
  rewrite find_chr_hit by done. rewrite substr_head. f_equal. etrans; [|apply (IH fuel); lia]. fold rest.
  replace (p +:+ String sep rest) with ((p +:+ str1 sep) +:+ rest) by (by rewrite s_app_assoc).
  replace (len p + 1) with (len (p +:+ str1 sep) + 0) by (rewrite length_s_app; cbn; lia).
  apply pieces_go_shift.
Qed.
Lemma pieces_lines sep l :
  Forall (no_chr sep) l -> pieces sep (s_concat (map (fun p => p +:+ str1 sep) l)) = l.
Proof.
  intros Hl. apply pieces_go_lines; [done|]. clear Hl. induction l as [|p l IH]; [cbn; lia|].
  cbn [map length]. change (s_concat (?x :: ?y)) with (x +:+ s_concat y). rewrite !length_s_app.
  change (len (str1 sep)) with 1. lia.
Qed.

Lemma ws_no_newline ws : s_all env_ws ws -> no_chr newline ws.
Proof.
  intros H. unfold no_chr, s_all in *. intros Hin. eapply Forall_forall in H; [|done]. by vm_compute in H.
Qed.

Lemma line_no_newline l : line_ok l -> no_chr newline (line_text l).
Proof.
  destruct l as [ws|ws text|ws key q value]; cbn [line_ok line_text].
  - apply ws_no_newline.
  - intros [Hw Ht]. apply no_chr_app. split; [by apply ws_no_newline|]. apply no_chr_app. split; [by_eval|done].
  - intros (Hw & (_ & _ & _ & Hk & _) & Hv & Hq). apply no_chr_app. split; [by apply ws_no_newline|].
    apply no_chr_app. split; [done|]. apply no_chr_app. split; [by_eval|].
    destruct q as [c|]; [|done]. assert (Hc : newline ≠ c) by (intros <-; by vm_compute in Hq).
    cbn [quoted_with]. rewrite !no_chr_app. unfold str1. rewrite no_chr_cons. by repeat split.
Qed.

Lemma unquote_quoted c value : is_quote c = true -> unquote (str1 c +:+ value +:+ str1 c) = value.
Proof.
  intros Hc. unfold unquote. change (str1 c +:+ value +:+ str1 c) with (String c (value +:+ str1 c)).
  assert (Hl : len (String c (value +:+ str1 c)) = S (S (len value))) by (cbn; rewrite length_s_app; cbn; lia).
  rewrite Hl. cbn [s_at]. replace (S (S (len value)) - 1) with (S (len value + 0)) by lia. cbn [s_at].
  rewrite s_at_app_r. cbn [s_at str1]. rewrite Hc. unfold is_char. rewrite bool_decide_eq_true_2 by done.
  change (2 <=? S (S (len value))) with true. cbn [andb]. unfold substr. cbn [s_drop].
  replace (S (S (len value)) - 2) with (len value) by lia. by apply s_take_app.
Qed.

Lemma trimmed_quoted c value : env_ws c = false -> trimmed env_ws (str1 c +:+ value +:+ str1 c).
Proof.
  intros Hc. split; [done|]. exists (str1 c +:+ value), c. split; [by rewrite s_app_assoc|done].
Qed.

Lemma quote_no_ws c : is_quote c = true -> env_ws c = false.
Proof.
  unfold is_quote, is_char. intros H. apply orb_true_iff in H as [<-%bool_decide_eq_true|<-%bool_decide_eq_true];
    vm_compute; reflexivity.
Qed.

Lemma find_first_not_ws ws c t : s_all env_ws ws -> env_ws c = false ->
  find_first_not env_ws (ws +:+ String c t) 0 = Some (len ws).
Proof.
  intros Hw Hc. unfold find_first_not. rewrite s_drop_0, findp0_hit; [done| |by rewrite Hc].
  eapply Forall_impl; [exact Hw|]. cbn. by intros x ->.
Qed.

Lemma parse_line_text l out :
  line_ok l ->
  parse_env_line out (line_text l) = match line_entry l with Some kv => <[kv.1 := kv.2]> out | None => out end.
Proof.
  destruct l as [ws|ws text|ws key q value]; cbn [line_ok line_text line_entry].
  - intros Hw. unfold parse_env_line, find_first_not. rewrite s_drop_0. rewrite (proj2 (findp0_none _ _)); [done|].
    eapply Forall_impl; [exact Hw|]. cbn. by intros x ->.
  - intros [Hw _]. unfold parse_env_line. change ("#" +:+ text) with (String "#" text).
    rewrite find_first_not_ws by done. rewrite <- (Nat.add_0_r (len ws)), s_at_app_r. done.
  - intros (Hw & (Hne & Ht & He & _ & Hh) & _ & Hq). unfold parse_env_line.
    destruct key as [|c key]; [done|]. destruct Ht as [Hc Ht]. rewrite !s_app_cons.
    rewrite find_first_not_ws by done.
    replace (s_at _ (len ws)) with (Some c) by (rewrite <- (Nat.add_0_r (len ws)), s_at_app_r; done).
    assert (Hx : is_char "#" c = false) by (apply bool_decide_eq_false; intros <-; by apply Hh).
    rewrite Hx, <- s_app_cons. change ("=" +:+ ?x) with (String "=" x).
    rewrite (find_chr_at _ "=" (len ws) ws (String c key) (quoted_with q value)) by done.
    replace (substr _ (len ws) _) with (String c key).
    2:{ unfold substr. rewrite s_drop_app, s_take_app by lia. done. }
    replace (substr_from _ _) with (quoted_with q value).
    2:{ unfold substr_from. rewrite s_drop_app_ge by lia. rewrite s_drop_app_ge by lia.
        by replace (len ws + len (String c key) + 1 - len ws - len (String c key)) with 1 by lia. }
    rewrite (trim_set_id env_ws (String c key)) by (by split).
    rewrite bool_decide_eq_false_2 by done. cbn [fst snd]. do 2 f_equal.
    destruct q as [d|]; cbn [quoted_with].
    + rewrite trim_set_id by (by apply trimmed_quoted, quote_no_ws). by apply unquote_quoted.
    + destruct Hq as [Hv Hu]. by rewrite trim_set_id.
Qed.

Lemma parse_env_text ls :
  Forall line_ok ls -> parse_env (env_text ls) = last_wins (omap line_entry ls).
Proof.
  intros Hok. unfold parse_env, env_text. rewrite <- (map_map line_text (fun s => s +:+ str1 newline)).
  rewrite pieces_lines by (apply Forall_map; eapply Forall_impl; [done|]; apply line_no_newline).
  unfold last_wins. generalize (∅ : gmap string string) as m.
  induction Hok as [|l ls Hl _ IH]; intros m; [done|]. cbn [map fold_left]. rewrite parse_line_text by done.
  rewrite IH. cbn [omap list_omap]. by destruct (line_entry l).
Qed.

Section merged.
Context `{MapOrder string}.

Lemma merge_lookup items c key :
  merge items c !! key = match items !! key with Some v => Some v | None => c !! key end.
Proof.
  unfold merge. pose proof (iter_map_nodup items) as Hnd. rewrite <- (iter_map_list_to_map items) at 2.
  revert c Hnd. induction (iter_map items) as [|[k v] l IH]; intros c Hnd; cbn [fold_left list_to_map foldr fst snd map].
  - by rewrite lookup_empty.
  - cbn in Hnd. apply NoDup_cons in Hnd as [Hn Hnd]. rewrite IH by done.
    destruct (decide (k = key)) as [->|Hne].
    + rewrite lookup_insert_eq. rewrite (not_elem_of_list_to_map_1 _ _ Hn). cbn. by rewrite lookup_insert_eq.
    + cbn. by rewrite !lookup_insert_ne.
Qed.

(** Loading a .env file.  For a file of blank lines, comments and assignments,
    merging what [parse_env] read into a configuration gives every assigned key its last
    value, surrounding quotes and indentation removed and all other bytes kept, and
    leaves every other key as it was. *)
Theorem merge_env_file (ls : list EnvLine) (c : Config) (key def : string) :
  Forall line_ok ls ->
  get key def (merge (parse_env (env_text ls)) c) =
  match last (List.filter (fun kv => bool_decide (kv.1 = key)) (omap line_entry ls)) with
  | Some kv => kv.2
  | None => get key def c
  end.
Proof.
  intros Hok. unfold get. rewrite merge_lookup, parse_env_text by done. unfold last_wins.
  induction (omap line_entry ls) as [|[k v] l IH] using rev_ind; [cbn; by rewrite lookup_empty|].
  rewrite fold_left_app, List.filter_app. cbn [fold_left List.filter fst snd].
  case_bool_decide as E.
  - subst k. rewrite lookup_insert_eq. by rewrite last_snoc.
  - rewrite lookup_insert_ne by done. by rewrite app_nil_r.
Qed.
End merged.

Lemma merge_env_file_witness :
  get "APP" "" (merge (H := canonical_order) (parse_env (env_text
    [Comment " " "settings"; Blank ""; Assign " " "APP" (Some quote) " a = b # c "; Assign "" "N" None "42"])) ∅)
  = " a = b # c ".
Proof.
  rewrite (merge_env_file (H := canonical_order)
    [Comment " " "settings"; Blank ""; Assign " " "APP" (Some quote) " a = b # c "; Assign "" "N" None "42"] ∅ "APP" "").
  - reflexivity.
  - repeat (apply Forall_cons; split); try by apply Forall_nil.
    + split; by_eval.
    + split; [by_eval|]. split; [|split; [by_eval|done]].
      split; [done|]. split; [split; [done|exists "AP", "P"%char; done]|]. split; [by_eval|]. split; [by_eval|done].
    + split; [by_eval|]. split; [|split; [by_eval|split; [split; [done|by exists "4", "2"%char]|done]]].
      split; [done|]. split; [split; [done|by exists "", "N"%char]|]. split; [by_eval|]. split; [by_eval|done].
Defined.
