(* ===== verification/Migration.v ===== *)
(** * schema.hpp and migration.hpp: table definitions and the migrator

    [Blueprint] prints CREATE TABLE; [Migrator] applies pending migrations and records
    them in the table [migrations].  The bookkeeping theorems are for the memory backend;
    a migration's [up] and [down] are any computations on the connection's state. *)
From S2P Require Import Prelude CppString CppNum Database Repository.

Local Open Scope Z_scope.

(** ** Blueprint *)
Definition Blueprint : Type := list string.
Definition bp_id (b : Blueprint) : Blueprint := b ++ ["id INTEGER PRIMARY KEY AUTOINCREMENT"].
Definition bp_integer (name : string) (b : Blueprint) : Blueprint := b ++ [name +:+ " INTEGER NOT NULL DEFAULT 0"].
Definition bp_boolean (name : string) (b : Blueprint) : Blueprint := b ++ [name +:+ " INTEGER NOT NULL DEFAULT 0"].
Definition bp_string (name : string) (b : Blueprint) : Blueprint := b ++ [name +:+ " TEXT NOT NULL DEFAULT ''"].
Definition bp_real (name : string) (b : Blueprint) : Blueprint := b ++ [name +:+ " REAL NOT NULL DEFAULT 0"].
Fixpoint columns_text (first : bool) (cols : list string) : string :=
  match cols with
  | [] => ""
  | c :: cols => (if first then "" else ", ") +:+ c +:+ columns_text false cols
  end.
Definition create_sql (table : string) (if_not_exists : bool) (b : Blueprint) : string :=
  "CREATE TABLE " +:+ (if if_not_exists then "IF NOT EXISTS " else "") +:+ table +:+ " (" +:+
  columns_text true b +:+ ")".

Section migrator.
Context {D : Type} (conn : Connection D).

Definition schema_create (table : string) (define : Blueprint -> Blueprint) : M D unit :=
  statement conn (create_sql table false (define [])).
Definition create_if_not_exists (table : string) (define : Blueprint -> Blueprint) : M D unit :=
  statement conn (create_sql table true (define [])).
Definition drop_if_exists (table : string) : M D unit := statement conn ("DROP TABLE IF EXISTS " +:+ table).

Record Migration : Type := mkMigration { m_name : string; up : M D unit; down : M D unit }.

Definition ensure_table : M D unit :=
  statement conn
    "CREATE TABLE IF NOT EXISTS migrations (id INTEGER PRIMARY KEY AUTOINCREMENT, name TEXT NOT NULL DEFAULT '')".
Definition by_name (name : string) : Query := mkQuery [mkWhere "name" Eq (VStr name) []] None None None.
Definition applied (name : string) : M D bool :=
  rows ← select conn "migrations" (by_name name);
  mret (match rows with [] => false | _ => true end).
Definition record (name : string) : M D unit :=
  _ ← insert conn "migrations" (set_cell "name" (VStr name) ∅); mret tt.
Definition forget (name : string) : M D unit :=
  statement conn ("DELETE FROM migrations WHERE name = '" +:+ name +:+ "'").

Definition run_one (m : Migration) : M D unit :=
  done_ ← applied (m_name m);
  if done_ : bool then mret tt else _ ← up m; record (m_name m).
Fixpoint run_loop (ms : list Migration) : M D unit :=
  match ms with
  | [] => mret tt
  | m :: ms => _ ← run_one m; run_loop ms
  end.
Definition run (ms : list Migration) : M D unit := _ ← ensure_table; run_loop ms.

Definition rollback_one (m : Migration) : M D unit :=
  done_ ← applied (m_name m);
  if done_ : bool then _ ← down m; forget (m_name m) else mret tt.
Fixpoint rollback_loop (ms : list Migration) : M D unit :=
  match ms with
  | [] => mret tt
  | m :: ms => _ ← rollback_one m; rollback_loop ms
  end.
(** The reverse iteration of the source. *)
Definition rollback_all (ms : list Migration) : M D unit := _ ← ensure_table; rollback_loop (rev ms).
End migrator.
Arguments Migration : clear implicits.

(** ** Applying migrations on the memory backend *)
Definition is_applied (m : Memory) (name : string) : bool :=
  existsb (row_ok (by_name name)) (rows_of m "migrations").
Definition ledger_room (k : nat) (m : Memory) : Prop :=
  default 0 (next_id_ m !! "migrations") + Z.of_nat k < 2 ^ 63.
Definition ledger_ok (k : nat) (m : Memory) : Prop := memory_ok m /\ ledger_room k m.
(** An [up] leaves the ledger alone, whether it returns or throws. *)
Definition keeps_ledger (u : M Memory unit) : Prop :=
  forall k m, ledger_ok k m -> ledger_ok k (u m).2 /\ forall n, is_applied (u m).2 n = is_applied m n.

Lemma filter_nonempty {A} (p : A -> bool) l :
  match List.filter p l with [] => false | _ => true end = existsb p l.
Proof. induction l as [|x l IH]; [done|]. cbn. by destruct (p x). Qed.

Lemma applied_memory name m : applied MemoryConnection name m = (Ok (is_applied m name), m).
Proof.
  unfold applied, mbind, M_bind, is_applied. cbn [select MemoryConnection].
  assert (E : mem_select "migrations" (by_name name) m =
    (Ok (List.filter (row_ok (by_name name)) (rows_of m "migrations")), m)).
  { unfold mem_select, rows_of. destruct (tables_ m !! "migrations"); [|done]. by rewrite run_query_plain. }
  rewrite E. unfold mret, M_ret. by rewrite filter_nonempty.
Qed.

Lemma record_memory name k m : ledger_ok (S k) m ->
  exists m', record MemoryConnection name m = (Ok tt, m') /\ ledger_ok k m' /\
    forall n, is_applied m' n = is_applied m n || bool_decide (n = name).
Proof.
  intros [Hok Hroom]. unfold ledger_room in Hroom. set (k0 := default 0 (next_id_ m !! "migrations")) in *.
  pose proof (next_id_nonneg m "migrations" (proj1 Hok)) as H0. fold k0 in H0.
  assert (Hr : default 0 (next_id_ m !! "migrations") < 2 ^ 63 - 1) by (fold k0; lia).
  pose proof (memory_ok_insert "migrations" (set_cell "name" (VStr name) ∅) m Hok Hr) as Hok'.
  unfold record, mbind, M_bind. cbn [insert MemoryConnection]. unfold mem_insert in *. fold k0 in Hok' |- *.
  eexists. split; [reflexivity|]. split.
  - split; [done|]. unfold ledger_room. cbn [next_id_]. rewrite lookup_insert_eq. cbn [default from_option].
    unfold Datatypes.id, s64. rewrite Z.mod_small by lia. lia.
  - intros n. unfold is_applied, rows_of at 1. cbn [tables_]. rewrite lookup_insert_eq, existsb_app. f_equal.
    cbn [existsb]. rewrite orb_false_r. unfold row_ok. cbn. rewrite andb_true_r. apply bool_decide_ext. naive_solver.
Qed.

Definition pending (m : Memory) (ms : list (Migration Memory)) : list (Migration Memory) :=
  List.filter (fun x => negb (is_applied m (m_name x))) ms.
Definition ledger_after (m : Memory) (done_ : list (Migration Memory)) (m' : Memory) : Prop :=
  forall n, is_applied m' n = is_applied m n || bool_decide (n ∈ map m_name done_).

(** What [run] leaves: the pending migrations applied in order up to the first one whose
    [up] throws, and exactly those recorded. *)
Definition run_result (m : Memory) (todo : list (Migration Memory)) (r : res unit) (m' : Memory) : Prop :=
  exists done_ rest, todo = done_ ++ rest /\ ledger_after m done_ m' /\
    match r with
    | Ok _ => rest = []
    | Throw e => exists x before, head rest = Some x /\ (up x before).1 = Throw e /\ (up x before).2 = m'
    end.

Lemma run_result_cons m x m1 todo r m' :
  ledger_after m [x] m1 -> run_result m1 todo r m' -> run_result m (x :: todo) r m'.
Proof.
  intros H1 (done_ & rest & -> & H & Hr). exists (x :: done_), rest. split; [done|]. split; [|done].
  intros n. rewrite H, H1, <- orb_assoc. f_equal. cbn [map]. apply eq_true_iff_eq.
  rewrite orb_true_iff, !bool_decide_eq_true. set_solver.
Qed.

Lemma run_loop_result ms k m :
  NoDup (map m_name ms) -> Forall (fun x => keeps_ledger (up x)) ms -> ledger_ok (length ms + k) m ->
  let (r, m') := run_loop MemoryConnection ms m in
  ledger_ok k m' /\ run_result m (pending m ms) r m'.
Proof.
  revert m. induction ms as [|x ms IH]; intros m Hnd Hk Hok; cbn [run_loop].
  - split; [done|]. exists [], []. split; [done|]. split; [|done]. intros n. by rewrite orb_false_r.
  - cbn [map] in Hnd. apply NoDup_cons in Hnd as [Hn Hnd]. apply Forall_cons in Hk as [Hx Hk].
    assert (Hmono : forall j m, ledger_ok (S j) m -> ledger_ok j m)
      by (intros j m0 [? ?]; split; [done|]; unfold ledger_room in *; lia).
    unfold run_one, mbind, M_bind. rewrite applied_memory. unfold pending. cbn [List.filter].
    destruct (is_applied m (m_name x)) eqn:Ea; cbn [negb].
    { apply IH; [done|done|]. by apply Hmono. }
    destruct (Hx _ m Hok) as [Hok1 Ha1]. destruct (up x m) as [[u|e] m1] eqn:Eu; cbn [snd] in *.
    + destruct (record_memory (m_name x) (length ms + k) m1 Hok1) as (m2 & E & Hok2 & Ha2).
      rewrite E. specialize (IH m2 Hnd Hk Hok2). destruct (run_loop MemoryConnection ms m2) as [r m'].
      destruct IH as [Hok' Hr]. split; [done|].
      assert (Hl : ledger_after m [x] m2).
      { intros n. rewrite Ha2, Ha1. f_equal. apply bool_decide_ext. cbn. set_solver. }
      apply (run_result_cons m x m2); [done|].
      replace (List.filter _ ms) with (pending m2 ms); [done|].
      apply filter_ext_in. intros y Hy. rewrite Hl, bool_decide_eq_false_2, orb_false_r; [done|].
      intros Hm%list_elem_of_singleton. apply Hn. rewrite <- Hm. apply list_elem_of_fmap_2. by apply list_elem_of_In.
    + split; [destruct Hok1; split; [done|]; unfold ledger_room in *; lia|].
      exists [], (x :: List.filter (fun y => negb (is_applied m (m_name y))) ms). split; [done|].
      split; [intros n; by rewrite orb_false_r|]. exists x, m. by rewrite Eu.
Qed.

(** A pass over migrations that are all applied changes nothing. *)
Lemma run_loop_applied ms m :
  (forall x, x ∈ ms -> is_applied m (m_name x) = true) -> run_loop MemoryConnection ms m = (Ok tt, m).
Proof.
  induction ms as [|x ms IH]; intros H; [done|]. cbn [run_loop]. unfold run_one, mbind, M_bind.
  rewrite applied_memory, H by (by left). apply IH. intros y Hy. apply H. by right.
Qed.

(** [run] applies exactly the migrations not yet recorded, in order, and records each
    one after its [up] returned: after a run that ends normally all of them are recorded
    and another run changes nothing; when an [up] throws, the exception leaves the run
    with that migration unrecorded, those before it recorded and those after it not run. *)
Theorem migrate_run (ms : list (Migration Memory)) (m : Memory) :
  NoDup (map m_name ms) -> Forall (fun x => keeps_ledger (up x)) ms -> ledger_ok (length ms) m ->
  let (r, m') := run MemoryConnection ms m in
  exists done_ rest, pending m ms = done_ ++ rest /\
    (forall n, is_applied m' n = is_applied m n || bool_decide (n ∈ map m_name done_)) /\
    match r with
    | Ok _ => rest = [] /\ run MemoryConnection ms m' = (Ok tt, m')
    | Throw e => exists x before, head rest = Some x /\ (up x before).1 = Throw e /\ (up x before).2 = m'
    end.
Proof.
  intros Hnd Hk Hok. unfold run, mbind, M_bind, ensure_table. cbn [statement MemoryConnection]. unfold mret, M_ret.
  rewrite <- (Nat.add_0_r (length ms)) in Hok. pose proof (run_loop_result ms 0 m Hnd Hk Hok) as H.
  destruct (run_loop MemoryConnection ms m) as [r m']. destruct H as [_ (done_ & rest & E & Hl & Hr)].
  exists done_, rest. split; [done|]. split; [done|]. destruct r as [[]|e]; [|done]. subst rest. split; [done|].
  apply run_loop_applied. intros x Hx. rewrite Hl. rewrite app_nil_r in E.
  destruct (is_applied m (m_name x)) eqn:Ea; [done|]. apply bool_decide_eq_true. rewrite <- E.
  apply list_elem_of_fmap_2. apply list_elem_of_In, filter_In. split; [by apply list_elem_of_In|by rewrite Ea].
Qed.

Definition create_articles : Migration Memory :=
  mkMigration "create_articles"
    (schema_create MemoryConnection "articles" (fun b => bp_string "title" (bp_id b)))
    (drop_if_exists MemoryConnection "articles").
Definition seed_articles : Migration Memory :=
  mkMigration "seed_articles" (_ ← insert MemoryConnection "articles" ∅; mret tt)
    (_ ← remove MemoryConnection "articles" 1; mret tt).

Lemma migrate_run_witness :
  let ms := [create_articles] in
  let (r, m') := run MemoryConnection ms empty_memory in
  r = Ok tt /\ is_applied m' "create_articles" = true /\
  exists done_ rest, pending empty_memory ms = done_ ++ rest /\
    (forall n, is_applied m' n = is_applied empty_memory n || bool_decide (n ∈ map m_name done_)) /\
    match r with
    | Ok _ => rest = [] /\ run MemoryConnection ms m' = (Ok tt, m')
    | Throw e => exists x before, head rest = Some x /\ (up x before).1 = Throw e /\ (up x before).2 = m'
    end.
Proof.
  intros ms. pose proof (migrate_run ms empty_memory) as H.
  assert (E : (run MemoryConnection ms empty_memory).1 = Ok tt /\
    is_applied (run MemoryConnection ms empty_memory).2 "create_articles" = true) by (vm_compute; split; reflexivity).
  assert (Hk : Forall (fun x => keeps_ledger (up x)) ms) by (apply Forall_singleton; by intros k m Hm).
  assert (Hok : ledger_ok (length ms) empty_memory).
  { split; [|vm_compute; reflexivity]. split; [|done]. split; intros t x Hx; cbn in Hx; by rewrite lookup_empty in Hx. }
  specialize (H ltac:(apply (bool_decide_unpack _); vm_compute; exact I) Hk Hok).
  destruct (run MemoryConnection ms empty_memory) as [r m']. destruct E as [E1 E2].
  split; [exact E1|]. split; [exact E2|exact H].
Defined.

(** On the memory backend a rollback forgets nothing: [forget] is a statement, which that
    backend ignores.  The [down] of an applied migration runs, yet it stays recorded, so a
    second rollback runs it again and a second run applies nothing. *)
Lemma memory_rollback_forgets_nothing :
  let ms := [seed_articles] in
  let m1 := (run MemoryConnection ms empty_memory).2 in
  let m2 := (rollback_all MemoryConnection ms m1).2 in
  length (rows_of m1 "articles") = 1%nat /\ rows_of m2 "articles" = [] /\
  is_applied m2 "seed_articles" = true /\ run MemoryConnection ms m2 = (Ok tt, m2).
Proof. vm_compute. repeat split; reflexivity. Qed.
