(* ===== verification/StaticFiles.v ===== *)
(** * static_files.hpp: serving a directory

    MIME types, path confinement, byte ranges and the response of [serve].  The file
    system is a parameter of [serve]: [canonical] is std::filesystem::weakly_canonical
    ([None] for an error) and [regular] the bytes and modification time of a regular
    file. *)
From S2P Require Import Prelude CppString CppNum Http Pipeline Router.

Local Open Scope Z_scope.

Record Options : Type := mkOptions {
  cache_control : string;
  extra_headers : list (string * string)
}.
Definition default_options : Options := mkOptions "public, max-age=3600" [].
Definition apply_extra (opts : Options) (r : Response) : Response :=
  fold_left (fun r h => set_res_header h.1 h.2 r) (extra_headers opts) r.

Definition mime_type (path : string) : string :=
  let ext := lower (match rfind_chr path "." with None => "" | Some dot => substr_from path (dot + 1) end) in
  let ext_is s := bool_decide (ext = s) in
  if ext_is "wasm" then "application/wasm"
  else if ext_is "js" || ext_is "mjs" then "application/javascript"
  else if ext_is "html" || ext_is "htm" then "text/html; charset=utf-8"
  else if ext_is "css" then "text/css"
  else if ext_is "json" then "application/json"
  else if ext_is "svg" then "image/svg+xml"
  else if ext_is "png" then "image/png"
  else if ext_is "jpg" || ext_is "jpeg" then "image/jpeg"
  else if ext_is "gif" then "image/gif"
  else if ext_is "ico" then "image/x-icon"
  else if ext_is "woff2" then "font/woff2"
  else if ext_is "woff" then "font/woff"
  else if ext_is "wav" then "audio/wav"
  else if ext_is "txt" then "text/plain; charset=utf-8"
  else "application/octet-stream".

(** [fs::path / rel] on POSIX: an absolute [rel] replaces the root. *)
Definition path_join (root rel : string) : string :=
  if is_prefix "/" rel then rel
  else match s_at root (len root - 1) with
       | None => rel
       | Some c => if is_char "/" c then root +:+ rel else root +:+ "/" +:+ rel
       end.

Section files.
Context (canonical : string -> option string) (regular : string -> option (string * Z)).

(** "" on rejection.  An error of the first call is overwritten by the second. *)
Definition safe_resolve (root rel : string) : string :=
  if contains rel ".." then ""
  else
    let bs := match canonical root with Some p => p | None => "" end in
    match canonical (path_join root rel) with
    | None => ""
    | Some ns => if bool_decide (ns = bs) then ns else if is_prefix (bs +:+ "/") ns then ns else ""
    end.

Record Range : Type := mkRange { present : bool; satisfiable : bool; r_start : Z; r_end : Z }.
Definition clamp_range (size start end_ : Z) : Range :=
  let end_ := if size - 1 <? end_ then size - 1 else end_ in
  if (start <? 0) || (end_ <? start) || (size <=? start) then mkRange true false start end_
  else mkRange true true start end_.
Definition parse_range (header : string) (size : Z) : Range :=
  if negb (is_prefix "bytes=" header) then mkRange false false 0 0
  else
    let spec := substr_from header 6 in
    match find_chr spec "-" 0 with
    | None => mkRange true false 0 0
    | Some dash =>
        let a := substr spec 0 dash in
        let b := substr_from spec (dash + 1) in
        if bool_decide (a = "") then
          if bool_decide (b = "") then mkRange true false 0 0
          else match stoll b with
               | Throw _ => mkRange true false 0 0
               | Ok n =>
                   if n <=? 0 then mkRange true false 0 0
                   else clamp_range size (if n <? size then size - n else 0) (size - 1)
               end
        else match stoll a with
             | Throw _ => mkRange true false 0 0
             | Ok start =>
                 if bool_decide (b = "") then clamp_range size start (size - 1)
                 else match stoll b with
                      | Throw _ => mkRange true false start 0
                      | Ok end_ => clamp_range size start end_
                      end
             end
    end.

Fixpoint header_scan (l : list (string * string)) (name : string) : string :=
  match l with
  | [] => ""
  | (k, v) :: l =>
      if negb (len k =? len name)%nat then header_scan l name
      else if bool_decide (lower k = lower name) then v else header_scan l name
  end.

Section serve.
Context `{MapOrder string}.
Definition header_ci (req : Request) (name : string) : string := header_scan (iter_map (headers req)) name.

Definition etag_of (size mtime : Z) : string :=
  str1 quote +:+ to_string size +:+ "-" +:+ to_string mtime +:+ str1 quote.
Definition not_modified (etag : string) (opts : Options) : Response :=
  apply_extra opts (mkResponse 304 "" (<["ETag" := etag]> {["Cache-Control" := cache_control opts]})).
Definition range_refused (size : Z) (opts : Options) : Response :=
  apply_extra opts (mkResponse 416 "" {["Content-Range" := "bytes */" +:+ to_string size]}).
Definition range_text (start end_ size : Z) : string :=
  "bytes " +:+ to_string start +:+ "-" +:+ to_string end_ +:+ "/" +:+ to_string size.
Definition whole_headers (ctype etag : string) (opts : Options) : gmap string string :=
  <["Content-Type" := ctype]> (<["Accept-Ranges" := "bytes"]>
    (<["Cache-Control" := cache_control opts]> {["ETag" := etag]})).
Definition partial (bytes : string) (rg : Range) (size : Z) (ctype etag : string) (opts : Options) : Response :=
  apply_extra opts (mkResponse 206
    (substr bytes (Z.to_nat (r_start rg)) (Z.to_nat (r_end rg - r_start rg + 1)))
    (<["Content-Range" := range_text (r_start rg) (r_end rg) size]> (whole_headers ctype etag opts))).

Definition serve (root rel : string) (req : Request) (opts : Options) : Response :=
  let path := safe_resolve root rel in
  if bool_decide (path = "") then response 404 "Not Found"
  else
    match regular path with
    | None => response 404 "Not Found"
    | Some (bytes, mtime) =>
        let size := size bytes in
        let etag := etag_of size mtime in
        let ctype := mime_type path in
        if bool_decide (header_ci req "If-None-Match" = etag) then not_modified etag opts
        else
          let whole := apply_extra opts (mkResponse 200 bytes (whole_headers ctype etag opts)) in
          let range := header_ci req "Range" in
          if bool_decide (range = "") then whole
          else
            let rg := parse_range range size in
            if present rg && negb (satisfiable rg) then range_refused size opts
            else if satisfiable rg then partial bytes rg size ctype etag opts
            else whole
    end.

(** [req.route_params["path"]] inserts an empty value when the parameter is missing. *)
Definition mount {W} (url_prefix dir : string) (opts : Options) (r : Router W) : res (Router W) :=
  Router.get (url_prefix +:+ "/{path*}")
    (req ← on_request id;
     let path := match route_params req !! "path" with Some p => p | None => "" end in
     _ ← edit_request (set_route_params (<["path" := path]> (route_params req)));
     mret (serve dir path req opts)) [] r.
End serve.
End files.

(** ** Confinement *)
(** The path [p] is the directory [base] or lies below it. *)
Definition under (base p : string) : Prop := p = base \/ exists rest, p = base +:+ "/" +:+ rest.

Lemma safe_resolve_under canonical root rel p :
  safe_resolve canonical root rel = p -> p ≠ "" ->
  contains rel ".." = false /\ canonical (path_join root rel) = Some p /\
  under (match canonical root with Some b => b | None => "" end) p.
Proof.
  unfold safe_resolve. destruct (contains rel ".."); [by intros <-|].
  set (bs := match canonical root with Some b => b | None => "" end).
  destruct (canonical (path_join root rel)) as [ns|]; [|by intros <-].
  case_bool_decide as E; [intros <- _; split; [done|]; split; [done|by left]|].
  destruct (is_prefix (bs +:+ "/") ns) eqn:Ep; [|by intros <-].
  intros <- _. split; [done|]. split; [done|]. right. apply is_prefix_iff in Ep as [t ->].
  exists t. by rewrite s_app_assoc.
Qed.

Lemma status_apply_extra opts r : status (apply_extra opts r) = status r /\ res_body (apply_extra opts r) = res_body r.
Proof.
  unfold apply_extra. generalize (extra_headers opts) as l. intros l. revert r.
  induction l as [|h l IH]; intros r; [done|]. cbn [fold_left]. by rewrite !(proj1 (IH _)), !(proj2 (IH _)).
Qed.

(** ** Ranges *)
(** A byte range as data, its text, and the bytes it selects of a file of [size] bytes. *)
Inductive RangeSpec : Type := FromTo (a b : Z) | From (a : Z) | Suffix (n : Z).
Definition spec_text (r : RangeSpec) : string :=
  match r with
  | FromTo a b => "bytes=" +:+ to_string a +:+ "-" +:+ to_string b
  | From a => "bytes=" +:+ to_string a +:+ "-"
  | Suffix n => "bytes=-" +:+ to_string n
  end.
Definition spec_ok (r : RangeSpec) : Prop :=
  match r with
  | FromTo a b => 0 <= a < 2 ^ 63 /\ 0 <= b < 2 ^ 63
  | From a | Suffix a => 0 <= a < 2 ^ 63
  end.
(** Is byte [i] of the file selected? *)
Definition selects (r : RangeSpec) (size i : Z) : Prop :=
  0 <= i < size /\
  match r with
  | FromTo a b => a <= i <= b
  | From a => a <= i
  | Suffix n => size - n <= i
  end.

Lemma clamp_range_spec size start end_ :
  0 <= start ->
  let r := clamp_range size start end_ in
  present r = true /\
  if satisfiable r then 0 <= r_start r <= r_end r /\ r_end r < size /\
    forall i, r_start r <= i <= r_end r <-> 0 <= i < size /\ start <= i <= end_
  else forall i, ~ (0 <= i < size /\ start <= i <= end_).
Proof.
  intros Hs. cbn zeta. unfold clamp_range.
  destruct (size - 1 <? end_) eqn:E; destruct (_ || _) eqn:Ec; cbn [present satisfiable r_start r_end];
    (split; [done|]); bools; try (split; [lia|split; [lia|]]; intros i; lia);
    intros i Hi; rewrite !orb_true_iff, !Z.ltb_lt, Z.leb_le in Ec; lia.
Qed.

Lemma stoll_text z : 0 <= z < 2 ^ 63 -> stoll (to_string z) = Ok z.
Proof.
  intros Hz. rewrite <- (s_app_nil_r (to_string z)). apply stoll_to_string; [|done]. apply in_s64_iff. lia.
Qed.
Lemma to_string_ne z : 0 <= z -> to_string z ≠ "".
Proof.
  intros Hz. unfold to_string. rewrite (proj2 (Z.ltb_ge z 0)) by done.
  destruct (dec_cons z Hz) as (c & s & -> & _). done.
Qed.
Lemma to_string_no_dash z : 0 <= z -> no_chr "-" (to_string z).
Proof.
  intros Hz. unfold to_string. rewrite (proj2 (Z.ltb_ge z 0)) by done.
  pose proof (dec_all_digits z Hz) as Hd. unfold no_chr, s_all in *. intros Hin.
  eapply Forall_forall in Hd; [|done]. by vm_compute in Hd.
Qed.

Lemma parse_range_text a b size :
  no_chr "-" a ->
  parse_range ("bytes=" +:+ a +:+ "-" +:+ b) size =
    if bool_decide (a = "") then
      if bool_decide (b = "") then mkRange true false 0 0
      else match stoll b with
           | Throw _ => mkRange true false 0 0
           | Ok n => if n <=? 0 then mkRange true false 0 0
                     else clamp_range size (if n <? size then size - n else 0) (size - 1)
           end
    else match stoll a with
         | Throw _ => mkRange true false 0 0
         | Ok start =>
             if bool_decide (b = "") then clamp_range size start (size - 1)
             else match stoll b with
                  | Throw _ => mkRange true false start 0
                  | Ok end_ => clamp_range size start end_
                  end
         end.
Proof.
  intros Ha. unfold parse_range. rewrite is_prefix_app. cbn [negb].
  replace (substr_from _ 6) with (a +:+ String "-" b) by reflexivity.
  rewrite find_chr_hit by done. unfold substr, substr_from.
  rewrite s_drop_0, s_take_app, s_drop_app_ge by lia.
  by replace (len a + 1 - len a)%nat with 1%nat by lia.
Qed.

(** The range read back from its text selects exactly the bytes it names. *)
Lemma parse_range_selects r size :
  spec_ok r -> 0 <= size ->
  let rg := parse_range (spec_text r) size in
  present rg = true /\
  if satisfiable rg then 0 <= r_start rg <= r_end rg /\ r_end rg < size /\
    forall i, r_start rg <= i <= r_end rg <-> selects r size i
  else forall i, ~ selects r size i.
Proof.
  intros Hok Hsize. destruct r as [a b|a|n]; cbn [spec_ok spec_text selects] in *; cbn zeta.
  - destruct Hok as [Ha Hb]. rewrite parse_range_text by (apply to_string_no_dash; lia).
    rewrite !bool_decide_eq_false_2 by (apply to_string_ne; lia). rewrite !stoll_text by done.
    apply (clamp_range_spec size a b). lia.
  - change (to_string a +:+ "-") with (to_string a +:+ "-" +:+ ""). rewrite parse_range_text by (apply to_string_no_dash; lia).
    rewrite (bool_decide_eq_false_2 (to_string a = "")), stoll_text by (done || (apply to_string_ne; lia)).
    rewrite bool_decide_eq_true_2 by done. pose proof (clamp_range_spec size a (size - 1) ltac:(lia)) as [H1 H2].
    split; [done|]. unfold selects. destruct (satisfiable _); [|intros i Hi; apply (H2 i); lia].
    destruct H2 as (H2 & H3 & H4). split; [done|]. split; [done|]. intros i. rewrite H4. lia.
  - change ("bytes=-" +:+ to_string n) with ("bytes=" +:+ "" +:+ "-" +:+ to_string n).
    rewrite parse_range_text by done. rewrite (bool_decide_eq_true_2 ("" = "")) by done.
    rewrite (bool_decide_eq_false_2 (to_string n = "")), stoll_text by (done || (apply to_string_ne; lia)).
    destruct (n <=? 0) eqn:En; bools; [split; [done|]; unfold selects; cbn; intros i; lia|].
    destruct (n <? size) eqn:E; bools.
    + pose proof (clamp_range_spec size (size - n) (size - 1) ltac:(lia)) as [H1 H2]. split; [done|]. unfold selects.
      destruct (satisfiable _); [|intros i Hi; apply (H2 i); lia].
      destruct H2 as (H2 & H3 & H4). split; [done|]. split; [done|]. intros i. rewrite H4. lia.
    + pose proof (clamp_range_spec size 0 (size - 1) ltac:(lia)) as [H1 H2]. split; [done|]. unfold selects.
      destruct (satisfiable _); [|intros i Hi; apply (H2 i); lia].
      destruct H2 as (H2 & H3 & H4). split; [done|]. split; [done|]. intros i. rewrite H4. lia.
Qed.

Section served.
Context (canonical : string -> option string) (regular : string -> option (string * Z)).
Context `{MapOrder string}.

(** C25: Below a root that resolves, a file is served only from the root: an answer is the
    404, or it is made of a regular file that is the root or lies below it, requested by
    a path without [..]: the whole of its bytes (200), a run of them (206), or nothing of
    them (304, 416). *)
Theorem serve_confined (root base rel : string) (req : Request) (opts : Options) :
  canonical root = Some base -> base ≠ "" ->
  let res := serve canonical regular root rel req opts in
  res = response 404 "Not Found" \/
  exists p bytes mtime, contains rel ".." = false /\ canonical (path_join root rel) = Some p /\
    (p = base \/ exists rest, p = base +:+ "/" +:+ rest) /\ regular p = Some (bytes, mtime) /\
    (status res = 200 /\ res_body res = bytes \/
     status res = 206 /\ (exists u v, bytes = u +:+ res_body res +:+ v) \/
     (status res = 304 \/ status res = 416) /\ res_body res = "").
Proof.
  intros Hb _. cbn zeta. unfold serve. case_bool_decide as E; [by left|].
  destruct (regular _) as [[bytes mtime]|] eqn:Er; [|by left]. right.
  destruct (safe_resolve_under canonical root rel _ eq_refl E) as (H1 & H2 & H3). rewrite Hb in H3.
  exists (safe_resolve canonical root rel), bytes, mtime. do 4 (split; [done|]).
  assert (Hx : forall r, status (apply_extra opts r) = status r /\ res_body (apply_extra opts r) = res_body r)
    by (intros; apply status_apply_extra).
  case_bool_decide; [do 2 right; unfold not_modified; rewrite !(proj1 (Hx _)), !(proj2 (Hx _)); by split; [left|]|].
  assert (Hwhole : forall h, status (apply_extra opts (mkResponse 200 bytes h)) = 200 /\
    res_body (apply_extra opts (mkResponse 200 bytes h)) = bytes)
    by (intros h; apply (status_apply_extra opts (mkResponse 200 bytes h))).
  case_bool_decide; [left; apply Hwhole|].
  destruct (present _ && _).
  { do 2 right. unfold range_refused. rewrite !(proj1 (Hx _)), !(proj2 (Hx _)). by split; [right|]. }
  destruct (satisfiable _); [|left; apply Hwhole].
  right; left. unfold partial. rewrite !(proj1 (Hx _)), !(proj2 (Hx _)). split; [done|].
  cbn [res_body]. unfold substr. set (i := Z.to_nat (r_start _)). set (n := Z.to_nat (_ - _ + 1)).
  exists (s_take i bytes), (s_drop n (s_drop i bytes)). by rewrite !s_take_drop.
Qed.

(** A root that does not resolve confines nothing: the error of the first call is
    overwritten by the second, the base is then the empty path, as it is for an empty root,
    and every absolute path passes as lying below that. *)
Lemma unresolved_root_confines_nothing (root p : string) (req : Request) (opts : Options) bytes mtime :
  canonical root = None \/ canonical root = Some "" -> is_prefix "/" p = true -> contains p ".." = false ->
  canonical p = Some p -> regular p = Some (bytes, mtime) ->
  header_ci req "If-None-Match" ≠ etag_of (size bytes) mtime -> header_ci req "Range" = "" ->
  status (serve canonical regular root p req opts) = 200 /\
  res_body (serve canonical regular root p req opts) = bytes.
Proof.
  intros Hr Hp Hd Hc Hreg He Hg.
  assert (Ep : safe_resolve canonical root p = p).
  { unfold safe_resolve, path_join. rewrite Hd, Hp, Hc.
    destruct Hr as [-> | ->]; (case_bool_decide; [done|]); change ("" +:+ "/") with "/"; by rewrite Hp. }
  assert (Hne : p ≠ "") by (by destruct p).
  unfold serve. rewrite Ep, bool_decide_eq_false_2, Hreg by done. rewrite bool_decide_eq_false_2 by done.
  rewrite (bool_decide_eq_true_2 (header_ci req "Range" = "")) by done.
  apply (status_apply_extra opts (mkResponse 200 bytes _)).
Qed.

(** Byte ranges.  For an existing file and a request for a byte range without a
    matching entity tag, the answer is 416 with the file's size when the range selects no
    byte of the file, and otherwise 206 with a body that holds exactly the selected bytes,
    in order, and a Content-Range naming them. *)
Theorem serve_range (root rel : string) (req : Request) (opts : Options) (bytes : string) (mtime : Z)
    (r : RangeSpec) :
  safe_resolve canonical root rel ≠ "" -> regular (safe_resolve canonical root rel) = Some (bytes, mtime) ->
  header_ci req "If-None-Match" ≠ etag_of (size bytes) mtime -> header_ci req "Range" = spec_text r -> spec_ok r ->
  let res := serve canonical regular root rel req opts in
  (res = range_refused (size bytes) opts /\ status res = 416 /\ forall i, ~ selects r (size bytes) i) \/
  (exists first last, status res = 206 /\ 0 <= first <= last /\ last < size bytes /\
     (forall i, first <= i <= last <-> selects r (size bytes) i) /\
     size (res_body res) = last - first + 1 /\
     (forall k, first + Z.of_nat k <= last -> s_at (res_body res) k = s_at bytes (Z.to_nat first + k)) /\
     res = apply_extra opts (mkResponse 206 (res_body res)
       (<["Content-Range" := range_text first last (size bytes)]>
         (whole_headers (mime_type (safe_resolve canonical root rel)) (etag_of (size bytes) mtime) opts)))).
Proof.
  intros Hp Hreg Hetag Hrange Hok. cbn zeta.
  pose proof (parse_range_selects r (size bytes) Hok (size_nonneg bytes)) as [Hpres Hsel].
  assert (Hne : spec_text r ≠ "") by (by destruct r).
  unfold serve. rewrite bool_decide_eq_false_2, Hreg by done. rewrite bool_decide_eq_false_2 by done.
  rewrite Hrange, (bool_decide_eq_false_2 (spec_text r = "")) by done. rewrite Hpres.
  set (rg := parse_range (spec_text r) (size bytes)) in *. destruct (satisfiable rg); cbn [negb andb].
  - right. destruct Hsel as (Hle & Hlt & Hsel). exists (r_start rg), (r_end rg). unfold partial.
    rewrite !(proj1 (status_apply_extra _ _)), !(proj2 (status_apply_extra _ _)). cbn [status res_body].
    split; [done|]. split; [done|]. split; [done|]. split; [done|]. unfold size in Hlt. split; [|split; [|done]].
    + unfold size, substr. rewrite length_s_take, length_s_drop. lia.
    + intros k Hk. unfold substr. rewrite !s_at_chars, chars_take, chars_drop.
      rewrite lookup_take_lt by lia. by rewrite lookup_drop.
  - left. split; [done|]. split; [|done]. unfold range_refused. by rewrite (proj1 (status_apply_extra _ _)).
Qed.
End served.

Definition demo_canonical (p : string) : option string := Some p.
Definition demo_regular (p : string) : option (string * Z) :=
  if bool_decide (p = "/www/a.txt") then Some ("hello world", 7) else None.
Definition demo_request : Request := mkRequest "GET" "/a.txt" ∅ {["range" := "bytes=-5"]} "" ∅ ∅ "".

Lemma serve_confined_witness :
  let res := serve demo_canonical demo_regular (H := canonical_order) "/www" "a.txt" demo_request default_options in
  status res = 206 /\
  exists p bytes mtime, contains "a.txt" ".." = false /\ demo_canonical (path_join "/www" "a.txt") = Some p /\
    (p = "/www" \/ exists rest, p = "/www" +:+ "/" +:+ rest) /\ demo_regular p = Some (bytes, mtime) /\
    exists u v, bytes = u +:+ res_body res +:+ v.
Proof.
  intros res. split; [vm_compute; reflexivity|].
  destruct (serve_confined demo_canonical demo_regular (H := canonical_order) "/www" "/www" "a.txt" demo_request
    default_options eq_refl ltac:(discriminate)) as [E|(p & bytes & mtime & H1 & H2 & H3 & H4 & H5)].
  - vm_compute in E. discriminate.
  - exists p, bytes, mtime. split_and!; [exact H1|exact H2|exact H3|exact H4|].
    destruct H5 as [[E _]|[[_ E]|[[E|E] _]]]; [vm_compute in E; discriminate|exact E|vm_compute in E; discriminate..].
Defined.

Lemma serve_range_witness :
  let res := serve demo_canonical demo_regular (H := canonical_order) "/www" "a.txt" demo_request default_options in
  res_body res = "world" /\
  ((res = range_refused (size "hello world") default_options /\ status res = 416 /\
    forall i, ~ selects (Suffix 5) (size "hello world") i) \/
   (exists first last, status res = 206 /\ 0 <= first <= last /\ last < size "hello world" /\
     (forall i, first <= i <= last <-> selects (Suffix 5) (size "hello world") i) /\
     size (res_body res) = last - first + 1 /\
     (forall k, first + Z.of_nat k <= last -> s_at (res_body res) k = s_at "hello world" (Z.to_nat first + k)) /\
     res = apply_extra default_options (mkResponse 206 (res_body res)
       (<["Content-Range" := range_text first last (size "hello world")]>
         (whole_headers (mime_type "/www/a.txt") (etag_of (size "hello world") 7) default_options))))).
Proof.
  intros res. split; [vm_compute; reflexivity|].
  apply (serve_range demo_canonical demo_regular (H := canonical_order) "/www" "a.txt" demo_request default_options
    "hello world" 7 (Suffix 5)); [vm_compute; discriminate|reflexivity|vm_compute; discriminate|reflexivity|cbn; lia].
Defined.
