(* ===== verification/Pbkdf2.v ===== *)
(** * pbkdf2_hash.hpp: the PBKDF2 password hasher

    The derivation function (OpenSSL) and the random salt are parameters; [check] returns
    the exception that leaves it when the stored text is not hexadecimal. *)
From S2P Require Import Prelude CppString CppNum Http Token.

Local Open Scope Z_scope.

(** std::stoi(s, nullptr, 16): blanks, a sign, an optional 0x before a digit, hex digits. *)
Definition is_hex (c : ascii) : bool := 0 <=? hex c.
Fixpoint read_hex (acc : Z) (s : string) : Z :=
  match s with
  | String c s => if is_hex c then read_hex (acc * 16 + hex c) s else acc
  | "" => acc
  end.
Definition starts_hex (s : string) : bool := match s with String c _ => is_hex c | "" => false end.
Definition drop_0x (s : string) : string :=
  match s with
  | String z (String x t) =>
      if is_char "0" z && (is_char "x" x || is_char "X" x) && starts_hex t then t else s
  | _ => s
  end.
Definition parse_hex (s : string) : option Z :=
  let signed neg t := let t := drop_0x t in
    if starts_hex t then Some (if neg : bool then - read_hex 0 t else read_hex 0 t) else None in
  match skip_spaces s with
  | String c t => if is_char "-" c then signed true t else if is_char "+" c then signed false t
                  else signed false (String c t)
  | "" => None
  end.
Definition stoi16 (s : string) : res Z :=
  match parse_hex s with
  | None => Throw invalid_argument
  | Some z => if in_s32 z then Ok z else Throw out_of_range
  end.

Fixpoint unhex (s : string) : res string :=
  match s with
  | String a (String b s) =>
      z ← stoi16 (String a (str1 b));
      rest ← unhex s;
      mret (String (chr z) rest)
  | _ => mret ""
  end.

(** The same loop as that of token.hpp, over byte vectors. *)
Definition constant_time_equal (a b : string) : bool := Token.constant_time_equal a b.

Section hasher.
(** PKCS5_PBKDF2_HMAC with SHA-256: password, salt, iterations. *)
Variable derive : string -> string -> Z -> string.

Definition make (iterations : Z) (salt plain : string) : string :=
  "pbkdf2$" +:+ to_string iterations +:+ "$" +:+ hex_string salt +:+ "$" +:+
  hex_string (derive plain salt iterations).

Definition check (plain hashed : string) : res bool :=
  match split_chr "$" hashed with
  | [tag; iters; salt; expected] =>
      if negb (bool_decide (tag = "pbkdf2")) then mret false
      else
        match stoi iters with
        | Throw _ => mret false
        | Ok iters =>
            salt ← unhex salt;
            expected ← unhex expected;
            mret (constant_time_equal (derive plain salt iters) expected)
        end
  | _ => mret false
  end.
End hasher.

Lemma stoi16_byte hi lo : 0 <= hi < 16 -> 0 <= lo < 16 ->
  stoi16 (String (hex_digit hi) (str1 (hex_digit lo))) = Ok (hi * 16 + lo).
Proof.
  intros Hhi Hlo. revert hi Hhi. apply hex_digit_cases; revert lo Hlo; apply hex_digit_cases; vm_compute; reflexivity.
Qed.

Lemma unhex_hex_string s : unhex (hex_string s) = Ok s.
Proof.
  induction s as [|c s IH]; [done|]. pose proof (byte_of_bound c) as Hb. cbn [hex_string unhex].
  destruct (nibbles (byte_of c) Hb) as [Hhi Hlo]. rewrite stoi16_byte by done. cbn [mbind res_bind]. rewrite IH.
  cbn [mbind res_bind mret res_ret]. do 2 f_equal. rewrite <- (chr_byte_of c) at 3. f_equal.
  change 15 with (Z.ones 4). rewrite Z.land_ones, Z.shiftr_div_pow2 by lia. change (2 ^ 4) with 16.
  pose proof (Z.div_mod (byte_of c) 16 ltac:(lia)). lia.
Qed.

Lemma hex_no_dollar s : no_chr "$" (hex_string s).
Proof.
  destruct (hex_string_spec s) as [H _]. unfold no_chr, s_all in *. intros Hin.
  eapply Forall_forall in H; [|done]. by vm_compute in H.
Qed.

(** A password checks against the hash made from it under any salt, without throwing,
    and any other password exactly when the derivation function gives both the same key. *)
Theorem pbkdf2_verifies (derive : string -> string -> Z -> string) (iterations : Z) (salt plain other : string) :
  - 2 ^ 31 <= iterations < 2 ^ 31 ->
  check derive other (make derive iterations salt plain) =
    Ok (bool_decide (derive other salt iterations = derive plain salt iterations)).
Proof.
  intros Hi. unfold check. set (key := derive plain salt iterations).
  assert (E : make derive iterations salt plain =
    join_chr "$" ["pbkdf2"; to_string iterations; hex_string salt; hex_string key]).
  { unfold make. fold key. cbn [join_chr]. reflexivity. }
  rewrite E, split_chr_join.
  - rewrite bool_decide_eq_true_2 by done. cbn [negb].
    rewrite <- (s_app_nil_r (to_string iterations)), stoi_to_string by (done || by apply in_s32_iff).
    rewrite !unhex_hex_string. cbn. f_equal. apply eq_true_iff_eq.
    by rewrite Token.constant_time_equal_iff, bool_decide_eq_true.
  - done.
  - repeat (apply Forall_cons; split); try apply hex_no_dollar; [by_eval|by apply to_string_no_chr|by apply Forall_nil].
Qed.

Lemma pbkdf2_verifies_witness :
  check (fun p s i => s +:+ p) "secret" (make (fun p s i => s +:+ p) 100000 "salt" "secret") = Ok true.
Proof.
  etransitivity; [apply (pbkdf2_verifies (fun p s i => s +:+ p) 100000 "salt" "secret" "secret"); lia|reflexivity].
Defined.

(** A stored text that is not hexadecimal makes [check] throw rather than answer false. *)
Lemma malformed_hash_throws derive plain : check derive plain "pbkdf2$1$zz$00" = Throw invalid_argument.
Proof. reflexivity. Qed.
