(* ===== verification/View.v ===== *)
(** * view.hpp: the template engine

    [render_impl] scans for the next directive and splices its result.  Positions are
    size_t values: [npos] is 2^64 - 1, additions wrap, and [substr] throws past the end, as
    in the source.  Rendering recurses into blocks, partials and layouts and a scan can
    revisit a position, so the functions take fuel; [None] is a rendering that has not
    ended within it. *)
From S2P Require Import Prelude CppString CppNum.

Local Open Scope Z_scope.

Inductive View : Type := mkView (vars : gmap string string) (lists : gmap string (list View)).
Definition v_vars (v : View) : gmap string string := match v with mkView vars _ => vars end.
Definition v_lists (v : View) : gmap string (list View) := match v with mkView _ lists => lists end.
Definition set_var (key value : string) (v : View) : View := mkView (<[key := value]> (v_vars v)) (v_lists v).
Definition var (key : string) (v : View) : string := match v_vars v !! key with Some x => x | None => "" end.

Definition escape_char (c : ascii) : string :=
  if is_char "&" c then "&amp;"
  else if is_char "<" c then "&lt;"
  else if is_char ">" c then "&gt;"
  else if is_char quote c then "&quot;"
  else if is_char (chr 39) c then "&#39;"
  else str1 c.
Fixpoint escape (s : string) : string :=
  match s with
  | "" => ""
  | String c s => escape_char c +:+ escape s
  end.

Definition view_ws (c : ascii) : bool := is_char " " c || is_char (chr 9) c || is_char (chr 13) c || is_char (chr 10) c.
Definition trim (s : string) : string := trim_set view_ws s.
Definition truthy (v : string) : bool :=
  negb (bool_decide (v = "")) && negb (bool_decide (v = "0")) && negb (bool_decide (v = "false")).
Definition unquote (s : string) : string :=
  let s := trim s in
  match s_at s 0, s_at s (len s - 1) with
  | Some front, Some back =>
      if (2 <=? size s) && (is_char quote front || is_char (chr 39) front) && is_char front back
      then substr s 1 (len s - 2) else s
  | _, _ => s
  end.

(** ** Positions *)
Definition npos : Z := 2 ^ 64 - 1.
Definition find_pos (s p : string) (from : Z) : Z :=
  if size s <? from then npos
  else match find_str s p (Z.to_nat from) with Some k => Z.of_nat k | None => npos end.
Definition substr_pos (s : string) (pos n : Z) : res string :=
  if size s <? pos then Throw out_of_range
  else Ok (substr s (Z.to_nat pos) (Z.to_nat (Z.min n (size s - pos)))).
(** [a - b] and [a + b] on size_t. *)
Definition sub_pos (a b : Z) : Z := u64 (a - b).
Definition add_pos (a b : Z) : Z := u64 (a + b).

(** The fuel is the number of steps the loop can make: [i] grows at each of them. *)
Fixpoint matching_end_loop (fuel : nat) (t open close : string) (depth i : Z) : Z :=
  match fuel with
  | O => npos
  | S fuel =>
      if i <? size t then
        let o := find_pos t open i in
        let c := find_pos t close i in
        if c =? npos then npos
        else if negb (o =? npos) && (o <? c) then matching_end_loop fuel t open close (depth + 1) (o + size open)
        else if depth - 1 =? 0 then c
        else matching_end_loop fuel t open close (depth - 1) (c + size close)
      else npos
  end.
Definition matching_end (t : string) (from : Z) (open close : string) : Z :=
  matching_end_loop (S (len t)) t open close 1 from.

Fixpoint find_else_loop (fuel : nat) (t : string) (end_ depth i : Z) : Z :=
  match fuel with
  | O => npos
  | S fuel =>
      if i <? end_ then
        let fi := find_pos t "@if(" i in
        let fe := find_pos t "@endif" i in
        let el := find_pos t "@else" i in
        let n := Z.min fi (Z.min fe el) in
        if (n =? npos) || (end_ <=? n) then npos
        else if n =? fi then find_else_loop fuel t end_ (depth + 1) (fi + 4)
        else if n =? fe then find_else_loop fuel t end_ (depth - 1) (fe + 6)
        else if depth =? 0 then el
        else find_else_loop fuel t end_ depth (el + 5)
      else npos
  end.
Definition find_else (t : string) (from end_ : Z) : Z := find_else_loop (S (len t)) t end_ 0 from.

(** ** Rendering *)
Definition Rendered : Type := option (res string).
Definition then_str (r : res string) (k : string -> Rendered) : Rendered :=
  match r with Ok s => k s | Throw e => Some (Throw e) end.
Definition then_out (r : Rendered) (k : string -> Rendered) : Rendered :=
  match r with Some (Ok s) => k s | Some (Throw e) => Some (Throw e) | None => None end.
Definition Sections : Type := gmap string string.
Definition section_text (sections : option Sections) (name : string) : string :=
  match sections with
  | Some secs => match secs !! name with Some s => s | None => "" end
  | None => ""
  end.
Definition merged (ctx item : View) : View := mkView (v_vars item ∪ v_vars ctx) (v_lists item).

(** The first directive from [i] on. *)
Definition openers : list string := ["{!!"; "{{"; "@if("; "@foreach("; "@include("; "@yield("; "@section("].
Definition next_pos (tpl : string) (i : Z) : Z := fold_left Z.min (map (fun p => find_pos tpl p i) openers) npos.

Section render.
Variable partials : string -> string.

(** The directive at [next], the first from [i] on: its result goes to [out] and the loop
    goes on behind it.  [sub] renders a nested template. *)
Definition directive (sub : string -> View -> option Sections -> Rendered) (go : Z -> string -> Rendered)
    (tpl : string) (ctx : View) (sections : option Sections) (i next : Z) (out : string) : Rendered :=
  if next =? find_pos tpl "{!!" i then
    let e := find_pos tpl "!!}" next in
    then_str (substr_pos tpl (next + 3) (sub_pos e (next + 3))) (fun key =>
      go (add_pos e 3) (out +:+ var (trim key) ctx))
  else if next =? find_pos tpl "{{" i then
    let e := find_pos tpl "}}" next in
    then_str (substr_pos tpl (next + 2) (sub_pos e (next + 2))) (fun key =>
      go (add_pos e 2) (out +:+ escape (var (trim key) ctx)))
  else if next =? find_pos tpl "@if(" i then
    let cond_end := find_pos tpl ")" next in
    then_str (substr_pos tpl (next + 4) (sub_pos cond_end (next + 4))) (fun key =>
      let body := add_pos cond_end 1 in
      let end_ := matching_end tpl body "@if(" "@endif" in
      let els := find_else tpl body end_ in
      then_str (substr_pos tpl body (sub_pos (if els =? npos then end_ else els) body)) (fun then_part =>
        then_str (if els =? npos then Ok "" else substr_pos tpl (add_pos els 5) (sub_pos end_ (els + 5)))
          (fun else_part =>
            then_out (sub (if truthy (var (trim key) ctx) then then_part else else_part) ctx sections)
              (fun s => go (add_pos end_ 6) (out +:+ s)))))
  else if next =? find_pos tpl "@foreach(" i then
    let cond_end := find_pos tpl ")" next in
    then_str (substr_pos tpl (next + 9) (sub_pos cond_end (next + 9))) (fun spec =>
      let spec := trim spec in
      let list_ := trim (s_take (Z.to_nat (Z.min (find_pos spec " as " 0) (size spec))) spec) in
      let body := add_pos cond_end 1 in
      let end_ := matching_end tpl body "@foreach(" "@endforeach" in
      then_str (substr_pos tpl body (sub_pos end_ body)) (fun inner =>
        let items := match v_lists ctx !! list_ with Some l => l | None => [] end in
        then_out (fold_left (fun acc item => then_out acc (fun acc =>
                    then_out (sub inner (merged ctx item) sections) (fun s => Some (Ok (acc +:+ s)))))
                    items (Some (Ok out)))
          (fun out => go (add_pos end_ 11) out)))
  else if next =? find_pos tpl "@include(" i then
    let close := find_pos tpl ")" next in
    then_str (substr_pos tpl (next + 9) (sub_pos close (next + 9))) (fun name =>
      then_out (sub (partials (unquote name)) ctx sections) (fun s =>
        go (add_pos close 1) (out +:+ s)))
  else if next =? find_pos tpl "@yield(" i then
    let close := find_pos tpl ")" next in
    then_str (substr_pos tpl (next + 7) (sub_pos close (next + 7))) (fun name =>
      go (add_pos close 1) (out +:+ section_text sections (unquote name)))
  else
    let close := find_pos tpl ")" next in
    let body := add_pos close 1 in
    let end_ := matching_end tpl body "@section(" "@endsection" in
    then_str (substr_pos tpl body (sub_pos end_ body)) (fun inner =>
      then_out (sub inner ctx sections) (fun s =>
        go (add_pos end_ 11) (out +:+ s))).

Fixpoint render_impl (fuel : nat) (tpl : string) (ctx : View) (sections : option Sections) : Rendered :=
  match fuel with
  | O => None
  | S fuel =>
      let ext := find_pos tpl "@extends(" 0 in
      if negb (ext =? npos) then
        let close := find_pos tpl ")" ext in
        then_str (substr_pos tpl (ext + 9) (sub_pos close (ext + 9))) (fun arg =>
          match collect_sections fuel tpl ctx 0 ∅ with
          | None => None
          | Some (Throw e) => Some (Throw e)
          | Some (Ok secs) => render_impl fuel (partials (unquote arg)) ctx (Some secs)
          end)
      else render_loop fuel tpl ctx sections 0 ""
  end
with collect_sections (fuel : nat) (child : string) (ctx : View) (p : Z) (out : Sections)
    : option (res Sections) :=
  match fuel with
  | O => None
  | S fuel =>
      let p := find_pos child "@section(" p in
      if p =? npos then Some (Ok out)
      else
        let close := find_pos child ")" p in
        match substr_pos child (p + 9) (sub_pos close (p + 9)) with
        | Throw e => Some (Throw e)
        | Ok arg =>
            let body := add_pos close 1 in
            let end_ := matching_end child body "@section(" "@endsection" in
            match substr_pos child body (sub_pos end_ body) with
            | Throw e => Some (Throw e)
            | Ok inner =>
                match render_impl fuel inner ctx None with
                | None => None
                | Some (Throw e) => Some (Throw e)
                | Some (Ok text) => collect_sections fuel child ctx (add_pos end_ 11) (<[unquote arg := text]> out)
                end
            end
        end
  end
with render_loop (fuel : nat) (tpl : string) (ctx : View) (sections : option Sections) (i : Z) (out : string)
    : Rendered :=
  match fuel with
  | O => None
  | S fuel =>
      if size tpl <=? i then Some (Ok out)
      else
        let next := next_pos tpl i in
        if next =? npos then then_str (substr_pos tpl i npos) (fun rest => Some (Ok (out +:+ rest)))
        else then_str (substr_pos tpl i (next - i)) (fun text =>
          directive (render_impl fuel) (render_loop fuel tpl ctx sections) tpl ctx sections i next (out +:+ text))
  end.
End render.

(** A template on its own, and the registry of named ones. *)
Definition render (fuel : nat) (tpl : string) (ctx : View) : Rendered := render_impl (fun _ => "") fuel tpl ctx None.
Definition Views : Type := gmap string string.
Definition define (name tpl : string) (v : Views) : Views := <[name := tpl]> v.
Definition get_template (v : Views) (name : string) : string :=
  match v !! name with Some t => t | None => "" end.
Definition render_view (fuel : nat) (v : Views) (name : string) (ctx : View) : Rendered :=
  render_impl (get_template v) fuel (get_template v name) ctx None.

Definition demo_view : View :=
  mkView {["x" := "<b>"; "on" := "1"]} {["xs" := [mkView {["n" := "1"]} ∅; mkView {["n" := "2"]} ∅]]}.
Example render_demo :
  render 50 "a{{ x }}b{!! x !!}@if(on)Y@elseN@endif @foreach(xs as n)<{{ n }}>@endforeach" demo_view =
  Some (Ok "a&lt;b&gt;b<b>Y <1><2>").
Proof. vm_compute. reflexivity. Qed.
Example render_layout :
  render_view 50 (define "layout" "[@yield('body')]" (define "page" "@extends('layout')@section('body')hi {{ x }}@endsection" ∅))
    "page" demo_view = Some (Ok "[hi &lt;b&gt;]").
Proof. vm_compute. reflexivity. Qed.

(** An unterminated directive never ends: the search for its close gives [npos], which the
    addition wraps to the start of the template. *)
Lemma unterminated_loops partials fuel ctx sections out :
  render_loop partials fuel "Hi {{ name" ctx sections 1 out = None.
Proof.
  revert out. induction fuel as [|fuel IH]; intros out; [done|]. cbn [render_loop].
  change (size "Hi {{ name" <=? 1) with false. cbv iota zeta.
  change (next_pos "Hi {{ name" 1) with 3. change (3 =? npos) with false. cbv iota.
  change (substr_pos "Hi {{ name" 1 (3 - 1)) with (Ok "i " : res string). cbn [then_str]. unfold directive.
  change (3 =? find_pos "Hi {{ name" "{!!" 1) with false. change (3 =? find_pos "Hi {{ name" "{{" 1) with true. cbv iota.
  change (find_pos "Hi {{ name" "}}" 3) with npos. change (add_pos npos 2) with 1.
  change (substr_pos "Hi {{ name" (3 + 2) (sub_pos npos (3 + 2))) with (Ok " name" : res string). cbn [then_str]. apply IH.
Qed.
Lemma unterminated_never_ends fuel ctx : render fuel "Hi {{ name" ctx = None.
Proof.
  unfold render. destruct fuel as [|fuel]; [done|]. cbn [render_impl].
  change (negb (find_pos "Hi {{ name" "@extends(" 0 =? npos)) with false. cbv iota.
  destruct fuel as [|fuel]; [done|]. cbn [render_loop].
  change (size "Hi {{ name" <=? 0) with false. cbv iota zeta.
  change (next_pos "Hi {{ name" 0) with 3. change (3 =? npos) with false. cbv iota.
  change (substr_pos "Hi {{ name" 0 (3 - 0)) with (Ok "Hi " : res string). cbn [then_str]. unfold directive.
  change (3 =? find_pos "Hi {{ name" "{!!" 0) with false. change (3 =? find_pos "Hi {{ name" "{{" 0) with true. cbv iota.
  change (find_pos "Hi {{ name" "}}" 3) with npos. change (add_pos npos 2) with 1.
  change (substr_pos "Hi {{ name" (3 + 2) (sub_pos npos (3 + 2))) with (Ok " name" : res string). cbn [then_str].
  apply unterminated_loops.
Qed.

(** ** Escaping *)
(** What an HTML parser reads back from text: the five entities as their characters. *)
Definition entities : list (string * ascii) :=
  [("&amp;", chr 38); ("&lt;", chr 60); ("&gt;", chr 62); ("&quot;", quote); ("&#39;", chr 39)].
Definition entity_at (s : string) : option (string * ascii) :=
  List.find (fun e => is_prefix e.1 s) entities.
Fixpoint unescape (fuel : nat) (s : string) : string :=
  match fuel, s with
  | S fuel, String c t =>
      match entity_at s with
      | Some (e, d) => String d (unescape fuel (s_drop (len e) s))
      | None => String c (unescape fuel t)
      end
  | _, _ => ""
  end.
Definition markup (c : ascii) : bool :=
  is_char "<" c || is_char ">" c || is_char quote c || is_char (chr 39) c.

Lemma escape_char_cases c :
  (escape_char c, c) ∈ entities \/
  (escape_char c = str1 c /\ is_char "&" c = false /\ markup c = false).
Proof.
  unfold escape_char, markup, entities.
  destruct (is_char "&" c) eqn:E1; [left; apply bool_decide_eq_true in E1 as <-; left|].
  destruct (is_char "<" c) eqn:E2; [left; apply bool_decide_eq_true in E2 as <-; do 1 right; left|].
  destruct (is_char ">" c) eqn:E3; [left; apply bool_decide_eq_true in E3 as <-; do 2 right; left|].
  destruct (is_char quote c) eqn:E4; [left; apply bool_decide_eq_true in E4 as <-; do 3 right; left|].
  destruct (is_char (chr 39) c) eqn:E5; [left; apply bool_decide_eq_true in E5 as <-; do 4 right; left|].
  by right.
Qed.

Lemma entity_at_plain c t : is_char "&" c = false -> entity_at (String c t) = None.
Proof.
  intros Hc. unfold entity_at, entities. cbn [List.find fst is_prefix].
  unfold is_char in Hc. rewrite bool_decide_eq_false in Hc.
  repeat (case_bool_decide; [by destruct Hc|]). done.
Qed.
Lemma entity_at_entity e c t : (e, c) ∈ entities -> entity_at (e +:+ t) = Some (e, c).
Proof.
  unfold entities. rewrite !elem_of_cons, elem_of_nil.
  intros [[= -> ->]|[[= -> ->]|[[= -> ->]|[[= -> ->]|[[= -> ->]|[]]]]]]; reflexivity.
Qed.

Lemma entity_no_markup e c : (e, c) ∈ entities -> s_all (fun d => negb (markup d)) e.
Proof.
  unfold entities. rewrite !elem_of_cons, elem_of_nil.
  intros [[= -> ->]|[[= -> ->]|[[= -> ->]|[[= -> ->]|[[= -> ->]|[]]]]]]; unfold s_all; repeat constructor.
Qed.
Lemma entity_len e c : (e, c) ∈ entities -> (0 < len e)%nat.
Proof.
  unfold entities. rewrite !elem_of_cons, elem_of_nil.
  intros [[= -> ->]|[[= -> ->]|[[= -> ->]|[[= -> ->]|[[= -> ->]|[]]]]]]; cbn; lia.
Qed.

(** [{{ }}] is safe against injection and loses nothing: whatever the value, the
    escaped text holds no character that opens or closes markup or an attribute, and a
    parser that reads the entities back sees the value itself. *)
Theorem escape_safe s :
  s_all (fun c => negb (markup c)) (escape s) /\ unescape (S (len s)) (escape s) = s.
Proof.
  induction s as [|c s [IH1 IH2]]; [done|]. cbn [escape len String.length].
  destruct (escape_char_cases c) as [Hc|(-> & Hamp & Hm)].
  - split; [apply s_all_app; split; [by eapply entity_no_markup|done]|].
    pose proof (entity_len _ _ Hc). pose proof (entity_at_entity _ _ (escape s) Hc) as He.
    destruct (escape_char c) as [|d e] eqn:E; [cbn in *; lia|].
    cbn [unescape]. rewrite s_app_cons in *. rewrite He.
    change (String d (e +:+ escape s)) with (String d e +:+ escape s). rewrite s_drop_app by done.
    by f_equal.
  - unfold str1. rewrite s_app_cons, s_app_nil_l. split; [apply s_all_cons; split; [by rewrite Hm|done]|].
    cbn [unescape]. rewrite entity_at_plain by done. by f_equal.
Qed.
