(* ===== verification/Messaging.v ===== *)
(** * events.hpp, queue.hpp, broadcast.hpp, mail.hpp, mailable.hpp, smtp.hpp: messages inside and out

    Handlers, subscribers and jobs are computations on the application state.  The jobs of
    an [ArrayQueue] cannot reach the queue they are on: in the source a job that pushes to
    it while [work] iterates would invalidate the loop's iterator, which is undefined. *)
From S2P Require Import Prelude CppString CppNum View.

Definition EventHandler (S Event : Type) : Type := Event -> M S unit.
Abbreviation EventDispatcher S Event := (gmap string (list (EventHandler S Event))).

Section bus.
Context {A : Type}.

(** ** queue.hpp *)
Definition Job : Type := M A unit.
(** The state of a program with an array queue: the queued jobs and the application. *)
Definition Queued : Type := list Job * A.
Definition sync_push (job : Job) : M A unit := job.
Definition array_push (job : Job) : M Queued unit := modify (fun s => (s.1 ++ [job], s.2)).
Definition array_size : M Queued nat := gets (fun s => length s.1).
Fixpoint run_jobs (jobs : list Job) : M A unit :=
  match jobs with
  | [] => mret tt
  | j :: jobs => _ ← j; run_jobs jobs
  end.
Definition in_application {B} (m : M A B) : M Queued B := on_part snd (fun a s => (s.1, a)) m.
(** [for (auto& j : jobs_) j(); jobs_.clear();] *)
Definition array_work : M Queued unit :=
  jobs ← gets (fun s : Queued => s.1);
  _ ← in_application (run_jobs jobs);
  modify (fun s => ([], s.2)).

(** ** events.hpp: an event is a value of the type its key names *)
Section events.
Context {S Event : Type}.
Definition listeners (type : string) (d : EventDispatcher S Event) : list (EventHandler S Event) :=
  match d !! type with Some l => l | None => [] end.
Definition listen (type : string) (h : EventHandler S Event) (d : EventDispatcher S Event) : EventDispatcher S Event :=
  <[type := listeners type d ++ [h]]> d.
Fixpoint call_all (l : list (EventHandler S Event)) (event : Event) : M S unit :=
  match l with
  | [] => mret tt
  | h :: l => _ ← h event; call_all l event
  end.
Definition dispatch (type : string) (event : Event) (d : EventDispatcher S Event) : M S unit :=
  call_all (listeners type d) event.
Definition listener_count (type : string) (d : EventDispatcher S Event) : nat := length (listeners type d).
End events.

(** The handler runs later, on a copy of the event. *)
Definition listen_queued {Event} (push : Job -> M Queued unit) (type : string) (h : Event -> M A unit)
    (d : EventDispatcher Queued Event) : EventDispatcher Queued Event :=
  listen type (fun e => push (h e)) d.

(** ** broadcast.hpp *)
Definition Subscriber : Type := string -> string -> M A unit.
Definition Broadcaster : Type := gmap string (list Subscriber).
Definition channel_of (channel : string) (b : Broadcaster) : list Subscriber :=
  match b !! channel with Some l => l | None => [] end.
Definition subscribe (channel : string) (s : Subscriber) (b : Broadcaster) : Broadcaster :=
  <[channel := channel_of channel b ++ [s]]> b.
Fixpoint tell_all (l : list Subscriber) (event payload : string) : M A unit :=
  match l with
  | [] => mret tt
  | s :: l => _ ← s event payload; tell_all l event payload
  end.
Definition broadcast (channel event payload : string) (b : Broadcaster) : M A unit :=
  tell_all (channel_of channel b) event payload.
Definition subscribers (channel : string) (b : Broadcaster) : nat := length (channel_of channel b).

(** ** Queued listeners *)
Lemma listeners_listen {S Event} type type' (h : EventHandler S Event) d :
  listeners type (listen type' h d) = listeners type d ++ if bool_decide (type' = type) then [h] else [].
Proof.
  unfold listeners at 1, listen. case_bool_decide as E.
  - subst. by rewrite lookup_insert_eq.
  - rewrite lookup_insert_ne by done. by rewrite app_nil_r.
Qed.

Definition subscribe_all {S Event} (type : string) (hs : list (EventHandler S Event)) : EventDispatcher S Event :=
  fold_left (fun d h => listen type h d) hs ∅.
Lemma listeners_all {S Event} type (hs : list (EventHandler S Event)) : listeners type (subscribe_all type hs) = hs.
Proof.
  unfold subscribe_all. assert (H : forall d, listeners type (fold_left (fun d h => listen type h d) hs d) = listeners type d ++ hs).
  { induction hs as [|h hs IH]; intros d; cbn; [by rewrite app_nil_r|].
    rewrite IH, listeners_listen, bool_decide_eq_true_2, <- app_assoc by done. done. }
  rewrite H. unfold listeners. cbn. by rewrite lookup_empty.
Qed.

Lemma call_all_push {Event} (hs : list (Event -> M A unit)) e jobs a :
  call_all (map (fun h e => array_push (h e)) hs) e (jobs, a) = (Ok tt, (jobs ++ map (fun h => h e) hs, a)).
Proof.
  revert jobs. induction hs as [|h hs IH]; intros jobs; cbn; [by rewrite app_nil_r|].
  unfold mbind, M_bind, array_push, modify. cbn. rewrite IH. by rewrite <- app_assoc.
Qed.
Lemma call_all_jobs {Event} (hs : list (Event -> M A unit)) e a : call_all hs e a = run_jobs (map (fun h => h e) hs) a.
Proof.
  revert a. induction hs as [|h hs IH]; intros a; [done|]. cbn. unfold mbind, M_bind.
  destruct (h e a) as [[u|x] a']; [apply IH|done].
Qed.

(** Queueing listeners defers their effect and nothing else.  Dispatching to listeners
    queued on an empty array queue and then working it off calls the same handlers on the
    same event in the same order as dispatching to them directly: the application ends in
    the same state with the same result, and the queue is empty when no handler threw.
    When one did, the queue keeps all its jobs, those that had completed included. *)
Theorem queued_listeners {Event} (type : string) (hs : list (Event -> M A unit)) (e : Event) (a : A) :
  let queued := fold_left (fun d h => listen_queued array_push type h d) hs ∅ in
  let '(r, (jobs, a')) := (_ ← dispatch type e queued; array_work) ([], a) in
  (r, a') = dispatch type e (subscribe_all type hs) a /\
  jobs = match r with Ok _ => [] | Throw _ => map (fun h => h e) hs end.
Proof.
  cbn zeta. unfold dispatch at 1.
  assert (E : fold_left (fun d h => listen_queued array_push type h d) hs ∅
    = subscribe_all type (map (fun h e => array_push (h e)) hs)).
  { unfold subscribe_all. generalize (∅ : EventDispatcher Queued Event) as d.
    induction hs as [|h hs IH]; intros d; [done|]. cbn. by rewrite IH. }
  rewrite E, listeners_all. unfold mbind, M_bind. rewrite call_all_push. cbn [app].
  unfold dispatch. rewrite listeners_all, call_all_jobs.
  unfold array_work, mbind, M_bind, gets, in_application, on_part, modify. cbn [fst snd].
  by destruct (run_jobs _ a) as [[[]|x] a'].
Qed.
End bus.

(** ** mail.hpp *)
Record Mail : Type := mkMail { to : string; subject : string; mail_body : string }.
Definition ArrayMailer : Type := list Mail.
Definition send_array (m : Mail) (sent : ArrayMailer) : ArrayMailer := sent ++ [m].
Definition sent_to (address : string) (sent : ArrayMailer) : bool :=
  existsb (fun m => bool_decide (to m = address)) sent.

(** ** mailable.hpp: [None] when the view's rendering does not end within the fuel *)
Definition mailable (fuel : nat) (views : Views) (to subject view : string) (data : View) : option (res Mail) :=
  match render_view fuel views view data with
  | Some (Ok body) => Some (Ok (mkMail to subject body))
  | Some (Throw e) => Some (Throw e)
  | None => None
  end.

(** ** smtp.hpp *)
Definition nl : string := String (chr 13) (String (chr 10) "").
Definition format_email (from : string) (m : Mail) : string :=
  "From: " +:+ from +:+ nl +:+ "To: " +:+ to m +:+ nl +:+ "Subject: " +:+ subject m +:+ nl +:+ nl +:+ mail_body m +:+ nl.
Definition smtp_commands (from : string) (m : Mail) : list string :=
  ["HELO localhost"; "MAIL FROM:<" +:+ from +:+ ">"; "RCPT TO:<" +:+ to m +:+ ">"; "DATA";
   format_email from m +:+ "."; "QUIT"].
(** The lines [SmtpMailer::send] writes to the socket. *)
Definition conversation (from : string) (m : Mail) : list string :=
  map (fun cmd => cmd +:+ nl) (smtp_commands from m).

(** What a server takes as the message: everything before the first line that is a dot. *)
Definition received_data (text : string) : option string :=
  match find_str text (nl +:+ "." +:+ nl) 0 with Some k => Some (s_take k text +:+ nl) | None => None end.

(** The body is not dot-stuffed: a body with a line that is a single dot ends the message
    there, and the server reads what follows as commands. *)
Lemma smtp_body_is_truncated :
  let m := mkMail "a@x" "s" ("hello" +:+ nl +:+ "." +:+ nl +:+ "RCPT TO:<b@x>") in
  received_data (format_email "f@x" m +:+ "." +:+ nl) =
    Some (format_email "f@x" (mkMail "a@x" "s" "hello")).
Proof. vm_compute. reflexivity. Qed.
