(* ===== verification/ViewTree.v ===== *)
(** * view.hpp: templates as trees

    The reference meaning of the template language.  [node] is its syntax, [print] its
    text, [evals] what it stands for; the theorem says that [render_view] of a registry of
    printed templates gives that meaning, however directives nest, include one another and
    extend layouts. *)
From S2P Require Import Prelude CppString CppNum View.

Local Open Scope Z_scope.

(** ** Syntax *)
Inductive node : Type :=
  | Text (s : string)
  | Echo (key : string)
  | Raw (key : string)
  | If (key : string) (yes : list node)
  | IfElse (key : string) (yes no : list node)
  | Foreach (list_ item : string) (body : list node)
  | Include_ (arg : string)
  | Yield (arg : string)
  | Inline (arg : string) (body : list node).   (* @section outside a child template *)

Section node_induction.
Variable P : node -> Prop.
Hypotheses (HText : forall s, P (Text s)) (HEcho : forall k, P (Echo k)) (HRaw : forall k, P (Raw k))
  (HIf : forall k yes, Forall P yes -> P (If k yes))
  (HIfElse : forall k yes no, Forall P yes -> Forall P no -> P (IfElse k yes no))
  (HForeach : forall l i body, Forall P body -> P (Foreach l i body))
  (HInclude : forall a, P (Include_ a)) (HYield : forall a, P (Yield a))
  (HInline : forall a body, Forall P body -> P (Inline a body)).
Fixpoint node_nested_ind (n : node) : P n :=
  let fix all (l : list node) : Forall P l :=
    match l with
    | [] => @List.Forall_nil _ P
    | n :: l => @List.Forall_cons _ P n l (node_nested_ind n) (all l)
    end in
  match n with
  | Text s => HText s
  | Echo k => HEcho k
  | Raw k => HRaw k
  | If k yes => HIf k yes (all yes)
  | IfElse k yes no => HIfElse k yes no (all yes) (all no)
  | Foreach l i body => HForeach l i body (all body)
  | Include_ a => HInclude a
  | Yield a => HYield a
  | Inline a body => HInline a body (all body)
  end.
End node_induction.

Fixpoint print (n : node) : string :=
  let prints l := s_concat (map print l) in
  match n with
  | Text s => s
  | Echo k => "{{" +:+ k +:+ "}}"
  | Raw k => "{!!" +:+ k +:+ "!!}"
  | If k yes => "@if(" +:+ k +:+ ")" +:+ prints yes +:+ "@endif"
  | IfElse k yes no => "@if(" +:+ k +:+ ")" +:+ (prints yes +:+ "@else" +:+ prints no) +:+ "@endif"
  | Foreach l i body => "@foreach(" +:+ (l +:+ " as " +:+ i) +:+ ")" +:+ prints body +:+ "@endforeach"
  | Include_ a => "@include(" +:+ a +:+ ")"
  | Yield a => "@yield(" +:+ a +:+ ")"
  | Inline a body => "@section(" +:+ a +:+ ")" +:+ prints body +:+ "@endsection"
  end.
Definition prints (l : list node) : string := s_concat (map print l).

(** A template file: a page, or a child that fills the sections of a layout. *)
Record part : Type := mkPart { before : string; p_name : string; p_body : list node }.
Inductive tree : Type :=
  | Page (l : list node)
  | Child (pre layout : string) (parts : list part) (post : string).
Definition print_part (p : part) : string :=
  before p +:+ "@section(" +:+ p_name p +:+ ")" +:+ prints (p_body p) +:+ "@endsection".
Definition print_tree (t : tree) : string :=
  match t with
  | Page l => prints l
  | Child pre layout parts post => pre +:+ "@extends(" +:+ layout +:+ ")" +:+ s_concat (map print_part parts) +:+ post
  end.

(** ** Meaning *)
Section meaning.
(** What an included template stands for. *)
Variable inc : string -> View -> option Sections -> string.

Fixpoint eval (n : node) (ctx : View) (secs : option Sections) : string :=
  let evals l ctx := s_concat (map (fun n => eval n ctx secs) l) in
  match n with
  | Text s => s
  | Echo k => escape (var (trim k) ctx)
  | Raw k => var (trim k) ctx
  | If k yes => if truthy (var (trim k) ctx) then evals yes ctx else ""
  | IfElse k yes no => if truthy (var (trim k) ctx) then evals yes ctx else evals no ctx
  | Foreach l i body =>
      s_concat (map (fun item => evals body (merged ctx item)) (match v_lists ctx !! l with Some items => items | None => [] end))
  | Include_ a => inc (unquote a) ctx secs
  | Yield a => section_text secs (unquote a)
  | Inline a body => evals body ctx
  end.
Definition evals (l : list node) (ctx : View) (secs : option Sections) : string :=
  s_concat (map (fun n => eval n ctx secs) l).
Definition eval_tree (t : tree) (ctx : View) (secs : option Sections) : string :=
  match t with
  | Page l => evals l ctx secs
  | Child _ layout parts _ =>
      inc (unquote layout) ctx
        (Some (fold_left (fun out p => <[unquote (p_name p) := evals (p_body p) ctx None]> out) parts ∅))
  end.
End meaning.

Definition tree_of (ts : gmap string tree) (name : string) : tree :=
  match ts !! name with Some t => t | None => Page [] end.
(** Includes nest at most [depth] deep. *)
Fixpoint meaning (ts : gmap string tree) (depth : nat) (name : string) (ctx : View) (secs : option Sections) : string :=
  match depth with
  | O => ""
  | S depth => eval_tree (meaning ts depth) (tree_of ts name) ctx secs
  end.

(** ** Well-formed templates *)
(** Text in which no directive begins: an [@] is not followed by the first letter of a
    directive, nor an opening brace by a second one or a bang. *)
Definition starts_directive (c d : ascii) : bool :=
  (is_char "@" c && (is_char "i" d || is_char "f" d || is_char "y" d || is_char "s" d || is_char "e" d))
  || (is_char "{" c && (is_char "{" d || is_char "!" d)).
Definition opens (c : ascii) : bool := is_char "@" c || is_char "{" c.
Fixpoint text_ok (s : string) : bool :=
  match s with
  | "" => true
  | String c t =>
      (if opens c then match t with String d _ => negb (starts_directive c d) | "" => false end else true) && text_ok t
  end.
Definition lacks (c : ascii) (s : string) : bool := bool_decide (no_chr c s).
Definition key_ok (k : string) : bool := lacks "@" k && lacks "}" k.
Definition arg_ok (a : string) : bool := lacks "@" a && lacks ")" a.
Definition word_ok (w : string) : bool :=
  arg_ok w && negb (bool_decide (w = "")) && bool_decide (s_all (fun c => negb (view_ws c)) w).
Fixpoint node_ok (n : node) : bool :=
  match n with
  | Text s => text_ok s
  | Echo k | Raw k => key_ok k
  | If k yes => arg_ok k && forallb node_ok yes
  | IfElse k yes no => arg_ok k && forallb node_ok yes && forallb node_ok no
  | Foreach l i body => word_ok l && word_ok i && forallb node_ok body
  | Include_ a | Yield a => arg_ok a
  | Inline a body => arg_ok a && forallb node_ok body
  end.
Definition part_ok (p : part) : bool := text_ok (before p) && arg_ok (p_name p) && forallb node_ok (p_body p).
Definition tree_ok (t : tree) : bool :=
  match t with
  | Page l => forallb node_ok l
  | Child pre layout parts post => text_ok pre && arg_ok layout && forallb part_ok parts && text_ok post
  end.

(** The templates a template includes or extends. *)
Fixpoint includes (n : node) : list string :=
  match n with
  | If _ yes => flat_map includes yes
  | IfElse _ yes no => flat_map includes yes ++ flat_map includes no
  | Foreach _ _ body | Inline _ body => flat_map includes body
  | Include_ a => [unquote a]
  | _ => []
  end.
Definition tree_includes (t : tree) : list string :=
  match t with
  | Page l => flat_map includes l
  | Child _ layout parts _ => unquote layout :: flat_map (fun p => flat_map includes (p_body p)) parts
  end.

(** ** Inert text: no occurrence of a token starts in it, whatever follows *)
Definition inert (p s : string) : Prop := forall t, clear p s t.

Lemma inert_nil p : inert p "".
Proof. intros t. apply clear_nil. Qed.
Lemma inert_app p s u : inert p s -> inert p u -> inert p (s +:+ u).
Proof. intros Hs Hu t. apply clear_app; auto. Qed.
Lemma inert_no_chr c p s : no_chr c s -> inert (String c p) s.
Proof. intros Hs t. by apply clear_no_chr. Qed.
(** A literal whose first character only can begin the token, and does not. *)
Lemma inert_token c p d s : no_chr c s -> (forall t, is_prefix (String c p) (String d (s +:+ t)) = false) -> inert (String c p) (String d s).
Proof. intros Hs H t. apply clear_cons; [apply H|]. by apply clear_no_chr. Qed.
Lemma inert_concat p l : Forall (inert p) l -> inert p (s_concat l).
Proof. induction 1; [apply inert_nil|by apply inert_app]. Qed.

Definition token_head (p : string) : bool :=
  match p with String c (String d _) => starts_directive c d | _ => false end.
Lemma inert_text p s : token_head p = true -> text_ok s = true -> inert p s.
Proof.
  intros Hp Hs t. induction s as [|c s IH]; [apply clear_nil|]. cbn [text_ok] in Hs. bools.
  apply clear_cons; [|auto]. destruct p as [|a [|b p]]; try done. cbn [token_head] in Hp. cbn [is_prefix].
  destruct (bool_decide_reflect (a = c)) as [->|]; [|done]. cbn [andb].
  assert (Hc : opens c = true).
  { unfold starts_directive in Hp. unfold opens. destruct (is_char "@" c), (is_char "{" c); done. }
  rewrite Hc in *. destruct s as [|d s]; [done|]. rewrite s_app_cons.
  destruct (bool_decide_reflect (b = d)) as [->|]; [|done]. rewrite Hp in *. done.
Qed.

(** ** Positions *)
Lemma find0_skip p s r : clear p s r -> find0 p (s +:+ r) = Nat.add (len s) <$> find0 p r.
Proof.
  induction s as [|c s IH]; intros H.
  - rewrite s_app_nil_l. by destruct (find0 p r).
  - rewrite s_app_cons. cbn [find0]. pose proof (H 0%nat ltac:(cbn; lia)) as H0.
    rewrite s_app_cons in H0. cbn [s_drop] in H0. rewrite H0, IH; [by destruct (find0 p r)|].
    intros j Hj. apply (H (S j)). cbn. lia.
Qed.
Lemma size_nat u : Z.to_nat (size u) = len u.
Proof. unfold size. lia. Qed.
Lemma find_pos_app u s p :
  find_pos (u +:+ s) p (size u) = match find0 p s with Some k => size u + Z.of_nat k | None => npos end.
Proof.
  unfold find_pos, find_str. rewrite size_app. pose proof (size_nonneg s).
  rewrite (proj2 (Z.ltb_ge _ _)) by lia. rewrite size_nat, length_s_app.
  rewrite (proj2 (Nat.ltb_ge _ _)) by lia. rewrite s_drop_app by done. destruct (find0 p s); [|done].
  cbn [fmap option_fmap option_map]. unfold size. lia.
Qed.
Lemma find_pos_skip u s r p :
  clear p s r -> find_pos (u +:+ s +:+ r) p (size u) = find_pos (u +:+ s +:+ r) p (size u + size s).
Proof.
  intros H. rewrite find_pos_app, find0_skip by done. rewrite <- size_app, <- s_app_assoc, find_pos_app.
  rewrite size_app. destruct (find0 p r); [|done].
  cbn [fmap option_fmap option_map]. unfold size. lia.
Qed.
Lemma find_pos_hit u p r : find_pos (u +:+ p +:+ r) p (size u) = size u.
Proof.
  rewrite find_pos_app. pose proof (is_prefix_app p r) as H.
  destruct (p +:+ r); cbn [find0]; rewrite H; lia.
Qed.
Lemma find_pos_later u s p :
  size (u +:+ s) < npos -> is_prefix p s = false -> size u + 1 <= find_pos (u +:+ s) p (size u).
Proof.
  intros Hs Hp. rewrite size_app in Hs. pose proof (size_nonneg s). rewrite find_pos_app.
  destruct (find0 p s) as [k|] eqn:E; [|lia]. destruct k as [|k]; [|lia].
  destruct s; cbn [find0] in E; rewrite Hp in E; simplify_eq. by destruct (find0 p s).
Qed.
Lemma find_pos_ge u s p : size (u +:+ s) < npos -> size u <= find_pos (u +:+ s) p (size u).
Proof.
  intros Hs. rewrite size_app in Hs. pose proof (size_nonneg s). rewrite find_pos_app. destruct (find0 p s); lia.
Qed.
Lemma find_pos_end u p : p ≠ "" -> find_pos u p (size u) = npos.
Proof.
  intros Hp. rewrite <- (s_app_nil_r u) at 1. rewrite find_pos_app. by destruct p.
Qed.
(** The first occurrence after a part without any. *)
Lemma find_pos_at u s p r : clear p s (p +:+ r) -> find_pos (u +:+ s +:+ p +:+ r) p (size u) = size u + size s.
Proof.
  intros H. rewrite find_pos_skip by done. rewrite <- size_app, <- s_app_assoc. apply find_pos_hit.
Qed.
Lemma find_pos_bound t p i k : find_pos t p i = k -> 0 <= i -> k = npos \/ (i <= k /\ k + size p <= size t).
Proof.
  intros <- Hi. unfold find_pos. destruct (size t <? i) eqn:E; [by left|]. bools.
  destruct (find_str t p (Z.to_nat i)) as [k|] eqn:Ek; [right|by left].
  apply find_str_bound in Ek. unfold size in *. lia.
Qed.

Lemma find_pos_none u s r p :
  size (u +:+ s +:+ r) < npos -> find_pos (u +:+ s +:+ r) p (size u) = npos ->
  find_pos (u +:+ s +:+ r) p (size u + size s) = npos.
Proof.
  intros Hs. rewrite <- (size_app u s), find_pos_app, <- s_app_assoc, find_pos_app.
  rewrite !size_app in *. intros H. destruct (find0 p r) as [k|] eqn:E; [|done].
  apply find0_Some in E as (Hk & E & _).
  destruct (find0 p (s +:+ r)) as [j|] eqn:Ej.
  { apply find0_Some in Ej as (Hj & _). rewrite length_s_app in Hj. unfold size in *. lia. }
  exfalso. revert Ej. apply (find0_hit_ne p (s +:+ r) (len s + k)); [rewrite length_s_app; lia|].
  rewrite <- s_drop_drop, s_drop_app by done. rewrite E. rewrite s_drop_app; [apply is_prefix_app|].
  rewrite length_s_take. lia.
Qed.

Lemma sub_pos_app a b : 0 <= a -> 0 <= b -> a + b < 2 ^ 64 -> sub_pos (a + b) a = b.
Proof. intros. unfold sub_pos. replace (a + b - a) with b by lia. apply u64_small. lia. Qed.
Lemma substr_pos_at u s r : substr_pos (u +:+ s +:+ r) (size u) (size s) = Ok s.
Proof.
  unfold substr_pos. rewrite !size_app. pose proof (size_nonneg s). pose proof (size_nonneg r).
  rewrite (proj2 (Z.ltb_ge _ _)) by lia. rewrite Z.min_l by lia. f_equal. unfold substr, size. rewrite !Nat2Z.id.
  rewrite s_drop_app by done. by apply s_take_app.
Qed.

(** ** Finding the end of a block *)
Section matching.
Variables (open close : string).
Hypotheses (Hopen : open ≠ "") (Hclose : close ≠ "")
  (Hdiff : forall t, is_prefix open (close +:+ t) = false /\ is_prefix close (open +:+ t) = false).

Lemma matching_skip fuel u s r depth :
  clear open s r -> clear close s r ->
  matching_end_loop fuel (u +:+ s +:+ r) open close depth (size u) =
  matching_end_loop fuel (u +:+ s +:+ r) open close depth (size u + size s).
Proof.
  intros Ho Hc. destruct fuel as [|fuel]; [done|]. cbn [matching_end_loop].
  rewrite <- (find_pos_skip u s r open Ho), <- (find_pos_skip u s r close Hc).
  rewrite !size_app. pose proof (size_nonneg s). pose proof (size_nonneg r).
  destruct (size u + size s <? size u + (size s + size r)) eqn:E; bools.
  - by rewrite (proj2 (Z.ltb_lt _ _)) by lia.
  - assert (r = "") as ->. { unfold size in *. destruct r; [done|cbn in *; lia]. }
    rewrite (find_pos_skip u s "" close Hc), s_app_nil_r, <- (size_app u s), find_pos_end by done.
      by case_goal.
Qed.

Lemma matching_open fuel u r depth :
  size (u +:+ open +:+ r) < npos ->
  matching_end_loop (S fuel) (u +:+ open +:+ r) open close depth (size u) =
  matching_end_loop fuel (u +:+ open +:+ r) open close (depth + 1) (size u + size open).
Proof.
  intros Hs. cbn [matching_end_loop]. rewrite find_pos_hit.
  assert (Hl : 0 < size open) by (unfold size; destruct open; [done|cbn; lia]).
  pose proof (find_pos_later u (open +:+ r) close Hs (proj2 (Hdiff r))) as Hc. pose proof (size_nonneg r).
  rewrite (proj2 (Z.ltb_lt (size u) _)) by (rewrite !size_app; lia).
  destruct (find_pos _ close _ =? npos) eqn:E; bools.
  - apply find_pos_none in E; [|done]. destruct fuel as [|fuel]; [done|]. cbn [matching_end_loop].
    rewrite E. cbn. by case_goal.
  - rewrite !size_app in Hs. rewrite (proj2 (Z.eqb_neq (size u) npos)) by lia.
    by rewrite (proj2 (Z.ltb_lt (size u) _)) by lia.
Qed.
Lemma matching_close fuel u r depth :
  size (u +:+ close +:+ r) < npos ->
  matching_end_loop (S fuel) (u +:+ close +:+ r) open close depth (size u) =
  if depth - 1 =? 0 then size u
  else matching_end_loop fuel (u +:+ close +:+ r) open close (depth - 1) (size u + size close).
Proof.
  intros Hs. cbn [matching_end_loop]. rewrite find_pos_hit.
  assert (Hl : 0 < size close) by (unfold size; destruct close; [done|cbn; lia]).
  pose proof (find_pos_later u (close +:+ r) open Hs (proj1 (Hdiff r))) as Ho. pose proof (size_nonneg r).
  rewrite !size_app in *. rewrite (proj2 (Z.ltb_lt (size u) (_ + _))) by lia.
  rewrite (proj2 (Z.eqb_neq (size u) npos)) by lia.
  rewrite (proj2 (Z.ltb_ge _ (size u))) by lia. by rewrite andb_false_r.
Qed.

Lemma tokens_len : (0 < len open)%nat /\ (0 < len close)%nat.
Proof. by split; [destruct open|destruct close]; try (cbn; lia). Qed.

(** The search passes over a balanced text without changing depth. *)
Definition passes (s : string) : Prop := forall u r fuel depth,
  size (u +:+ s +:+ r) < npos -> 1 <= depth -> (len s <= fuel)%nat ->
  exists fuel', (fuel <= fuel' + len s)%nat /\
    matching_end_loop fuel (u +:+ s +:+ r) open close depth (size u) =
    matching_end_loop fuel' (u +:+ s +:+ r) open close depth (size u + size s).

Lemma passes_inert s : inert open s -> inert close s -> passes s.
Proof. intros Ho Hc u r fuel depth _ _ _. exists fuel. split; [lia|]. by apply matching_skip. Qed.
Lemma passes_app s t : passes s -> passes t -> passes (s +:+ t).
Proof.
  intros Hs Ht u r fuel depth Hsize Hd Hf. rewrite length_s_app in *.
  rewrite s_app_assoc in *.
  destruct (Hs u (t +:+ r) fuel depth) as (f1 & Hf1 & E1); [done|done|lia|].
  destruct (Ht (u +:+ s) r f1 depth) as (f2 & Hf2 & E2); [by rewrite s_app_assoc|done|lia|].
  exists f2. split; [lia|]. rewrite s_app_assoc in E2. rewrite E1, <- size_app, E2.
  by rewrite !size_app, Z.add_assoc.
Qed.
Lemma passes_block s : passes s -> passes (open +:+ s +:+ close).
Proof.
  intros Hs u r fuel depth Hsize Hd Hf. rewrite !length_s_app in *. rewrite !s_app_assoc in *.
  destruct tokens_len as [Hlo Hlc]. destruct fuel as [|fuel]; [lia|].
  rewrite matching_open by done.
  destruct (Hs (u +:+ open) (close +:+ r) fuel (depth + 1)) as (f1 & Hf1 & E1);
    [by rewrite s_app_assoc|lia|lia|].
  rewrite !s_app_assoc, (size_app u open) in E1. rewrite E1.
  destruct f1 as [|f1]; [lia|]. exists f1. split; [lia|].
  pose proof (matching_close f1 (u +:+ open +:+ s) r (depth + 1)) as E2. rewrite !s_app_assoc, !size_app in E2.
  rewrite !size_app in Hsize. rewrite !size_app. replace (size u + (size open + size s)) with (size u + size open + size s) in E2 by lia.
  rewrite E2 by lia.
  rewrite (proj2 (Z.eqb_neq _ 0)) by lia. f_equal; lia.
Qed.
Lemma matching_end_block u s r :
  size (u +:+ s +:+ close +:+ r) < npos -> passes s ->
  matching_end (u +:+ s +:+ close +:+ r) (size u) open close = size u + size s.
Proof.
  intros Hsize Hs. unfold matching_end. destruct tokens_len as [Hlo Hlc].
  destruct (Hs u (close +:+ r) (S (len (u +:+ s +:+ close +:+ r))) 1) as (f1 & Hf1 & E1); [done|lia|rewrite !length_s_app; lia|].
  rewrite E1. destruct f1 as [|f1]; [rewrite !length_s_app in Hf1; lia|].
  pose proof (matching_close f1 (u +:+ s) r 1) as E2. rewrite !s_app_assoc, !size_app in E2. rewrite !size_app in Hsize.
  rewrite E2 by lia. done.
Qed.
End matching.

(** ** Finding the @else of a block *)
Definition else_tokens : list string := ["@if("; "@endif"; "@else"].
Lemma else_skip fuel u s r end_ depth :
  Forall (fun p => clear p s r) else_tokens -> size u + size s <= end_ ->
  find_else_loop fuel (u +:+ s +:+ r) end_ depth (size u) =
  find_else_loop fuel (u +:+ s +:+ r) end_ depth (size u + size s).
Proof.
  unfold else_tokens. rewrite !Forall_cons. intros (H1 & H2 & H3 & _) Hend.
  destruct fuel as [|fuel]; [done|]. cbn [find_else_loop].
  rewrite (find_pos_skip u s r "@if(" H1), (find_pos_skip u s r "@endif" H2), (find_pos_skip u s r "@else" H3).
  pose proof (size_nonneg s). destruct (size u + size s <? end_) eqn:E; bools.
  - by rewrite (proj2 (Z.ltb_lt _ _)) by lia.
  - assert (Hge : forall p, end_ <= find_pos (u +:+ s +:+ r) p (size u + size s) \/ find_pos (u +:+ s +:+ r) p (size u + size s) = npos).
    { intros p. pose proof (size_nonneg u).
      destruct (find_pos_bound (u +:+ s +:+ r) p (size u + size s) _ eq_refl) as [E1|[E1 _]]; [lia|by right|left; lia]. }
    set (n := Z.min _ _). assert (Hn : (n =? npos) || (end_ <=? n) = true).
    { apply orb_true_iff. rewrite Z.eqb_eq, Z.leb_le.
      pose proof (Hge "@if("). pose proof (Hge "@endif"). pose proof (Hge "@else"). lia. }
    rewrite Hn. by case_goal.
Qed.

Ltac literal_sizes := change (size "@if(") with 4 in *; change (size "@endif") with 6 in *; change (size "@else") with 5 in *.

(** One of the three tokens at the position. *)
Lemma else_if fuel u r end_ depth :
  size (u +:+ "@if(" +:+ r) < npos -> size u < end_ ->
  find_else_loop (S fuel) (u +:+ "@if(" +:+ r) end_ depth (size u) =
  find_else_loop fuel (u +:+ "@if(" +:+ r) end_ (depth + 1) (size u + 4).
Proof.
  intros Hs He. cbn [find_else_loop]. rewrite find_pos_hit, (proj2 (Z.ltb_lt _ _)) by done.
  pose proof (find_pos_ge u ("@if(" +:+ r) "@endif" Hs). pose proof (find_pos_ge u ("@if(" +:+ r) "@else" Hs).
  rewrite Z.min_l by lia. rewrite !size_app in Hs. pose proof (size_nonneg r). change (size "@if(") with 4 in Hs.
  rewrite (proj2 (Z.eqb_neq _ npos)), (proj2 (Z.leb_gt _ _)) by lia. by rewrite Z.eqb_refl.
Qed.
Lemma else_endif fuel u r end_ depth :
  size (u +:+ "@endif" +:+ r) < npos -> size u < end_ ->
  find_else_loop (S fuel) (u +:+ "@endif" +:+ r) end_ depth (size u) =
  find_else_loop fuel (u +:+ "@endif" +:+ r) end_ (depth - 1) (size u + 6).
Proof.
  intros Hs He. cbn [find_else_loop]. rewrite find_pos_hit, (proj2 (Z.ltb_lt _ _)) by done.
  pose proof (find_pos_later u ("@endif" +:+ r) "@if(" Hs eq_refl). pose proof (find_pos_ge u ("@endif" +:+ r) "@else" Hs).
  rewrite (Z.min_l (size u)), Z.min_r by lia. rewrite !size_app in Hs. pose proof (size_nonneg r). change (size "@endif") with 6 in Hs.
  rewrite (proj2 (Z.eqb_neq _ npos)), (proj2 (Z.leb_gt _ _)) by lia. cbn [orb].
  by rewrite (proj2 (Z.eqb_neq (size u) _)), Z.eqb_refl by lia.
Qed.
Lemma else_else fuel u r end_ depth :
  size (u +:+ "@else" +:+ r) < npos -> size u < end_ ->
  find_else_loop (S fuel) (u +:+ "@else" +:+ r) end_ depth (size u) =
  if depth =? 0 then size u else find_else_loop fuel (u +:+ "@else" +:+ r) end_ depth (size u + 5).
Proof.
  intros Hs He. cbn [find_else_loop]. rewrite find_pos_hit, (proj2 (Z.ltb_lt _ _)) by done.
  pose proof (find_pos_later u ("@else" +:+ r) "@if(" Hs eq_refl). pose proof (find_pos_later u ("@else" +:+ r) "@endif" Hs eq_refl).
  rewrite (Z.min_r _ (size u)), Z.min_r by lia. rewrite !size_app in Hs. pose proof (size_nonneg r). change (size "@else") with 5 in Hs.
  rewrite (proj2 (Z.eqb_neq _ npos)), (proj2 (Z.leb_gt _ _)) by lia. cbn [orb].
  by rewrite !(proj2 (Z.eqb_neq (size u) _)) by lia.
Qed.

(** The search passes over a text whose conditionals are closed. *)
Definition passes_else (d : Z) (s : string) : Prop := forall u r fuel end_ depth,
  size (u +:+ s +:+ r) < npos -> d <= depth -> size u + size s <= end_ -> (len s <= fuel)%nat ->
  exists fuel', (fuel <= fuel' + len s)%nat /\
    find_else_loop fuel (u +:+ s +:+ r) end_ depth (size u) =
    find_else_loop fuel' (u +:+ s +:+ r) end_ depth (size u + size s).

Lemma passes_else_weaken d d' s : d <= d' -> passes_else d s -> passes_else d' s.
Proof. intros Hd Hs u r fuel end_ depth H1 H2 H3 H4. apply Hs; [done|lia|done|done]. Qed.
Lemma passes_else_inert s : Forall (fun p => inert p s) else_tokens -> passes_else 0 s.
Proof.
  intros Hs u r fuel end_ depth _ _ Hend _. exists fuel. split; [lia|]. apply else_skip; [|done].
  eapply Forall_impl; [done|]. intros p Hp. apply Hp.
Qed.
Lemma passes_else_app d s t : passes_else d s -> passes_else d t -> passes_else d (s +:+ t).
Proof.
  intros Hs Ht u r fuel end_ depth Hsize Hd Hend Hf. rewrite length_s_app in *. rewrite s_app_assoc in *. rewrite (size_app s t) in Hend.
  pose proof (size_nonneg t).
  destruct (Hs u (t +:+ r) fuel end_ depth) as (f1 & Hf1 & E1); [done|done|lia|lia|].
  destruct (Ht (u +:+ s) r f1 end_ depth) as (f2 & Hf2 & E2); [by rewrite s_app_assoc|done|rewrite size_app; lia|lia|].
  exists f2. split; [lia|]. rewrite s_app_assoc in E2. rewrite E1, <- size_app, E2.
  by rewrite !size_app, Z.add_assoc.
Qed.
Lemma passes_else_else : passes_else 1 "@else".
Proof.
  intros u r fuel end_ depth Hsize Hd Hend Hf. destruct fuel as [|fuel]; [cbn in Hf; lia|].
  change (size "@else") with 5 in *. exists fuel. split; [cbn; lia|]. rewrite else_else by (done || lia).
  by rewrite (proj2 (Z.eqb_neq _ 0)) by lia.
Qed.
Lemma passes_else_block s : passes_else 1 s -> passes_else 0 ("@if(" +:+ s +:+ "@endif").
Proof.
  intros Hs u r fuel end_ depth Hsize Hd Hend Hf. rewrite !length_s_app, !size_app in *. rewrite !s_app_assoc in *.
  literal_sizes. change (len "@if(") with 4%nat in *. change (len "@endif") with 6%nat in *. pose proof (size_nonneg s).
  pose proof (size_nonneg r). destruct fuel as [|fuel]; [lia|]. rewrite else_if; [|rewrite !size_app; literal_sizes; lia|lia].
  destruct (Hs (u +:+ "@if(") ("@endif" +:+ r) fuel end_ (depth + 1)) as (f1 & Hf1 & E1);
    [rewrite !size_app; literal_sizes; lia|lia|rewrite size_app; literal_sizes; lia|lia|].
  rewrite !s_app_assoc, (size_app u "@if(") in E1. literal_sizes. rewrite E1.
  destruct f1 as [|f1]; [lia|]. exists f1. split; [lia|].
  pose proof (else_endif f1 (u +:+ "@if(" +:+ s) r end_ (depth + 1)) as E2.
  rewrite !s_app_assoc, !size_app in E2. literal_sizes.
  replace (size u + (4 + size s)) with (size u + 4 + size s) in E2 by lia.
  rewrite E2 by lia. f_equal; lia.
Qed.

Lemma find_else_none u s r :
  size (u +:+ s +:+ r) < npos -> passes_else 0 s -> find_else (u +:+ s +:+ r) (size u) (size u + size s) = npos.
Proof.
  intros Hsize Hs. unfold find_else.
  destruct (Hs u r (S (len (u +:+ s +:+ r))) (size u + size s) 0) as (f1 & Hf1 & E1); [done|lia|lia|rewrite !length_s_app; lia|].
  rewrite E1. destruct f1; [done|]. cbn [find_else_loop]. by rewrite Z.ltb_irrefl.
Qed.
Lemma find_else_some u s r end_ :
  size (u +:+ s +:+ "@else" +:+ r) < npos -> passes_else 0 s -> size u + size s < end_ ->
  find_else (u +:+ s +:+ "@else" +:+ r) (size u) end_ = size u + size s.
Proof.
  intros Hsize Hs Hend. unfold find_else.
  destruct (Hs u ("@else" +:+ r) (S (len (u +:+ s +:+ "@else" +:+ r))) end_ 0) as (f1 & Hf1 & E1); [done|lia|lia|rewrite !length_s_app; lia|].
  rewrite E1. destruct f1 as [|f1]; [rewrite !length_s_app in Hf1; cbn in Hf1; lia|].
  pose proof (else_else f1 (u +:+ s) r end_ 0) as E2. rewrite !s_app_assoc, !size_app in E2. rewrite !size_app in Hsize.
  rewrite E2 by lia. done.
Qed.

(** ** What printed nodes are to these searches *)
Lemma Forall_forallb {A} (f : A -> bool) (P : A -> Prop) l :
  Forall (fun a => f a = true -> P a) l -> forallb f l = true -> Forall P l.
Proof. induction 1; cbn; intros; bools; constructor; auto. Qed.
Lemma lacks_spec c s : lacks c s = true <-> no_chr c s.
Proof. apply bool_decide_eq_true. Qed.
Lemma word_no_at w : word_ok w = true -> lacks "@" w = true.
Proof. unfold word_ok, arg_ok. intros. bools. done. Qed.

(** [inert] for the pieces of a printed node. *)
Ltac inert_pieces :=
  repeat first
    [ apply inert_app | assumption
    | apply inert_text; [reflexivity|assumption]
    | apply inert_no_chr, lacks_spec; assumption
    | apply inert_no_chr, lacks_spec, word_no_at; assumption
    | apply inert_no_chr; by_eval
    | apply inert_token; [by_eval|reflexivity] ].
Lemma node_inert_extends n : node_ok n = true -> inert "@extends(" (print n).
Proof.
  induction n using node_nested_ind; cbn [node_ok print]; unfold key_ok, arg_ok; intros; bools;
    repeat match goal with
    | H : Forall _ ?l, H' : forallb node_ok ?l = true |- _ =>
        apply (Forall_forallb _ _ _ H), Forall_fmap, inert_concat in H'; clear H
    end; inert_pieces.
Qed.

Definition block_pairs : list (string * string) :=
  [("@if(", "@endif"); ("@foreach(", "@endforeach"); ("@section(", "@endsection")].
Lemma block_pairs_facts o c : (o, c) ∈ block_pairs ->
  o ≠ "" /\ c ≠ "" /\ (forall t, is_prefix o (c +:+ t) = false /\ is_prefix c (o +:+ t) = false) /\
  exists o' c', o = String "@" o' /\ c = String "@" c' /\ token_head o = true /\ token_head c = true.
Proof.
  unfold block_pairs. rewrite !elem_of_cons, elem_of_nil.
  intros [[= -> ->]|[[= -> ->]|[[= -> ->]|[]]]]; (split; [done|split; [done|split; [done|eauto 10]]]).
Qed.

Section block.
Variables (o c : string).
Hypothesis Hpair : (o, c) ∈ block_pairs.

Lemma passes_concat l : Forall (passes o c) l -> passes o c (s_concat l).
Proof.
  destruct (block_pairs_facts o c Hpair) as (H1 & H2 & H3 & _).
  induction 1; [apply passes_inert; [done..|apply inert_nil|apply inert_nil]|]. by apply passes_app.
Qed.
Lemma passes_arg_block k s :
  passes o c (k +:+ ")" +:+ s) -> passes o c (o +:+ k +:+ ")" +:+ s +:+ c).
Proof.
  destruct (block_pairs_facts o c Hpair) as (H1 & H2 & H3 & _). intros H.
  replace (o +:+ k +:+ ")" +:+ s +:+ c) with (o +:+ (k +:+ ")" +:+ s) +:+ c) by (by rewrite !s_app_assoc).
  by apply passes_block.
Qed.
Lemma passes_plain s : inert o s -> inert c s -> passes o c s.
Proof. destruct (block_pairs_facts o c Hpair) as (H1 & H2 & H3 & _). by apply passes_inert. Qed.
End block.

Ltac bodies f :=
  repeat match goal with
  | H : Forall _ ?l, H' : forallb node_ok ?l = true |- _ =>
      apply (Forall_forallb _ _ _ H), Forall_fmap, f in H'; clear H
  end.
Ltac pass_pieces :=
  repeat first
    [ assumption
    | apply passes_arg_block; [by repeat constructor|]
    | apply passes_plain; [by repeat constructor|inert_pieces; fail|inert_pieces; fail]
    | apply passes_app ].
Lemma node_passes o c n : (o, c) ∈ block_pairs -> node_ok n = true -> passes o c (print n).
Proof.
  intros Hpair. induction n using node_nested_ind; cbn [node_ok print]; unfold key_ok, arg_ok; intros; bools;
    bodies (passes_concat o c Hpair); unfold block_pairs in Hpair;
    rewrite !elem_of_cons, elem_of_nil in Hpair; destruct Hpair as [[= -> ->]|[[= -> ->]|[[= -> ->]|[]]]];
    pass_pieces.
Qed.

Lemma passes_else_concat l : Forall (passes_else 0) l -> passes_else 0 (s_concat l).
Proof.
  induction 1; [apply passes_else_inert; unfold else_tokens; auto using inert_nil|]. by apply passes_else_app.
Qed.
Lemma passes_else_arg_block k s :
  passes_else 0 (k +:+ ")") -> passes_else 1 s -> passes_else 0 ("@if(" +:+ k +:+ ")" +:+ s +:+ "@endif").
Proof.
  intros Hk H. replace ("@if(" +:+ k +:+ ")" +:+ s +:+ "@endif") with ("@if(" +:+ ((k +:+ ")") +:+ s) +:+ "@endif")
    by (by rewrite !s_app_assoc).
  apply passes_else_block, passes_else_app; [|done]. apply (passes_else_weaken 0 1); [lia|done].
Qed.
Ltac else_pieces :=
  repeat first
    [ assumption
    | apply passes_else_arg_block
    | apply passes_else_else
    | apply passes_else_inert; unfold else_tokens; repeat apply List.Forall_cons; try apply List.Forall_nil; inert_pieces; fail
    | apply passes_else_app
    | apply (passes_else_weaken 0 1); [lia|] ].
Lemma node_passes_else n : node_ok n = true -> passes_else 0 (print n).
Proof.
  induction n using node_nested_ind; cbn [node_ok print]; unfold key_ok, arg_ok; intros; bools;
    bodies passes_else_concat; else_pieces.
Qed.

Lemma forallb_prints (P : string -> Prop) l :
  (forall n, node_ok n = true -> P (print n)) -> forallb node_ok l = true -> Forall P (map print l).
Proof. intros H Hl. apply Forall_fmap, (Forall_forallb node_ok); [|done]. apply Forall_true. exact H. Qed.
Lemma prints_inert_extends l : forallb node_ok l = true -> inert "@extends(" (prints l).
Proof. intros H. apply inert_concat, forallb_prints; [apply node_inert_extends|done]. Qed.
Lemma prints_passes o c l : (o, c) ∈ block_pairs -> forallb node_ok l = true -> passes o c (prints l).
Proof. intros Hp H. apply (passes_concat o c Hp), forallb_prints; [|done]. intros n. by apply node_passes. Qed.
Lemma prints_passes_else l : forallb node_ok l = true -> passes_else 0 (prints l).
Proof. intros H. apply passes_else_concat, forallb_prints; [apply node_passes_else|done]. Qed.

(** ** Steps of the rendering loop *)
Lemma min_fold_ge l m b : b <= m -> Forall (fun z => b <= z) l -> b <= fold_left Z.min l m.
Proof. intros Hm Hl. revert m Hm. induction Hl; intros m Hm; cbn; [done|]. apply IHHl. lia. Qed.
Lemma min_fold_init l m : fold_left Z.min l m <= m.
Proof. revert m. induction l as [|z l IH]; intros m; cbn; [lia|]. specialize (IH (Z.min m z)). lia. Qed.
Lemma min_fold_le l m b : b ∈ l -> fold_left Z.min l m <= b.
Proof.
  revert m. induction l as [|z l IH]; intros m Hb; [by apply elem_of_nil in Hb|].
  apply elem_of_cons in Hb as [->|Hb]; cbn; [|by apply IH]. pose proof (min_fold_init l (Z.min m z)). lia.
Qed.
Lemma next_here u s p :
  p ∈ openers -> size (u +:+ s) < npos -> is_prefix p s = true -> next_pos (u +:+ s) (size u) = size u.
Proof.
  intros Hp Hs H. apply is_prefix_iff in H as [r ->]. unfold next_pos. apply Z.le_antisymm.
  - apply min_fold_le. rewrite <- (find_pos_hit u p r) at 1. by apply list_elem_of_In, (in_map (fun q => find_pos _ q _)), list_elem_of_In.
  - apply min_fold_ge; [rewrite !size_app in Hs; pose proof (size_nonneg r); pose proof (size_nonneg p); lia|].
    apply Forall_fmap, Forall_true. intros q. by apply find_pos_ge.
Qed.
Lemma is_next u s p : size (u +:+ s) < npos -> (size u =? find_pos (u +:+ s) p (size u)) = is_prefix p s.
Proof.
  intros Hs. destruct (is_prefix p s) eqn:E.
  - apply is_prefix_iff in E as [r ->]. by rewrite find_pos_hit, Z.eqb_refl.
  - pose proof (find_pos_later u s p Hs E). apply Z.eqb_neq. lia.
Qed.
Lemma next_skip u s r : text_ok s = true -> next_pos (u +:+ s +:+ r) (size u) = next_pos (u +:+ s +:+ r) (size u + size s).
Proof.
  intros Hs. unfold next_pos, openers. cbn [map].
  rewrite !(find_pos_skip u s r) by (by apply inert_text). done.
Qed.

Lemma substr_head_pos u s r k :
  0 <= k ->
  exists x, substr_pos (u +:+ s +:+ r) (size u + size s) k = Ok x /\
    substr_pos (u +:+ s +:+ r) (size u) (size s + k) = Ok (s +:+ x).
Proof.
  intros Hk. unfold substr_pos. rewrite !size_app. pose proof (size_nonneg s). pose proof (size_nonneg r).
  pose proof (size_nonneg u). rewrite !(proj2 (Z.ltb_ge _ _)) by lia. eexists. split; [reflexivity|]. f_equal.
  unfold substr. rewrite <- (size_app u s), !size_nat, s_drop_app by done.
  rewrite <- (s_app_assoc u), s_drop_app, size_app by done.
  replace (Z.to_nat (Z.min (size s + k) _)) with (len s + Z.to_nat (Z.min k (size u + (size s + size r) - (size u + size s))))%nat
    by (unfold size in *; lia).
  by rewrite s_take_app_add.
Qed.

Lemma substr_all u s : size (u +:+ s) < npos -> substr_pos (u +:+ s) (size u) npos = Ok s.
Proof.
  intros Hs. unfold substr_pos. rewrite size_app in *. pose proof (size_nonneg s). pose proof (size_nonneg u).
  rewrite (proj2 (Z.ltb_ge _ _)), Z.min_r by lia. replace (size u + size s - size u) with (size s) by lia.
  f_equal. unfold substr. rewrite !size_nat, s_drop_app by done. by apply s_take_ge.
Qed.

(** Where a directive's argument ends, and what it is. *)
Lemma substr_arg u a k r :
  size (u +:+ a +:+ k +:+ r) < npos ->
  substr_pos (u +:+ a +:+ k +:+ r) (size u + size a) (sub_pos (size u + size a + size k) (size u + size a)) = Ok k.
Proof.
  intros Hs. rewrite !size_app in Hs. pose proof (size_nonneg u). pose proof (size_nonneg a).
  pose proof (size_nonneg k). pose proof (size_nonneg r). unfold npos in Hs.
  rewrite sub_pos_app by lia. rewrite <- size_app, <- (s_app_assoc u). apply substr_pos_at.
Qed.
Lemma arg_step u a k p r :
  clear p (a +:+ k) (p +:+ r) -> size (u +:+ a +:+ k +:+ p +:+ r) < npos ->
  let e := find_pos (u +:+ a +:+ k +:+ p +:+ r) p (size u) in
  substr_pos (u +:+ a +:+ k +:+ p +:+ r) (size u + size a) (sub_pos e (size u + size a)) = Ok k /\
  add_pos e (size p) = size (u +:+ a +:+ k +:+ p).
Proof.
  intros Hk Hs. cbn zeta. rewrite <- (s_app_assoc a k), find_pos_at, s_app_assoc, size_app, Z.add_assoc by done.
  split; [by apply substr_arg|].
  rewrite !size_app in *. unfold add_pos. rewrite u64_small; [lia|].
  pose proof (size_nonneg u). pose proof (size_nonneg a). pose proof (size_nonneg k). pose proof (size_nonneg p).
  pose proof (size_nonneg r). unfold npos in Hs. lia.
Qed.
(** A literal without the closer's first character, and a key without its last. *)
Lemma clear_arg c p a k t : no_chr c a -> no_chr c k -> clear (String c p) (a +:+ k) t.
Proof. intros Ha Hk. apply clear_no_chr, no_chr_app. done. Qed.
Lemma clear_raw k r : no_chr "}" k -> clear "!!}" ("{!!" +:+ k) ("!!}" +:+ r).
Proof.
  intros Hk j Hj. change ("!!}" +:+ r) with ("!!" +:+ "}" +:+ r).
  assert (Hno : no_chr "}" (("{!!" +:+ k) +:+ "!!")) by (rewrite !no_chr_app; repeat split; [by_eval|done|by_eval]).
  rewrite <- s_app_assoc, s_drop_app_le by (rewrite length_s_app; lia).
  rewrite is_prefix_app_long by (rewrite length_s_drop, length_s_app; change (len "!!}") with 3%nat; change (len "!!") with 2%nat; lia).
  destruct (is_prefix _ _) eqn:E; [|done]. apply is_prefix_iff in E as [t E].
  apply (no_chr_drop _ j) in Hno. rewrite E in Hno. exfalso. apply Hno. cbn. set_solver.
Qed.
Lemma add_pos_small a b : 0 <= a -> 0 <= b -> a + b < 2 ^ 64 -> add_pos a b = a + b.
Proof. intros. unfold add_pos. apply u64_small. lia. Qed.

Section loop.
Variables (partials : string -> string) (ctx : View) (secs : option Sections).

Lemma loop_text fuel u s r out :
  text_ok s = true -> size (u +:+ s +:+ r) < npos ->
  render_loop partials (S fuel) (u +:+ s +:+ r) ctx secs (size u) out =
  render_loop partials (S fuel) (u +:+ s +:+ r) ctx secs (size u + size s) (out +:+ s).
Proof.
  intros Hs Hsize. destruct (decide (s = "")) as [->|Hne].
  { rewrite s_app_nil_r. by rewrite Z.add_0_r. }
  assert (Hl : 0 < size s) by (unfold size; destruct s; [done|cbn; lia]).
  cbn [render_loop]. rewrite (next_skip u s r Hs). set (n := next_pos _ _).
  assert (Hu : size u + size s <= size (u +:+ s +:+ r)) by (rewrite !size_app; pose proof (size_nonneg r); lia).
  rewrite (proj2 (Z.leb_gt (size _) (size u))) by lia.
  assert (Hn : n = npos \/ size u + size s <= n).
  { right. apply min_fold_ge; [lia|]. apply Forall_fmap, Forall_true. intros p. rewrite <- (s_app_assoc u), <- size_app.
    apply find_pos_ge. by rewrite s_app_assoc. }
  destruct (size _ <=? size u + size s) eqn:E; bools.
  - assert (r = "") as ->. { rewrite !size_app in E. unfold size in *. destruct r; [done|cbn in *; lia]. }
    assert (n = npos) as ->.
    { subst n. unfold next_pos, openers. rewrite s_app_nil_r, <- (size_app u s). cbn [map]. by rewrite !find_pos_end. }
    change (npos =? npos) with true. cbv iota. rewrite substr_all by done. cbn [then_str]. by rewrite s_app_nil_r.
  - destruct (n =? npos) eqn:En; bools.
    + rewrite substr_all by done. rewrite <- (s_app_assoc u), <- size_app, substr_all by (by rewrite s_app_assoc).
      cbn [then_str]. by rewrite s_app_assoc.
    + destruct Hn as [|Hn]; [done|]. destruct (substr_head_pos u s r (n - size u - size s)) as (x & Hx & E2); [lia|].
      replace (size s + (n - size u - size s)) with (n - size u) in E2 by lia.
      replace (n - size u - size s) with (n - (size u + size s)) in Hx by lia.
      rewrite E2, Hx. cbn [then_str]. unfold directive.
      rewrite !(find_pos_skip u s r) by (by apply inert_text). by rewrite s_app_assoc.
Qed.

Lemma loop_directive fuel u p r out :
  p ∈ openers -> size (u +:+ p +:+ r) < npos ->
  render_loop partials (S fuel) (u +:+ p +:+ r) ctx secs (size u) out =
  directive partials (render_impl partials fuel) (render_loop partials fuel (u +:+ p +:+ r) ctx secs)
    (u +:+ p +:+ r) ctx secs (size u) (size u) out.
Proof.
  intros Hp Hs. cbn [render_loop]. rewrite (next_here u (p +:+ r) p) by (done || apply is_prefix_app).
  assert (Hlen : Forall (fun p => 0 < size p) openers) by by_eval.
  pose proof (proj1 (Forall_forall _ _) Hlen p Hp) as Hl. cbn beta in Hl.
  rewrite !size_app in *. pose proof (size_nonneg r). pose proof (size_nonneg u).
  rewrite (proj2 (Z.leb_gt _ _)) by lia. rewrite (proj2 (Z.eqb_neq _ npos)) by lia.
  rewrite Z.sub_diag. unfold substr_pos at 1. rewrite !size_app, (proj2 (Z.ltb_ge _ _)) by lia.
  rewrite Z.min_l by lia. cbn [then_str]. unfold substr. cbn [Z.to_nat s_take]. by rewrite s_app_nil_r.
Qed.

(** [tpl], with [ctx] and [secs], renders to [out] given enough fuel; the loop at [i] with
    [out] written ends with [res]. *)
Definition renders (tpl : string) (ctx : View) (secs : option Sections) (out : string) : Prop :=
  exists N, forall fuel, (N <= fuel)%nat -> render_impl partials fuel tpl ctx secs = Some (Ok out).
Definition continues (tpl : string) (i : Z) (out res : string) : Prop :=
  exists N, forall fuel, (N <= fuel)%nat -> render_loop partials fuel tpl ctx secs i out = Some (Ok res).

Lemma continues_text u s r out res :
  text_ok s = true -> size (u +:+ s +:+ r) < npos ->
  continues (u +:+ s +:+ r) (size (u +:+ s)) (out +:+ s) res -> continues (u +:+ s +:+ r) (size u) out res.
Proof.
  intros Hs Hsize [N HN]. exists (S N). intros [|fuel] Hf; [lia|]. rewrite loop_text by done. rewrite <- size_app.
  apply HN. lia.
Qed.
Lemma continues_end u out : continues u (size u) out out.
Proof. exists 1%nat. intros [|fuel] Hf; [lia|]. cbn [render_loop]. by rewrite Z.leb_refl. Qed.
End loop.

(** The tests of [directive] on a printed one. *)
Ltac which_directive Hs :=
  unfold directive; rewrite !(is_next _ _ _ Hs);
  repeat match goal with
  | |- context [ is_prefix ?a ?b ] => let v := eval lazy in (is_prefix a b) in change (is_prefix a b) with v; cbv iota
  end.

Section steps.
Variables (partials : string -> string) (ctx : View) (secs : option Sections).


Lemma continues_echo u k r out res :
  key_ok k = true -> size (u +:+ "{{" +:+ k +:+ "}}" +:+ r) < npos ->
  continues partials ctx secs (u +:+ "{{" +:+ k +:+ "}}" +:+ r) (size (u +:+ "{{" +:+ k +:+ "}}"))
    (out +:+ escape (var (trim k) ctx)) res ->
  continues partials ctx secs (u +:+ "{{" +:+ k +:+ "}}" +:+ r) (size u) out res.
Proof.
  unfold key_ok. intros [_ Hk%lacks_spec]%andb_true_iff Hs [N HN].
  exists (S N). intros [|fuel] Hf; [lia|].
  rewrite loop_directive by (done || (unfold openers; set_solver)). which_directive Hs.
  destruct (arg_step u "{{" k "}}" r) as [E1 E2]; [by apply clear_arg; [by_eval|]|done|].
  change (size "{{") with 2 in E1. change (size "}}") with 2 in E2. rewrite E1. cbn [then_str]. rewrite E2. apply HN. lia.
Qed.
Lemma continues_raw u k r out res :
  key_ok k = true -> size (u +:+ "{!!" +:+ k +:+ "!!}" +:+ r) < npos ->
  continues partials ctx secs (u +:+ "{!!" +:+ k +:+ "!!}" +:+ r) (size (u +:+ "{!!" +:+ k +:+ "!!}"))
    (out +:+ var (trim k) ctx) res ->
  continues partials ctx secs (u +:+ "{!!" +:+ k +:+ "!!}" +:+ r) (size u) out res.
Proof.
  unfold key_ok. intros [_ Hk%lacks_spec]%andb_true_iff Hs [N HN].
  exists (S N). intros [|fuel] Hf; [lia|].
  rewrite loop_directive by (done || (unfold openers; set_solver)). which_directive Hs.
  destruct (arg_step u "{!!" k "!!}" r) as [E1 E2]; [by apply clear_raw|done|].
  change (size "{!!") with 3 in E1. change (size "!!}") with 3 in E2. rewrite E1. cbn [then_str]. rewrite E2. apply HN. lia.
Qed.
Lemma continues_include u a r out s res :
  arg_ok a = true -> size (u +:+ "@include(" +:+ a +:+ ")" +:+ r) < npos ->
  renders partials (partials (unquote a)) ctx secs s ->
  continues partials ctx secs (u +:+ "@include(" +:+ a +:+ ")" +:+ r) (size (u +:+ "@include(" +:+ a +:+ ")")) (out +:+ s) res ->
  continues partials ctx secs (u +:+ "@include(" +:+ a +:+ ")" +:+ r) (size u) out res.
Proof.
  unfold arg_ok. intros [_ Ha%lacks_spec]%andb_true_iff Hs [M HM] [N HN].
  exists (S (M + N)). intros [|fuel] Hf; [lia|].
  rewrite loop_directive by (done || (unfold openers; set_solver)). which_directive Hs.
  destruct (arg_step u "@include(" a ")" r) as [E1 E2]; [by apply clear_arg; [by_eval|]|done|].
  change (size "@include(") with 9 in E1. change (size ")") with 1 in E2. rewrite E1. cbn [then_str]. rewrite E2.
  rewrite HM by lia. cbn [then_out]. apply HN. lia.
Qed.
Lemma continues_yield u a r out res :
  arg_ok a = true -> size (u +:+ "@yield(" +:+ a +:+ ")" +:+ r) < npos ->
  continues partials ctx secs (u +:+ "@yield(" +:+ a +:+ ")" +:+ r) (size (u +:+ "@yield(" +:+ a +:+ ")"))
    (out +:+ section_text secs (unquote a)) res ->
  continues partials ctx secs (u +:+ "@yield(" +:+ a +:+ ")" +:+ r) (size u) out res.
Proof.
  unfold arg_ok. intros [_ Ha%lacks_spec]%andb_true_iff Hs [N HN].
  exists (S N). intros [|fuel] Hf; [lia|].
  rewrite loop_directive by (done || (unfold openers; set_solver)). which_directive Hs.
  destruct (arg_step u "@yield(" a ")" r) as [E1 E2]; [by apply clear_arg; [by_eval|]|done|].
  change (size "@yield(") with 7 in E1. change (size ")") with 1 in E2. rewrite E1. cbn [then_str]. rewrite E2.
  apply HN. lia.
Qed.

(** The block of a directive, from behind its argument. *)
Lemma block_step o c t v s r :
  (o, c) ∈ block_pairs -> passes o c s -> t = v +:+ s +:+ c +:+ r -> size t < npos ->
  matching_end t (size v) o c = size v + size s /\
  substr_pos t (size v) (sub_pos (size v + size s) (size v)) = Ok s /\
  add_pos (size v + size s) (size c) = size (v +:+ s +:+ c).
Proof.
  intros Hp Hs -> Ht. destruct (block_pairs_facts o c Hp) as (H1 & H2 & H3 & _).
  split; [by apply matching_end_block|]. rewrite !size_app in *. unfold npos in Ht.
  pose proof (size_nonneg v). pose proof (size_nonneg s). pose proof (size_nonneg c). pose proof (size_nonneg r).
  rewrite sub_pos_app by lia. split; [apply substr_pos_at|]. rewrite add_pos_small; lia.
Qed.

Lemma continues_if u k l r out s res :
  arg_ok k = true -> forallb node_ok l = true ->
  size (u +:+ "@if(" +:+ k +:+ ")" +:+ prints l +:+ "@endif" +:+ r) < npos ->
  renders partials (if truthy (var (trim k) ctx) then prints l else "") ctx secs s ->
  continues partials ctx secs (u +:+ "@if(" +:+ k +:+ ")" +:+ prints l +:+ "@endif" +:+ r)
    (size (u +:+ "@if(" +:+ k +:+ ")" +:+ prints l +:+ "@endif")) (out +:+ s) res ->
  continues partials ctx secs (u +:+ "@if(" +:+ k +:+ ")" +:+ prints l +:+ "@endif" +:+ r) (size u) out res.
Proof.
  unfold arg_ok. intros [_ Hk%lacks_spec]%andb_true_iff Hl Hs [M HM] [N HN].
  exists (S (M + N)). intros [|fuel] Hf; [lia|].
  rewrite loop_directive by (done || (unfold openers; set_solver)). which_directive Hs.
  destruct (arg_step u "@if(" k ")" (prints l +:+ "@endif" +:+ r)) as [E1 E2]; [by apply clear_arg; [by_eval|]|done|].
  change (size "@if(") with 4 in E1. change (size ")") with 1 in E2. rewrite E1. cbn [then_str]. rewrite E2.
  set (v := u +:+ "@if(" +:+ k +:+ ")"). assert (Hp : ("@if(", "@endif") ∈ block_pairs) by (unfold block_pairs; set_solver).
  set (t := u +:+ _) in *. assert (Ht : t = v +:+ prints l +:+ "@endif" +:+ r) by (subst v t; by rewrite !s_app_assoc).
  destruct (block_step "@if(" "@endif" t v (prints l) r Hp (prints_passes _ _ l Hp Hl) Ht Hs) as (E3 & E4 & E5).
  rewrite E3. replace (find_else t (size v) (size v + size (prints l))) with npos.
  2:{ rewrite Ht. symmetry. apply find_else_none; [by rewrite <- Ht|by apply prints_passes_else]. }
  change (npos =? npos) with true. cbv iota. rewrite E4. cbn [then_str]. rewrite HM by lia. cbn [then_out].
  change (size "@endif") with 6 in E5. rewrite E5. subst v. rewrite !s_app_assoc. apply HN. lia.
Qed.

Lemma part_at t v s r : t = v +:+ s +:+ r -> size t < npos -> substr_pos t (size v) (sub_pos (size v + size s) (size v)) = Ok s.
Proof.
  intros -> Ht. rewrite !size_app in Ht. unfold npos in Ht. pose proof (size_nonneg v). pose proof (size_nonneg s). pose proof (size_nonneg r).
  rewrite sub_pos_app by lia. apply substr_pos_at.
Qed.
Lemma continues_if_else u k l l' out s r res :
  arg_ok k = true -> forallb node_ok l = true -> forallb node_ok l' = true ->
  size (u +:+ "@if(" +:+ k +:+ ")" +:+ (prints l +:+ "@else" +:+ prints l') +:+ "@endif" +:+ r) < npos ->
  renders partials (if truthy (var (trim k) ctx) then prints l else prints l') ctx secs s ->
  continues partials ctx secs (u +:+ "@if(" +:+ k +:+ ")" +:+ (prints l +:+ "@else" +:+ prints l') +:+ "@endif" +:+ r)
    (size (u +:+ "@if(" +:+ k +:+ ")" +:+ (prints l +:+ "@else" +:+ prints l') +:+ "@endif")) (out +:+ s) res ->
  continues partials ctx secs (u +:+ "@if(" +:+ k +:+ ")" +:+ (prints l +:+ "@else" +:+ prints l') +:+ "@endif" +:+ r) (size u) out res.
Proof.
  unfold arg_ok. intros [_ Hk%lacks_spec]%andb_true_iff Hl Hl' Hs [M HM] [N HN].
  exists (S (M + N)). intros [|fuel] Hf; [lia|].
  rewrite loop_directive by (done || (unfold openers; set_solver)). which_directive Hs.
  set (both := prints l +:+ "@else" +:+ prints l') in *.
  destruct (arg_step u "@if(" k ")" (both +:+ "@endif" +:+ r)) as [E1 E2]; [by apply clear_arg; [by_eval|]|done|].
  change (size "@if(") with 4 in E1. change (size ")") with 1 in E2. rewrite E1. cbn [then_str]. rewrite E2.
  set (v := u +:+ "@if(" +:+ k +:+ ")"). assert (Hp : ("@if(", "@endif") ∈ block_pairs) by (unfold block_pairs; set_solver).
  set (t := u +:+ _) in *. assert (Ht : t = v +:+ both +:+ "@endif" +:+ r) by (subst v t; by rewrite !s_app_assoc).
  assert (Hb : passes "@if(" "@endif" both).
  { pose proof (prints_passes _ _ l Hp Hl). pose proof (prints_passes _ _ l' Hp Hl'). subst both. pass_pieces. }
  destruct (block_step "@if(" "@endif" t v both r Hp Hb Ht Hs) as (E3 & E4 & E5). rewrite E3.
  assert (Ht' : t = v +:+ prints l +:+ "@else" +:+ prints l' +:+ "@endif" +:+ r)
    by (rewrite Ht; subst both; by rewrite !s_app_assoc).
  assert (Hb' : size both = size (prints l) + 5 + size (prints l')) by (subst both; rewrite !size_app; literal_sizes; lia).
  pose proof (size_nonneg (prints l')). pose proof (size_nonneg (prints l)). pose proof (size_nonneg v). pose proof (size_nonneg r).
  replace (find_else t (size v) (size v + size both)) with (size v + size (prints l)).
  2:{ rewrite Ht'. symmetry. apply find_else_some; [by rewrite <- Ht'|by apply prints_passes_else|lia]. }
  assert (Hst : size v + size both < npos) by (rewrite Ht, !size_app in Hs; literal_sizes; lia).
  rewrite (proj2 (Z.eqb_neq _ npos)) by lia. rewrite (part_at t v (prints l) _ Ht' Hs). cbn [then_str].
  unfold npos in Hst. rewrite add_pos_small by lia.
  pose proof (part_at t (v +:+ prints l +:+ "@else") (prints l') ("@endif" +:+ r)) as E6.
  rewrite !size_app in E6. literal_sizes. replace (size v + (size (prints l) + 5)) with (size v + size (prints l) + 5) in E6 by lia.
  replace (size v + size both) with (size v + size (prints l) + 5 + size (prints l')) at 1 by lia.
  rewrite E6 by (done || by rewrite Ht', !s_app_assoc). cbn [then_str]. rewrite HM by lia. cbn [then_out].
  rewrite E5. subst v. rewrite !s_app_assoc. apply HN. lia.
Qed.
Lemma continues_inline u a l out s r res :
  arg_ok a = true -> forallb node_ok l = true ->
  size (u +:+ "@section(" +:+ a +:+ ")" +:+ prints l +:+ "@endsection" +:+ r) < npos ->
  renders partials (prints l) ctx secs s ->
  continues partials ctx secs (u +:+ "@section(" +:+ a +:+ ")" +:+ prints l +:+ "@endsection" +:+ r)
    (size (u +:+ "@section(" +:+ a +:+ ")" +:+ prints l +:+ "@endsection")) (out +:+ s) res ->
  continues partials ctx secs (u +:+ "@section(" +:+ a +:+ ")" +:+ prints l +:+ "@endsection" +:+ r) (size u) out res.
Proof.
  unfold arg_ok. intros [_ Ha%lacks_spec]%andb_true_iff Hl Hs [M HM] [N HN].
  exists (S (M + N)). intros [|fuel] Hf; [lia|].
  rewrite loop_directive by (done || (unfold openers; set_solver)). which_directive Hs.
  destruct (arg_step u "@section(" a ")" (prints l +:+ "@endsection" +:+ r)) as [_ E2]; [by apply clear_arg; [by_eval|]|done|].
  change (size ")") with 1 in E2. rewrite E2.
  set (v := u +:+ "@section(" +:+ a +:+ ")"). assert (Hp : ("@section(", "@endsection") ∈ block_pairs) by (unfold block_pairs; set_solver).
  set (t := u +:+ _) in *. assert (Ht : t = v +:+ prints l +:+ "@endsection" +:+ r) by (subst v t; by rewrite !s_app_assoc).
  destruct (block_step _ _ t v (prints l) r Hp (prints_passes _ _ l Hp Hl) Ht Hs) as (E3 & E4 & E5).
  rewrite E3, E4. cbn [then_str]. rewrite HM by lia. cbn [then_out].
  change (size "@endsection") with 11 in E5. rewrite E5. subst v. rewrite !s_app_assoc. apply HN. lia.
Qed.

(** The items of a list, one after the other. *)
Lemma renders_items inner items (g : View -> string) :
  Forall (fun item => renders partials inner (merged ctx item) secs (g item)) items ->
  exists N, forall fuel out, (N <= fuel)%nat ->
    fold_left (fun acc item => then_out acc (fun acc =>
      then_out (render_impl partials fuel inner (merged ctx item) secs) (fun s => Some (Ok (acc +:+ s))))) items (Some (Ok out))
    = Some (Ok (out +:+ s_concat (map g items))).
Proof.
  induction 1 as [|item items [M HM] _ [N HN]].
  - exists 0%nat. intros fuel out _. cbn. by rewrite s_app_nil_r.
  - exists (M + N)%nat. intros fuel out Hf. cbn [fold_left then_out]. rewrite HM by lia. cbn [then_out].
    rewrite HN by lia. cbn. by rewrite s_app_assoc.
Qed.

Lemma trimmed_app ws l m i : l ≠ "" -> i ≠ "" -> trimmed ws l -> trimmed ws i -> trimmed ws (l +:+ m +:+ i).
Proof.
  intros Hl Hi. destruct l as [|c l]; [done|]. destruct i as [|d i]; [done|].
  intros [Hc _] [_ (t & e & E & He)]. split; [done|]. exists (String c l +:+ m +:+ t), e. rewrite E.
  by rewrite !s_app_assoc.
Qed.
Lemma trimmed_words l i : word_ok l = true -> word_ok i = true ->
  trim (l +:+ " as " +:+ i) = l +:+ " as " +:+ i /\ trim l = l /\ find_pos (l +:+ " as " +:+ i) " as " 0 = size l /\
  no_chr ")" (l +:+ " as " +:+ i).
Proof.
  unfold word_ok, arg_ok. intros Hl Hi. bools. repeat match goal with H : lacks _ _ = true |- _ => apply lacks_spec in H end.
  split; [apply trim_set_id, trimmed_app; auto using trimmed_of_none|].
  split; [apply trim_set_id; auto using trimmed_of_none|]. split.
  - pose proof (find_pos_at "" l " as " i) as E. rewrite s_app_nil_l in E. change (size "") with 0 in E. rewrite E; [done|].
    apply clear_no_chr. intros Hin. match goal with H : s_all _ l |- _ => apply (proj1 (Forall_forall _ _) H) in Hin end. done.
  - rewrite !no_chr_app. split; [done|]. split; [by_eval|done].
Qed.
Lemma continues_foreach u w i l out (g : View -> string) r res :
  word_ok w = true -> word_ok i = true -> forallb node_ok l = true ->
  size (u +:+ "@foreach(" +:+ (w +:+ " as " +:+ i) +:+ ")" +:+ prints l +:+ "@endforeach" +:+ r) < npos ->
  let items := match v_lists ctx !! w with Some items => items | None => [] end in
  (forall item, item ∈ items -> renders partials (prints l) (merged ctx item) secs (g item)) ->
  continues partials ctx secs (u +:+ "@foreach(" +:+ (w +:+ " as " +:+ i) +:+ ")" +:+ prints l +:+ "@endforeach" +:+ r)
    (size (u +:+ "@foreach(" +:+ (w +:+ " as " +:+ i) +:+ ")" +:+ prints l +:+ "@endforeach"))
    (out +:+ s_concat (map g items)) res ->
  continues partials ctx secs (u +:+ "@foreach(" +:+ (w +:+ " as " +:+ i) +:+ ")" +:+ prints l +:+ "@endforeach" +:+ r) (size u) out res.
Proof.
  intros Hw Hi Hl Hs items Hitems [N HN].
  destruct (trimmed_words w i Hw Hi) as (Etrim & Ew & Eas & Hno). set (spec := w +:+ " as " +:+ i) in *.
  destruct (renders_items (prints l) items g) as [M HM]; [by apply Forall_forall|].
  exists (S (M + N)). intros [|fuel] Hf; [lia|].
  rewrite loop_directive by (done || (unfold openers; set_solver)). which_directive Hs.
  destruct (arg_step u "@foreach(" spec ")" (prints l +:+ "@endforeach" +:+ r)) as [E1 E2]; [by apply clear_arg; [by_eval|]|done|].
  change (size "@foreach(") with 9 in E1. change (size ")") with 1 in E2. rewrite E1. cbn [then_str]. rewrite E2.
  rewrite Etrim, Eas. replace (s_take (Z.to_nat (Z.min (size w) (size spec))) spec) with w.
  2:{ assert (size w <= size spec) by (subst spec; rewrite !size_app; pose proof (size_nonneg " as "); pose proof (size_nonneg i); lia).
      rewrite Z.min_l, size_nat by done. symmetry. by apply s_take_app. }
  rewrite Ew. fold items.
  set (v := u +:+ "@foreach(" +:+ spec +:+ ")"). assert (Hp : ("@foreach(", "@endforeach") ∈ block_pairs) by (unfold block_pairs; set_solver).
  set (t := u +:+ _) in *. assert (Ht : t = v +:+ prints l +:+ "@endforeach" +:+ r) by (subst v t; by rewrite !s_app_assoc).
  destruct (block_step _ _ t v (prints l) r Hp (prints_passes _ _ l Hp Hl) Ht Hs) as (E3 & E4 & E5).
  rewrite E3, E4. cbn [then_str]. rewrite HM by lia. cbn [then_out].
  change (size "@endforeach") with 11 in E5. rewrite E5. subst v. rewrite !s_app_assoc. apply HN. lia.
Qed.
End steps.

(** ** Pages *)
Lemma find_pos_inert s p : inert p s -> p ≠ "" -> find_pos s p 0 = npos.
Proof.
  intros Hs Hp. pose proof (find_pos_app "" s p) as E. rewrite s_app_nil_l in E. change (size "") with 0 in E.
  rewrite E. rewrite <- (s_app_nil_r s), find0_skip by apply Hs. by destruct p.
Qed.

Section pages.
Variables (partials : string -> string) (inc : string -> View -> option Sections -> string).
(** The included templates render to their meaning. *)
Definition included (names : list string) : Prop :=
  forall m, m ∈ names -> forall ctx secs, renders partials (partials m) ctx secs (inc m ctx secs).

Definition node_renders (n : node) : Prop := forall ctx secs u r out res,
  node_ok n = true -> included (includes n) -> size (u +:+ print n +:+ r) < npos ->
  continues partials ctx secs (u +:+ print n +:+ r) (size (u +:+ print n)) (out +:+ eval inc n ctx secs) res ->
  continues partials ctx secs (u +:+ print n +:+ r) (size u) out res.

Lemma prints_cons n l : prints (n :: l) = print n +:+ prints l.
Proof. reflexivity. Qed.
Lemma nodes_continue l ctx secs u out :
  Forall node_renders l -> forallb node_ok l = true -> included (flat_map includes l) ->
  size (u +:+ prints l) < npos ->
  continues partials ctx secs (u +:+ prints l) (size u) out (out +:+ evals inc l ctx secs).
Proof.
  intros Hl. revert u out. induction Hl as [|n l Hn Hl IH]; intros u out Hok Hinc Hs.
  - unfold prints, evals. cbn. rewrite !s_app_nil_r. apply continues_end.
  - cbn [forallb] in Hok. apply andb_true_iff in Hok as [Hok1 Hok2]. rewrite prints_cons in *. apply Hn; [done| |done|].
    { intros m Hm. apply Hinc. cbn. apply elem_of_app. by left. }
    change (evals inc (n :: l) ctx secs) with (eval inc n ctx secs +:+ evals inc l ctx secs).
    rewrite <- (s_app_assoc out), <- (s_app_assoc u). apply IH; [done| |by rewrite s_app_assoc].
    intros m Hm. apply Hinc. cbn. apply elem_of_app. by right.
Qed.
Lemma nodes_render l ctx secs :
  Forall node_renders l -> forallb node_ok l = true -> included (flat_map includes l) -> size (prints l) < npos ->
  renders partials (prints l) ctx secs (evals inc l ctx secs).
Proof.
  intros Hl Hok Hinc Hs. destruct (nodes_continue l ctx secs "" "" Hl Hok Hinc) as [N HN]; [by rewrite s_app_nil_l|].
  exists (S N). intros [|fuel] Hf; [lia|]. cbn [render_impl].
  rewrite (find_pos_inert _ _ (prints_inert_extends l Hok)) by done. cbn [negb].
  specialize (HN fuel ltac:(lia)). rewrite !s_app_nil_l in HN. exact HN.
Qed.

Lemma app_five a b c d e r : (a +:+ b +:+ c +:+ d +:+ e) +:+ r = a +:+ b +:+ c +:+ d +:+ e +:+ r.
Proof. by rewrite !s_app_assoc. Qed.
(** A part of a printed template is no longer than it. *)
Ltac part_size Hs := rewrite !size_app in Hs; unfold prints in *;
  repeat match type of Hs with context [size ?x] => lazymatch goal with
    | _ : 0 <= size x |- _ => fail | _ => pose proof (size_nonneg x) end end; lia.
Lemma node_renders_all n : node_renders n.
Proof.
  induction n using node_nested_ind; intros ctx secs u r out res Hok Hinc Hs Hc; cbn [node_ok print eval includes] in *.
  - by apply continues_text.
  - rewrite !s_app_assoc in *. by apply continues_echo.
  - rewrite !s_app_assoc in *. by apply continues_raw.
  - bools. rewrite !s_app_assoc in *. eapply continues_if; [done|done|done| |exact Hc]. destruct (truthy _).
    + apply nodes_render; [done..|]. part_size Hs.
    + apply (nodes_render [] ctx secs); [by apply Forall_nil|done|intros m Hm; by apply elem_of_nil in Hm|done].
  - bools. rewrite app_five in *. eapply (continues_if_else _ _ _ _ _ yes no); [done|done|done|exact Hs| |exact Hc].
    destruct (truthy _); apply nodes_render; try done; try part_size Hs; intros m Hm; apply Hinc, elem_of_app; auto.
  - bools. rewrite app_five in *.
    eapply (continues_foreach _ _ _ _ l i body _ (fun item => evals inc body (merged ctx item) secs)); [done|done|done|exact Hs| |exact Hc].
    intros item _. apply nodes_render; [done..|]. part_size Hs.
  - rewrite !s_app_assoc in *. eapply continues_include; [done|done| |exact Hc]. apply Hinc. set_solver.
  - rewrite !s_app_assoc in *. by apply continues_yield.
  - bools. rewrite !s_app_assoc in *. eapply (continues_inline _ _ _ _ _ body); [done|done|done| |exact Hc].
    apply nodes_render; [done..|]. part_size Hs.
Qed.
Lemma page_renders l ctx secs :
  forallb node_ok l = true -> included (flat_map includes l) -> size (prints l) < npos ->
  renders partials (prints l) ctx secs (evals inc l ctx secs).
Proof. intros. apply nodes_render; [|done..]. apply Forall_true, node_renders_all. Qed.

(** ** Child templates *)
Definition fill (ctx : View) (out : Sections) (p : part) : Sections := <[unquote (p_name p) := evals inc (p_body p) ctx None]> out.
Definition parts_text (parts : list part) (post : string) : string := s_concat (map print_part parts) +:+ post.
Definition collects (tpl : string) (ctx : View) (i : Z) (out secs : Sections) : Prop :=
  exists N, forall fuel, (N <= fuel)%nat -> collect_sections partials fuel tpl ctx i out = Some (Ok secs).

Lemma collects_parts parts post ctx w s out :
  forallb part_ok parts = true -> text_ok post = true -> inert "@section(" s ->
  included (flat_map (fun p => flat_map includes (p_body p)) parts) ->
  size (w +:+ s +:+ parts_text parts post) < npos ->
  collects (w +:+ s +:+ parts_text parts post) ctx (size w) out (fold_left (fill ctx) parts out).
Proof.
  intros Hparts Hpost. revert w s out. induction parts as [|p parts IH]; intros w s out Hs Hinc Hsize.
  - exists 1%nat. intros [|fuel] Hf; [lia|]. cbn [collect_sections fold_left parts_text map s_concat foldr].
    unfold parts_text. cbn [map s_concat foldr]. rewrite s_app_nil_l. rewrite find_pos_app.
    rewrite <- (s_app_nil_r (s +:+ post)), find0_skip; [done|].
    apply inert_app; [done|]. by apply inert_text.
  - cbn [forallb] in Hparts. apply andb_true_iff in Hparts as [Hp Hparts]. specialize (IH Hparts).
    destruct p as [bef name body]. unfold part_ok in Hp. cbn [before p_name p_body] in Hp.
    apply andb_true_iff in Hp as [[Hbef Hname]%andb_true_iff Hbody].
    unfold arg_ok in Hname. apply andb_true_iff in Hname as [_ Hname%lacks_spec].
    set (rest := parts_text parts post) in *.
    assert (Ht : w +:+ s +:+ parts_text (mkPart bef name body :: parts) post =
      w +:+ (s +:+ bef) +:+ "@section(" +:+ name +:+ ")" +:+ prints body +:+ "@endsection" +:+ rest).
    { unfold parts_text, rest, print_part. cbn [map s_concat foldr before p_name p_body]. unfold parts_text, s_concat. by rewrite !s_app_assoc. }
    rewrite Ht in *. set (t := w +:+ _) in *.
    destruct (page_renders body ctx None Hbody) as [M HM].
    { intros m Hm. apply Hinc. cbn. apply elem_of_app. by left. }
    { subst t. part_size Hsize. }
    set (u := w +:+ s +:+ bef). set (v := u +:+ "@section(" +:+ name +:+ ")").
    assert (Hp : ("@section(", "@endsection") ∈ block_pairs) by (unfold block_pairs; set_solver).
    destruct (IH (v +:+ prints body +:+ "@endsection") "" (fill ctx out (mkPart bef name body))) as [N HN].
    { apply inert_nil. }
    { intros m Hm. apply Hinc. cbn. apply elem_of_app. by right. }
    { rewrite s_app_nil_l. subst v u. rewrite !s_app_assoc. subst t. by rewrite !s_app_assoc in Hsize. }
    exists (S (M + N)). intros [|fuel] Hf; [lia|]. cbn [collect_sections].
    replace (find_pos t "@section(" (size w)) with (size u).
    2:{ subst t u. rewrite find_pos_at; [by rewrite !size_app; lia|]. apply inert_app; [done|]. by apply inert_text. }
    assert (Ht2 : t = u +:+ "@section(" +:+ name +:+ ")" +:+ prints body +:+ "@endsection" +:+ rest)
      by (subst t u; by rewrite !s_app_assoc).
    assert (Hu : size u < npos) by (rewrite Ht2 in Hsize; part_size Hsize). rewrite (proj2 (Z.eqb_neq _ npos)) by lia.
    destruct (arg_step u "@section(" name ")" (prints body +:+ "@endsection" +:+ rest)) as [E1 E2];
      [by apply clear_arg; [by_eval|]|by rewrite <- Ht2|]. rewrite <- Ht2 in E1, E2.
    change (size "@section(") with 9 in E1. change (size ")") with 1 in E2. rewrite E1, E2. fold v.
    assert (Ht3 : t = v +:+ prints body +:+ "@endsection" +:+ rest) by (rewrite Ht2; subst v; by rewrite !s_app_assoc).
    destruct (block_step _ _ t v (prints body) rest Hp (prints_passes _ _ body Hp Hbody) Ht3 Hsize) as (E3 & E4 & E5).
    rewrite E3, E4. rewrite HM by lia. change (size "@endsection") with 11 in E5. rewrite E5.
    cbn [fold_left]. rewrite <- (HN fuel) by lia. f_equal. rewrite Ht3, s_app_nil_l. by rewrite !s_app_assoc.
Qed.

Lemma tree_renders t ctx secs :
  tree_ok t = true -> included (tree_includes t) -> size (print_tree t) < npos ->
  renders partials (print_tree t) ctx secs (eval_tree inc t ctx secs).
Proof.
  destruct t as [l|pre layout parts post]; cbn [tree_ok tree_includes print_tree eval_tree]; [by apply page_renders|].
  intros [[[Hpre Hlayout]%andb_true_iff Hparts]%andb_true_iff Hpost]%andb_true_iff Hinc Hsize.
  unfold arg_ok in Hlayout. apply andb_true_iff in Hlayout as [Hat%lacks_spec Hparen%lacks_spec].
  fold (parts_text parts post) in *. set (t := pre +:+ _) in *.
  destruct (Hinc (unquote layout) ltac:(by apply elem_of_cons; left) ctx (Some (fold_left (fill ctx) parts ∅))) as [M HM].
  destruct (collects_parts parts post ctx "" (pre +:+ "@extends(" +:+ layout +:+ ")") ∅ Hparts Hpost) as [N HN].
  { repeat apply inert_app; [by apply inert_text|apply inert_token; [by_eval|reflexivity]|by apply inert_no_chr|apply inert_no_chr; by_eval]. }
  { intros m Hm. apply Hinc, elem_of_cons. by right. }
  { rewrite s_app_nil_l, !s_app_assoc. done. }
  rewrite s_app_nil_l, !s_app_assoc in HN. fold t in HN. change (size "") with 0 in HN.
  exists (S (M + N)). intros [|fuel] Hf; [lia|]. cbn [render_impl].
  replace (find_pos t "@extends(" 0) with (size pre).
  2:{ subst t. pose proof (find_pos_at "" pre "@extends(" (layout +:+ ")" +:+ parts_text parts post)) as E.
      rewrite s_app_nil_l in E. change (size "") with 0 in E. rewrite E; [done|]. by apply inert_text. }
  assert (Hu : size pre < npos) by (subst t; part_size Hsize). rewrite (proj2 (Z.eqb_neq _ npos)) by lia. cbn [negb].
  destruct (arg_step pre "@extends(" layout ")" (parts_text parts post)) as [E1 _]; [by apply clear_arg; [by_eval|]|done|].
  change (size "@extends(") with 9 in E1. fold t in E1. rewrite E1. cbn [then_str].
  rewrite HN by lia. apply HM. lia.
Qed.
End pages.

(** ** The registry *)
Definition registry (ts : gmap string tree) : Views := print_tree <$> ts.
Definition templates_ok (ts : gmap string tree) : Prop :=
  map_Forall (fun _ t => tree_ok t = true /\ size (print_tree t) < npos) ts.
(** Every template includes and extends templates of lower rank only. *)
Definition acyclic (ts : gmap string tree) (rank : string -> nat) : Prop :=
  map_Forall (fun name t => Forall (fun m => rank m < rank name)%nat (tree_includes t)) ts.

Lemma get_template_registry ts name : get_template (registry ts) name = print_tree (tree_of ts name).
Proof. unfold get_template, registry, tree_of.
  change (match (print_tree <$> ts : gmap string string) !! name with Some t => t | None => "" end = print_tree match ts !! name with Some t => t | None => Page [] end).
  rewrite lookup_fmap. by destruct (ts !! name). Qed.

Lemma registry_renders ts rank : templates_ok ts -> acyclic ts rank ->
  forall depth name ctx secs, (rank name < depth)%nat ->
  renders (get_template (registry ts)) (get_template (registry ts) name) ctx secs (meaning ts depth name ctx secs).
Proof.
  intros Hok Hacyclic depth. induction depth as [|depth IH]; intros name ctx secs Hrank; [lia|].
  rewrite get_template_registry. cbn [meaning]. unfold tree_of. destruct (ts !! name) as [t|] eqn:E.
  - destruct (Hok _ _ E) as [Ht Hs]. apply tree_renders; [done| |done].
    intros m Hm ctx' secs'. apply IH. pose proof (Hacyclic _ _ E) as Ha. cbn beta in Ha.
    pose proof (proj1 (Forall_forall _ _) Ha m Hm) as Hlt. cbn beta in Hlt. lia.
  - apply (tree_renders _ (meaning ts depth) (Page [])); [done| |done]. intros m Hm. by apply elem_of_nil in Hm.
Qed.


Definition demo_templates : gmap string tree :=
  <["layout" := Page [Text "<h1>"; Yield "title"; Text "</h1>"; Yield "body"]]>
  (<["row" := Page [Text "<li>"; Echo " n "; Text "</li>"]]>
  {["page" := Child "" "'layout'" [
      mkPart " " "title" [Text "a@b {x}"];
      mkPart " " "'body'" [If "on" [Foreach "xs" "x" [Include_ "'row'"]; IfElse "off" [Raw "t"] [Text "none"]]]] ""]}).
Definition demo_rank (name : string) : nat := if bool_decide (name = "page") then 1 else 0.
Definition demo_ctx : View :=
  mkView (<["on" := "1"]> {["t" := "<i>"]}) {["xs" := [mkView {["n" := "<1>"]} ∅; mkView {["n" := "2"]} ∅]]}.
Example demo_page_text : get_template (registry demo_templates) "page" =
  "@extends('layout') @section(title)a@b {x}@endsection @section('body')@if(on)@foreach(xs as x)@include('row')@endforeach@if(off){!!t!!}@elsenone@endif@endif@endsection".
Proof. vm_compute. reflexivity. Qed.

