(* ===== verification/Livewire.v ===== *)
(** * livewire.hpp: server-side reactive components

    The JSON of the wire ([esc], [object], [field], [object_field], [parse_object]), the
    component life cycle and the HTTP entry.  A position the parsers hold is the suffix of
    the text it starts.  A component class is the state its constructor sets, its actions
    and its virtual functions; [X] is the private members of components.  [render] may
    mount children, so it is a program of such calls ([Html]), and [mount], which runs the
    children's [render], takes fuel: [None] is a nesting that has not ended. *)
From S2P Require Import Prelude CppString CppNum.

(** ** The wire format *)
Definition esc_char (c : ascii) : string :=
  if is_char quote c then String backslash (str1 quote)
  else if is_char backslash c then String backslash (str1 backslash)
  else if is_char (chr 10) c then String backslash "n"
  else if is_char (chr 13) c then String backslash "r"
  else if is_char (chr 9) c then String backslash "t"
  else str1 c.
Fixpoint esc (s : string) : string :=
  match s with
  | "" => ""
  | String c s => esc_char c +:+ esc s
  end.

Definition member (kv : string * string) : string :=
  str1 quote +:+ esc kv.1 +:+ str1 quote +:+ ":" +:+ str1 quote +:+ esc kv.2 +:+ str1 quote.
Fixpoint members (first : bool) (l : list (string * string)) : string :=
  match l with
  | [] => ""
  | kv :: l => (if first then "" else ",") +:+ member kv +:+ members false l
  end.

(** What follows a backslash. *)
Definition unesc (n : ascii) : ascii :=
  if is_char "n" n then chr 10 else if is_char "t" n then chr 9 else n.
(** The text of a string literal from behind its opening quote, and the suffix at the
    closing quote. *)
Fixpoint read_string (s : string) : string * string :=
  match s with
  | "" => ("", "")
  | String c t =>
      if is_char quote c then ("", s)
      else match t with
           | String n u =>
               if is_char backslash c then let '(r, rest) := read_string u in (String (unesc n) r, rest)
               else let '(r, rest) := read_string t in (String c r, rest)
           | "" => (str1 c, "")
           end
  end.

(** [s.find(c)] as the suffix it gives. *)
Definition seek (c : ascii) (s : string) : option string :=
  match find_chr s c 0 with Some k => Some (s_drop k s) | None => None end.
Definition behind (s : string) : string := s_drop 1 s.
Definition key_text (key : string) : string := str1 quote +:+ key +:+ str1 quote.

Definition field (s key : string) : string :=
  let k := key_text key in
  match find_str s k 0 with
  | None => ""
  | Some p =>
      match seek ":" (s_drop (p + len k) s) with
      | None => ""
      | Some s =>
          match seek quote s with
          | None => ""
          | Some s => (read_string (behind s)).1
          end
      end
  end.

(** The length of the balanced text up to the brace that closes it. *)
Fixpoint object_end (depth : Z) (s : string) : option nat :=
  match s with
  | "" => None
  | String c s =>
      if is_char "{" c then S <$> object_end (depth + 1) s
      else if is_char "}" c then
        if (depth - 1 =? 0)%Z then Some 1 else S <$> object_end (depth - 1) s
      else S <$> object_end depth s
  end.
Definition object_field (s key : string) : string :=
  match find_str s (key_text key) 0 with
  | None => "{}"
  | Some p =>
      match seek "{" (s_drop p s) with
      | None => "{}"
      | Some s => match object_end 0 s with Some n => s_take n s | None => "{}" end
      end
  end.

(** Every pass of the loop consumes a character, so the length is enough fuel. *)
Fixpoint parse_loop (fuel : nat) (s : string) (out : gmap string string) : gmap string string :=
  match fuel with
  | O => out
  | S fuel =>
      match seek quote s with
      | None => out
      | Some q =>
          let '(key, q) := read_string (behind q) in
          match seek ":" q with
          | None => out
          | Some colon =>
              match seek quote colon with
              | None => out
              | Some v =>
                  let '(val, v) := read_string (behind v) in
                  parse_loop fuel (behind v) (<[key := val]> out)
              end
          end
      end
  end.
Definition parse_object (s : string) : gmap string string := parse_loop (len s) s ∅.

(** ** Components *)
Inductive Html : Type :=
  | Markup (r : res string)
  | MountChild (name id : string) (k : string -> Html).   (* mount_child(name, id) *)

Section livewire.
Context {X : Type} `{MapOrder string}.

Definition object (m : gmap string string) : string := "{" +:+ members true (iter_map m) +:+ "}".

(** A component: its public state and its private members. *)
Definition Component : Type := gmap string string * X.
Definition Action : Type := string -> M Component unit.
Record Class : Type := mkClass {
  fresh : Component;
  actions_ : gmap string Action;
  mount_hook : M Component unit;
  hydrate : M Component unit;
  dehydrate : M Component unit;
  render : Component -> Html
}.
Definition on (action : string) (handler : Action) (c : Class) : Class :=
  mkClass (fresh c) (<[action := handler]> (actions_ c)) (mount_hook c) (hydrate c) (dehydrate c) (render c).
Definition call (c : Class) (action arg : string) : M Component bool :=
  match actions_ c !! action with
  | None => mret false
  | Some handler => _ ← handler arg; mret true
  end.

Record UpdateRequest : Type := mkUpdateRequest {
  req_name : string; req_action : string; req_arg : string; req_state : gmap string string
}.
Record UpdateResponse : Type := mkUpdateResponse { html : string; res_state : gmap string string }.

Definition Livewire : Type := gmap string Class.
Definition component (name : string) (f : Class) (lw : Livewire) : Livewire := <[name := f]> lw.
Definition make (lw : Livewire) (name : string) : option Class := lw !! name.

Fixpoint run_html (mount : string -> string -> option (res string)) (h : Html) : option (res string) :=
  match h with
  | Markup r => Some r
  | MountChild name id k =>
      match mount name id with
      | None => None
      | Some (Throw e) => Some (Throw e)
      | Some (Ok s) => run_html mount (k s)
      end
  end.
Definition wrapper (dom_id name : string) (state : gmap string string) (body : string) : string :=
  "<div wire:id=" +:+ str1 quote +:+ dom_id +:+ str1 quote +:+ " wire:component=" +:+ str1 quote +:+ name
  +:+ str1 quote +:+ " wire:state='" +:+ object state +:+ "'>" +:+ body +:+ "</div>".
Fixpoint mount (lw : Livewire) (fuel : nat) (name id : string) : option (res string) :=
  match fuel with
  | O => None
  | S fuel =>
      match make lw name with
      | None => Some (Ok "")
      | Some c =>
          match mount_hook c (fresh c) with
          | (Throw e, _) => Some (Throw e)
          | (Ok _, o) =>
              let dom_id := if bool_decide (id = "") then name else id in
              match run_html (mount lw fuel) (render c o) with
              | None => None
              | Some (Throw e) => Some (Throw e)
              | Some (Ok body) => Some (Ok (wrapper dom_id name o.1 body))
              end
          end
      end
  end.

(** The hooks and the action, then the page, then the last hook. *)
Definition update (lw : Livewire) (fuel : nat) (req : UpdateRequest) : option (res UpdateResponse) :=
  match make lw (req_name req) with
  | None => Some (Ok (mkUpdateResponse "" ∅))
  | Some c =>
      let hydrated := (req_state req ∪ (fresh c).1, (fresh c).2) in
      match (_ ← hydrate c; call c (req_action req) (req_arg req)) hydrated with
      | (Throw e, _) => Some (Throw e)
      | (Ok _, o) =>
          match run_html (mount lw fuel) (render c o) with
          | None => None
          | Some (Throw e) => Some (Throw e)
          | Some (Ok body) =>
              match dehydrate c o with
              | (Throw e, _) => Some (Throw e)
              | (Ok _, o) => Some (Ok (mkUpdateResponse body o.1))
              end
          end
      end
  end.

Definition parse_request (request_json : string) : UpdateRequest :=
  mkUpdateRequest (field request_json "name") (field request_json "action") (field request_json "arg")
    (parse_object (object_field request_json "state")).
Definition response_json (res : UpdateResponse) : string :=
  "{" +:+ key_text "html" +:+ ":" +:+ str1 quote +:+ esc (html res) +:+ str1 quote +:+ "," +:+ key_text "state"
  +:+ ":" +:+ object (res_state res) +:+ "}".
Definition handle (lw : Livewire) (fuel : nat) (request_json : string) : option (res string) :=
  match update lw fuel (parse_request request_json) with
  | None => None
  | Some (Throw e) => Some (Throw e)
  | Some (Ok res) => Some (Ok (response_json res))
  end.
End livewire.
Arguments Class : clear implicits.
Arguments Livewire : clear implicits.

(** ** Reading back what was written *)
Definition cr : ascii := chr 13.
Lemma esc_char_cases c :
  (exists n, esc_char c = String backslash (str1 n) /\ (c ≠ cr -> unesc n = c)) \/
  (esc_char c = str1 c /\ c ≠ quote /\ c ≠ backslash).
Proof.
  unfold esc_char.
  destruct (is_char quote c) eqn:E1; [apply bool_decide_eq_true in E1 as <-; left; eauto|].
  destruct (is_char backslash c) eqn:E2; [apply bool_decide_eq_true in E2 as <-; left; eauto|].
  destruct (is_char (chr 10) c) eqn:E3; [apply bool_decide_eq_true in E3 as <-; left; eauto|].
  destruct (is_char (chr 13) c) eqn:E4; [apply bool_decide_eq_true in E4 as <-; left; eexists; split; [done|]; intros []; done|].
  destruct (is_char (chr 9) c) eqn:E5; [apply bool_decide_eq_true in E5 as <-; left; eauto|].
  right. unfold is_char in *. bools. auto.
Qed.

Lemma read_string_esc s rest : no_chr cr s -> read_string (esc s +:+ String quote rest) = (s, String quote rest).
Proof.
  induction s as [|c s IH]; intros Hs; [done|]. apply no_chr_cons in Hs as [Hc Hs]. specialize (IH Hs).
  cbn [esc]. rewrite s_app_assoc. destruct (esc_char_cases c) as [(n & -> & Hn)|(-> & Hq & Hb)].
  - change (String backslash (str1 n) +:+ ?x) with (String backslash (String n x)). cbn [read_string].
    change (is_char quote backslash) with false. change (is_char backslash backslash) with true. cbv iota.
    rewrite IH. by rewrite Hn.
  - change (str1 c +:+ ?x) with (String c x). cbn [read_string].
    assert (is_char quote c = false) as -> by (by apply bool_decide_eq_false).
    assert (is_char backslash c = false) as -> by (by apply bool_decide_eq_false).
    rewrite IH. destruct (esc s +:+ String quote rest) eqn:E; [|done]. by destruct (esc s).
Qed.

Lemma seek_hit c pre t : no_chr c pre -> seek c (pre +:+ String c t) = Some (String c t).
Proof. intros H. unfold seek. rewrite find_chr_hit by done. by rewrite s_drop_app. Qed.
Lemma seek_none c s : no_chr c s -> seek c s = None.
Proof. intros H. unfold seek. by rewrite (proj2 (find_chr_none s c 0)). Qed.

Definition put (out : gmap string string) (kv : string * string) : gmap string string := <[kv.1 := kv.2]> out.
Lemma member_text kv t :
  member kv +:+ t = String quote (esc kv.1 +:+ String quote (String ":" (String quote (esc kv.2 +:+ String quote t)))).
Proof. unfold member, str1. by rewrite !s_app_assoc. Qed.

Lemma parse_loop_members l first pre post out fuel :
  Forall (fun kv => no_chr cr kv.1 /\ no_chr cr kv.2) l -> no_chr quote pre -> no_chr quote post ->
  (length l <= fuel)%nat ->
  parse_loop fuel (pre +:+ members first l +:+ post) out = fold_left put l out.
Proof.
  intros Hl. revert first pre out fuel. induction Hl as [|[k v] l [Hk Hv] Hl IH]; intros first pre out fuel Hpre Hpost Hf.
  - cbn [members fold_left]. rewrite s_app_nil_l. destruct fuel; [done|]. cbn [parse_loop].
    by rewrite seek_none by (by apply no_chr_app).
  - destruct fuel as [|fuel]; [cbn in Hf; lia|]. cbn [members]. rewrite !s_app_assoc, member_text.
    rewrite <- (s_app_assoc pre). cbn [parse_loop fst snd].
    rewrite seek_hit by (apply no_chr_app; split; [done|destruct first; by_eval]). cbn [behind s_drop].
    rewrite read_string_esc by done.
    change (String quote (String ":" ?x)) with (str1 quote +:+ String ":" x). rewrite seek_hit by by_eval.
    change (String ":" (String quote ?x)) with (":" +:+ String quote x). rewrite seek_hit by by_eval.
    cbn [behind s_drop]. rewrite read_string_esc by done. cbn [behind s_drop fold_left].
    change (members false l +:+ post) with ("" +:+ members false l +:+ post).
    apply IH; [apply no_chr_nil|done|cbn in Hf; lia].
Qed.

Lemma fold_put l out : NoDup l.*1 -> fold_left put l out = list_to_map l ∪ out.
Proof.
  revert out. induction l as [|[k v] l IH]; intros out Hnd; cbn [fold_left].
  - by rewrite list_to_map_nil, map_empty_union.
  - rewrite fmap_cons in Hnd. apply NoDup_cons in Hnd as [Hk Hnd]. rewrite IH by done. unfold put. cbn [fst snd list_to_map foldr].
    rewrite <- insert_union_r by (by apply not_elem_of_list_to_map_1). by rewrite insert_union_l.
Qed.

(** Text the wire keeps: no carriage return. *)
Definition kept (s : string) : bool := bool_decide (no_chr cr s).
Definition kept_map (m : gmap string string) : Prop := map_Forall (fun k v => kept k = true /\ kept v = true) m.
Lemma kept_members `{MapOrder string} m : kept_map m -> Forall (fun kv => no_chr cr kv.1 /\ no_chr cr kv.2) (iter_map m).
Proof.
  intros Hm. apply Forall_forall. intros [k v] Hkv. apply elem_of_iter_map in Hkv. specialize (Hm _ _ Hkv).
  cbn in *. unfold kept in Hm. by rewrite !bool_decide_eq_true in Hm.
Qed.
Lemma length_members first l : (length l <= len (members first l))%nat.
Proof.
  revert first. induction l as [|kv l IH]; intros first; cbn [length members]; [lia|].
  rewrite !length_s_app. specialize (IH false). unfold member. rewrite !length_s_app. cbn [str1 len String.length]. lia.
Qed.

(** The JSON of a state reads back: whatever order the map is written in, [parse_object]
    of the text [object] prints is the map, for any keys and values without a carriage
    return, quotes, backslashes and line breaks included. *)
Theorem object_roundtrip `{MapOrder string} (m : gmap string string) :
  kept_map m -> parse_object (object m) = m.
Proof.
  intros Hm. unfold parse_object, object.
  rewrite (parse_loop_members (iter_map m) true "{" "}") by (try apply kept_members; try by_eval; try done;
    rewrite !length_s_app; pose proof (length_members true (iter_map m)); lia).
  rewrite fold_put by apply iter_map_nodup. rewrite iter_map_list_to_map. apply map_union_empty.
Qed.
Lemma object_roundtrip_witness :
  let m : gmap string string := <["say" := String quote (str1 quote)]> {["n" := String backslash (str1 (chr 10))]} in
  parse_object (object (H := canonical_order) m) = m.
Proof. apply (object_roundtrip (H := canonical_order)). apply (bool_decide_unpack _). vm_compute. exact I. Defined.

(** A carriage return is written as \r and read back as the letter r. *)
Lemma carriage_return_lost :
  parse_object (object (H := canonical_order) {["text" := str1 cr]}) = {["text" := "r"]}.
Proof. vm_compute. reflexivity. Qed.

(** ** The request *)
(** The text a client posts: JSON.stringify({name, action, arg, state}). *)
Definition entry (key value : string) : string := key_text key +:+ ":" +:+ str1 quote +:+ esc value +:+ str1 quote.
Definition request_text `{MapOrder string} (req : UpdateRequest) : string :=
  "{" +:+ entry "name" (req_name req) +:+ "," +:+ entry "action" (req_action req) +:+ "," +:+ entry "arg" (req_arg req)
  +:+ "," +:+ key_text "state" +:+ ":" +:+ object (req_state req) +:+ "}".

(** A value whose text would be taken for the member [key]: it is that name, or ends with
    a quote and that name. *)
Definition hides (key v : string) : Prop := v = key \/ exists u, v = u +:+ String quote key.
Definition plain_key (key : string) : bool :=
  negb (bool_decide (key = "")) && bool_decide (s_all (fun c => is_lower c) key).

Lemma plain_key_char key c t : plain_key key = true -> is_lower c = false -> is_prefix key (String c t) = false.
Proof.
  unfold plain_key. intros [Hne Hk]%andb_true_iff Hc. destruct key as [|d key]; [done|].
  apply bool_decide_eq_true in Hk. apply s_all_cons in Hk as [Hd _]. cbn [is_prefix].
  destruct (bool_decide_reflect (d = c)) as [->|]; [|done]. by rewrite Hc in Hd.
Qed.
(** The literal that is exactly the key. *)
Lemma literal_is_key key v t :
  bool_decide (s_all (fun c => is_lower c) key) = true ->
  is_prefix (key +:+ str1 quote) (esc v +:+ String quote t) = true -> v = key.
Proof.
  intros Hk%bool_decide_eq_true. revert v. induction key as [|d key IH]; intros v H.
  - destruct v as [|c v]; [done|]. exfalso. cbn [esc] in H. destruct (esc_char_cases c) as [(n & E & _)|(E & Hq & _)];
      rewrite E in H; cbn in H; [done|]. apply andb_true_iff in H as [H%bool_decide_eq_true _]. by rewrite H in Hq.
  - apply s_all_cons in Hk as [Hd Hk]. rewrite s_app_cons in H. destruct v as [|c v].
    + exfalso. cbn in H. apply andb_true_iff in H as [H%bool_decide_eq_true _]. subst d. done.
    + cbn [esc] in H. destruct (esc_char_cases c) as [(n & E & _)|(E & _)]; rewrite E in H; cbn [is_prefix str1] in H.
      * exfalso. cbn in H. apply andb_true_iff in H as [H%bool_decide_eq_true _]. subst d. done.
      * cbn in H. apply andb_true_iff in H as [Hdc%bool_decide_eq_true H]. subst d. f_equal. apply IH; [done|].
        unfold str1. exact H.
Qed.
Lemma esc_clear key v t :
  plain_key key = true -> ~ (exists u, v = u +:+ String quote key) ->
  is_prefix key t = false ->
  clear (key_text key) (esc v) (String quote t).
Proof.
  intros Hk Hv Ht. induction v as [|c v IH]; [apply clear_nil|].
  assert (Hrest : clear (key_text key) (esc v) (String quote t)).
  { apply IH. intros [u ->]. apply Hv. by exists (String c u). }
  cbn [esc]. destruct (esc_char_cases c) as [(n & E & Hn)|(E & Hq & Hb)]; rewrite E.
  - change (String backslash (str1 n) +:+ esc v) with (String backslash (String n (esc v))).
    apply clear_cons; [unfold key_text, str1; by rewrite s_app_cons|]. apply clear_cons; [|done]. unfold key_text, str1 at 1. rewrite s_app_cons, s_app_nil_l.
    cbn [is_prefix]. destruct (bool_decide_reflect (quote = n)) as [Eq|]; [|done]. cbn [andb].
    destruct (is_prefix (key +:+ _) _) eqn:Ep; [|done]. exfalso. apply Hv. exists "".
    rewrite s_app_nil_l. apply andb_true_iff in Hk as [_ Hk]. apply (literal_is_key key v t Hk) in Ep as ->. f_equal.
    subst n. unfold esc_char in E. repeat case_match; simplify_eq; unfold is_char in *; bools; try done.
  - apply clear_cons; [|done]. unfold key_text, str1 at 1. rewrite s_app_cons, s_app_nil_l. cbn [is_prefix].
    by rewrite bool_decide_eq_false_2.
Qed.

Lemma is_prefix_shorter p q t : is_prefix p t = false -> is_prefix (p +:+ q) t = false.
Proof.
  intros H. destruct (is_prefix (p +:+ q) t) eqn:E; [|done]. apply is_prefix_iff in E as [u ->].
  by rewrite s_app_assoc, is_prefix_app in H.
Qed.
Lemma clear_closing_quote key t : is_prefix (key +:+ str1 quote) t = false -> clear (key_text key) (str1 quote) t.
Proof.
  intros H. apply clear_cons; [|apply clear_nil]. unfold key_text, str1 at 1. rewrite s_app_nil_l, s_app_cons, s_app_nil_l.
  cbn [is_prefix]. by rewrite H, andb_false_r.
Qed.
Lemma clear_no_quote key s t : no_chr quote s -> clear (key_text key) s t.
Proof. intros H. unfold key_text, str1 at 1. rewrite s_app_cons, s_app_nil_l. by apply clear_no_chr. Qed.

Lemma entry_clear key k v t :
  plain_key key = true -> no_chr quote k -> (forall u, is_prefix (key +:+ str1 quote) (k +:+ u) = false) ->
  ~ hides key v -> is_prefix key t = false -> clear (key_text key) (entry k v) t.
Proof.
  intros Hkey Hk Hne Hv Ht. assert (Hlow := Hkey). apply andb_true_iff in Hlow as [_ Hlow].
  unfold entry. unfold key_text at 2. rewrite !s_app_assoc. repeat apply clear_app.
  - rewrite !s_app_assoc. by apply clear_closing_quote.
  - by apply clear_no_quote.
  - apply clear_closing_quote, is_prefix_shorter. rewrite s_app_assoc. by apply plain_key_char.
  - apply clear_no_quote. by_eval.
  - apply clear_closing_quote. unfold str1 at 2. rewrite s_app_assoc. destruct (is_prefix (key +:+ _) _) eqn:E; [|done].
    exfalso. apply Hv. left. by apply (literal_is_key key v t Hlow).
  - apply esc_clear; [done| |done]. intros Hu. apply Hv. by right.
  - by apply clear_closing_quote, is_prefix_shorter.
Qed.

(** The member behind a text that holds no other occurrence of its name. *)
Lemma field_entry pre key v t :
  clear (key_text key) pre (entry key v +:+ t) -> no_chr cr v -> field (pre +:+ entry key v +:+ t) key = v.
Proof.
  intros Hpre Hv. unfold field, entry in *. rewrite !s_app_assoc in *.
  rewrite clear_find by done. rewrite <- (s_app_assoc pre), s_drop_app by (by rewrite length_s_app).
  change (":" +:+ ?x) with ("" +:+ String ":" x). rewrite seek_hit by apply no_chr_nil.
  change (String ":" (str1 quote +:+ ?x)) with (":" +:+ String quote x). rewrite seek_hit by by_eval.
  cbn [behind s_drop]. change (str1 quote +:+ ?x) with (String quote x). by rewrite read_string_esc.
Qed.

(** Braces in the state would end the object early. *)
Definition no_braces (s : string) : Prop := no_chr "{" s /\ no_chr "}" s.
Lemma object_end_skip depth s t : no_braces s -> object_end depth (s +:+ t) = Nat.add (len s) <$> object_end depth t.
Proof.
  induction s as [|c s IH]; intros [H1 H2]; [rewrite s_app_nil_l; by destruct (object_end depth t)|].
  apply no_chr_cons in H1 as [Hc1 H1]. apply no_chr_cons in H2 as [Hc2 H2]. rewrite s_app_cons. cbn [object_end].
  assert (is_char "{" c = false) as -> by (by apply bool_decide_eq_false).
  assert (is_char "}" c = false) as -> by (by apply bool_decide_eq_false).
  rewrite IH by done. by destruct (object_end depth t).
Qed.
Lemma esc_no_braces s : no_braces s -> no_braces (esc s).
Proof.
  induction s as [|c s IH]; intros [H1 H2]; [done|].
  apply no_chr_cons in H1 as [Hc1 H1]. apply no_chr_cons in H2 as [Hc2 H2]. destruct (IH (conj H1 H2)) as [I1 I2].
  cbn [esc]. unfold no_braces. rewrite !no_chr_app. unfold esc_char.
  repeat case_match; repeat split; try done; try by_eval; apply no_chr_cons; split; auto using no_chr_nil.
Qed.
Lemma members_no_braces first l :
  Forall (fun kv => no_braces kv.1 /\ no_braces kv.2) l -> no_braces (members first l).
Proof.
  intros Hl. revert first. induction Hl as [|[k v] l [Hk Hv] Hl IH]; intros first; [done|].
  cbn [members]. unfold member. cbn [fst snd]. destruct (IH false) as [I1 I2].
  apply esc_no_braces in Hk as [K1 K2]. apply esc_no_braces in Hv as [V1 V2].
  unfold no_braces. rewrite !no_chr_app. destruct first; repeat split; try done; by_eval.
Qed.
Lemma object_field_object pre key s t :
  clear (key_text key) pre (key_text key +:+ ":" +:+ "{" +:+ s +:+ "}" +:+ t) -> no_braces s -> no_chr "{" key ->
  object_field (pre +:+ key_text key +:+ ":" +:+ "{" +:+ s +:+ "}" +:+ t) key = "{" +:+ s +:+ "}".
Proof.
  intros Hpre Hs Hkey. unfold object_field. rewrite clear_find by done. rewrite s_drop_app by done.
  replace (key_text key +:+ ":" +:+ "{" +:+ s +:+ "}" +:+ t) with ((key_text key +:+ ":") +:+ String "{" (s +:+ "}" +:+ t))
    by (by rewrite s_app_assoc).
  rewrite seek_hit.
  - change (object_end 0 (String "{" ?x)) with (S <$> object_end 1 x). rewrite object_end_skip by done.
    cbn [object_end is_char]. change (object_end 1 ("}" +:+ t)) with (Some 1%nat). cbn [fmap option_fmap option_map].
    rewrite <- !s_app_cons, <- s_app_assoc. rewrite s_take_app; [done|]. rewrite length_s_app. cbn. lia.
  - unfold key_text. rewrite !no_chr_app. repeat split; try done; by_eval.
Qed.

Lemma hides_not key v : v ≠ key -> no_chr quote v -> ~ hides key v.
Proof.
  intros Hne Hq [?|[u ->]]; [done|]. apply no_chr_app in Hq as [_ Hq]. by apply no_chr_cons in Hq as [? _].
Qed.
Definition wire_state (m : gmap string string) : Prop :=
  map_Forall (fun k v => (kept k = true /\ kept v = true) /\ no_braces k /\ no_braces v) m.
(** Requests whose text reads back. *)
Definition request_ok (req : UpdateRequest) : Prop :=
  (kept (req_name req) = true /\ kept (req_action req) = true /\ kept (req_arg req) = true) /\
  (~ hides "action" (req_name req) /\ ~ hides "arg" (req_name req) /\ ~ hides "state" (req_name req)) /\
  (~ hides "arg" (req_action req) /\ ~ hides "state" (req_action req)) /\ ~ hides "state" (req_arg req) /\
  wire_state (req_state req).

#[local] Opaque entry.

Section protocol.
Context {X : Type} `{MapOrder string}.

Lemma parse_request_posted (req : UpdateRequest) : request_ok req -> parse_request (request_text req) = req.
Proof.
  destruct req as [name action arg state]. intros ((Kn & Ka & Kg) & (N1 & N2 & N3) & (A1 & A2) & G1 & Hst). cbn in *.
  unfold kept in Kn, Ka, Kg. apply bool_decide_eq_true in Kn, Ka, Kg.
  unfold parse_request, request_text. cbn [req_name req_action req_arg req_state].
  assert (Hcomma : forall key u, plain_key key = true -> is_prefix key ("," +:+ u) = false) by (intros; by apply plain_key_char).
  assert (Hskip : forall key s u, no_chr quote s -> clear (key_text key) s u) by (intros; by apply clear_no_quote).
  assert (Hentry : forall key k v u, plain_key key = true -> no_chr quote k -> (forall u, is_prefix (key +:+ str1 quote) (k +:+ u) = false) ->
    ~ hides key v -> clear (key_text key) (entry k v) ("," +:+ u)).
  { intros. apply entry_clear; auto. }
  f_equal.
  - apply (field_entry "{"); [apply Hskip; by_eval|done].
  - rewrite <- (s_app_assoc (entry "name" name)), <- (s_app_assoc "{"). apply field_entry; [|done].
    repeat apply clear_app; [apply Hskip; by_eval| |apply Hskip; by_eval].
    rewrite ?s_app_assoc. apply Hentry; [done|by_eval|done|done].
  - rewrite <- (s_app_assoc (entry "action" action)), <- (s_app_assoc ","), <- (s_app_assoc (entry "name" name)), <- (s_app_assoc "{").
    apply field_entry; [|done].
    repeat apply clear_app; try (apply Hskip; by_eval); rewrite ?s_app_assoc; (apply Hentry; [done|by_eval|done|done]).
  - set (pre := "{" +:+ entry "name" name +:+ "," +:+ entry "action" action +:+ "," +:+ entry "arg" arg +:+ ",").
    replace (object_field _ "state") with (object state).
    { apply object_roundtrip. intros k v Hk. by destruct (Hst _ _ Hk). }
    symmetry. unfold object.
    replace ("{" +:+ entry "name" name +:+ _) with (pre +:+ key_text "state" +:+ ":" +:+ "{" +:+ members true (iter_map state) +:+ "}" +:+ "}")
      by (subst pre; by rewrite !s_app_assoc).
    apply object_field_object; [|apply members_no_braces, Forall_forall|by_eval].
    + subst pre. repeat apply clear_app; try (apply Hskip; by_eval); rewrite ?s_app_assoc; (apply Hentry; [done|by_eval|done|done]).
    + intros [k v] Hkv. apply elem_of_iter_map in Hkv. by destruct (Hst _ _ Hkv).
Qed.

(** The HTTP entry implements [update]: for the text a client posts for a request
    (JSON.stringify of name, action, argument and state, in any order of the state's
    members), [handle] answers with the JSON of what [update] gives for the request itself,
    and throws when it throws. *)
Theorem handle_refines_update (lw : Livewire X) (fuel : nat) (req : UpdateRequest) :
  request_ok req ->
  handle lw fuel (request_text req) =
    match update lw fuel req with
    | None => None
    | Some (Throw e) => Some (Throw e)
    | Some (Ok res) => Some (Ok (response_json res))
    end.
Proof. intros Hok. unfold handle. by rewrite parse_request_posted. Qed.

(** The server keeps no component between requests and behaves as if it did.  When the
    client holds the state [o] of a live component whose private members are as constructed
    and that has kept the properties of its constructor, posting an action answers with
    what the live component would show after it: the page its [render] gives behind the
    hydrate hook and the action, and the state behind the dehydrate hook. *)
Theorem stateless_update (lw : Livewire X) (fuel : nat) (c : Class X) (name action arg : string) (o o1 o2 : Component) (body : string) (known : bool) :
  make lw name = Some c -> o.2 = (fresh c).2 -> dom (fresh c).1 ⊆ dom o.1 ->
  request_ok (mkUpdateRequest name action arg o.1) ->
  (_ ← hydrate c; call c action arg) o = (Ok known, o1) ->
  run_html (mount lw fuel) (render c o1) = Some (Ok body) -> dehydrate c o1 = (Ok tt, o2) ->
  handle lw fuel (request_text (mkUpdateRequest name action arg o.1)) = Some (Ok (response_json (mkUpdateResponse body o2.1))).
Proof.
  intros Hmake Hmem Hdom Hok Hrun Hrender Hde. unfold handle. rewrite parse_request_posted by done.
  unfold update. cbn [req_name req_action req_arg req_state]. rewrite Hmake.
  replace (o.1 ∪ (fresh c).1, (fresh c).2) with o.
  - by rewrite Hrun, Hrender, Hde.
  - rewrite <- Hmem, (surjective_pairing o) at 1. f_equal. symmetry. apply map_eq. intros k.
    destruct (o.1 !! k) as [v|] eqn:E; [by apply lookup_union_Some_l|].
    rewrite lookup_union_r by done. apply not_elem_of_dom. apply not_elem_of_dom in E. set_solver.
Qed.
End protocol.

(** A counter whose page mounts a badge. *)
Definition demo_increment : Action (X := unit) := fun arg o =>
  match stoi (default "" (o.1 !! "count")) with
  | Ok n => (Ok tt, (<["count" := to_string (n + 1)]> o.1, o.2))
  | Throw e => (Throw e, o)
  end.
Definition demo_counter : Class unit :=
  on "increment" demo_increment
    (mkClass ({["count" := "0"]}, tt) ∅ (mret tt) (mret tt) (mret tt)
      (fun o => MountChild "badge" "" (fun badge => Markup (Ok ("<b>" +:+ default "" (o.1 !! "count") +:+ "</b>" +:+ badge))))).
Definition demo_badge : Class unit :=
  mkClass (∅, tt) ∅ (mret tt) (mret tt) (mret tt) (fun _ => Markup (Ok "*")).
Definition demo_livewire : Livewire unit := component "counter" demo_counter (component "badge" demo_badge ∅).
Definition demo_request : UpdateRequest := mkUpdateRequest "counter" "increment" "" {["count" := "41"]}.
Lemma demo_request_ok : request_ok demo_request.
Proof.
  split; [by_eval|]. split; [repeat split; apply hides_not; by_eval|]. split; [split; apply hides_not; by_eval|].
  split; [apply hides_not; by_eval|by_eval].
Qed.
Definition demo_body : string :=
  "<b>42</b><div wire:id=" +:+ key_text "badge" +:+ " wire:component=" +:+ key_text "badge" +:+ " wire:state='{}'>*</div>".

Lemma handle_refines_update_witness :
  handle (H := canonical_order) demo_livewire 2 (request_text (H := canonical_order) demo_request) =
    Some (Ok (response_json (H := canonical_order) (mkUpdateResponse demo_body {["count" := "42"]}))).
Proof.
  etransitivity; [apply (handle_refines_update (H := canonical_order) demo_livewire 2 demo_request demo_request_ok)|].
  vm_compute. reflexivity.
Defined.

Lemma stateless_update_witness :
  let o n : Component := ({["count" := n]}, tt) in
  handle (H := canonical_order) demo_livewire 2 (request_text (H := canonical_order) (mkUpdateRequest "counter" "increment" "" (o "41").1)) =
    Some (Ok (response_json (H := canonical_order) (mkUpdateResponse demo_body (o "42").1))).
Proof.
  intros o.
  apply (stateless_update (H := canonical_order) demo_livewire 2 demo_counter "counter" "increment" "" (o "41") (o "42") (o "42") demo_body true).
  - reflexivity.
  - reflexivity.
  - cbn. rewrite !dom_singleton_L. set_solver.
  - exact demo_request_ok.
  - vm_compute. reflexivity.
  - vm_compute. reflexivity.
  - vm_compute. reflexivity.
Defined.

(** A brace in the state ends the object early: the rest of the state is dropped. *)
Lemma brace_in_state_truncates :
  let state : gmap string string := {["note" := "a}b"]} in
  req_state (parse_request (request_text (H := canonical_order) (mkUpdateRequest "x" "y" "" state))) = {["note" := "a}"]}.
Proof. vm_compute. reflexivity. Qed.

(** The state is not escaped for the attribute it is put in. *)
Lemma quote_in_state_ends_attribute :
  wrapper (H := canonical_order) "x" "x" {["note" := "'><script>"]} "" =
    "<div wire:id=" +:+ key_text "x" +:+ " wire:component=" +:+ key_text "x" +:+ " wire:state='{" +:+ key_text "note" +:+
    ":" +:+ str1 quote +:+ "'><script>" +:+ str1 quote +:+ "}'></div>".
Proof. vm_compute. reflexivity. Qed.
