(* ===== verification/Sqlite.v ===== *)
(** * sqlite_connection.hpp / sqlite_connection.cpp: the SQL backend

    [SqliteConnection] builds SQL text from identifiers and [?] marks, binds the values in
    order and reads what the library returns.  The library ([SqliteLib]) is a parameter:
    what sqlite3_prepare_v2 accepts, the rows a statement steps through, whether a write
    reached SQLITE_DONE, sqlite3_changes and so on, over a state [D] of its own.  The mutex
    makes each operation one atomic step. *)
From S2P Require Import Prelude CppString CppNum Database.

Local Open Scope Z_scope.

(** ** The library *)
Inductive SqlVal : Type :=
  | SInteger (z : Z)
  | SFloat (d : double)
  | SText (s : string)
  | SOther.                    (* NULL or a blob *)
Record SqliteLib (D : Type) : Type := mkSqliteLib {
  lib_prepare : string -> D -> bool;
  lib_rows : string -> list SqlVal -> D -> list (list (string * SqlVal));
  lib_write : string -> list SqlVal -> D -> bool * D;      (* SQLITE_DONE or not *)
  lib_exec : string -> D -> option (option string) * D;    (* None for SQLITE_OK, else the message, if any *)
  lib_errmsg : D -> string;
  lib_changes : D -> Z;
  lib_last_insert_rowid : D -> Z
}.
Arguments lib_prepare {_} _. Arguments lib_rows {_} _. Arguments lib_write {_} _. Arguments lib_exec {_} _.
Arguments lib_errmsg {_} _. Arguments lib_changes {_} _. Arguments lib_last_insert_rowid {_} _.

Definition op_sql (op : Op) : string :=
  match op with Eq => "=" | Ne => "!=" | Lt => "<" | Lte => "<=" | Gt => ">" | Gte => ">=" | In => "=" end.
Definition bind_value (v : Value) : SqlVal :=
  match v with
  | VInt z => SInteger z
  | VDouble d => SFloat d
  | VBool b => SInteger (if b then 1 else 0)
  | VStr s => SText (c_str s)
  end.
Definition read_column (v : SqlVal) : Value :=
  match v with
  | SInteger z => VInt z
  | SFloat d => VDouble d
  | SText s => VStr (c_str s)
  | SOther => VStr ""
  end.
Definition read_row (cols : list (string * SqlVal)) : Row :=
  fold_left (fun row kv => set_cell (c_str kv.1) (read_column kv.2) row) cols ∅.

(** ** SQL text *)
Definition unsafe_identifier (name : string) : exn := StdExn ("sqlite: unsafe SQL identifier: " +:+ name).
Definition ident (name : string) : res string :=
  if is_sql_identifier name then Ok name else Throw (unsafe_identifier name).

(** [n] marks behind the first. *)
Fixpoint marks (sep : string) (first : bool) (n : nat) : string :=
  match n with
  | O => ""
  | S n => (if first then "" else sep) +:+ "?" +:+ marks sep false n
  end.
Definition where_text (w : WhereClause) : res string :=
  col ← ident (w_column w);
  mret match w_op_ w with
       | In => col +:+ " IN (" +:+ marks "," true (length (w_values w)) +:+ ")"
       | op => col +:+ " " +:+ op_sql op +:+ " ?"
       end.
Fixpoint append_wheres (first : bool) (ws : list WhereClause) : res string :=
  match ws with
  | [] => Ok ""
  | w :: ws =>
      text ← where_text w;
      rest ← append_wheres false ws;
      mret ((if first then " WHERE " else " AND ") +:+ text +:+ rest)
  end.
Definition bind_where (w : WhereClause) : list SqlVal :=
  match w_op_ w with In => map bind_value (w_values w) | _ => [bind_value (w_value w)] end.
Definition bind_wheres (q : Query) : list SqlVal := flat_map bind_where (wheres q).

(** [names] joined by ", ". *)
Fixpoint column_names (first : bool) (cols : list (string * Value)) : res string :=
  match cols with
  | [] => Ok ""
  | (name, _) :: cols =>
      name ← ident name;
      rest ← column_names false cols;
      mret ((if first then "" else ", ") +:+ name +:+ rest)
  end.
Fixpoint set_text (first : bool) (cols : list (string * Value)) : res string :=
  match cols with
  | [] => Ok ""
  | (name, _) :: cols =>
      name ← ident name;
      rest ← set_text false cols;
      mret ((if first then "" else ", ") +:+ name +:+ " = ?" +:+ rest)
  end.

Definition insert_sql (table : string) (cols : list (string * Value)) : res string :=
  names ← column_names true cols;
  table ← ident table;
  mret ("INSERT INTO " +:+ table +:+ " (" +:+ names +:+ ") VALUES (" +:+ marks ", " true (length cols) +:+ ")").
Definition find_sql (table : string) : res string :=
  table ← ident table; mret ("SELECT * FROM " +:+ table +:+ " WHERE id = ?").
Definition order_text (q : Query) : res string :=
  match order q with
  | None => Ok ""
  | Some oc => col ← ident (o_column oc); mret (" ORDER BY " +:+ col +:+ if o_descending oc then " DESC" else " ASC")
  end.
Definition limit_text (q : Query) : string :=
  (match limit q with Some l => " LIMIT " +:+ to_string l | None => "" end) +:+
  match offset q with
  | Some o => (match limit q with Some _ => "" | None => " LIMIT -1" end) +:+ " OFFSET " +:+ to_string o
  | None => ""
  end.
Definition select_sql (table : string) (q : Query) : res string :=
  table ← ident table;
  wheres ← append_wheres true (wheres q);
  order ← order_text q;
  mret ("SELECT * FROM " +:+ table +:+ wheres +:+ order +:+ limit_text q).
Definition count_sql (table : string) (q : Query) : res string :=
  table ← ident table;
  wheres ← append_wheres true (wheres q);
  mret ("SELECT COUNT(*) FROM " +:+ table +:+ wheres).
Definition update_sql (table : string) (cols : list (string * Value)) : res string :=
  sets ← set_text true cols;
  table ← ident table;
  mret ("UPDATE " +:+ table +:+ " SET " +:+ sets +:+ " WHERE id = ?").
Definition update_if_sql (table : string) (guard_col : string) (cols : list (string * Value)) : res string :=
  sets ← set_text true cols;
  table ← ident table;
  guard ← ident guard_col;
  mret ("UPDATE " +:+ table +:+ " SET " +:+ sets +:+ " WHERE id = ? AND " +:+ guard +:+ " = ?").
Definition remove_sql (table : string) : res string :=
  table ← ident table; mret ("DELETE FROM " +:+ table +:+ " WHERE id = ?").

(** ** The connection *)
Section connection.
Context {D : Type} (lib : SqliteLib D) `{MapOrder Value}.

Definition refused (msg sql : string) : exn := StdExn ("sqlite: " +:+ msg +:+ " [" +:+ sql +:+ "]").
Definition sql_statement (sql : string) : M D unit := fun d =>
  match lib_exec lib (c_str sql) d with
  | (None, d) => (Ok tt, d)
  | (Some err, d) => (Throw (refused (default "unknown error" err) sql), d)
  end.
Definition run_insert (sql : string) (cols : list (string * Value)) : M D Z := fun d =>
  if negb (lib_prepare lib sql d) then (Throw (refused (lib_errmsg lib d) sql), d)
  else
    match lib_write lib sql (map (fun c => bind_value c.2) cols) d with
    | (true, d) => (Ok (lib_last_insert_rowid lib d), d)
    | (false, d) => (Throw (refused (lib_errmsg lib d) sql), d)
    end.
Definition sql_insert (table : string) (row : Row) : M D Z :=
  let cols := iter_map row in
  sql ← lift_res (insert_sql table cols);
  run_insert sql cols.
Definition sql_find (table : string) (id : Z) : M D (option Row) :=
  sql ← lift_res (find_sql table);
  gets (fun d =>
    if negb (lib_prepare lib sql d) then None
    else match lib_rows lib sql [SInteger id] d with [] => None | row :: _ => Some (read_row row) end).
Definition sql_select (table : string) (q : Query) : M D (list Row) :=
  sql ← lift_res (select_sql table q);
  gets (fun d => if negb (lib_prepare lib sql d) then [] else map read_row (lib_rows lib sql (bind_wheres q) d)).
Definition sql_all (table : string) : M D (list Row) := sql_select table empty_query.
(** sqlite3_column_int64 of a cell that is not an integer is left to the library. *)
Definition sql_count (as_int64 : SqlVal -> Z) (table : string) (q : Query) : M D Z :=
  sql ← lift_res (count_sql table q);
  gets (fun d =>
    if negb (lib_prepare lib sql d) then 0
    else match lib_rows lib sql (bind_wheres q) d with
         | ((_, v) :: _) :: _ => u64 (as_int64 v)
         | _ => 0
         end).
(** The row's columns but the primary key. *)
Definition set_columns (row : Row) : list (string * Value) :=
  List.filter (fun c => negb (bool_decide (c.1 = "id"))) (iter_map row).
(** prepare, bind, step and [changes() > 0]; the result of the step is not looked at. *)
Definition write_changes (sql : string) (binds : list SqlVal) : M D bool := fun d =>
  if negb (lib_prepare lib sql d) then (Ok false, d)
  else let d := (lib_write lib sql binds d).2 in (Ok (0 <? lib_changes lib d), d).
Definition sql_update (table : string) (id : Z) (row : Row) : M D bool :=
  let cols := set_columns row in
  sql ← lift_res (update_sql table cols);
  write_changes sql (map (fun c => bind_value c.2) cols ++ [SInteger id]).
Definition sql_remove (table : string) (id : Z) : M D bool :=
  sql ← lift_res (remove_sql table);
  write_changes sql [SInteger id].
Definition sql_update_if (table : string) (id : Z) (guard_col : string) (guard_value : Value) (row : Row) : M D bool :=
  let cols := set_columns row in
  sql ← lift_res (update_if_sql table guard_col cols);
  write_changes sql (map (fun c => bind_value c.2) cols ++ [SInteger id; bind_value guard_value]).
Definition SqliteConnection (as_int64 : SqlVal -> Z) : Connection D := {|
  insert := sql_insert; find := sql_find; all := sql_all; select := sql_select; update := sql_update;
  remove := sql_remove; statement := sql_statement; update_if := sql_update_if; count := sql_count as_int64;
  begin := sql_statement "BEGIN"; commit := sql_statement "COMMIT"; rollback := sql_statement "ROLLBACK"
|}.
End connection.

(** ** Tokens of a statement *)
Definition word_char (c : ascii) : bool := word c || is_digit c.
Definition flush (cur : string) : list string := if bool_decide (cur = "") then [] else [cur].
(** Words, and every other character but blanks on its own. *)
Fixpoint scan (cur s : string) : list string :=
  match s with
  | "" => flush cur
  | String c s =>
      if word_char c then scan (cur +:+ str1 c) s
      else flush cur ++ (if is_char " " c then [] else [str1 c]) ++ scan "" s
  end.
Definition tokens (s : string) : list string := scan "" s.
Definition starts_delimiter (s : string) : bool := match s with "" => true | String c _ => negb (word_char c) end.

Lemma scan_app cur a b : starts_delimiter b = true -> scan cur (a +:+ b) = scan cur a ++ tokens b.
Proof.
  intros Hb. revert cur. induction a as [|c a IH]; intros cur.
  - rewrite s_app_nil_l. cbn [scan]. unfold tokens. destruct b as [|c b]; [by rewrite app_nil_r|].
    cbn [starts_delimiter] in Hb. bools. cbn [scan]. by rewrite Hb.
  - rewrite s_app_cons. cbn [scan]. destruct (word_char c); [apply IH|]. rewrite IH. by rewrite <- !app_assoc.
Qed.
Lemma scan_word cur w : s_all word_char w -> scan cur w = flush (cur +:+ w).
Proof.
  revert cur. induction w as [|c w IH]; intros cur Hw; [by rewrite s_app_nil_r|].
  apply s_all_cons in Hw as [Hc Hw]. cbn [scan]. rewrite Hc, IH by done. by rewrite s_app_assoc.
Qed.
Lemma tokens_word w b : s_all word_char w -> w ≠ "" -> starts_delimiter b = true -> tokens (w +:+ b) = w :: tokens b.
Proof.
  intros Hw Hne Hb. unfold tokens. rewrite scan_app, scan_word by done. unfold flush.
  rewrite s_app_nil_l. by rewrite bool_decide_eq_false_2.
Qed.
Lemma tokens_ident name b : is_sql_identifier name = true -> starts_delimiter b = true -> tokens (name +:+ b) = name :: tokens b.
Proof.
  intros Hn Hb. apply is_sql_identifier_iff in Hn as (c & t & -> & _ & Hall). by apply tokens_word.
Qed.
Lemma tokens_number z b : 0 <= z -> starts_delimiter b = true -> tokens (to_string z +:+ b) = to_string z :: tokens b.
Proof.
  intros Hz. unfold to_string. rewrite (proj2 (Z.ltb_ge z 0)) by done. apply tokens_word.
  - pose proof (dec_all_digits z Hz) as Hd. unfold s_all in *. eapply Forall_impl; [exact Hd|]. cbn. intros c Hc.
    unfold word_char. by rewrite Hc, orb_true_r.
  - by destruct (dec_cons z Hz) as (c & s & -> & _).
Qed.

(** ** What a query is in tokens *)
Fixpoint separated (sep : string) (first : bool) (l : list (list string)) : list string :=
  match l with
  | [] => []
  | x :: l => (if first then [] else [sep]) ++ x ++ separated sep false l
  end.
Definition op_tokens (op : Op) : list string :=
  match op with Eq => ["="] | Ne => ["!"; "="] | Lt => ["<"] | Lte => ["<"; "="] | Gt => [">"] | Gte => [">"; "="] | In => ["="] end.
Definition mark_tokens (n : nat) : list string := separated "," true (replicate n ["?"]).
Definition where_tokens (w : WhereClause) : list string :=
  w_column w :: match w_op_ w with
                | In => ["IN"; "("] ++ mark_tokens (length (w_values w)) ++ [")"]
                | op => op_tokens op ++ ["?"]
                end.
Fixpoint wheres_tokens (first : bool) (ws : list WhereClause) : list string :=
  match ws with
  | [] => []
  | w :: ws => (if first then "WHERE" else "AND") :: where_tokens w ++ wheres_tokens false ws
  end.
Definition order_tokens (q : Query) : list string :=
  match order q with Some oc => ["ORDER"; "BY"; o_column oc; if o_descending oc then "DESC" else "ASC"] | None => [] end.
Definition limit_tokens (q : Query) : list string :=
  match limit q with Some l => ["LIMIT"; to_string l] | None => [] end ++
  match offset q with
  | Some o => match limit q with Some _ => [] | None => ["LIMIT"; "-"; "1"] end ++ ["OFFSET"; to_string o]
  | None => []
  end.
Definition query_names (q : Query) : list string :=
  map w_column (wheres q) ++ match order q with Some oc => [o_column oc] | None => [] end.

(** A text builder: with good names it gives a text that reads as [toks] in front of any
    other that starts with a delimiter; otherwise it throws for a bad one. *)
Definition builds (names : list string) (r : res string) (toks : list string) : Prop :=
  match r with
  | Ok sql => Forall (fun n => is_sql_identifier n = true) names /\ starts_delimiter sql = true /\
      forall b, starts_delimiter b = true -> tokens (sql +:+ b) = toks ++ tokens b
  | Throw e => exists n, n ∈ names /\ is_sql_identifier n = false /\ e = unsafe_identifier n
  end.

Lemma tokens_marks sep first n b : (sep = "," \/ sep = ", ") -> starts_delimiter b = true ->
  tokens (marks sep first n +:+ b) = separated "," first (replicate n ["?"]) ++ tokens b.
Proof.
  intros Hsep Hb. revert first. induction n as [|n IH]; intros first; [done|].
  cbn [marks replicate separated]. rewrite !s_app_assoc, <- !app_assoc, <- (IH false).
  by destruct first, Hsep as [-> | ->].
Qed.
Lemma ident_cases (name : string) :
  (is_sql_identifier name = true /\ ident name = Ok name) \/
  (is_sql_identifier name = false /\ ident name = Throw (unsafe_identifier name)).
Proof. unfold ident. destruct (is_sql_identifier name); auto. Qed.
Lemma where_builds w b : starts_delimiter b = true ->
  match where_text w with
  | Ok text => is_sql_identifier (w_column w) = true /\ tokens (text +:+ b) = where_tokens w ++ tokens b
  | Throw e => is_sql_identifier (w_column w) = false /\ e = unsafe_identifier (w_column w)
  end.
Proof.
  intros Hb. unfold where_text. destruct (ident_cases (w_column w)) as [[E ->]|[E ->]]; cbn; [|done].
  split; [done|]. unfold where_tokens. destruct (w_op_ w); rewrite !s_app_assoc, tokens_ident by done; try reflexivity.
  cbn. change (tokens (" IN (" +:+ ?x)) with ("IN" :: "(" :: tokens x).
  rewrite tokens_marks by (auto || done). by rewrite <- app_assoc.
Qed.
Lemma wheres_builds ws first : builds (map w_column ws) (append_wheres first ws) (wheres_tokens first ws).
Proof.
  revert first. induction ws as [|w ws IH]; intros first; cbn [append_wheres map wheres_tokens].
  - split; [by constructor|]. by split.
  - pose proof (where_builds w) as Hw. destruct (where_text w) as [text|e]; cbn [mbind res_bind].
    2:{ destruct (Hw "" eq_refl) as [E ->]. exists (w_column w). split; [by left|done]. }
    specialize (IH false). destruct (append_wheres false ws) as [rest|e]; cbn [mbind res_bind mret res_ret builds] in *.
    + destruct IH as (Hn & Hr & IH). split; [constructor; [apply (Hw "" eq_refl)|done]|]. split; [by destruct first|].
      intros b Hb. rewrite !s_app_assoc.
      assert (Hrb : starts_delimiter (rest +:+ b) = true) by (by destruct rest).
      destruct (Hw _ Hrb) as [_ E]. cbn [app]. rewrite <- app_assoc, <- (IH b Hb), <- E. by destruct first.
    + destruct IH as (n & Hn & H). exists n. split; [by right|done].
Qed.
Lemma order_builds q : builds (match order q with Some oc => [o_column oc] | None => [] end) (order_text q) (order_tokens q).
Proof.
  unfold order_text, order_tokens. destruct (order q) as [[col desc]|]; cbn [o_column o_descending].
  2:{ split; [by constructor|]. by split. }
  destruct (ident_cases col) as [[E ->]|[E ->]]; cbn [mbind res_bind mret res_ret builds].
  - split; [by repeat constructor|]. split; [done|]. intros b Hb. rewrite !s_app_assoc.
    change (tokens (" ORDER BY " +:+ ?x)) with ("ORDER" :: "BY" :: tokens x).
    rewrite tokens_ident by (done || by destruct desc). destruct desc; cbn [app]; do 3 f_equal.
    + change (" DESC" +:+ b) with (" " +:+ "DESC" +:+ b). change (tokens (" " +:+ ?x)) with (tokens x). by apply tokens_word; [by_eval|..].
    + change (" ASC" +:+ b) with (" " +:+ "ASC" +:+ b). change (tokens (" " +:+ ?x)) with (tokens x). by apply tokens_word; [by_eval|..].
  - exists col. split; [by left|done].
Qed.
Lemma limit_builds q :
  (forall l, limit q = Some l -> 0 <= l) -> (forall o, offset q = Some o -> 0 <= o) ->
  tokens (limit_text q) = limit_tokens q /\ starts_delimiter (limit_text q) = true.
Proof.
  unfold limit_text, limit_tokens. intros Hl Ho. split; [|destruct (limit q), (offset q); done].
  assert (Hoff : forall o, 0 <= o -> tokens (" OFFSET " +:+ to_string o) = ["OFFSET"; to_string o]).
  { intros o Hge. change (tokens (" OFFSET " +:+ ?x)) with ("OFFSET" :: tokens x).
    pose proof (tokens_number o "" Hge eq_refl) as E. rewrite s_app_nil_r in E. by rewrite E. }
  destruct (limit q) as [l|]; rewrite ?s_app_assoc, ?s_app_nil_l.
  - specialize (Hl l eq_refl). change (tokens (" LIMIT " +:+ ?x)) with ("LIMIT" :: tokens x).
    destruct (offset q) as [o|]; rewrite ?s_app_nil_l, tokens_number by done; cbn [app]; do 2 f_equal.
    apply Hoff. by apply Ho.
  - destruct (offset q) as [o|]; [|done].
    assert (E : forall b, starts_delimiter b = true -> tokens (" LIMIT -1" +:+ b) = ["LIMIT"; "-"; "1"] ++ tokens b).
    { intros b Hb. change (tokens (" LIMIT -1" +:+ b)) with ("LIMIT" :: "-" :: tokens ("1" +:+ b)).
      by rewrite tokens_word by (done || by_eval). }
    rewrite E by done. by rewrite Hoff by auto.
Qed.

(** The marks among the tokens. *)
Definition mark_count (l : list string) : nat := length (List.filter (fun t => bool_decide (t = "?")) l).
Lemma mark_count_app l l' : mark_count (l ++ l') = (mark_count l + mark_count l')%nat.
Proof. unfold mark_count. by rewrite List.filter_app, length_app. Qed.
Lemma mark_count_other t l : t ≠ "?" -> mark_count (t :: l) = mark_count l.
Proof. intros H. unfold mark_count. cbn [List.filter]. by rewrite bool_decide_eq_false_2. Qed.
Lemma ident_not_mark n : is_sql_identifier n = true -> n ≠ "?".
Proof. intros H ->. done. Qed.
Lemma number_not_mark z : 0 <= z -> to_string z ≠ "?".
Proof.
  intros Hz E. unfold to_string in E. rewrite (proj2 (Z.ltb_ge z 0)) in E by done.
  pose proof (dec_all_digits z Hz) as Hd. rewrite E in Hd. by vm_compute in Hd; inversion Hd.
Qed.
Lemma mark_count_marks first n : mark_count (separated "," first (replicate n ["?"])) = n.
Proof.
  revert first. induction n as [|n IH]; intros first; [done|]. cbn [replicate separated].
  rewrite !mark_count_app, IH. by destruct first.
Qed.
Lemma mark_count_where w : is_sql_identifier (w_column w) = true -> mark_count (where_tokens w) = length (bind_where w).
Proof.
  intros H. unfold where_tokens. rewrite mark_count_other by (by apply ident_not_mark). unfold bind_where.
  destruct (w_op_ w); try done. rewrite !mark_count_app. unfold mark_tokens. rewrite mark_count_marks, length_map.
  change (mark_count ["IN"; "("]) with 0%nat. change (mark_count [")"]) with 0%nat. lia.
Qed.
Lemma mark_count_wheres first ws :
  Forall (fun n => is_sql_identifier n = true) (map w_column ws) ->
  mark_count (wheres_tokens first ws) = length (flat_map bind_where ws).
Proof.
  revert first. induction ws as [|w ws IH]; intros first H; [done|]. cbn [map] in H. apply Forall_cons in H as [Hw H].
  cbn [wheres_tokens flat_map]. rewrite mark_count_other by (by destruct first). rewrite mark_count_app, length_app, IH by done.
  by rewrite mark_count_where.
Qed.
Lemma mark_count_order q :
  Forall (fun n => is_sql_identifier n = true) (match order q with Some oc => [o_column oc] | None => [] end) -> mark_count (order_tokens q) = 0%nat.
Proof.
  unfold order_tokens. destruct (order q) as [oc|]; [|done]. intros H. apply Forall_cons in H as [H _].
  rewrite 2!mark_count_other by done. rewrite mark_count_other by (by apply ident_not_mark). by destruct (o_descending oc).
Qed.
Lemma mark_count_limit q :
  (forall l, limit q = Some l -> 0 <= l) -> (forall o, offset q = Some o -> 0 <= o) -> mark_count (limit_tokens q) = 0%nat.
Proof.
  intros Hl Ho. unfold limit_tokens. rewrite mark_count_app. destruct (limit q) as [l|], (offset q) as [o|]; cbn [app];
    repeat (rewrite mark_count_other by (done || (apply number_not_mark; auto))); done.
Qed.

(** C18: No injection through a query.  [select] either throws for a name that is not a
    plain identifier, before the library sees any text, or gives a text that reads, token
    by token, as the query it was asked: the table, every condition on its own column with
    one mark per value, the order and the window.  No name and no value contributes
    anything but its own token, and there is one value to bind for every mark. *)
Theorem select_sql_tokens (table : string) (q : Query) :
  (forall l, limit q = Some l -> 0 <= l) -> (forall o, offset q = Some o -> 0 <= o) ->
  match select_sql table q with
  | Ok sql =>
      tokens sql = ["SELECT"; "*"; "FROM"; table] ++ wheres_tokens true (wheres q) ++ order_tokens q ++ limit_tokens q /\
      Forall (fun n => is_sql_identifier n = true) (table :: query_names q) /\
      length (List.filter (fun t => bool_decide (t = "?")) (tokens sql)) = length (bind_wheres q)
  | Throw e => exists n, n ∈ table :: query_names q /\ is_sql_identifier n = false /\ e = unsafe_identifier n
  end.
Proof.
  intros Hl Ho. unfold select_sql, query_names.
  destruct (ident_cases table) as [[E ->]|[E ->]]; cbn [mbind res_bind]; [|exists table; split; [by left|done]].
  pose proof (wheres_builds (wheres q) true) as Hw. destruct (append_wheres true (wheres q)) as [ws|e]; cbn [mbind res_bind builds] in *.
  2:{ destruct Hw as (n & Hn & H). exists n. split; [right; apply elem_of_app; by left|done]. }
  pose proof (order_builds q) as Hord. destruct (order_text q) as [ord|e]; cbn [mbind res_bind builds mret res_ret] in *.
  2:{ destruct Hord as (n & Hn & H). exists n. split; [right; apply elem_of_app; by right|done]. }
  destruct Hw as (Hwn & Hws & Hw), Hord as (Hon & Hos & Hord), (limit_builds q Hl Ho) as [Hlim Hls].
  assert (E2 : tokens ("SELECT * FROM " +:+ table +:+ ws +:+ ord +:+ limit_text q) =
    ["SELECT"; "*"; "FROM"; table] ++ wheres_tokens true (wheres q) ++ order_tokens q ++ limit_tokens q).
  { change (tokens ("SELECT * FROM " +:+ ?x)) with ("SELECT" :: "*" :: "FROM" :: tokens x).
    assert (H1 : starts_delimiter (ord +:+ limit_text q) = true) by (by destruct ord).
    rewrite tokens_ident by (done || by destruct ws). rewrite Hw, Hord, Hlim by done. done. }
  split; [done|]. split; [constructor; [done|]; by apply Forall_app|].
  rewrite E2. fold (mark_count (["SELECT"; "*"; "FROM"; table] ++ wheres_tokens true (wheres q) ++ order_tokens q ++ limit_tokens q)).
  cbn [app]. do 3 rewrite mark_count_other by done. rewrite mark_count_other by (by apply ident_not_mark).
  rewrite !mark_count_app, mark_count_wheres, mark_count_order, mark_count_limit by done. unfold bind_wheres. lia.
Qed.
Lemma select_sql_tokens_witness :
  let q := mkQuery [mkWhere "age" Gte (VInt 18) []; mkWhere "name" In (VInt 0) [VStr "'; --"; VStr "b"]] (Some (mkOrder "id" true)) None (Some 5) in
  select_sql "users" q = Ok "SELECT * FROM users WHERE age >= ? AND name IN (?,?) ORDER BY id DESC LIMIT -1 OFFSET 5" /\
  match select_sql "users" q with
  | Ok sql =>
      tokens sql = ["SELECT"; "*"; "FROM"; "users"] ++ wheres_tokens true (wheres q) ++ order_tokens q ++ limit_tokens q /\
      Forall (fun n => is_sql_identifier n = true) ("users" :: query_names q) /\
      length (List.filter (fun t => bool_decide (t = "?")) (tokens sql)) = length (bind_wheres q)
  | Throw e => exists n, n ∈ "users" :: query_names q /\ is_sql_identifier n = false /\ e = unsafe_identifier n
  end.
Proof. intros q. split; [reflexivity|]. apply (select_sql_tokens "users" q); intros l H; [done|]. by injection H as <-. Defined.

(** ** Writes *)
Definition all_names (cols : list (string * Value)) : list string := map fst cols.
Lemma column_names_builds cols first :
  match column_names first cols with
  | Ok text => Forall (fun n => is_sql_identifier n = true) (all_names cols) /\
      forall b, starts_delimiter b = true ->
        tokens (text +:+ b) = separated "," first (map (fun c => [c.1]) cols) ++ tokens b
  | Throw e => exists n, n ∈ all_names cols /\ is_sql_identifier n = false /\ e = unsafe_identifier n
  end.
Proof.
  revert first. induction cols as [|[n v] cols IH]; intros first; cbn [column_names all_names map separated fst].
  { split; [by constructor|]. done. }
  destruct (ident_cases n) as [[E ->]|[E ->]]; cbn [mbind res_bind]; [|exists n; split; [by left|done]].
  specialize (IH false). destruct (column_names false cols) as [rest|e] eqn:Er; cbn [mbind res_bind mret res_ret].
  2:{ destruct IH as (m & Hm & H). exists m. split; [by right|done]. }
  destruct IH as [Hn IH]. split; [by constructor|]. intros b Hb. rewrite !s_app_assoc, <- !app_assoc, <- (IH b Hb).
  assert (Hd : starts_delimiter (rest +:+ b) = true).
  { destruct cols as [|[m w] cols]; cbn [column_names] in Er; [by injection Er as <-|].
    destruct (ident_cases m) as [[_ Em]|[_ Em]]; rewrite Em in Er; cbn [mbind res_bind] in Er; [|done].
    destruct (column_names false cols); cbn in Er; [by injection Er as <-|done]. }
  cbn [app]. rewrite <- (tokens_ident n (rest +:+ b)) by done. by destruct first.
Qed.
Lemma set_text_builds cols first :
  match set_text first cols with
  | Ok text => Forall (fun n => is_sql_identifier n = true) (all_names cols) /\
      forall b, starts_delimiter b = true ->
        tokens (text +:+ b) = separated "," first (map (fun c => [c.1; "="; "?"]) cols) ++ tokens b
  | Throw e => exists n, n ∈ all_names cols /\ is_sql_identifier n = false /\ e = unsafe_identifier n
  end.
Proof.
  revert first. induction cols as [|[n v] cols IH]; intros first; cbn [set_text all_names map separated fst].
  { split; [by constructor|]. done. }
  destruct (ident_cases n) as [[E ->]|[E ->]]; cbn [mbind res_bind]; [|exists n; split; [by left|done]].
  specialize (IH false). destruct (set_text false cols) as [rest|e] eqn:Er; cbn [mbind res_bind mret res_ret].
  2:{ destruct IH as (m & Hm & H). exists m. split; [by right|done]. }
  destruct IH as [Hn IH]. split; [by constructor|]. intros b Hb. rewrite !s_app_assoc, <- !app_assoc, <- (IH b Hb).
  cbn [app]. change ("=" :: "?" :: tokens (rest +:+ b)) with (tokens (" = ?" +:+ rest +:+ b)).
  rewrite <- (tokens_ident n) by done. by destruct first.
Qed.

(** No injection through a write.  [insert] and [update_if] name the table, the row's
    columns and the guard column as one token each, in a text with exactly one mark for
    every value they bind, or throw for a name that is not a plain identifier. *)
Theorem write_sql_tokens (table guard : string) (cols : list (string * Value)) :
  match insert_sql table cols with
  | Ok sql =>
      tokens sql = ["INSERT"; "INTO"; table; "("] ++ separated "," true (map (fun c => [c.1]) cols) ++
        [")"; "VALUES"; "("] ++ separated "," true (replicate (length cols) ["?"]) ++ [")"]
  | Throw e => exists n, n ∈ table :: all_names cols /\ is_sql_identifier n = false /\ e = unsafe_identifier n
  end /\
  match update_if_sql table guard cols with
  | Ok sql =>
      tokens sql = ["UPDATE"; table; "SET"] ++ separated "," true (map (fun c => [c.1; "="; "?"]) cols) ++
        ["WHERE"; "id"; "="; "?"; "AND"; guard; "="; "?"]
  | Throw e => exists n, n ∈ table :: guard :: all_names cols /\ is_sql_identifier n = false /\ e = unsafe_identifier n
  end.
Proof.
  split; [unfold insert_sql|unfold update_if_sql].
  - pose proof (column_names_builds cols true) as Hc. destruct (column_names true cols) as [names|e]; cbn [mbind res_bind].
    2:{ destruct Hc as (n & Hn & H). exists n. split; [by right|done]. }
    destruct Hc as [_ Hc]. destruct (ident_cases table) as [[E ->]|[E ->]]; cbn [mbind res_bind mret res_ret]; [|exists table; split; [by left|done]].
    change (tokens ("INSERT INTO " +:+ ?x)) with ("INSERT" :: "INTO" :: tokens x). rewrite tokens_ident by done.
    change (tokens (" (" +:+ ?x)) with ("(" :: tokens x). rewrite Hc by done.
    change (tokens (") VALUES (" +:+ ?x)) with (")" :: "VALUES" :: "(" :: tokens x).
    rewrite tokens_marks by (auto || done). done.
  - pose proof (set_text_builds cols true) as Hc. destruct (set_text true cols) as [sets|e]; cbn [mbind res_bind].
    2:{ destruct Hc as (n & Hn & H). exists n. split; [do 2 right; done|done]. }
    destruct Hc as [_ Hc]. destruct (ident_cases table) as [[E ->]|[E ->]]; cbn [mbind res_bind]; [|exists table; split; [by left|done]].
    destruct (ident_cases guard) as [[Eg ->]|[Eg ->]]; cbn [mbind res_bind mret res_ret]; [|exists guard; split; [right; by left|done]].
    change (tokens ("UPDATE " +:+ ?x)) with ("UPDATE" :: tokens x). rewrite tokens_ident by done.
    change (tokens (" SET " +:+ ?x)) with ("SET" :: tokens x). rewrite Hc by done.
    change (tokens (" WHERE id = ? AND " +:+ ?x)) with ("WHERE" :: "id" :: "=" :: "?" :: "AND" :: tokens x).
    by rewrite tokens_ident by done.
Qed.

Section outcomes.
Context {D : Type} (lib : SqliteLib D) `{MapOrder Value}.

(** C19: An insert that did not happen is not taken for one.  [insert] returns an id only
    when the statement was prepared and ran to completion, and it is the library's row id;
    in every other case it throws: for a bad name before anything else, otherwise with the
    library's message and the statement. *)
Theorem insert_reports (table : string) (row : Row) (d d' : D) (r : res Z) :
  sql_insert lib table row d = (r, d') ->
  let binds := map (fun c => bind_value c.2) (iter_map row) in
  match insert_sql table (iter_map row) with
  | Throw e => r = Throw e /\ d' = d
  | Ok sql =>
      (lib_prepare lib sql d = true /\ lib_write lib sql binds d = (true, d') /\ r = Ok (lib_last_insert_rowid lib d')) \/
      (lib_prepare lib sql d = true /\ lib_write lib sql binds d = (false, d') /\ r = Throw (refused (lib_errmsg lib d') sql)) \/
      (lib_prepare lib sql d = false /\ d' = d /\ r = Throw (refused (lib_errmsg lib d) sql))
  end.
Proof.
  unfold sql_insert, mbind, M_bind, lift_res. destruct (insert_sql table (iter_map row)) as [sql|e]; [|by intros [= <- <-]].
  unfold run_insert. destruct (lib_prepare lib sql d); cbn [negb]; [|intros [= <- <-]; auto].
  destruct (lib_write lib sql _ d) as [[] d1]; intros [= <- <-]; auto.
Qed.

(** [update], [update_if] and [remove] look at the number of changed rows only, which a
    statement that fails leaves as the one before it: after a write that changed rows, a
    compare-and-set that the database refused (a lock, a constraint) reports success. *)
Lemma failed_claim_reports_success table id guard v row sql d :
  update_if_sql table guard (set_columns row) = Ok sql -> lib_prepare lib sql d = true ->
  lib_write lib sql (map (fun c => bind_value c.2) (set_columns row) ++ [SInteger id; bind_value v]) d = (false, d) ->
  0 < lib_changes lib d ->
  sql_update_if lib table id guard v row d = (Ok true, d).
Proof.
  intros Hsql Hp Hw Hc. unfold sql_update_if, mbind, M_bind, lift_res. rewrite Hsql. unfold write_changes. rewrite Hp, Hw.
  cbn. by rewrite (proj2 (Z.ltb_lt _ _)).
Qed.
(** When COMMIT fails the exception leaves [transaction] without a ROLLBACK. *)
Lemma failed_commit_stays_open as_int64 (fn : M D unit) d d1 d2 d3 err :
  lib_exec lib "BEGIN" d = (None, d1) -> fn d1 = (Ok tt, d2) -> lib_exec lib "COMMIT" d2 = (Some err, d3) ->
  transaction (SqliteConnection lib as_int64) fn d = (Throw (refused (default "unknown error" err) "COMMIT"), d3).
Proof.
  intros H1 H2 H3. unfold transaction, mbind, M_bind, try_catch. cbn [begin commit SqliteConnection].
  unfold sql_statement. change (c_str "BEGIN") with "BEGIN". rewrite H1, H2. change (c_str "COMMIT") with "COMMIT". by rewrite H3.
Qed.
End outcomes.

Definition demo_lib : SqliteLib (list (list SqlVal)) := mkSqliteLib _ (fun _ _ => true) (fun _ _ _ => [])
  (fun _ binds d => (true, d ++ [binds])) (fun _ d => (None, d)) (fun _ => "") (fun _ => 1) (fun d => Z.of_nat (length d)).
Lemma insert_reports_witness :
  let row : Row := {["name" := VStr "'); DROP TABLE users; --"]} in
  let binds := map (fun c => bind_value c.2) (@iter_map _ canonical_order row) in
  match insert_sql "users" (@iter_map _ canonical_order row) with
  | Throw e => Ok 1 = Throw e /\ [binds] = []
  | Ok sql =>
      (true = true /\ lib_write demo_lib sql binds [] = (true, [binds]) /\ Ok 1 = Ok (lib_last_insert_rowid demo_lib [binds])) \/
      (true = true /\ lib_write demo_lib sql binds [] = (false, [binds]) /\ Ok 1 = Throw (refused (lib_errmsg demo_lib [binds]) sql)) \/
      (true = false /\ [binds] = [] /\ Ok 1 = Throw (refused (lib_errmsg demo_lib []) sql))
  end.
Proof.
  intros row binds. apply (insert_reports demo_lib (H := canonical_order) "users" row [] [binds] (Ok 1)). vm_compute. reflexivity.
Defined.
