(* ===== verification/SqliteTables.v ===== *)
(** * sqlite_connection.cpp: the connection as a store of tables

    Sqlite.v has the text and the bindings of every operation, with the SQLite library a
    parameter.  Here is what the library promises of the statements the connection makes
    ([SqlTables], SQL's meaning of them on tables of cells), and that with it each
    operation of the connection is its operation on the rows of a table: the text, read
    token by token, the order of the bindings and the columns read back fit together. *)
From S2P Require Import Prelude CppString CppNum Database Tables DbQueue Sqlite.

Local Open Scope Z_scope.

(** ** Statements and what they mean *)
(** A row as the database holds it, and the kind of a column (schema.hpp declares them
    INTEGER, TEXT and REAL, NOT NULL and with a default): a value of the column's own kind is
    kept as it is. *)
Abbreviation Cells := (gmap string SqlVal).
Inductive Affinity : Type := AInteger | AText | AReal.
Definition keeps (a : Affinity) (v : SqlVal) : bool :=
  match a, v with
  | AInteger, SInteger _ => true
  | AText, SText s => bool_decide (c_str s = s)                                            (* texts are bound as C strings *)
  | AReal, SFloat d => match d with SpecFloat.S754_nan => false | _ => true end   (* a NaN becomes NULL *)
  | _, _ => false
  end.
Definition default_cell (a : Affinity) : SqlVal :=
  match a with AInteger => SInteger 0 | AText => SText "" | AReal => SFloat (SpecFloat.S754_zero false) end.
Definition Schema : Type := string -> option (gmap string Affinity).

Inductive Statement : Type :=
  | Select (t : string) (conds : list string)            (* SELECT * FROM t [WHERE c = ? AND ...] *)
  | Insert (t : string) (cols : list string)
  | Update (t : string) (cols conds : list string)
  | Delete (t : string) (conds : list string).

Definition equation (c : string) : list string := [c; "="; "?"].
Definition where_tokens_eq (conds : list string) : list string :=
  match conds with [] => [] | _ => "WHERE" :: separated "AND" true (map equation conds) end.
Definition statement_tokens (st : Statement) : list string :=
  match st with
  | Select t conds => ["SELECT"; "*"; "FROM"; t] ++ where_tokens_eq conds
  | Insert t cols => ["INSERT"; "INTO"; t; "("] ++ separated "," true (map (fun c => [c]) cols) ++
      [")"; "VALUES"; "("] ++ separated "," true (replicate (length cols) ["?"]) ++ [")"]
  | Update t cols conds => ["UPDATE"; t; "SET"] ++ separated "," true (map equation cols) ++ where_tokens_eq conds
  | Delete t conds => ["DELETE"; "FROM"; t] ++ where_tokens_eq conds
  end.

(** "=" between values of one kind. *)
Definition sql_eq (a b : SqlVal) : bool :=
  match a, b with
  | SInteger x, SInteger y => x =? y
  | SText x, SText y => bool_decide (x = y)
  | SFloat x, SFloat y => SpecFloat.SFeqb x y
  | _, _ => false
  end.
Definition satisfies (conds : list string) (keys : list SqlVal) (r : Cells) : bool :=
  forallb (fun ck => match r !! ck.1 with Some v => sql_eq v ck.2 | None => false end) (zip conds keys).
Definition assign (cols : list string) (vals : list SqlVal) (r : Cells) : Cells := list_to_map (zip cols vals) ∪ r.

Definition table_of (st : Statement) : string :=
  match st with Select t _ | Insert t _ | Update t _ _ | Delete t _ => t end.
Definition conditions (st : Statement) : list string :=
  match st with Select _ c | Update _ _ c | Delete _ c => c | Insert _ _ => [] end.
Definition assigned (st : Statement) : list string :=
  match st with Insert _ c | Update _ c _ => c | _ => [] end.
(** The values of the assigned columns are bound first, then those of the conditions. *)
Definition new_values (st : Statement) (binds : list SqlVal) : list SqlVal := take (length (assigned st)) binds.
Definition keys_of (st : Statement) (binds : list SqlVal) : list SqlVal := drop (length (assigned st)) binds.
Definition meets (st : Statement) (binds : list SqlVal) : Cells -> bool := satisfies (conditions st) (keys_of st binds).
(** The table after an UPDATE or a DELETE. *)
Definition changed (st : Statement) (binds : list SqlVal) (rows : list Cells) : list Cells :=
  match st with
  | Update _ cols _ => map (fun r => if meets st binds r then assign cols (new_values st binds) r else r) rows
  | Delete _ _ => List.filter (fun r => negb (meets st binds r)) rows
  | _ => rows
  end.
(** A new row: the default in the columns not named, and the key the table gives. *)
Definition new_row (s : gmap string Affinity) (cols : list string) (vals : list SqlVal) (id : Z) : Cells :=
  <["id" := SInteger id]> (assign cols vals (default_cell <$> s)).

Definition column_keeps (s : gmap string Affinity) (c : string) (v : SqlVal) : bool :=
  match s !! c with Some a => keeps a v | None => false end.
(** A statement the schema has a meaning for: its table and columns are there, a value is
    bound for every mark, of the kind of its column, and no key is assigned. *)
Record proper (schema : Schema) (s : gmap string Affinity) (st : Statement) (binds : list SqlVal) : Prop := {
  p_table : schema (table_of st) = Some s;
  p_length : length binds = (length (assigned st) + length (conditions st))%nat;
  p_kinds : Forall (fun cv => column_keeps s cv.1 cv.2 = true) (zip (assigned st ++ conditions st) binds);
  p_distinct : NoDup (assigned st);
  p_no_key : "id" ∉ assigned st;
  p_some : match st with Insert _ cols | Update _ cols _ => cols ≠ [] | _ => True end
}.

(** ** What is relied on of the library *)
(** [up d]: the handle is open and statements run to their end (no lock held by another
    process, no failing disk); [cells d t]: the rows of a table; [room d t n]: it
    has keys for [n] rows more.  The tables of the schema have a key [id] and no constraint but their
    columns' kinds; the names in it are not keywords of SQL.  What a text of these forms
    means does not depend on the blanks between its tokens. *)
Class SqlTables {D} (lib : SqliteLib D) (schema : Schema) (up : D -> Prop) (cells : D -> string -> list Cells)
    (room : D -> string -> nat -> Prop) : Prop := {
  tab_fewer d t n : room d t (S n) -> room d t n;
  tab_names t s : schema t = Some s ->
    is_sql_identifier t = true /\ s !! "id" = Some AInteger /\ delete "id" s ≠ ∅ /\ forall c, is_Some (s !! c) -> is_sql_identifier c = true;
  tab_rows t s d r : up d -> schema t = Some s -> r ∈ cells d t ->
    dom r = dom s /\ forall c v, r !! c = Some v -> column_keeps s c v = true;
  tab_keys t d : up d -> NoDup (map (fun r => r !! "id") (cells d t));
  tab_select d s st binds sql : up d -> proper schema s st binds -> st = Select (table_of st) (conditions st) ->
    tokens sql = statement_tokens st ->
    lib_prepare lib sql d = true /\ Forall (fun l => NoDup l.*1) (lib_rows lib sql binds d) /\
    map list_to_map (lib_rows lib sql binds d) ≡ₚ List.filter (meets st binds) (cells d (table_of st));
  tab_change d s st binds sql : up d -> proper schema s st binds ->
    match st with Update _ _ _ | Delete _ _ => True | _ => False end -> tokens sql = statement_tokens st ->
    lib_prepare lib sql d = true /\ exists d', lib_write lib sql binds d = (true, d') /\ up d' /\
      cells d' (table_of st) = changed st binds (cells d (table_of st)) /\
      (forall t, t ≠ table_of st -> cells d' t = cells d t) /\
      (forall t m, room d t m -> room d' t m) /\
      lib_changes lib d' = Z.of_nat (length (List.filter (meets st binds) (cells d (table_of st))));
  tab_insert d s t cols binds sql n : up d -> room d t (S n) -> proper schema s (Insert t cols) binds ->
    tokens sql = statement_tokens (Insert t cols) ->
    lib_prepare lib sql d = true /\ exists d', lib_write lib sql binds d = (true, d') /\ up d' /\
      let id := lib_last_insert_rowid lib d' in
      cells d' t = cells d t ++ [new_row s cols binds id] /\
      Forall (fun r => r !! "id" ≠ Some (SInteger id)) (cells d t) /\
      room d' t n /\ (forall t', t' ≠ t -> cells d' t' = cells d t' /\ forall m, room d t' m -> room d' t' m)
}.

(** ** The texts of the connection are such statements *)
Lemma update_sql_tokens table cols sql : update_sql table cols = Ok sql ->
  tokens sql = statement_tokens (Update table (map fst cols) ["id"]).
Proof.
  unfold update_sql. pose proof (set_text_builds cols true) as Hc. destruct (set_text true cols) as [sets|e]; cbn [mbind res_bind]; [|done].
  destruct Hc as [_ Hc]. destruct (ident_cases table) as [[E ->]|[E ->]]; cbn [mbind res_bind mret res_ret]; [|done].
  intros [= <-]. change (tokens ("UPDATE " +:+ ?x)) with ("UPDATE" :: tokens x). rewrite tokens_ident by done.
  change (tokens (" SET " +:+ ?x)) with ("SET" :: tokens x). rewrite Hc by done. cbn [statement_tokens]. by rewrite map_map.
Qed.
Lemma update_if_sql_tokens table guard cols sql : update_if_sql table guard cols = Ok sql ->
  tokens sql = statement_tokens (Update table (map fst cols) ["id"; guard]).
Proof.
  intros E. destruct (write_sql_tokens table guard cols) as [_ H]. rewrite E in H. rewrite H. cbn [statement_tokens].
  by rewrite map_map.
Qed.
Lemma insert_sql_tokens table cols sql : insert_sql table cols = Ok sql ->
  tokens sql = statement_tokens (Insert table (map fst cols)).
Proof.
  intros E. destruct (write_sql_tokens table "id" cols) as [H _]. rewrite E in H. rewrite H. cbn [statement_tokens].
  by rewrite map_map, length_map.
Qed.
Lemma remove_sql_tokens table sql : remove_sql table = Ok sql -> tokens sql = statement_tokens (Delete table ["id"]).
Proof.
  unfold remove_sql. destruct (ident_cases table) as [[E ->]|[E ->]]; cbn; [|done]. intros [= <-].
  change (tokens ("DELETE FROM " +:+ ?x)) with ("DELETE" :: "FROM" :: tokens x). by rewrite tokens_ident.
Qed.
Lemma find_sql_tokens table sql : find_sql table = Ok sql -> tokens sql = statement_tokens (Select table ["id"]).
Proof.
  unfold find_sql. destruct (ident_cases table) as [[E ->]|[E ->]]; cbn; [|done]. intros [= <-].
  change (tokens ("SELECT * FROM " +:+ ?x)) with ("SELECT" :: "*" :: "FROM" :: tokens x). by rewrite tokens_ident.
Qed.
Lemma all_sql_tokens table sql : select_sql table empty_query = Ok sql -> tokens sql = statement_tokens (Select table []).
Proof.
  unfold select_sql. destruct (ident_cases table) as [[E ->]|[E ->]]; cbn; [|done]. intros [= <-].
  change (tokens ("SELECT * FROM " +:+ ?x)) with ("SELECT" :: "*" :: "FROM" :: tokens x). by rewrite tokens_ident.
Qed.
(** With plain names there is a text. *)
Lemma ident_ok name : is_sql_identifier name = true -> ident name = Ok name.
Proof. intros H. unfold ident. by rewrite H. Qed.
Lemma set_text_ok cols first : Forall (fun n => is_sql_identifier n = true) (map fst cols) -> exists text, set_text first cols = Ok text.
Proof.
  intros H. pose proof (set_text_builds cols first) as Hc. destruct (set_text first cols) as [text|e]; [by exists text|].
  destruct Hc as (n & Hn & Hbad & _). rewrite Forall_forall in H. specialize (H n Hn). congruence.
Qed.
Lemma column_names_ok cols first : Forall (fun n => is_sql_identifier n = true) (map fst cols) -> exists text, column_names first cols = Ok text.
Proof.
  intros H. pose proof (column_names_builds cols first) as Hc. destruct (column_names first cols) as [text|e]; [by exists text|].
  destruct Hc as (n & Hn & Hbad & _). rewrite Forall_forall in H. specialize (H n Hn). congruence.
Qed.

(** ** The columns of a row *)
Section columns.
Context `{MapOrder Value}.
Definition bound (cols : list (string * Value)) : list SqlVal := map (fun c => bind_value c.2) cols.

Lemma iter_map_columns (row : Row) :
  NoDup (map fst (iter_map row)) /\
  list_to_map (zip (map fst (iter_map row)) (bound (iter_map row))) = bind_value <$> row.
Proof.
  pose proof (iter_map_nodup row) as Hnd. change ((iter_map row).*1) with (map fst (iter_map row)) in Hnd. split; [done|].
  unfold bound. rewrite zip_with_fmap_l, zip_with_fmap_r, zip_with_diag.
  rewrite <- (iter_map_list_to_map row) at 2. by rewrite <- list_to_map_fmap.
Qed.
Lemma set_columns_delete (row : Row) : set_columns row ≡ₚ map_to_list (delete "id" row).
Proof.
  unfold set_columns. apply NoDup_Permutation.
  - apply NoDup_ListNoDup, List.NoDup_filter, NoDup_ListNoDup. eapply NoDup_fmap_1. exact (iter_map_nodup row).
  - apply NoDup_map_to_list.
  - intros [c v]. etrans; [apply list_elem_of_In|]. rewrite List.filter_In, <- list_elem_of_In, elem_of_iter_map. cbn [fst].
    rewrite negb_true_iff, bool_decide_eq_false. split.
    + intros [Hc Hne]. apply elem_of_map_to_list, lookup_delete_Some. by split; [congruence|].
    + intros Hcv%elem_of_map_to_list%lookup_delete_Some. by destruct Hcv.
Qed.
Lemma set_columns_map (row : Row) :
  NoDup (map fst (set_columns row)) /\ ("id" ∉ map fst (set_columns row)) /\
  list_to_map (zip (map fst (set_columns row)) (bound (set_columns row))) = bind_value <$> delete "id" row.
Proof.
  assert (Hnd : NoDup (map fst (set_columns row))).
  { change (NoDup ((set_columns row).*1)). rewrite set_columns_delete. apply NoDup_fst_map_to_list. }
  split; [done|]. split.
  - change ("id" ∉ (set_columns row).*1). rewrite set_columns_delete. intros ([c v] & -> & Hcv)%list_elem_of_fmap.
    apply elem_of_map_to_list, lookup_delete_Some in Hcv. by destruct Hcv.
  - unfold bound. rewrite zip_with_fmap_l, zip_with_fmap_r, zip_with_diag.
    rewrite <- (list_to_map_to_list (delete "id" row)), <- list_to_map_fmap.
    apply list_to_map_proper.
    + by rewrite <- list_fmap_compose.
    + by rewrite set_columns_delete.
Qed.
End columns.

(** ** The connection on the tables *)
Lemma identifier_c_str n : is_sql_identifier n = true -> c_str n = n.
Proof.
  intros (c & t & -> & Hc & Hall)%is_sql_identifier_iff. apply c_str_id. intros Hin. unfold s_all in Hall. rewrite Forall_forall in Hall.
  by specialize (Hall _ Hin).
Qed.
Lemma read_row_union l acc : NoDup l.*1 -> Forall (fun n => c_str n = n) l.*1 ->
  fold_left (fun row kv => set_cell (c_str kv.1) (read_column kv.2) row) l acc = (read_column <$> list_to_map l) ∪ acc.
Proof.
  revert acc. induction l as [|[n v] l IH]; intros acc Hnd Hc; cbn [fold_left list_to_map foldr fst snd]. { by rewrite fmap_empty, map_empty_union. }
  cbn in Hnd, Hc. apply NoDup_cons in Hnd as [Hn Hnd]. apply Forall_cons in Hc as [Ec Hc]. rewrite IH, Ec by done.
  etrans; [symmetry; apply insert_union_r; rewrite lookup_fmap, not_elem_of_list_to_map_1 by done; done|].
  etrans; [apply insert_union_l|]. f_equal. symmetry. exact (fmap_insert read_column (list_to_map l) n v).
Qed.

Lemma filter_map_eq {A B} (f : A -> B) p q l : Forall (fun x => p (f x) = q x) l -> List.filter p (map f l) = map f (List.filter q l).
Proof. induction 1 as [|x l Hx _ IH]; [done|]. cbn. rewrite Hx, IH. by destruct (q x). Qed.

Lemma union_covers {A B} (f : A -> B) (r : gmap string A) (x : gmap string B) k v : x !! k = Some v ->
  (forall c, c ≠ k -> r !! c = None -> x !! c = None) -> (f <$> delete k r) ∪ x = <[k := v]> (f <$> r).
Proof.
  intros Hk Hx. apply map_eq. intros c. rewrite lookup_union, lookup_fmap. destruct (decide (c = k)) as [->|Hne].
  - by rewrite lookup_delete_eq, lookup_insert_eq, Hk.
  - rewrite lookup_delete_ne, lookup_insert_ne, lookup_fmap by done. destruct (r !! c) as [a|] eqn:E; cbn; [by destruct (x !! c)|].
    by rewrite Hx.
Qed.
Lemma union_absorbed {A} (m m' : gmap string A) k v :
  (forall c, c ≠ k -> m !! c = None -> m' !! c = None) -> <[k := v]> (m ∪ m') = <[k := v]> m.
Proof.
  intros Hm. apply map_eq. intros c. destruct (decide (c = k)) as [->|Hne]; [by rewrite !lookup_insert_eq|].
  rewrite !lookup_insert_ne, lookup_union by done. destruct (m !! c) as [a|] eqn:E; [by destruct (m' !! c)|]. by rewrite Hm.
Qed.

(** A text is bound up to its first NUL, where the memory backend keeps all of it. *)
Lemma text_cut_at_nul s : read_column (bind_value (VStr ("a" +:+ String (chr 0) s))) = VStr "a".
Proof. reflexivity. Qed.

Section tables.
Context {D : Type} (lib : SqliteLib D) (schema : Schema) (up : D -> Prop) (cells : D -> string -> list Cells)
  (room : D -> string -> nat -> Prop) `{!SqlTables lib schema up cells room} `{MapOrder Value} (as_int64 : SqlVal -> Z).

Definition read_cells (r : Cells) : Row := read_column <$> r.
Definition sql_view (d : D) (t : string) : list Row := map read_cells (cells d t).
Definition sql_known (t : string) : Prop := is_Some (schema t).
Definition sql_norm (v : Value) : Value := read_column (bind_value v).
(** Some columns but the key, with values of the columns' kinds; and all of them. *)
Definition sql_columns (s : gmap string Affinity) (r : Row) : Prop :=
  delete "id" r ≠ ∅ /\ forall c v, r !! c = Some v -> c ≠ "id" -> column_keeps s c (bind_value v) = true.
Definition sql_fits (t : string) (r : Row) : Prop :=
  exists s, schema t = Some s /\ sql_columns s r /\ dom (delete "id" r) = dom (delete "id" s).

Lemma cells_id t d r : sql_known t -> up d -> r ∈ cells d t -> exists k, r !! "id" = Some (SInteger k).
Proof.
  intros [s Hs] Hup Hr. destruct (tab_rows t s d r Hup Hs Hr) as [Hd Hk]. destruct (tab_names t s Hs) as (_ & Hid & _ & _).
  assert (H1 : is_Some (r !! "id")) by (apply elem_of_dom; rewrite Hd; apply elem_of_dom; by rewrite Hid).
  destruct H1 as [v Hv]. specialize (Hk _ _ Hv). unfold column_keeps in Hk. rewrite Hid in Hk. destruct v; try done. by eexists.
Qed.
Lemma read_cells_lookup r c : read_cells r !! c = read_column <$> r !! c.
Proof. exact (lookup_fmap read_column r c). Qed.
Lemma is_id_cells id r k : r !! "id" = Some (SInteger k) -> is_id id (read_cells r) = (k =? id).
Proof. intros E. unfold is_id. by rewrite read_cells_lookup, E. Qed.
Lemma view_sole t d : sql_known t -> up d -> sole_keys (sql_view d t).
Proof.
  intros Hk Hup. assert (Hid : Forall (fun r => exists k, r !! "id" = Some (SInteger k)) (cells d t)).
  { apply Forall_forall. intros r Hr. by eapply cells_id. }
  pose proof (tab_keys t d Hup) as Hnd. unfold sql_view. split.
  - rewrite map_map. revert Hnd Hid. induction (cells d t) as [|r rows IH]; intros Hnd Hid; [by constructor|]. cbn [map] in *.
    apply NoDup_cons in Hnd as [Hn Hnd]. apply Forall_cons in Hid as [[k Ek] Hid]. apply NoDup_cons. split; [|by apply IH].
    intros Hin. apply Hn. apply list_elem_of_In, in_map_iff in Hin as (x & Ex & Hx). apply list_elem_of_In, in_map_iff. exists x. split; [|done].
    rewrite Forall_forall in Hid. destruct (Hid x) as [k' Ek']; [by apply list_elem_of_In|].
    rewrite !read_cells_lookup, Ek, Ek' in Ex. rewrite Ek, Ek'. cbn in Ex. congruence.
  - apply Forall_map. eapply Forall_impl; [exact Hid|]. intros r [k Ek]. exists k. cbn. by rewrite read_cells_lookup, Ek.
Qed.

(** *** Reading *)
Lemma rows_read t d ls rows : sql_known t -> up d -> Forall (fun l => NoDup l.*1) ls ->
  map list_to_map ls ≡ₚ rows -> (forall r, r ∈ rows -> r ∈ cells d t) -> map read_row ls ≡ₚ map read_cells rows.
Proof.
  intros [s Hs] Hup Hnd Hp Hin. rewrite <- Hp, map_map. apply Permutation_refl'. apply map_ext_in. intros l Hl. unfold read_row.
  destruct (tab_names t s Hs) as (_ & _ & _ & Hn). destruct (tab_rows t s d (list_to_map l) Hup Hs) as [Hdom _].
  { apply Hin. rewrite <- Hp. apply list_elem_of_In. by apply in_map. }
  rewrite Forall_forall in Hnd. rewrite read_row_union.
  - apply map_union_empty.
  - apply Hnd. by apply list_elem_of_In.
  - apply Forall_forall. intros n Hnl. apply identifier_c_str, Hn, elem_of_dom. rewrite <- Hdom. by rewrite dom_list_to_map_L, elem_of_list_to_set.
Qed.
Lemma proper_select t s conds keys : schema t = Some s -> length keys = length conds ->
  Forall (fun cv => column_keeps s cv.1 cv.2 = true) (zip conds keys) -> proper schema s (Select t conds) keys.
Proof. intros Hs Hl Hk. split; cbn [table_of assigned conditions app length]; (done || by constructor || by apply not_elem_of_nil). Qed.
Lemma sql_all_rows t d : sql_known t -> up d -> exists rows, sql_all lib t d = (Ok rows, d) /\ rows ≡ₚ sql_view d t.
Proof.
  intros Hk Hup. destruct Hk as [s Hs]. destruct (tab_names t s Hs) as (Ht & _ & _ & _).
  unfold sql_all, sql_select, mbind, M_bind, lift_res, gets. destruct (select_sql t empty_query) as [sql|e] eqn:E.
  2:{ unfold select_sql in E. by rewrite ident_ok in E. }
  destruct (tab_select d s (Select t []) [] sql Hup (proper_select t s [] [] Hs eq_refl ltac:(by constructor)) eq_refl (all_sql_tokens t sql E)) as (Hp & Hnd & Hr).
  rewrite Hp. cbn [negb]. eexists. split; [reflexivity|]. apply (rows_read t d); [by eexists|done|done| |done].
  cbn [table_of] in Hr. etrans; [exact Hr|]. rewrite (List.filter_ext _ (fun _ => true)) by done. by rewrite List.filter_true.
Qed.

(** The rows with a text in a column. *)
Lemma text_sql_tokens t col text : is_sql_identifier t = true -> is_sql_identifier col = true ->
  exists sql, select_sql t (text_query col text) = Ok sql /\ tokens sql = statement_tokens (Select t [col]).
Proof.
  intros Ht Hc. unfold select_sql. rewrite (ident_ok t Ht). cbn [mbind res_bind text_query wheres append_wheres w_column]. unfold where_text.
  cbn [w_column]. rewrite (ident_ok col Hc). cbn. eexists. split; [reflexivity|].
  change (limit_text _) with "". rewrite !s_app_nil_r. change (tokens ("SELECT * FROM " +:+ ?x)) with ("SELECT" :: "*" :: "FROM" :: tokens x).
  rewrite tokens_ident by done. change (tokens (" WHERE " +:+ ?x)) with ("WHERE" :: tokens x). by rewrite tokens_ident.
Qed.
Lemma sql_select_text t col text r d : up d -> col ≠ "id" -> c_str text = text -> sql_fits t (set_cell col (VStr text) r) ->
  exists rows, sql_select lib t (text_query col text) d = (Ok rows, d) /\ rows ≡ₚ List.filter (row_ok (text_query col text)) (sql_view d t).
Proof.
  intros Hup Hne Htext (s & Hs & [_ Hk] & _). assert (Hkn : sql_known t) by (by exists s).
  specialize (Hk col (VStr text) (lookup_set_cell _ _ _) Hne). unfold column_keeps in Hk. destruct (s !! col) as [[| |]|] eqn:Ecol; try done.
  destruct (tab_names t s Hs) as (Ht & _ & _ & Hn). destruct (text_sql_tokens t col text Ht (Hn col ltac:(by rewrite Ecol))) as (sql & E & Htok).
  unfold sql_select, mbind, M_bind, lift_res, gets. rewrite E. set (st := Select t [col]).
  assert (Hpr : proper schema s st [SText text]).
  { apply proper_select; [done|done|]. constructor; [|by constructor]. unfold column_keeps. cbn. rewrite Ecol. by apply bool_decide_eq_true. }
  destruct (tab_select d s st _ sql Hup Hpr eq_refl Htok) as (Hp & Hnd & Hr). rewrite Hp. cbn [negb].
  change (bind_wheres (text_query col text)) with [SText (c_str text)]. rewrite Htext. eexists. split; [reflexivity|].
  cbn [table_of st] in Hr. etrans; [apply (rows_read t d _ _ Hkn Hup Hnd Hr)|].
  - intros x [Hx _]%list_elem_of_In%List.filter_In. by apply list_elem_of_In.
  - apply Permutation_refl'. symmetry. apply filter_map_eq, Forall_forall. intros x Hx. unfold row_ok, meets, satisfies. cbn.
    rewrite andb_true_r. unfold clause_ok. cbn. rewrite read_cells_lookup.
    destruct (tab_rows t s d x Hup Hs Hx) as [Hdom Hkinds].
    assert (H1 : is_Some (x !! col)) by (apply elem_of_dom; rewrite Hdom; apply elem_of_dom; by rewrite Ecol).
    destruct H1 as [v Hv]. specialize (Hkinds col v Hv). unfold column_keeps in Hkinds. rewrite Ecol in Hkinds. destruct v as [| |u|]; try done.
    cbn in Hkinds. apply bool_decide_eq_true in Hkinds. rewrite Hv. cbn. by rewrite Hkinds, andb_true_r.
Qed.

(** The condition on the key, and the one on an integer column beside it. *)
Lemma satisfies_id id r k rest keys : r !! "id" = Some (SInteger k) ->
  satisfies ("id" :: rest) (SInteger id :: keys) r = is_id id (read_cells r) && satisfies rest keys r.
Proof. intros E. unfold satisfies. cbn [zip zip_with forallb fst snd]. rewrite E. by rewrite (is_id_cells id r k). Qed.
Lemma meets_id t d st binds id : sql_known t -> up d -> conditions st = ["id"] -> keys_of st binds = [SInteger id] ->
  Forall (fun r => is_id id (read_cells r) = meets st binds r) (cells d t).
Proof.
  intros Hk Hup Hc Hb. apply Forall_forall. intros r Hr. destruct (cells_id t d r Hk Hup Hr) as [k Ek].
  unfold meets. rewrite Hc, Hb, (satisfies_id id r k) by done. by rewrite andb_true_r.
Qed.
Lemma sql_find_row t id d : sql_known t -> up d -> sql_find lib t id d = (Ok (find_row id (sql_view d t)), d).
Proof.
  intros Hk Hup. destruct Hk as [s Hs]. destruct (tab_names t s Hs) as (Ht & Hid & _ & _). assert (Hk : sql_known t) by (by exists s).
  unfold sql_find, mbind, M_bind, lift_res, gets. destruct (find_sql t) as [sql|e] eqn:E.
  2:{ unfold find_sql in E. by rewrite ident_ok in E. }
  set (st := Select t ["id"]). assert (Hpr : proper schema s st [SInteger id]).
  { apply proper_select; [done|done|]. constructor; [|by constructor]. unfold column_keeps. cbn. by rewrite Hid. }
  destruct (tab_select d s st _ sql Hup Hpr eq_refl (find_sql_tokens t sql E)) as (Hp & Hnd & Hr).
  rewrite Hp. cbn [negb]. f_equal. f_equal. cbn [table_of st] in Hr.
  pose proof (rows_read t d _ _ Hk Hup Hnd Hr) as Hrd. specialize (Hrd ltac:(intros x [Hx _]%list_elem_of_In%List.filter_In; by apply list_elem_of_In)).
  rewrite <- (filter_map_eq read_cells (is_id id) (meets st [SInteger id])) in Hrd by (by apply meets_id). fold (sql_view d t) in Hrd.
  destruct (find_row_filtered id (sql_view d t) (view_sole t d Hk Hup)) as [[E1 E2]|(r & E1 & E2)]; rewrite E1, E2 in *.
  - apply Permutation_nil_r in Hrd. by destruct (lib_rows lib sql _ d).
  - apply Permutation_singleton_r in Hrd. destruct (lib_rows lib sql _ d) as [|l ls]; [done|]. cbn in Hrd. congruence.
Qed.

(** *** Writing *)
Lemma changes_rows d s st binds sql : up d -> proper schema s st binds ->
  match st with Update _ _ _ | Delete _ _ => True | _ => False end -> tokens sql = statement_tokens st -> exists d', up d' /\
  write_changes lib sql binds d = (Ok (0 <? Z.of_nat (length (List.filter (meets st binds) (cells d (table_of st))))), d') /\
  cells d' (table_of st) = changed st binds (cells d (table_of st)) /\
  (forall t, t ≠ table_of st -> sql_view d' t = sql_view d t) /\ (forall t m, room d t m -> room d' t m).
Proof.
  intros Hup Hpr Hst Htok. destruct (tab_change d s st binds sql Hup Hpr Hst Htok) as (Hp & d' & Hw & Hup' & Hc & Ho & Hroom & Hn).
  exists d'. split; [done|]. unfold write_changes. rewrite Hp, Hw. cbn [negb snd]. rewrite Hn. split; [done|]. split; [done|]. split; [|done].
  intros t Ht. unfold sql_view. by rewrite Ho.
Qed.

(** The columns an update assigns. *)
Lemma set_columns_in s r c v : sql_columns s r -> (c, v) ∈ set_columns r -> column_keeps s c (bind_value v) = true.
Proof.
  intros [_ Hc] Hin. rewrite set_columns_delete in Hin. apply elem_of_map_to_list, lookup_delete_Some in Hin as [Hne Hin].
  apply (Hc c v); [done|congruence].
Qed.
Lemma set_columns_some r : delete "id" r ≠ ∅ -> map fst (set_columns r) ≠ [].
Proof.
  intros Hne E. apply Hne. apply map_to_list_empty_iff. apply Permutation_nil_r. rewrite <- set_columns_delete.
  by destruct (set_columns r).
Qed.
Lemma bound_length cols : length (bound cols) = length (map fst cols).
Proof. unfold bound. by rewrite !length_map. Qed.
Lemma set_columns_names t s r : schema t = Some s -> sql_columns s r -> exists sets, set_text true (set_columns r) = Ok sets.
Proof.
  intros Hs Hc. destruct (tab_names t s Hs) as (_ & _ & _ & Hn). apply set_text_ok, Forall_map, Forall_forall. intros [c v] Hin. cbn.
  apply Hn. pose proof (set_columns_in s r c v Hc Hin) as Hk. unfold column_keeps in Hk. by destruct (s !! c).
Qed.
Lemma proper_update t s r conds keys : schema t = Some s -> sql_columns s r -> length keys = length conds ->
  Forall (fun cv => column_keeps s cv.1 cv.2 = true) (zip conds keys) ->
  proper schema s (Update t (map fst (set_columns r)) conds) (bound (set_columns r) ++ keys).
Proof.
  intros Hs Hc Hl Hk. destruct (set_columns_map r) as (Hnd & Hid & _). split; cbn [table_of assigned conditions]; try done.
  - rewrite length_app, bound_length. lia.
  - rewrite zip_with_app by (by rewrite bound_length). apply Forall_app. split; [|done].
    unfold bound. rewrite zip_with_fmap_l, zip_with_fmap_r, zip_with_diag. apply Forall_map, Forall_forall. intros [c v] Hin.
    by apply (set_columns_in s r).
  - apply set_columns_some, Hc.
Qed.
(** A row with the columns assigned, read back. *)
Lemma read_assign r (x : Cells) :
  read_cells (assign (map fst (set_columns r)) (bound (set_columns r)) x) = (sql_norm <$> delete "id" r) ∪ read_cells x.
Proof.
  destruct (set_columns_map r) as (_ & _ & E). unfold assign. rewrite E. unfold read_cells.
  etrans; [apply map_fmap_union|]. f_equal. exact (eq_sym (map_fmap_compose bind_value read_column (delete "id" r))).
Qed.
Lemma update_rows t s r conds keys sql d : schema t = Some s -> sql_columns s r -> up d -> length keys = length conds ->
  Forall (fun cv => column_keeps s cv.1 cv.2 = true) (zip conds keys) ->
  tokens sql = statement_tokens (Update t (map fst (set_columns r)) conds) -> exists d', up d' /\
  write_changes lib sql (bound (set_columns r) ++ keys) d = (Ok (0 <? Z.of_nat (length (List.filter (satisfies conds keys) (cells d t)))), d') /\
  sql_view d' t = map (fun x => if satisfies conds keys x then (sql_norm <$> delete "id" r) ∪ read_cells x else read_cells x) (cells d t) /\
  (forall t', t' ≠ t -> sql_view d' t' = sql_view d t') /\ (forall t' m, room d t' m -> room d' t' m).
Proof.
  intros Hs Hc Hup Hl Hk Htok. set (st := Update t (map fst (set_columns r)) conds).
  destruct (changes_rows d s st _ sql Hup (proper_update t s r conds keys Hs Hc Hl Hk) I Htok) as (d' & Hup' & E & Hv & Ho).
  assert (Ek : keys_of st (bound (set_columns r) ++ keys) = keys) by (unfold keys_of, st; cbn [assigned]; by rewrite <- bound_length, drop_app_length).
  assert (Ev : new_values st (bound (set_columns r) ++ keys) = bound (set_columns r)) by (unfold new_values, st; cbn [assigned]; by rewrite <- bound_length, take_app_length).
  unfold meets in E. rewrite Ek in E. exists d'. split; [done|]. split; [exact E|]. split; [|done].
  unfold sql_view. cbn [table_of st] in Hv. rewrite Hv. cbn [changed st]. rewrite map_map. apply map_ext. intros x.
  unfold meets. rewrite Ek, Ev. cbn [conditions st]. destruct (satisfies conds keys x); [apply read_assign|done].
Qed.

(** With every column assigned, what was there before does not show. *)
Lemma merge_full t d r x id : sql_known t -> up d -> sql_fits t r -> x ∈ cells d t -> is_id id (read_cells x) = true ->
  (sql_norm <$> delete "id" r) ∪ read_cells x = set_cell "id" (VInt id) (sql_norm <$> r).
Proof.
  intros Hk Hup (s & Hs & Hc & Hd) Hx Hid. destruct (cells_id t d x Hk Hup Hx) as [k Ek].
  rewrite (is_id_cells id x k) in Hid by done. bools. subst k. apply union_covers; [by rewrite read_cells_lookup, Ek|].
  intros c Hne Hr. rewrite read_cells_lookup. destruct (tab_rows t s d x Hup Hs Hx) as [Hdom _].
  destruct (x !! c) as [v|] eqn:Exc; [|done]. exfalso. assert (Hin : c ∈ dom x) by (apply elem_of_dom; by rewrite Exc).
  rewrite Hdom in Hin. assert (Hin2 : c ∈ dom (delete "id" s)) by (rewrite dom_delete_L; apply elem_of_difference; by rewrite elem_of_singleton).
  rewrite <- Hd in Hin2. apply elem_of_dom in Hin2 as [w Hw]. apply lookup_delete_Some in Hw as [_ Hw]. unfold Row in *. congruence.
Qed.
Lemma update_replaces t s r id new conds keys sql d : schema t = Some s -> sql_fits t r -> up d -> length keys = length conds ->
  Forall (fun cv => column_keeps s cv.1 cv.2 = true) (zip conds keys) ->
  tokens sql = statement_tokens (Update t (map fst (set_columns r)) conds) ->
  (forall x, x ∈ cells d t -> satisfies conds keys x = taken id new (read_cells x)) ->
  (forall x y, new x = Some y -> y = sql_norm <$> r) -> exists d', up d' /\
  write_changes lib sql (bound (set_columns r) ++ keys) d = (Ok (bool_decide (replace_row id new (sql_view d t) ≠ None)), d') /\
  sql_view d' t = default (sql_view d t) (replace_row id new (sql_view d t)) /\
  (forall t', t' ≠ t -> sql_view d' t' = sql_view d t') /\ (forall t' m, room d t' m -> room d' t' m).
Proof.
  intros Hs Hf Hup Hl Hk Htok Hsat Hnew. assert (Hkn : sql_known t) by (by exists s).
  assert (Hc : sql_columns s r) by (destruct Hf as (s' & Hs' & Hc & _); congruence).
  destruct (update_rows t s r conds keys sql d Hs Hc Hup Hl Hk Htok) as (d' & Hup' & E & Hv & Ho).
  destruct (replace_row_map id new (sql_view d t) (view_sole t d Hkn Hup)) as [E1 E2].
  exists d'. split; [done|]. rewrite E1, E2. split; [|split; [|done]].
  - rewrite E. unfold sql_view. rewrite (filter_map_eq read_cells _ (satisfies conds keys)); [by rewrite length_map|].
    apply Forall_forall. intros x Hx. by rewrite Hsat.
  - rewrite Hv. unfold sql_view. rewrite map_map. apply map_ext_in. intros x Hx%list_elem_of_In. rewrite Hsat by done.
    unfold taken, replaced. destruct (is_id id (read_cells x)) eqn:Hi; [|done]. cbn [andb].
    destruct (new (read_cells x)) as [y|] eqn:En; [|by rewrite bool_decide_eq_false_2 by (intros Hn; by apply Hn)].
    rewrite bool_decide_eq_true_2 by done. rewrite (Hnew _ _ En). by apply (merge_full t d).
Qed.
Lemma sql_update_row t id r d : up d -> sql_fits t r -> exists d', up d' /\
  sql_update lib t id r d = (Ok (bool_decide (find_row id (sql_view d t) ≠ None)), d') /\
  sql_view d' t = default (sql_view d t) (replace_row id (fun _ => Some (sql_norm <$> r)) (sql_view d t)) /\
  (forall t', t' ≠ t -> sql_view d' t' = sql_view d t') /\ (forall t' m, room d t' m -> room d' t' m).
Proof.
  intros Hup Hf. destruct (Hf) as (s & Hs & Hc & _). destruct (tab_names t s Hs) as (Ht & Hid & _ & _).
  unfold sql_update, mbind, M_bind, lift_res. destruct (set_columns_names t s r Hs Hc) as [sets Es].
  destruct (update_sql t (set_columns r)) as [sql|e] eqn:E.
  2:{ unfold update_sql in E. rewrite Es in E. cbn in E. by rewrite ident_ok in E. }
  rewrite (find_row_replaced id (sql_norm <$> r)).
  apply (update_replaces t s r id _ ["id"] [SInteger id] sql d Hs Hf Hup eq_refl).
  - constructor; [|by constructor]. unfold column_keeps. cbn. by rewrite Hid.
  - by apply update_sql_tokens.
  - intros x Hx. destruct (cells_id t d x ltac:(by exists s) Hup Hx) as [k Ek]. rewrite (satisfies_id id x k) by done.
    unfold taken. by rewrite bool_decide_eq_true_2.
  - congruence.
Qed.
Lemma sql_update_if_row t id col z r d : up d -> sql_fits t r -> col ≠ "id" -> sql_fits t (set_cell col (VInt z) r) ->
  let guard := cas_guard col (VInt z) (sql_norm <$> r) in exists d', up d' /\
  sql_update_if lib t id col (VInt z) r d = (Ok (bool_decide (replace_row id guard (sql_view d t) ≠ None)), d') /\
  sql_view d' t = default (sql_view d t) (replace_row id guard (sql_view d t)) /\
  (forall t', t' ≠ t -> sql_view d' t' = sql_view d t') /\ (forall t' m, room d t' m -> room d' t' m).
Proof.
  intros Hup Hf Hne Hg. cbn zeta. destruct (Hf) as (s & Hs & Hc & _). destruct (tab_names t s Hs) as (Ht & Hid & _ & Hn).
  assert (Hcol : column_keeps s col (SInteger z) = true).
  { destruct Hg as (s' & Hs' & [_ Hg] & _). assert (s' = s) as -> by congruence. apply (Hg col (VInt z)); [|done]. apply lookup_set_cell. }
  unfold column_keeps in Hcol. destruct (s !! col) as [[| |]|] eqn:Ecol; try done.
  unfold sql_update_if, mbind, M_bind, lift_res. destruct (set_columns_names t s r Hs Hc) as [sets Es].
  destruct (update_if_sql t col (set_columns r)) as [sql|e] eqn:E.
  2:{ unfold update_if_sql in E. rewrite Es in E. cbn in E. rewrite (ident_ok t Ht) in E. cbn in E. rewrite (ident_ok col) in E; [done|]. apply Hn. by rewrite Ecol. }
  apply (update_replaces t s r id _ ["id"; col] [SInteger id; SInteger z] sql d Hs Hf Hup eq_refl).
  - constructor; [|constructor; [|by constructor]]; unfold column_keeps; cbn; by rewrite ?Hid, ?Ecol.
  - by apply update_if_sql_tokens.
  - intros x Hx. destruct (cells_id t d x ltac:(by exists s) Hup Hx) as [k Ek]. rewrite (satisfies_id id x k) by done.
    unfold taken. f_equal. unfold cas_guard. rewrite read_cells_lookup.
    destruct (tab_rows t s d x Hup Hs Hx) as [Hdom Hk].
    assert (H1 : is_Some (x !! col)) by (apply elem_of_dom; rewrite Hdom; apply elem_of_dom; by rewrite Ecol).
    destruct H1 as [v Hv]. specialize (Hk col v Hv). unfold column_keeps in Hk. rewrite Ecol in Hk. destruct v as [y| | |]; try done.
    unfold satisfies. cbn. rewrite Hv. cbn. rewrite andb_true_r. by destruct (y =? z).
  - intros x y. unfold cas_guard. destruct (x !! col); [|done]. destruct (value_eqb _ _); [|done]. congruence.
Qed.
Lemma sql_remove_row t id d : sql_known t -> up d -> exists d', up d' /\
  sql_remove lib t id d = (Ok (bool_decide (find_row id (sql_view d t) ≠ None)), d') /\
  sql_view d' t = List.filter (fun r => negb (is_id id r)) (sql_view d t) /\
  (forall t', t' ≠ t -> sql_view d' t' = sql_view d t') /\ (forall t' m, room d t' m -> room d' t' m).
Proof.
  intros Hk Hup. destruct (Hk) as [s Hs]. destruct (tab_names t s Hs) as (Ht & Hid & _ & _).
  unfold sql_remove, mbind, M_bind, lift_res. destruct (remove_sql t) as [sql|e] eqn:E.
  2:{ unfold remove_sql in E. by rewrite ident_ok in E. }
  set (st := Delete t ["id"]). assert (Hpr : proper schema s st [SInteger id]).
  { split; cbn; try done; [|by constructor|by apply not_elem_of_nil]. constructor; [|by constructor]. unfold column_keeps. cbn. by rewrite Hid. }
  destruct (changes_rows d s st _ sql Hup Hpr I (remove_sql_tokens t sql E)) as (d' & Hup' & Er & Hv & Ho).
  pose proof (meets_id t d st [SInteger id] id Hk Hup eq_refl eq_refl) as Hm.
  exists d'. split; [done|]. split; [|split; [|done]].
  - rewrite Er. cbn [table_of st]. do 2 f_equal. rewrite <- (length_map read_cells), <- (filter_map_eq read_cells (is_id id)) by done.
    fold (sql_view d t). by destruct (find_row_filtered id _ (view_sole t d Hk Hup)) as [[-> ->]|(r & -> & ->)].
  - unfold sql_view. cbn [table_of st changed] in Hv. rewrite Hv. symmetry. apply filter_map_eq.
    eapply Forall_impl; [exact Hm|]. cbn. intros x Hx. by rewrite Hx.
Qed.
(** A new row: the columns given, the defaults in the others. *)
Lemma sql_insert_row t s r d n : schema t = Some s -> up d -> room d t (S n) -> sql_columns s r -> r !! "id" = None ->
  exists id d', sql_insert lib t r d = (Ok id, d') /\ up d' /\ find_row id (sql_view d t) = None /\
  sql_view d' t = sql_view d t ++ [set_cell "id" (VInt id) ((sql_norm <$> r) ∪ (read_column ∘ default_cell <$> s))] /\
  room d' t n /\ (forall t', t' ≠ t -> sql_view d' t' = sql_view d t' /\ forall m, room d t' m -> room d' t' m).
Proof.
  intros Hs Hup Hroom Hc Hno. assert (Hk : sql_known t) by (by exists s). destruct (tab_names t s Hs) as (Ht & _ & _ & Hn).
  assert (Hin : forall c v, (c, v) ∈ iter_map r -> column_keeps s c (bind_value v) = true).
  { intros c v Hin%elem_of_iter_map. apply Hc; [done|]. intros ->. unfold Row in *. congruence. }
  assert (Hkeys : Forall (fun n => is_sql_identifier n = true) (map fst (iter_map r))).
  { apply Forall_map, Forall_forall. intros [c v] Hcv. cbn. apply Hn. pose proof (Hin c v Hcv) as Hkp. unfold column_keeps in Hkp. by destruct (s !! c). }
  unfold sql_insert, mbind, M_bind, lift_res. destruct (column_names_ok (iter_map r) true Hkeys) as [names En].
  destruct (insert_sql t (iter_map r)) as [sql|e] eqn:E.
  2:{ unfold insert_sql in E. rewrite En in E. cbn in E. by rewrite ident_ok in E. }
  destruct (iter_map_columns r) as [Hnd Ebind].
  assert (Hpr : proper schema s (Insert t (map fst (iter_map r))) (bound (iter_map r))).
  { split; cbn [table_of assigned conditions]; try done.
    - rewrite bound_length. cbn. lia.
    - rewrite app_nil_r. unfold bound. rewrite zip_with_fmap_l, zip_with_fmap_r, zip_with_diag. apply Forall_map, Forall_forall.
      intros [c v] Hcv. by apply Hin.
    - intros Hid. apply list_elem_of_In, in_map_iff in Hid as ([c v] & Ec & Hcv). cbn in Ec. subst c. apply list_elem_of_In, elem_of_iter_map in Hcv. unfold Row in *. congruence.
    - intros Hemp. apply Hc. apply map_empty. intros c. destruct (delete "id" r !! c) as [v|] eqn:Ec; [|done]. apply lookup_delete_Some in Ec as [_ Ec].
      apply elem_of_iter_map in Ec. destruct (iter_map r); [by apply not_elem_of_nil in Ec|done]. }
  destruct (tab_insert d s t _ _ sql n Hup Hroom Hpr (insert_sql_tokens t _ sql E)) as (Hp & d' & Hw & Hup' & Hcells & Hfresh & Hroom' & Ho).
  unfold run_insert. rewrite Hp. cbn [negb]. change (map (fun c => bind_value c.2) (iter_map r)) with (bound (iter_map r)). rewrite Hw.
  set (id := lib_last_insert_rowid lib d') in *. exists id, d'. split; [done|]. split; [done|]. split; [|split; [|split; [done|]]].
  - apply find_row_None, forallb_forall. intros y Hy. apply in_map_iff in Hy as (x & <- & Hx%list_elem_of_In).
    destruct (cells_id t d x Hk Hup Hx) as [k Ek]. rewrite (is_id_cells id x k) by done. apply negb_true_iff, Z.eqb_neq. intros ->.
    rewrite Forall_forall in Hfresh. by apply (Hfresh x Hx).
  - unfold sql_view. rewrite Hcells, map_app. cbn [map]. do 2 f_equal. unfold new_row, assign. rewrite Ebind.
    etrans; [exact (fmap_insert read_column _ "id" (SInteger id))|]. cbn [read_column]. unfold set_cell. f_equal.
    etrans; [apply map_fmap_union|]. f_equal; [exact (eq_sym (map_fmap_compose bind_value read_column r))|exact (eq_sym (map_fmap_compose default_cell read_column s))].
  - intros t' Hne. destruct (Ho t' Hne) as [E' Hr]. split; [|done]. unfold sql_view. by rewrite E'.
Qed.

(** What is in the tables fits them. *)
Lemma view_fits t d : sql_known t -> up d -> Forall (sql_fits t) (sql_view d t).
Proof.
  intros [s Hs] Hup. destruct (tab_names t s Hs) as (_ & _ & Hsome & _). apply Forall_map, Forall_forall. intros x Hx.
  destruct (tab_rows t s d x Hup Hs Hx) as [Hdom Hk].
  assert (Hd : dom (delete "id" (read_cells x)) = dom (delete "id" s)).
  { etrans; [apply dom_delete_L|]. etrans; [|symmetry; apply dom_delete_L]. f_equal. etrans; [apply dom_fmap_L|done]. }
  exists s. split; [done|]. split; [|done]. split.
  - intros E. apply Hsome. apply dom_empty_inv_L. rewrite <- Hd, E. done.
  - intros c v Hv _. rewrite read_cells_lookup in Hv. destruct (x !! c) as [w|] eqn:Ew; [|done]. injection Hv as <-.
    specialize (Hk c w Ew). unfold column_keeps in *. destruct (s !! c) as [a|]; [|done].
    destruct a, w as [| |u|]; try done. cbn in *. apply bool_decide_eq_true in Hk. by rewrite !Hk, bool_decide_eq_true_2.
Qed.
Lemma view_stable t d : sql_known t -> up d -> Forall (fun r => sql_norm <$> r = r) (sql_view d t).
Proof.
  intros [s Hs] Hup. apply Forall_map, Forall_forall. intros x Hx. destruct (tab_rows t s d x Hup Hs Hx) as [_ Hk].
  etrans; [exact (eq_sym (map_fmap_compose read_column sql_norm x))|]. apply map_fmap_ext. intros c v Hv. specialize (Hk c v Hv).
  unfold column_keeps in Hk. destruct (s !! c) as [a|]; [|done]. destruct a, v as [| |u|]; try done. cbn in Hk.
  apply bool_decide_eq_true in Hk. unfold sql_norm. cbn. by rewrite !Hk.
Qed.
Lemma defaults_covered s (r : gmap string Value) id : dom (delete "id" r) = dom (delete "id" s) ->
  set_cell "id" (VInt id) ((sql_norm <$> r) ∪ (read_column ∘ default_cell <$> s)) = set_cell "id" (VInt id) (sql_norm <$> r).
Proof.
  intros Hd. apply union_absorbed. intros c Hne E.
  assert (Er : r !! c = None) by exact (proj1 (fmap_None sql_norm (r !! c)) (eq_trans (eq_sym (lookup_fmap sql_norm r c)) E)).
  rewrite lookup_fmap. apply fmap_None, not_elem_of_dom. intros Hin.
  assert (Hin2 : c ∈ dom (delete "id" s)) by (rewrite dom_delete_L; apply elem_of_difference; by rewrite elem_of_singleton).
  rewrite <- Hd in Hin2. apply elem_of_dom in Hin2 as [w Hw]. apply lookup_delete_Some in Hw as [_ Hw]. congruence.
Qed.

(** The laws of [TableLaws] hold of the connection. *)
#[export] Instance sqlite_table_laws : TableLaws (SqliteConnection lib as_int64) up sql_view room sql_known sql_fits sql_norm.
Proof.
  split; cbn [insert find all select update remove update_if SqliteConnection].
  - done.
  - intros s Hs. unfold sql_norm. cbn. by rewrite !Hs.
  - by intros [].
  - apply tab_fewer.
  - intros t d Hk Hup. by apply view_fits.
  - intros t d Hk Hup. by apply view_stable.
  - apply view_sole.
  - apply sql_all_rows.
  - apply sql_find_row.
  - intros t col s r d _ Hup. by apply (sql_select_text t col s r).
  - intros t r d n _ Hup Hroom (s & Hs & Hc & Hd) Hno.
    destruct (sql_insert_row t s r d n Hs Hup Hroom Hc Hno) as (id & d' & E & Hup' & Hf & Hv & Ho).
    exists id, d'. do 3 (split; [done|]). split; [|done]. rewrite Hv. do 2 f_equal. by apply defaults_covered.
  - intros t id r d _. apply sql_update_row.
  - intros t id col z r d _. apply sql_update_if_row.
  - apply sql_remove_row.
Qed.

(** C20: The SQLite backend keeps the promises of the memory backend that its tables allow.
    Whatever the library is, as long as it gives the statements their SQL meaning, the
    connection on a database its migrations made finds, lists, inserts, replaces, claims and
    removes rows just as the in-memory table would, for rows that name every column: each
    text reads as the statement meant, its marks and the bound values line up, and the
    columns come back in their names and kinds.  So the queue's workers exclude each other
    on SQLite as well. *)
Theorem sqlite_tables :
  TableLaws (SqliteConnection lib as_int64) up sql_view room sql_known sql_fits sql_norm /\
  (QueueTables sql_known sql_fits -> forall W (q : DbQueue D W) (now : Z) (workers : nat) s p,
     0 < retry_after_ q -> now ≠ 0 -> quiet q -> up s.1 ->
     rtc (pool_move (SqliteConnection lib as_int64) room sql_known sql_fits q now) (replicate workers Fetch, s) p -> exclusive p).
Proof.
  split; [apply sqlite_table_laws|]. intros Hq W q now workers s p Hr Hn Hquiet Hup Hsteps.
  by apply (passes_exclusive (SqliteConnection lib as_int64) up sql_view room sql_known sql_fits sql_norm q now Hr Hn Hquiet workers s).
Qed.
End tables.
