(* ===== verification/Facade.v ===== *)
(** * facade.hpp: static proxies over the container

    A facade reads a process-global pointer to a container; [P] is the type of such
    pointers, and the global lives in the state [W] of the process. *)
From S2P Require Import Prelude CppString Container.

Section facade.
Context {W P : Type} (app : W -> option P) (set_app : option P -> W -> W) (resolve : P -> Key -> M W Any).

Definition unset_facade : exn := StdExn "Facade used before set_container() — no container bound".
Definition set_container (c : P) : M W unit := modify (set_app (Some c)).
Definition clear_container : M W unit := modify (set_app None).
Definition resolve_root (Service : Key) : M W Any :=
  c ← gets app;
  match c with
  | None => throw unset_facade
  | Some c => resolve c Service
  end.

(** A facade is the container it was last pointed at, and refuses to work without one. *)
Lemma facade_resolves (c : P) (T : Key) (w : W) :
  (forall p w, app (set_app p w) = p) ->
  (_ ← set_container c; resolve_root T) w = resolve c T (set_app (Some c) w) /\
  (_ ← clear_container; resolve_root T) w = (Throw unset_facade, set_app None w).
Proof.
  intros H. unfold set_container, clear_container, resolve_root, gets, modify, mbind, M_bind. by rewrite !H.
Qed.
End facade.
