(* ===== verification/BlogModels.v ===== *)
(** * examples/blog: the models, their mappers and the schema

    The three persistent models of the example application with the mappers the
    repositories use, and the migrations that create their tables. *)
From S2P Require Import Prelude CppString CppNum Database Tables Repository Migration.

Local Open Scope Z_scope.

(** ** Models *)
Record Article : Type := mkArticle { a_id : Z; title : string; views : Z; published : bool }.
Record Author : Type := mkAuthor { au_id : Z; au_name : string; email : string; article_count : Z }.
Record Comment : Type := mkComment { co_id : Z; article_id : Z; co_body : string; approved : bool; deleted : bool }.
#[export] Instance Article_eq_dec : EqDecision Article.
Proof. solve_decision. Defined.

Definition article_hydrate (r : Row) : res Article :=
  id ← get_int r "id"; t ← get_string r "title"; v ← get_int r "views"; p ← get_bool r "published";
  mret (mkArticle id t v p).
Definition article_to_row (a : Article) : Row :=
  set_cell "published" (VBool (published a)) (set_cell "views" (VInt (views a))
    (set_cell "title" (VStr (title a)) (set_cell "id" (VInt (a_id a)) ∅))).
Definition article_set_id (id : Z) (a : Article) : Article := mkArticle id (title a) (views a) (published a).
Definition ArticleMapper : Mapper Article :=
  mkMapper "articles" article_hydrate article_to_row a_id article_set_id.

Definition author_hydrate (r : Row) : res Author :=
  id ← get_int r "id"; n ← get_string r "name"; e ← get_string r "email"; c ← get_int r "article_count";
  mret (mkAuthor id n e c).
Definition author_to_row (a : Author) : Row :=
  set_cell "article_count" (VInt (article_count a)) (set_cell "email" (VStr (email a))
    (set_cell "name" (VStr (au_name a)) (set_cell "id" (VInt (au_id a)) ∅))).
Definition author_set_id (id : Z) (a : Author) : Author := mkAuthor id (au_name a) (email a) (article_count a).
Definition AuthorMapper : Mapper Author :=
  mkMapper "authors" author_hydrate author_to_row au_id author_set_id.

Definition comment_hydrate (r : Row) : res Comment :=
  id ← get_int r "id"; ai ← get_int r "article_id"; b ← get_string r "body";
  ap ← get_bool r "approved"; d ← get_bool r "deleted";
  mret (mkComment id ai b ap d).
Definition comment_to_row (c : Comment) : Row :=
  set_cell "deleted" (VBool (deleted c)) (set_cell "approved" (VBool (approved c)) (set_cell "body" (VStr (co_body c))
    (set_cell "article_id" (VInt (article_id c)) (set_cell "id" (VInt (co_id c)) ∅)))).
Definition comment_set_id (id : Z) (c : Comment) : Comment :=
  mkComment id (article_id c) (co_body c) (approved c) (deleted c).
Definition CommentMapper : Mapper Comment :=
  mkMapper "comments" comment_hydrate comment_to_row co_id comment_set_id.

(** ** The schema *)
Section schema.
Context {D : Type} (conn : Connection D).

Definition CreateArticles : Migration D :=
  mkMigration "2026_01_01_000001_create_articles"
    (schema_create conn "articles" (fun t => bp_boolean "published" (bp_integer "views" (bp_string "title" (bp_id t)))))
    (drop_if_exists conn "articles").
Definition CreateAuthors : Migration D :=
  mkMigration "2026_01_01_000002_create_authors"
    (schema_create conn "authors" (fun t => bp_integer "article_count" (bp_string "email" (bp_string "name" (bp_id t)))))
    (drop_if_exists conn "authors").
Definition CreateComments : Migration D :=
  mkMigration "2026_01_01_000003_create_comments"
    (schema_create conn "comments" (fun t =>
      bp_boolean "deleted" (bp_boolean "approved" (bp_string "body" (bp_integer "article_id" (bp_id t))))))
    (drop_if_exists conn "comments").
Definition CreateQueueTables : Migration D :=
  mkMigration "2026_07_01_000004_create_queue_tables"
    (_ ← schema_create conn "jobs" (fun t =>
       bp_integer "reserved_at" (bp_integer "available_at" (bp_integer "attempts"
         (bp_string "payload" (bp_string "job" (bp_id t))))));
     _ ← schema_create conn "failed_jobs" (fun t => bp_string "error" (bp_string "payload" (bp_string "job" (bp_id t))));
     schema_create conn "schedule_runs" (fun t => bp_integer "last_run" (bp_string "name" (bp_id t))))
    (_ ← drop_if_exists conn "jobs"; _ ← drop_if_exists conn "failed_jobs"; drop_if_exists conn "schedule_runs").
Definition app_migrations : list (Migration D) := [CreateArticles; CreateAuthors; CreateComments; CreateQueueTables].
End schema.

(** ** Rows and models *)
(** A mapper loses nothing: a model's row, under whatever id the table gave it, hydrates
    to the model with that id, and the row has no column outside [columns]. *)
Record faithful {T} (mp : Mapper T) : Prop := {
  hydrate_row x : hydrate mp (to_row mp x) = Ok x;
  hydrate_inserted x id : hydrate mp (set_cell "id" (VInt id) (delete "id" (to_row mp x))) = Ok (set_id mp id x)
}.
Ltac mapper_faithful :=
  split; intros x; [|intros id]; destruct x; cbn -[insert delete lookup];
  unfold set_cell, get_int, get_string, get_bool, row_at;
  repeat (rewrite ?lookup_insert_eq, ?lookup_insert_ne, ?lookup_delete_ne by done; cbn -[insert delete lookup]); reflexivity.
Lemma article_faithful : faithful ArticleMapper.
Proof. mapper_faithful. Qed.
Lemma author_faithful : faithful AuthorMapper.
Proof. mapper_faithful. Qed.
Lemma comment_faithful : faithful CommentMapper.
Proof. mapper_faithful. Qed.

Section repositories.
Context {D T : Type} (conn : Connection D) ok view room `{!ConnectionLaws conn ok view room} (mp : Mapper T).

(** What a repository stores is what it gives back: [insert] returns the model with its
    new id, [find] of that id returns the same, [all] has it behind the models that were
    there, and no other table changed. *)
Lemma repo_insert_spec (x : T) (d : D) :
  faithful mp -> ok d -> room d (table mp) ->
  exists id d', repo_insert conn mp x d = (Ok (set_id mp id x), d') /\ ok d' /\
    repo_find conn mp id d' = (Ok (Some (set_id mp id x)), d') /\
    (forall xs, repo_all conn mp d = (Ok xs, d) -> repo_all conn mp d' = (Ok (xs ++ [set_id mp id x]), d')) /\
    (forall t, t ≠ table mp -> view d' t = view d t).
Proof.
  intros Hmp Hok Hroom.
  destruct (law_insert (table mp) (delete "id" (to_row mp x)) d Hok Hroom) as (id & d' & E & Hok' & Hf & Hv & Ho).
  exists id, d'. unfold repo_insert, repo_find, repo_all, mbind, M_bind in *. rewrite E. split; [done|]. split; [done|].
  rewrite law_find, !law_all by done. rewrite Hv, find_row_app, Hf. cbn [find_row].
  rewrite is_id_set. unfold lift_res, mret, M_ret in *. rewrite (hydrate_inserted mp Hmp). split; [done|]. split; [|done].
  intros xs [= Hall]. f_equal. apply hydrate_all_Forall2. apply hydrate_all_Forall2 in Hall.
  apply Forall2_app; [done|]. constructor; [|constructor]. apply (hydrate_inserted mp Hmp).
Qed.
End repositories.

(** ** Articles on any backend *)
(** The table of the articles is there, with a column for each member. *)
Class ArticleTable (known : string -> Prop) (fits : string -> Row -> Prop) : Prop := {
  at_known : known "articles";
  at_row a : fits "articles" (delete "id" (article_to_row a))
}.
#[export] Instance any_articles : ArticleTable (fun _ => True) (fun _ _ => True).
Proof. done. Qed.
Section articles.
Context {D : Type} (conn : Connection D) ok view room known fits norm `{!TableLaws conn ok view room known fits norm}.
Context `{!ArticleTable known fits}.

(** An article is read back as it was written, when its title is. *)
Lemma article_read a id : norm (VStr (title a)) = VStr (title a) ->
  article_hydrate (set_cell "id" (VInt id) (norm <$> delete "id" (article_to_row a))) = Ok (article_set_id id a).
Proof.
  intros Ht. assert (E : delete "id" (article_to_row a) = set_cell "published" (VBool (published a)) (set_cell "views" (VInt (views a)) (set_cell "title" (VStr (title a)) ∅))).
  { reflexivity. }
  rewrite E, !fmap_set_cell, tl_norm_int, Ht. unfold article_hydrate, get_int, get_string, get_bool, row_at.
  repeat (rewrite ?lookup_set_cell, ?lookup_set_cell_ne by done). cbn [mbind res_bind mret res_ret value_int value_string].
  by rewrite tl_norm_bool.
Qed.
(** [insert] returns the article with its new id, and [find] of that id the same. *)
Lemma article_insert_find a d n : ok d -> room d "articles" (S n) -> norm (VStr (title a)) = VStr (title a) ->
  exists id d', repo_insert conn ArticleMapper a d = (Ok (article_set_id id a), d') /\ ok d' /\
    repo_find conn ArticleMapper id d' = (Ok (Some (article_set_id id a)), d').
Proof.
  intros Hok Hroom Ht.
  destruct (tl_insert "articles" (delete "id" (article_to_row a)) d n at_known Hok Hroom (at_row a) (lookup_delete_eq _ _)) as (id & d' & E & Hok' & Hf & Hv & _).
  exists id, d'. unfold repo_insert, repo_find, mbind, M_bind. cbn [table to_row hydrate set_id ArticleMapper]. rewrite E. split; [done|]. split; [done|].
  rewrite tl_find by (done || apply at_known). rewrite Hv, find_row_app, Hf. cbn [find_row]. rewrite is_id_set.
  unfold lift_res, mret, M_ret. by rewrite article_read.
Qed.
End articles.
