(* ===== verification/Blog.v ===== *)
(** * examples/blog: the example application

    Services, controllers, middleware, Livewire components, service providers and the
    wiring of [bootstrap].  The state of the process is [AppState]: the session store, the
    cache, the clock and the random source, the container, the connections it has built
    (by object identity, so that a controller works on the connection it was built with)
    and what was logged.  [fuel] bounds the recursions that need it, resolution, rendering
    and mounting; running out of it is an exception here, and the theorems give what is
    enough. *)
From S2P Require Import Prelude CppString CppNum Livewire View Container Facade Database Repository Migration BlogModels Session Cache Auth HttpAuth Router Kernel Pipeline Http.

Local Open Scope Z_scope.

Definition json_message (key message : string) : string := "{" +:+ dq key +:+ ":" +:+ dq message +:+ "}".

(** ** Services and middleware *)
Definition user_service_find (id : string) : string :=
  if bool_decide (id = "42") then "{" +:+ dq "id" +:+ ":42," +:+ dq "name" +:+ ":" +:+ dq "Ada Lovelace" +:+ "}" else "".

Section middleware.
Context {W : Type} (log : string -> M W unit).

Definition logging_mw : Middleware W := fun next =>
  (req ← on_request (fun r => r);
   _ ← in_app (log ("[log] --> " +:+ method req +:+ " " +:+ path req));
   res ← (next : M (Request * W) Response);
   _ ← in_app (log ("[log] <-- " +:+ to_string (status res)));
   mret res
   : M (Request * W) Response).

Definition require_token (expected : string) : Middleware W := fun next =>
  (req ← on_request (fun r => r);
   if bool_decide (headers req !! "Authorization" = Some expected) then (next : M (Request * W) Response)
   else mret (response_json (json_message "error" "unauthorized") 401)
   : M (Request * W) Response).

(** [req.route_params[key]]. *)
Definition route_param (key : string) : M (Request * W) string :=
  p ← on_request route_params;
  match p !! key with
  | Some v => mret v
  | None => _ ← edit_request (set_route_params (<[key := ""]> p)); mret ""
  end.
End middleware.

(** ** ArticleController *)
Definition json_escape_char (c : ascii) : string :=
  if is_char quote c || is_char backslash c then String backslash (str1 c) else str1 c.
Fixpoint json_escape (s : string) : string :=
  match s with
  | "" => ""
  | String c s => json_escape_char c +:+ json_escape s
  end.
Definition article_json (a : Article) : string :=
  "{" +:+ dq "id" +:+ ":" +:+ to_string (a_id a) +:+ "," +:+ dq "title" +:+ ":" +:+ dq (json_escape (title a))
  +:+ "," +:+ dq "views" +:+ ":" +:+ to_string (views a)
  +:+ "," +:+ dq "published" +:+ ":" +:+ (if published a then "true" else "false") +:+ "}".
Fixpoint articles_text (first : bool) (l : list Article) : string :=
  match l with
  | [] => ""
  | a :: l => (if first then "" else ",") +:+ article_json a +:+ articles_text false l
  end.
Definition articles_json (l : list Article) : string := "[" +:+ articles_text true l +:+ "]".

Definition to_int (s : string) : Z :=
  if bool_decide (s = "") then 0 else match stoll s with Ok z => z | Throw _ => 0 end.
Definition is_truthy (s : string) : bool := bool_decide (s = "1") || bool_decide (s = "true").
Definition article_pair (out : gmap string string) (pair : string) : gmap string string :=
  match find_chr pair "=" 0 with
  | None => out
  | Some eq => <[substr pair 0 eq := substr_from pair (eq + 1)]> out
  end.
Definition article_form (body : string) : gmap string string := fold_left article_pair (pieces "&" body) ∅.
(** The body is split but not decoded, while the framework's own [parse_form] decodes. *)
Lemma article_form_not_decoded :
  article_form "title=Hello+%26+bye" !! "title" = Some "Hello+%26+bye" /\
  parse_form "title=Hello+%26+bye" !! "title" = Some "Hello & bye".
Proof. split; vm_compute; reflexivity. Qed.
Definition form_value (m : gmap string string) (key : string) : string :=
  match m !! key with Some v => v | None => "" end.
Definition form_article (body : string) : Article :=
  let form := article_form body in
  mkArticle 0 (form_value form "title") (to_int (form_value form "views")) (is_truthy (form_value form "published")).

Definition html_page (text : string) : Response := set_res_header "Content-Type" "text/html" (response 200 text).
Definition articles_template : string :=
  "<ul>@foreach(articles as a)<li>{{ title }}</li>@endforeach</ul>".
(** [for (...) ctx.lists[key].push_back(row)]: the key exists once there is a row. *)
Definition view_list (key : string) (rows : list View) : gmap string (list View) :=
  match rows with [] => ∅ | _ => {[key := rows]} end.
Definition articles_view (l : list Article) : View :=
  mkView ∅ (view_list "articles" (map (fun a => set_var "title" (title a) (mkView ∅ ∅)) l)).
Definition rendered {S} (r : option (res string)) : M S string :=
  match r with Some r => lift_res r | None => throw OtherExn end.

Section articles.
Context {D : Type} (conn : Connection D) (fuel : nat).

Definition articles_html : M D Response :=
  l ← repo_all conn ArticleMapper;
  text ← rendered (View.render fuel articles_template (articles_view l));
  mret (html_page text).
Definition articles_index : M D Response :=
  l ← repo_all conn ArticleMapper; mret (response_json (articles_json l) 200).
Definition articles_show (id : string) : M D Response :=
  a ← repo_find conn ArticleMapper (to_int id);
  match a with
  | None => mret (response_json (json_message "error" "not found") 404)
  | Some a => mret (response_json (article_json a) 200)
  end.
Definition articles_store (body : string) : M D Response :=
  let a := form_article body in
  if bool_decide (title a = "") then mret (response_json (json_message "error" "title is required") 422)
  else a ← repo_insert conn ArticleMapper a; mret (response_json (article_json a) 201).
End articles.

(** ** AuthController and UserController *)
Section auth_controller.
Context {W : Type} (store : SessionStore W) (fresh_id : M W string) (users : UserProvider).
Local Abbreviation opts := default_options.

Definition login_form (token : string) : string :=
  "<form method=" +:+ dq "post" +:+ " action=" +:+ dq "/login" +:+ ">"
  +:+ "<input type=" +:+ dq "hidden" +:+ " name=" +:+ dq "_token" +:+ " value=" +:+ dq token +:+ ">"
  +:+ "<input name=" +:+ dq "username" +:+ "><input name=" +:+ dq "password" +:+ " type=" +:+ dq "password" +:+ ">"
  +:+ "<button>Log in</button></form>".
Definition show_login : Handler W :=
  (req ← on_request (fun r => r);
   token ← in_app (csrf_token store fresh_id (session_of opts req));
   mret (html_page (login_form token))
   : M (Request * W) Response).

Definition auth_login : Handler W :=
  (req ← on_request (fun r => r);
   let form := parse_form (body req) in
   '(ok, req, r) ← in_app (attempt_login store fresh_id opts users (form_value form "username")
                             (form_value form "password") req (response_redirect "/me"));
   _ ← edit_request (fun _ => req);
   if (ok : bool) then mret r else mret (response_json (json_message "error" "invalid credentials") 401)
   : M (Request * W) Response).

Definition auth_logout : Handler W :=
  (req ← on_request (fun r => r);
   _ ← in_app (logout store opts req);
   mret (response_redirect "/login")
   : M (Request * W) Response).

Definition user_json (u : AuthUser) : string :=
  "{" +:+ dq "id" +:+ ":" +:+ to_string (user_id u) +:+ "," +:+ dq "username" +:+ ":" +:+ dq (username u) +:+ "}".
Definition auth_me : Handler W :=
  (req ← on_request (fun r => r);
   u ← in_app (user store users (session_of opts req));
   match u with
   | None => mret (response_json (json_message "error" "unauthenticated") 401)
   | Some u => mret (response_json (user_json u) 200)
   end
   : M (Request * W) Response).
End auth_controller.

Definition user_show (id : string) : Response :=
  let user := user_service_find id in
  if bool_decide (user = "") then response_json (json_message "error" "not found") 404 else response_json user 200.

(** ** Livewire components: no private members *)
Definition Unit_component : Type := Livewire.Component (X := unit).
Definition state_at (state : gmap string string) (key : string) : res string :=
  match state !! key with Some v => Ok v | None => Throw out_of_range end.
Definition state_item (key : string) (c : Unit_component) : string := match c.1 !! key with Some v => v | None => "" end.
Definition set_state (key value : string) (c : Unit_component) : Unit_component := (<[key := value]> c.1, c.2).
Definition html_res (r : option (res string)) : Html := Markup match r with Some r => r | None => Throw OtherExn end.

Section components.
Context (fuel : nat).

(** Signed overflow, undefined in C++, is written as wrap-around. *)
Definition count_by (n : Z) : Livewire.Action (X := unit) := fun _ =>
  (c ← gets (state_item "count");
   i ← lift_res (stoi c);
   modify (set_state "count" (to_string (s32 (i + n))))
   : M Unit_component unit).
Definition counter_template : string :=
  "<span>Count: {{ count }}</span> "
  +:+ "<button wire:click=" +:+ dq "decrement" +:+ ">-</button> "
  +:+ "<button wire:click=" +:+ dq "increment" +:+ ">+</button>"
  +:+ "<div><input wire:model=" +:+ dq "name" +:+ " value=" +:+ dq "{{ name }}" +:+ "> "
  +:+ "<p>Hello {{ greeting }}</p></div>"
  +:+ "<span wire:loading>updating…</span>"
  +:+ "<span wire:loading wire:target=" +:+ dq "increment" +:+ ">+1…</span>".
Definition counter_render (c : Unit_component) : Html :=
  match state_at c.1 "count", state_at c.1 "name" with
  | Ok count, Ok name =>
      html_res (View.render fuel counter_template
        (set_var "greeting" (if bool_decide (name = "") then "stranger" else name)
          (set_var "name" name (set_var "count" count (mkView ∅ ∅)))))
  | _, _ => Markup (Throw out_of_range)
  end.
Definition plain_class (state : gmap string string) (render : Unit_component -> Html) : Class unit :=
  mkClass (state, tt) ∅ (mret tt) (mret tt) (mret tt) render.
Definition Counter : Class unit :=
  on "decrement" (count_by (-1)) (on "increment" (count_by 1)
    (plain_class (<["name" := ""]> {["count" := "0"]}) counter_render)).

Definition dashboard_render (c : Unit_component) : Html :=
  MountChild "counter" "counter-a" (fun a => MountChild "counter" "counter-b" (fun b =>
    Markup (Ok ("<h2>Dashboard</h2>" +:+ a +:+ b)))).
Definition Dashboard : Class unit := plain_class ∅ dashboard_render.

Definition todo_add : Livewire.Action (X := unit) := fun _ =>
  modify (fun c : Unit_component =>
    let draft := state_item "draft" c in
    if bool_decide (draft = "") then c
    else
      let items := state_item "items" c in
      let items := if bool_decide (items = "") then items else items +:+ str1 (chr 10) in
      set_state "draft" "" (set_state "items" (items +:+ draft) c)).
Definition todo_template : string :=
  "<ul>@foreach(items as i)<li wire:key=" +:+ dq "{{ text }}" +:+ ">{{ text }}</li>@endforeach</ul>"
  +:+ "<input wire:model=" +:+ dq "draft" +:+ " value=" +:+ dq "{{ draft }}" +:+ "> "
  +:+ "<button wire:click=" +:+ dq "add" +:+ ">Add</button>".
Definition todo_render (c : Unit_component) : Html :=
  match state_at c.1 "items", state_at c.1 "draft" with
  | Ok items, Ok draft =>
      html_res (View.render fuel todo_template
        (set_var "draft" draft
          (mkView ∅ (view_list "items" (map (fun t => set_var "text" t (mkView ∅ ∅)) (pieces (chr 10) items))))))
  | _, _ => Markup (Throw out_of_range)
  end.
Definition TodoList : Class unit :=
  on "add" todo_add (plain_class (<["draft" := ""]> {["items" := ""]}) todo_render).

Definition blog_livewire : Livewire unit :=
  component "todos" TodoList (component "dashboard" Dashboard (component "counter" Counter ∅)).
End components.

(** ** The process *)
Section app.
Context {D : Type} (conn : Connection D) (open_ : D) (demangle_type : Key -> string) (fuel : nat)
  `{MapOrder string} (livewire_js : string).

Record AppState : Type := mkAppState {
  w_sessions : Sessions;
  w_cache : ArrayCache;
  w_env : Env;
  w_container : Container.Container;
  w_facade : option unit;     (* the global of Facade: the container of the application *)
  w_conns : gmap nat D;       (* the state of a connection object, once it has been used *)
  w_log : list string
}.

Definition set_store (s : Store) (w : AppState) : AppState :=
  mkAppState s.1 (w_cache w) s.2 (w_container w) (w_facade w) (w_conns w) (w_log w).
Definition on_store {A} (m : M Store A) : M AppState A := on_part (fun w => (w_sessions w, w_env w)) set_store m.
Definition set_cache (c : CacheState) (w : AppState) : AppState :=
  mkAppState (w_sessions w) c.1 c.2 (w_container w) (w_facade w) (w_conns w) (w_log w).
Definition on_cache {A} (m : M CacheState A) : M AppState A := on_part (fun w => (w_cache w, w_env w)) set_cache m.
Definition set_env (e : Env) (w : AppState) : AppState :=
  mkAppState (w_sessions w) (w_cache w) e (w_container w) (w_facade w) (w_conns w) (w_log w).
Definition on_env {A} (m : M Env A) : M AppState A := on_part w_env set_env m.
Definition set_container_of (c : Container.Container) (w : AppState) : AppState :=
  mkAppState (w_sessions w) (w_cache w) (w_env w) c (w_facade w) (w_conns w) (w_log w).
Definition set_facade (f : option unit) (w : AppState) : AppState :=
  mkAppState (w_sessions w) (w_cache w) (w_env w) (w_container w) f (w_conns w) (w_log w).
Definition conn_state (r : nat) (w : AppState) : D := match w_conns w !! r with Some d => d | None => open_ end.
Definition set_conn (r : nat) (d : D) (w : AppState) : AppState :=
  mkAppState (w_sessions w) (w_cache w) (w_env w) (w_container w) (w_facade w) (<[r := d]> (w_conns w)) (w_log w).
Definition on_conn {A} (r : nat) (m : M D A) : M AppState A := on_part (conn_state r) (set_conn r) m.
Definition log_line (s : string) : M AppState unit :=
  modify (fun w => mkAppState (w_sessions w) (w_cache w) (w_env w) (w_container w) (w_facade w) (w_conns w) (w_log w ++ [s])).

Definition lift_store (s : SessionStore Store) : SessionStore AppState :=
  mkSessionStore (fun a b c => on_store (s_put s a b c)) (fun a b => on_store (s_get s a b))
    (fun a b => on_store (s_has s a b)) (fun a b => on_store (s_forget s a b))
    (fun a => on_store (s_flush s a)) (fun a b => on_store (s_rename s a b)).
Definition app_sessions : SessionStore AppState := lift_store ArraySessionStore.
Definition app_fresh_id : M AppState string := on_env new_session_id.
Definition lift_cache (c : CacheContract CacheState) : CacheContract AppState :=
  mkCacheContract (fun a b => on_cache (c_put c a b)) (fun a b t => on_cache (c_put_ttl c a b t))
    (fun a => on_cache (c_get c a)) (fun a => on_cache (c_has c a)) (fun a => on_cache (c_forget c a)).
Definition app_cache : CacheContract AppState := lift_cache array_cache.
Definition app_seconds : M AppState Z := on_cache array_seconds.

(** [container->resolve<T>()], and what an object of the container was built with. *)
Definition in_container {A} (f : Container.Container -> Outcome A) : M AppState A := fun w =>
  match f (w_container w) with
  | Some (r, c) => (r, set_container_of c w)
  | None => (Throw OtherExn, w)
  end.
Definition app_resolve (T : Key) : M AppState Any := in_container (Container.resolve demangle_type fuel T).
Definition built_with (r i : nat) (c : Container.Container) : nat :=
  match heap c !! r with Some (_, deps) => nth i deps 0%nat | None => 0%nat end.
Definition argument (r i : nat) : M AppState nat := gets (fun w => built_with r i (w_container w)).

(** An action of the controller, on the connection of the repository it holds. *)
Definition article_conn : M AppState nat :=
  controller ← app_resolve "ArticleController";
  repo ← argument (any_ref controller) 0;
  argument repo 0.
Definition article_action (act : M D Response) : M AppState Response := c ← article_conn; on_conn c act.
Definition livewire_result (r : option (res string)) : M AppState string := rendered r.

Definition page (title body : string) : Response :=
  html_page ("<!doctype html><html><head><title>" +:+ title +:+ "</title></head><body>" +:+ body
    +:+ "<script src=" +:+ dq "/livewire.js" +:+ "></script></body></html>").
Definition livewire_page (title name : string) : Handler AppState :=
  (body ← in_app (livewire_result (Livewire.mount (blog_livewire fuel) fuel name ""));
   mret (page title body)
   : M (Request * AppState) Response).
Definition livewire_update : Handler AppState :=
  (b ← on_request body;
   text ← in_app (livewire_result (Livewire.handle (blog_livewire fuel) fuel b));
   mret (response_json text 200)
   : M (Request * AppState) Response).
Definition always (r : Response) : Handler AppState := mret r.

(** ** Routes *)
Definition show_user : Handler AppState :=
  (_ ← in_app (app_resolve "UserController"); id ← route_param "id"; mret (user_show id)
   : M (Request * AppState) Response).
Definition show_article : Handler AppState :=
  (c ← in_app article_conn; id ← route_param "id"; in_app (on_conn c (articles_show conn id)) : M (Request * AppState) Response).
Definition store_article : Handler AppState :=
  (b ← on_request body; in_app (article_action (articles_store conn b)) : M (Request * AppState) Response).
Definition token_guard : list (Middleware AppState) := [require_token "secret-token"].
Definition csrf_guard : list (Middleware AppState) := [verify_csrf app_sessions default_options].
Definition pong : Response := response_json ("{" +:+ dq "pong" +:+ ":true}") 200.
Definition script : Response := set_res_header "Content-Type" "application/javascript" (response 200 livewire_js).

Definition routes (users : UserProvider) : res (Router AppState) :=
  r ← Router.get "/users/{id}" show_user token_guard (mkRouter []);
  r ← Router.get "/health" (always (response 200 "ok")) [] r;
  r ← Router.get "/articles" (in_app (article_action (articles_index conn))) [] r;
  r ← Router.get "/articles.html" (in_app (article_action (articles_html conn fuel))) [] r;
  r ← Router.get "/articles/{id}" show_article [] r;
  r ← Router.post "/articles" store_article token_guard r;
  r ← Router.get "/counter" (livewire_page "Counter" "counter") [] r;
  r ← Router.get "/dashboard" (livewire_page "Dashboard" "dashboard") [] r;
  r ← Router.get "/todos" (livewire_page "Todos" "todos") [] r;
  r ← Router.post "/livewire" livewire_update [] r;
  r ← Router.get "/livewire.js" (always script) [] r;
  r ← Router.get "/login" (show_login app_sessions app_fresh_id) [] r;
  r ← Router.post "/login" (auth_login app_sessions app_fresh_id users) csrf_guard r;
  r ← Router.post "/logout" (auth_logout app_sessions) csrf_guard r;
  r ← Router.get "/me" (auth_me app_sessions users) [require_auth app_sessions default_options] r;
  Router.get "/ping" (always pong) [throttle default_options app_cache app_seconds 3 60] r.

(** ** Service providers *)
Definition edit_container (f : Container.Container -> Container.Container) : M AppState unit :=
  modify (fun w => set_container_of (f (w_container w)) w).
Definition UserServiceProvider : ServiceProvider AppState :=
  mkProvider
    (_ ← edit_container (singleton_auto "UserService" []); edit_container (bind_auto "UserController" ["UserService"]))
    (_ ← app_resolve "UserService"; mret tt).
Definition DatabaseServiceProvider : ServiceProvider AppState :=
  mkProvider
    (_ ← edit_container (singleton_erased "Connection" (Construct "Connection" [] Return));
     _ ← edit_container (bind_auto "ArticleRepository" ["Connection"]);
     _ ← edit_container (bind_auto "ArticleController" ["ArticleRepository"]);
     _ ← edit_container (bind_auto "AuthorRepository" ["Connection"]);
     edit_container (bind_auto "CommentRepository" ["Connection"]))
    (c ← app_resolve "Connection"; on_conn (any_ref c) (Migration.run conn (app_migrations conn))).

(** ** bootstrap *)
Definition new_objects : M AppState unit :=
  modify (fun w => mkAppState (new_sessions 0) empty_cache (w_env w) new_container (w_facade w) ∅ (w_log w)).
Definition global_stack : list (Middleware AppState) :=
  [logging_mw log_line; session_middleware app_fresh_id default_options].
Definition bootstrap : M AppState (Kernel AppState) :=
  _ ← new_objects;
  users ← on_env (add_user (mkAuthUser 1 "ada" "secret") (mkArrayUserProvider [] Hasher));
  router ← lift_res (routes (array_users users));
  k ← register_providers [UserServiceProvider; DatabaseServiceProvider]
        (global_middleware global_stack (new_kernel (router_ops router)));
  _ ← set_container set_facade tt;
  mret k.

(** The demo facade: [Users::find]. *)
Definition Users_find (id : string) : M AppState string :=
  _ ← resolve_root w_facade (fun _ : unit => app_resolve) "UserService"; mret (user_service_find id).
End app.
Arguments AppState : clear implicits.
