(* ===== verification/BlogBoot.v ===== *)
(** * examples/blog: what [bootstrap] builds

    The routing table, the container the service providers leave, and [booted], the
    invariant of the state every request keeps: resolving a controller adds objects and
    nothing else, and every controller is built on the one connection of the process. *)
From S2P Require Import Prelude CppString CppNum Container Facade Database Repository Migration BlogModels Session Cache Auth HttpAuth Router Kernel Pipeline Http Blog.

Section boot.
Context {D : Type} (conn : Connection D) (open_ : D) (demangle_type : Key -> string) (fuel : nat)
  `{MapOrder string} (livewire_js : string).
Local Abbreviation App := (AppState D).
Local Abbreviation article_conn := (@article_conn D demangle_type fuel).
Local Abbreviation app_resolve := (@app_resolve D demangle_type fuel).

(** ** The routing table *)
Definition blog_route (m uri : string) (h : Handler App) (mw : list (Middleware App)) : Route App :=
  mkRoute m uri (uri_pattern uri).1 (uri_pattern uri).2 h mw.
Definition blog_router (users : UserProvider) : Router App := mkRouter [
  blog_route "GET" "/users/{id}" (show_user demangle_type fuel) token_guard;
  blog_route "GET" "/health" (always (response 200 "ok")) [];
  blog_route "GET" "/articles" (in_app (article_action open_ demangle_type fuel (articles_index conn))) [];
  blog_route "GET" "/articles.html" (in_app (article_action open_ demangle_type fuel (articles_html conn fuel))) [];
  blog_route "GET" "/articles/{id}" (show_article conn open_ demangle_type fuel) [];
  blog_route "POST" "/articles" (store_article conn open_ demangle_type fuel) token_guard;
  blog_route "GET" "/counter" (livewire_page fuel "Counter" "counter") [];
  blog_route "GET" "/dashboard" (livewire_page fuel "Dashboard" "dashboard") [];
  blog_route "GET" "/todos" (livewire_page fuel "Todos" "todos") [];
  blog_route "POST" "/livewire" (livewire_update fuel) [];
  blog_route "GET" "/livewire.js" (always (script livewire_js)) [];
  blog_route "GET" "/login" (show_login app_sessions app_fresh_id) [];
  blog_route "POST" "/login" (auth_login app_sessions app_fresh_id users) csrf_guard;
  blog_route "POST" "/logout" (auth_logout app_sessions) csrf_guard;
  blog_route "GET" "/me" (auth_me app_sessions users) [require_auth app_sessions default_options];
  blog_route "GET" "/ping" (always pong) [throttle default_options app_cache app_seconds 3 60]].

Lemma routes_blog (users : UserProvider) :
  routes conn open_ demangle_type fuel livewire_js users = Ok (blog_router users).
Proof.
  unfold routes, Router.get, Router.post.
  repeat (rewrite add_registers; unfold mbind at 1, res_bind at 1; cbn [routes_ app]). reflexivity.
Qed.
Definition blog_kernel (users : UserProvider) : Kernel App :=
  mkKernel (router_ops (blog_router users)) global_stack
    [UserServiceProvider demangle_type fuel; DatabaseServiceProvider conn open_ demangle_type fuel].

(** ** The container *)
Definition blog_bindings (c : Container.Container) : Container.Container :=
  bind_auto "CommentRepository" ["Connection"] (bind_auto "AuthorRepository" ["Connection"]
    (bind_auto "ArticleController" ["ArticleRepository"] (bind_auto "ArticleRepository" ["Connection"]
      (singleton_erased "Connection" (Construct "Connection" [] Return)
        (bind_auto "UserController" ["UserService"] (singleton_auto "UserService" [] c)))))).
(** Objects 0 and 1 are the two singletons; [h] is what requests have had built since. *)
Definition booted_container (h : list (Key * list nat)) : Container.Container :=
  mkContainer (factories_ (blog_bindings new_container))
    (<["Connection" := mkAny "Connection" 1]> {["UserService" := mkAny "UserService" 0]}) ∅ ∅ ∅ []
    (("UserService", []) :: ("Connection", []) :: h).
Definition booted (w : App) : Prop := exists h, w_container w = booted_container h.

Lemma resolve_article_controller h : (3 <= fuel)%nat ->
  exists n, Container.resolve demangle_type fuel "ArticleController" (booted_container h) =
    Some (Ok (mkAny "ArticleController" (S (S (length (h ++ [("ArticleRepository", [1%nat])]))))),
      booted_container ((h ++ [("ArticleRepository", [1%nat])]) ++ [("ArticleController", [n])])) /\
    n = S (S (length h)).
Proof.
  intros Hf. destruct fuel as [|[|[|f]]]; [lia..|]. eexists. split; [|reflexivity]. vm_compute. reflexivity.
Qed.

Lemma resolve_singleton T r h : (1 <= fuel)%nat ->
  (T = "Connection" /\ r = 1%nat) \/ (T = "UserService" /\ r = 0%nat) ->
  Container.resolve demangle_type fuel T (booted_container h) = Some (Ok (mkAny T r), booted_container h).
Proof. intros Hf [[-> ->]|[-> ->]]; (destruct fuel as [|f]; [lia|vm_compute; reflexivity]). Qed.
Lemma resolve_user_controller h : (2 <= fuel)%nat ->
  exists n, Container.resolve demangle_type fuel "UserController" (booted_container h) =
    Some (Ok (mkAny "UserController" n), booted_container (h ++ [("UserController", [0%nat])])).
Proof. intros Hf. destruct fuel as [|[|f]]; [lia..|]. eexists. vm_compute. reflexivity. Qed.

Lemma built_with_last h T n :
  built_with (S (S (length h))) 0 (booted_container (h ++ [(T, [n])])) = n.
Proof.
  unfold built_with. change (heap _ !! _) with ((h ++ [(T, [n])]) !! length h).
  by rewrite lookup_app_r, Nat.sub_diag.
Qed.
Lemma built_with_before h T n x :
  built_with (S (S (length h))) 0 (booted_container ((h ++ [(T, [n])]) ++ [x])) = n.
Proof.
  unfold built_with. change (heap _ !! _) with (((h ++ [(T, [n])]) ++ [x]) !! length h).
  rewrite lookup_app_l by (rewrite length_app; cbn; lia). by rewrite lookup_app_r, Nat.sub_diag.
Qed.

(** Every article action runs on the connection object 1, the singleton. *)
Lemma article_conn_booted (w : App) : (3 <= fuel)%nat -> booted w ->
  exists h, article_conn w = (Ok 1%nat, set_container_of (booted_container h) w).
Proof.
  intros Hf [h Hw]. destruct (resolve_article_controller h Hf) as (n & E & ->).
  exists ((h ++ [("ArticleRepository", [1%nat])]) ++ [("ArticleController", [S (S (length h))])]).
  unfold Blog.article_conn, Blog.app_resolve, in_container, argument, gets, mbind, M_bind. rewrite Hw, E.
  cbn [set_container_of w_container any_ref]. rewrite built_with_last. by rewrite built_with_before.
Qed.

(** ** bootstrap *)
(** The provider [bootstrap] seeds: ada, whose password is checked against the salted hash. *)
Definition seeded (users : UserProvider) : Prop := exists u,
  retrieve_by_credentials users "ada" = Some u /\ retrieve_by_id users 1 = Some u /\ user_id u = 1%Z /\
  username u = "ada" /\ validate users u "secret" = true /\
  (forall name, name ≠ "ada" -> retrieve_by_credentials users name = None).

Lemma seeded_users (e : Env) : exists p e',
  add_user (mkAuthUser 1 "ada" "secret") (mkArrayUserProvider [] Hasher) e = (Ok p, e') /\ seeded (array_users p).
Proof.
  destruct (hasher_verifies e "secret") as (salt & e' & E & Hv). unfold add_user, mbind, M_bind.
  cbn [h_make hasher_ Hasher password]. rewrite E. do 2 eexists. split; [reflexivity|].
  eexists. cbn. rewrite bool_decide_eq_true_2 by done. repeat split.
  - cbn. rewrite Hv. by rewrite bool_decide_eq_true_2.
  - intros name Hname. by rewrite bool_decide_eq_false_2 by congruence.
Qed.

Lemma boot_resolutions : (1 <= fuel)%nat -> exists c,
  Container.resolve demangle_type fuel "UserService" (blog_bindings new_container) = Some (Ok (mkAny "UserService" 0), c) /\
  Container.resolve demangle_type fuel "Connection" c = Some (Ok (mkAny "Connection" 1), booted_container []).
Proof. intros Hf. destruct fuel as [|f]; [lia|]. eexists. split; vm_compute; reflexivity. Qed.

Lemma bootstrap_spec (w w1 : App) (k : Kernel App) : (3 <= fuel)%nat ->
  bootstrap conn open_ demangle_type fuel livewire_js w = (Ok k, w1) ->
  exists users, seeded users /\ k = blog_kernel users /\ booted w1 /\
    w_sessions w1 = new_sessions 0 /\ w_cache w1 = empty_cache /\ w_facade w1 = Some tt.
Proof.
  intros Hf. unfold bootstrap, new_objects, modify, mbind, M_bind. unfold on_env, on_part at 1. cbn [w_env].
  destruct (seeded_users (w_env w)) as (p & e' & E & Hs). rewrite E, routes_blog. unfold lift_res.
  unfold register_providers, each, UserServiceProvider, DatabaseServiceProvider, mbind, M_bind, edit_container, modify.
  cbn [Kernel.register_ Kernel.boot].
  unfold mret, M_ret, Blog.app_resolve, in_container. cbn [set_container_of set_env w_container].
  destruct (boot_resolutions ltac:(lia)) as (c & E1 & E2). fold (blog_bindings new_container). rewrite E1.
  cbn [set_container_of w_container]. rewrite E2. cbn [any_ref]. unfold on_conn, on_part.
  destruct (Migration.run _ _ _) as [[u|e] d]; [|done]. intros [= <- <-].
  exists (array_users p). split; [done|]. split; [done|]. split; [by exists []|done].
Qed.
End boot.
