(* ===== verification/BlogArticles.v ===== *)
(** * examples/blog: articles, end to end

    Whole requests through the kernel of the application: what reaches the handler behind
    the global middleware, which requests can change the database, and that what an
    authorised request stored is what later requests show. *)
From S2P Require Import Prelude CppString CppNum Livewire View Container Facade Database Tables Repository Migration BlogModels Session Cache Auth HttpAuth Router Kernel Pipeline Http Blog BlogBoot.

Create HintDb harmless.
Section flows.
Context {D : Type} (conn : Connection D) ok view room known fits norm `{!TableLaws conn ok view room known fits norm}
  `{!ArticleTable known fits} (open_ : D)
  (demangle_type : Key -> string) (fuel : nat) `{MapOrder string} (livewire_js : string).
Local Abbreviation App := (AppState D).
Local Abbreviation blog_kernel := (blog_kernel conn open_ demangle_type fuel livewire_js).
Local Abbreviation blog_router := (blog_router conn open_ demangle_type fuel livewire_js).
Local Abbreviation db := (conn_state open_).
Local Abbreviation article_conn := (@article_conn D demangle_type fuel).

(** ** Requests that leave the database alone *)
Definition same_db (w w' : App) : Prop :=
  booted w -> ok (db 1%nat w) -> booted w' /\ forall c, db c w' = db c w.
Lemma same_db_refl w : same_db w w.
Proof. by split. Qed.
Lemma same_db_trans w1 w2 w3 : same_db w1 w2 -> same_db w2 w3 -> same_db w1 w3.
Proof.
  intros H1 H2 Hb Hok. destruct (H1 Hb Hok) as [Hb2 E2]. destruct (H2 Hb2) as [Hb3 E3]; [by rewrite E2|].
  split; [done|]. intros c. by rewrite E3.
Qed.
(** A step on the application, and on the request and the application. *)
Definition harmless {A} (m : M App A) : Prop := forall w, same_db w (m w).2.
Definition harmless_h {A} (m : M (Request * App) A) : Prop := forall s, same_db s.2 (m s).2.2.

Lemma harmless_ret {A} (a : A) : harmless (mret a).
Proof. intros w. apply same_db_refl. Qed.
Lemma harmless_lift {A} (r : res A) : harmless (lift_res r).
Proof. intros w. apply same_db_refl. Qed.
Lemma harmless_throw {A} e : harmless (throw e : M App A).
Proof. intros w. apply same_db_refl. Qed.
Lemma harmless_bind {A B} (m : M App A) (f : A -> M App B) :
  harmless m -> (forall a, harmless (f a)) -> harmless (m ≫= f).
Proof.
  intros Hm Hf w. unfold mbind, M_bind. specialize (Hm w). destruct (m w) as [[a|e] w1]; [|done].
  eapply same_db_trans; [done|apply Hf].
Qed.
Lemma harmless_h_ret {A} (a : A) : harmless_h (mret a).
Proof. intros w. apply same_db_refl. Qed.
Lemma harmless_h_throw {A} e : harmless_h (throw e : M (Request * App) A).
Proof. intros w. apply same_db_refl. Qed.
Lemma harmless_h_bind {A B} (m : M (Request * App) A) (f : A -> M (Request * App) B) :
  harmless_h m -> (forall a, harmless_h (f a)) -> harmless_h (m ≫= f).
Proof.
  intros Hm Hf s. unfold mbind, M_bind. specialize (Hm s). destruct (m s) as [[a|e] s1]; [|done].
  eapply same_db_trans; [done|apply Hf].
Qed.
Lemma harmless_in_app {A} (m : M App A) : harmless m -> harmless_h (in_app m).
Proof. intros Hm s. unfold in_app. specialize (Hm s.2). by destruct (m s.2). Qed.
Lemma harmless_on_request {A} (f : Request -> A) : harmless_h (on_request f).
Proof. intros s. apply same_db_refl. Qed.
Lemma harmless_edit_request f : harmless_h (edit_request f).
Proof. intros s. apply same_db_refl. Qed.

Lemma harmless_store {A} (m : M Store A) : harmless (on_store m).
Proof. intros w. unfold on_store, on_part. destruct (m _) as [r s]. by intros Hb Hok. Qed.
Lemma harmless_cache {A} (m : M CacheState A) : harmless (on_cache m).
Proof. intros w. unfold on_cache, on_part. destruct (m _) as [r s]. by intros Hb Hok. Qed.
Lemma harmless_env {A} (m : M Env A) : harmless (on_env m).
Proof. intros w. unfold on_env, on_part. destruct (m _) as [r s]. by intros Hb Hok. Qed.
Lemma harmless_log line : harmless (log_line line).
Proof. intros w. by intros Hb Hok. Qed.
Lemma harmless_result (r : option (res string)) : harmless (livewire_result r).
Proof. unfold livewire_result, rendered. destruct r as [r|]; [apply harmless_lift|apply harmless_throw]. Qed.
#[local] Hint Resolve harmless_ret harmless_lift harmless_throw harmless_h_ret harmless_h_throw harmless_in_app
  harmless_on_request harmless_edit_request harmless_store harmless_cache harmless_env harmless_log harmless_result : harmless.
(** Walk through a computation: every bind, every case, then the hints. *)
Ltac harmless :=
  intros;
  repeat first
    [ apply harmless_h_bind; [|intros ?] | apply harmless_bind; [|intros ?]
    | match goal with
      | |- harmless_h (match ?x with _ => _ end) => destruct x
      | |- harmless (match ?x with _ => _ end) => destruct x
      | |- harmless_h (in_app _) => apply harmless_in_app
      end
    | solve [eauto with harmless] ].

Lemma harmless_s_put a b c : harmless (s_put app_sessions a b c).
Proof. apply harmless_store. Qed.
Lemma harmless_s_get a b : harmless (s_get app_sessions a b).
Proof. apply harmless_store. Qed.
Lemma harmless_s_has a b : harmless (s_has app_sessions a b).
Proof. apply harmless_store. Qed.
Lemma harmless_s_flush a : harmless (s_flush app_sessions a).
Proof. apply harmless_store. Qed.
Lemma harmless_s_rename a b : harmless (s_rename app_sessions a b).
Proof. apply harmless_store. Qed.
Lemma harmless_c_get a : harmless (c_get app_cache a).
Proof. apply harmless_cache. Qed.
Lemma harmless_c_put_ttl a b t : harmless (c_put_ttl app_cache a b t).
Proof. apply harmless_cache. Qed.
Lemma harmless_fresh_id : harmless app_fresh_id.
Proof. apply harmless_env. Qed.
Lemma harmless_seconds : harmless app_seconds.
Proof. apply harmless_cache. Qed.
#[local] Hint Resolve harmless_s_put harmless_s_get harmless_s_has harmless_s_flush harmless_s_rename harmless_c_get
  harmless_c_put_ttl harmless_fresh_id harmless_seconds : harmless.

(** ** Middleware *)
Definition harmless_mw (mw : Middleware App) : Prop := forall next, harmless_h next -> harmless_h (mw next).
Lemma harmless_logging : harmless_mw (logging_mw log_line).
Proof. intros next Hn. unfold logging_mw. harmless. Qed.
Lemma harmless_session_mw : harmless_mw (session_middleware app_fresh_id default_options).
Proof. intros next Hn. unfold session_middleware, call_next. harmless. Qed.
Lemma harmless_csrf : harmless_mw (verify_csrf app_sessions default_options).
Proof. intros next Hn. unfold verify_csrf, call_next. harmless. Qed.
Lemma harmless_require_auth : harmless_mw (require_auth app_sessions default_options).
Proof. intros next Hn. unfold require_auth, call_next. harmless. Qed.
Lemma harmless_throttle max window : harmless_mw (throttle default_options app_cache app_seconds max window).
Proof. intros next Hn. unfold throttle, call_next. harmless. Qed.
Lemma harmless_run mws h : Forall harmless_mw mws -> harmless_h h -> harmless_h (run (through mws new_pipeline) h).
Proof.
  intros Hm Hh. rewrite run_foldr. cbn [middlewares_ through]. induction Hm as [|mw mws Hmw _ IH]; [done|]. by apply Hmw.
Qed.

(** ** Handlers *)
Lemma harmless_resolve T : T = "UserController" -> (2 <= fuel)%nat -> harmless (@app_resolve D demangle_type fuel T).
Proof.
  intros -> Hf w [h Hw] Hok. destruct (resolve_user_controller demangle_type fuel h Hf) as (n & E).
  unfold app_resolve, in_container. rewrite Hw, E. cbn [snd]. split; [by eexists|done].
Qed.
Lemma harmless_article_action (m : M D Response) : (3 <= fuel)%nat ->
  (forall d, ok d -> (m d).2 = d) -> harmless (article_action open_ demangle_type fuel m).
Proof.
  intros Hf Hm w Hb Hok. unfold article_action, mbind, M_bind.
  destruct (article_conn_booted demangle_type fuel w Hf Hb) as (h & E). rewrite E.
  unfold on_conn, on_part. specialize (Hm _ Hok). change (db 1 (set_container_of (booted_container h) w)) with (db 1 w).
  destruct (m (db 1 w)) as [r d]. cbn [snd] in *. subst d. split; [by exists h|].
  intros c. unfold conn_state at 1, set_conn. cbn [w_conns set_container_of].
  destruct (decide (c = 1%nat)) as [->|Hc]; [by rewrite lookup_insert_eq|by rewrite lookup_insert_ne].
Qed.

(** ** What the global middleware adds *)
(** Same sessions, cache, container and connections: an id may have been drawn, a line logged. *)
Record quiet (w w' : App) : Prop := {
  quiet_sessions : w_sessions w' = w_sessions w;
  quiet_cache : w_cache w' = w_cache w;
  quiet_container : w_container w' = w_container w;
  quiet_conns : w_conns w' = w_conns w
}.
Record same_answer (r r' : Response) : Prop := {
  same_status : status r' = status r;
  same_body : res_body r' = res_body r;
  same_headers key : key ≠ "Set-Cookie" -> res_headers r' !! key = res_headers r !! key
}.
Definition sent_cookies (req : Request) : gmap string string :=
  parse_cookies (match headers req !! "Cookie" with Some v => v | None => "" end).
Definition stack (h : Handler App) : Handler App :=
  logging_mw log_line (session_middleware app_fresh_id default_options h).

Lemma stack_run mw h : run (through (global_stack ++ mw) new_pipeline) h = stack (run (through mw new_pipeline) h).
Proof. by rewrite !run_foldr. Qed.
Lemma same_answer_refl r : same_answer r r.
Proof. done. Qed.
Lemma same_answer_cookie v r : same_answer r (set_res_header "Set-Cookie" v r).
Proof. split; try done. intros key Hk. cbn. by rewrite lookup_insert_ne. Qed.
Lemma quiet_same_db w w' : quiet w w' -> same_db w w'.
Proof.
  intros [_ _ Hc Hd] [h Hb] Hok. split; [exists h; congruence|]. intros c. unfold conn_state. by rewrite Hd.
Qed.

(** The handler sees the request with a session cookie, and its answer is the answer, with a
    Set-Cookie when the session is new. *)
Lemma stack_spec (h : Handler App) (req : Request) (w : App) :
  exists c w1, c !! "lwsid" ≠ None /\ quiet w w1 /\
    (sent_cookies req !! "lwsid" ≠ None -> c = sent_cookies req /\ w_env w1 = w_env w) /\
    match h (set_cookies c req, w1) with
    | (Throw e, s) => stack h (req, w) = (Throw e, s)
    | (Ok r, (req', w2)) => exists out w3, stack h (req, w) = (out, (req', w3)) /\ quiet w2 w3 /\ w_env w3 = w_env w2 /\
        (cookies req' !! "lwsid" ≠ None -> exists r', out = Ok r' /\ same_answer r r' /\
          (sent_cookies req !! "lwsid" ≠ None -> r' = r))
    end.
Proof.
  unfold stack, logging_mw, session_middleware, call_next, log_line, on_request, edit_request, gets, modify, in_app.
  unfold mbind, M_bind, mret, M_ret. cbn [fst snd]. fold (sent_cookies req). cbn [cookies set_cookies o_name default_options].
  set (w0 := @mkAppState D _ _ _ _ _ _ _).
  destruct (sent_cookies req !! "lwsid") as [sid|] eqn:E.
  - rewrite bool_decide_eq_false_2 by done. exists (sent_cookies req), w0. rewrite E. split; [done|].
    split; [done|]. split; [done|]. destruct (h _) as [[r|e] [req' w2]]; [|done].
    cbn [andb fst snd]. do 2 eexists. split; [reflexivity|]. split; [done|]. split; [done|].
    intros _. eexists. split; [done|]. by split.
  - rewrite bool_decide_eq_true_2 by done. unfold app_fresh_id, on_env, on_part.
    cbn [fst snd]. destruct (new_session_id_spec (w_env w0)) as (sid & e' & -> & _). cbn [fst snd cookies set_cookies].
    exists (<["lwsid" := sid]> (sent_cookies req)), (set_env e' w0). rewrite lookup_insert_eq. split; [done|].
    split; [done|]. split; [done|].
    change (set_cookies (<["lwsid" := sid]> (sent_cookies req)) (set_cookies (sent_cookies req) req))
      with (set_cookies (<["lwsid" := sid]> (sent_cookies req)) req).
    destruct (h _) as [[r|e] [req' w2]]; [|done]. cbn [andb fst snd].
    destruct (bool_decide (res_headers r !! "Set-Cookie" = None)) eqn:Ec.
    + cbn [fst snd]. destruct (cookies req' !! "lwsid") as [v|] eqn:Ev.
      * do 2 eexists. split; [reflexivity|]. split; [done|]. split; [done|]. intros _. eexists. split; [done|].
        split; [apply same_answer_cookie|done].
      * unfold throw. do 2 eexists. split; [reflexivity|]. by repeat split.
    + do 2 eexists. split; [reflexivity|]. split; [done|]. split; [done|]. intros _. eexists. by split.
Qed.

(** Whatever the inner chain does to the database at this request, the request does. *)
Lemma stack_same_db (h : Handler App) (req : Request) (w : App) :
  (forall c w1, same_db w1 (h (set_cookies c req, w1)).2.2) -> same_db w (stack h (req, w)).2.2.
Proof.
  intros Hh. destruct (stack_spec h req w) as (c & w1 & _ & Hq & _ & Hs). specialize (Hh c w1).
  eapply same_db_trans; [by apply quiet_same_db|]. destruct (h _) as [[r|e] [req' w2]]; [|by rewrite Hs].
  destruct Hs as (out & w3 & -> & Hq2 & _). eapply same_db_trans; [done|by apply quiet_same_db].
Qed.

(** ** No token, no write *)
Lemma repo_all_same d : ok d -> (repo_all conn ArticleMapper d).2 = d.
Proof.
  intros Hok. unfold repo_all, mbind, M_bind. cbn [table ArticleMapper]. destruct (tl_all "articles" d at_known Hok) as (rows & E & _). by rewrite E.
Qed.
Lemma index_same d : ok d -> (articles_index conn d).2 = d.
Proof.
  intros Hok. unfold articles_index, mbind, M_bind. pose proof (repo_all_same d Hok) as E.
  by destruct (repo_all conn ArticleMapper d) as [[l|e] d1].
Qed.
Lemma html_same d : ok d -> (articles_html conn fuel d).2 = d.
Proof.
  intros Hok. unfold articles_html, mbind, M_bind. pose proof (repo_all_same d Hok) as E.
  destruct (repo_all conn ArticleMapper d) as [[l|e] d1]; [|done]. unfold rendered.
  destruct (View.render _ _ _) as [[text|e]|]; done.
Qed.
Lemma show_same id d : ok d -> (articles_show conn id d).2 = d.
Proof.
  intros Hok. unfold articles_show, repo_find, mbind, M_bind. rewrite tl_find by (done || apply at_known).
  destruct (find_row _ _) as [r|]; [|done]. unfold lift_res. by destruct (hydrate _ r).
Qed.
Lemma harmless_route_param key : harmless_h (route_param (W := App) key).
Proof. unfold route_param. harmless. Qed.
Lemma harmless_show : (3 <= fuel)%nat -> harmless_h (show_article conn open_ demangle_type fuel).
Proof.
  intros Hf [req w]. intros Hb Hok. cbn [snd] in *.
  unfold show_article, in_app, mbind, M_bind. cbn [fst snd].
  destruct (article_conn_booted demangle_type fuel w Hf Hb) as (h & E). rewrite E. cbn [fst snd].
  destruct (route_param "id" (req, set_container_of (booted_container h) w)) as [[id|e] [req2 w2]] eqn:Er.
  - unfold route_param, on_request, edit_request, gets, modify, mbind, M_bind in Er. cbn [fst snd] in Er.
    assert (w2 = set_container_of (booted_container h) w) as ->
      by (destruct (route_params req !! "id"); injection Er; congruence).
    cbn [snd]. pose proof (harmless_article_action (articles_show conn id) Hf (show_same id) w Hb Hok) as Hs.
    unfold article_action, mbind, M_bind in Hs. rewrite E in Hs. by destruct (on_conn open_ 1 _ _) as [r w3].
  - unfold route_param, on_request, edit_request, gets, modify, mbind, M_bind in Er. cbn [fst snd] in Er.
    by destruct (route_params req !! "id").
Qed.

(** A request that reaches the inner chain of [route] without the token. *)
Definition guarded (route : Route App) : Prop := forall req w, headers req !! "Authorization" ≠ Some "secret-token" ->
  same_db w (run (through (r_middleware route) new_pipeline) (r_handler route) (req, w)).2.2.
Lemma guarded_harmless (route : Route App) :
  Forall harmless_mw (r_middleware route) -> harmless_h (r_handler route) -> guarded route.
Proof. intros Hm Hh req w _. apply (harmless_run _ _ Hm Hh (req, w)). Qed.
Lemma guarded_token m uri h : guarded (blog_route m uri h token_guard).
Proof.
  intros req w Hreq. rewrite run_foldr. cbn. unfold require_token, on_request, gets, mbind, M_bind. cbn [fst snd].
  rewrite bool_decide_eq_false_2 by done. apply same_db_refl.
Qed.
Lemma routes_guarded users : (3 <= fuel)%nat -> Forall guarded (routes_ (blog_router users)).
Proof.
  intros Hf. assert (Hpage : forall t n, harmless_h (livewire_page (D := D) fuel t n)) by (intros t n; unfold livewire_page; harmless).
  assert (Hfree : forall m uri h, harmless_h h -> guarded (blog_route m uri h []))
    by (intros; by apply guarded_harmless; [apply Forall_nil|]).
  assert (Hone : forall m uri h mw, harmless_mw mw -> harmless_h h -> guarded (blog_route m uri h [mw]))
    by (intros; by apply guarded_harmless; [apply Forall_singleton|]).
  unfold BlogBoot.blog_router. cbn [routes_].
  repeat (apply Forall_cons_2; [first [apply guarded_token | apply Hfree | apply Hone]|]); [..|apply Forall_nil_2];
    try apply harmless_csrf; try apply harmless_require_auth; try apply harmless_throttle;
    try apply harmless_h_ret; try apply Hpage; try apply (harmless_show Hf).
  - apply harmless_in_app, harmless_article_action; [done|apply index_same].
  - apply harmless_in_app, harmless_article_action; [done|apply html_same].
  - unfold livewire_update. harmless.
  - unfold show_login, csrf_token. harmless.
  - unfold auth_login, attempt_login, attempt, login, regenerate_id. harmless.
  - unfold auth_logout, logout. harmless.
  - unfold auth_me, user, auth_id. harmless.
Qed.

Definition untrusted (req : Request) : Prop := headers req !! "Authorization" ≠ Some "secret-token".
(** The requests of a list, one after the other. *)
Definition serve (k : Kernel App) (reqs : list Request) (w : App) : App :=
  fold_left (fun w req => (handle k req w).2) reqs w.

Lemma handle_stack users req w route params :
  match_routes (routes_ (blog_router users)) (method req) (path req) = Some (route, params) ->
  let '(out, (_, w')) := stack (run (through (r_middleware route) new_pipeline) (r_handler route)) (set_route_params params req, w) in
  handle (blog_kernel users) req w = (Ok (match out with Ok r => r | Throw _ => internal_error end), w').
Proof.
  intros Hm. pose proof (handle_matched (blog_kernel users) req w route params Hm) as E.
  cbn [Kernel.global_ BlogBoot.blog_kernel] in E. rewrite stack_run in E.
  destruct (stack _ _) as [[r|e] [q w']]; done.
Qed.
Lemma handle_untrusted users req w : (3 <= fuel)%nat -> untrusted req -> same_db w (handle (blog_kernel users) req w).2.
Proof.
  intros Hf Hreq. pose proof (match_routes_spec (routes_ (blog_router users)) (method req) (path req)) as Hm.
  destruct (match_routes _ _ _) as [[route params]|] eqn:E.
  - destruct Hm as (pre & post & caps & Hr & _). pose proof (routes_guarded users Hf) as Hg. rewrite Hr in Hg.
    apply Forall_app in Hg as [_ [Hg _]%Forall_cons]. pose proof (handle_stack users req w route params E) as Hh.
    pose proof (stack_same_db (run (through (r_middleware route) new_pipeline) (r_handler route)) (set_route_params params req) w) as Hs.
    destruct (stack _ _) as [out [q w']]. rewrite Hh. apply Hs. intros c w1. by apply Hg.
  - rewrite (handle_unmatched (blog_kernel users)) by exact E. apply same_db_refl.
Qed.
Lemma serve_untrusted users reqs w : (3 <= fuel)%nat -> Forall untrusted reqs -> same_db w (serve (blog_kernel users) reqs w).
Proof.
  intros Hf Hr. unfold serve. revert w. induction Hr as [|req reqs Hreq _ IH]; intros w; [apply same_db_refl|].
  cbn [fold_left]. eapply same_db_trans; [by apply handle_untrusted|apply IH].
Qed.

(** C27: Reading is all a stranger can do.  After [bootstrap], any requests at all whose
    Authorization header is not the token, in any order, well formed or not, leave every
    connection's database as it was. *)
Theorem writes_need_token (w0 w : App) (k : Kernel App) (reqs : list Request) (c : nat) :
  (3 <= fuel)%nat -> bootstrap conn open_ demangle_type fuel livewire_js w0 = (Ok k, w) -> ok (db 1%nat w) ->
  Forall untrusted reqs -> db c (serve k reqs w) = db c w.
Proof.
  intros Hf Hb Hok Hr. destruct (bootstrap_spec conn open_ demangle_type fuel livewire_js w0 w k Hf Hb) as (users & _ & -> & Hw & _).
  by apply (serve_untrusted users reqs w Hf Hr Hw Hok).
Qed.

(** ** Storing and showing *)
Local Abbreviation show_route := (blog_route "GET" "/articles/{id}" (show_article conn open_ demangle_type fuel) []).
Local Abbreviation store_route := (blog_route "POST" "/articles" (store_article conn open_ demangle_type fuel) token_guard).
Lemma match_store users :
  match_routes (routes_ (blog_router users)) "POST" "/articles" = Some (store_route, ∅).
Proof. reflexivity. Qed.
Lemma match_show users s : s ≠ "" -> s_all not_slash s ->
  match_routes (routes_ (blog_router users)) "GET" ("/articles/" +:+ s) = Some (show_route, {["id" := s]}).
Proof.
  intros Hs Ha.
  assert (Hskip : forall (r : Route App) rs m p, regex_match (r_pattern r) p = None -> match_routes (r :: rs) m p = match_routes rs m p)
    by (intros r rs m p E; cbn [match_routes]; rewrite E; by case_match).
  unfold BlogBoot.blog_router. cbn [routes_]. do 4 (rewrite Hskip by reflexivity).
  cbn [match_routes]. rewrite bool_decide_eq_false_2 by (intros Hn; by apply Hn).
  assert (E : regex_match (r_pattern show_route) ("/articles/" +:+ s) = Some [s]); [|by rewrite E].
  by apply (regex_match_segment "/articles/").
Qed.

Lemma to_int_to_string z : in_s64 z = true -> to_int (to_string z) = z.
Proof.
  intros Hz. unfold to_int. rewrite bool_decide_eq_false_2.
  - pose proof (stoll_to_string z "" Hz eq_refl) as E. rewrite s_app_nil_r in E. by rewrite E.
  - intros E. pose proof (parse_int_to_string z "" eq_refl) as Hp. by rewrite E in Hp.
Qed.
(** The stored article is found under its id from then on. *)
Definition shows (id : Z) (a : Article) (w : App) : Prop :=
  ok (db 1%nat w) /\ repo_find conn ArticleMapper id (db 1%nat w) = (Ok (Some a), db 1%nat w).

Lemma store_handled (req : Request) (w : App) :
  (3 <= fuel)%nat -> booted w -> ok (db 1%nat w) -> room (db 1%nat w) "articles" 1%nat ->
  headers req !! "Authorization" = Some "secret-token" -> title (form_article (body req)) ≠ "" ->
  norm (VStr (title (form_article (body req)))) = VStr (title (form_article (body req))) ->
  exists id w', run (through token_guard new_pipeline) (store_article conn open_ demangle_type fuel) (req, w) =
      (Ok (response_json (article_json (article_set_id id (form_article (body req)))) 201), (req, w')) /\
    booted w' /\ shows id (article_set_id id (form_article (body req))) w'.
Proof.
  intros Hf Hb Hok Hroom Ha Ht Hn. set (a := form_article (body req)) in *.
  destruct (article_insert_find conn ok view room known fits norm a (db 1 w) 0 Hok Hroom Hn) as (id & d' & E & Hok' & Hfind).
  destruct (article_conn_booted demangle_type fuel w Hf Hb) as (h & Ec).
  exists id, (set_conn 1 d' (set_container_of (booted_container h) w)). split; [|split; [by exists h|]].
  - rewrite run_foldr. cbn. unfold require_token, on_request, gets, mbind, M_bind. cbn [fst snd].
    rewrite Ha, bool_decide_eq_true_2 by done. unfold store_article, on_request, gets, in_app, mbind, M_bind. cbn [fst snd].
    unfold article_action, mbind, M_bind. rewrite Ec. unfold on_conn, on_part, articles_store.
    change (db 1 (set_container_of (booted_container h) w)) with (db 1 w). fold a.
    rewrite bool_decide_eq_false_2 by done. unfold mbind, M_bind. by rewrite E.
  - assert (Ed : db 1 (set_conn 1 d' (set_container_of (booted_container h) w)) = d')
      by (unfold conn_state, set_conn; cbn [w_conns]; by rewrite lookup_insert_eq).
    unfold shows. by rewrite Ed.
Qed.
Lemma show_handled (req : Request) (w : App) (id : Z) (a : Article) :
  (3 <= fuel)%nat -> booted w -> shows id a w -> route_params req !! "id" = Some (to_string id) -> in_s64 id = true ->
  exists w', run (through [] new_pipeline) (show_article conn open_ demangle_type fuel) (req, w) =
      (Ok (response_json (article_json a) 200), (req, w')).
Proof.
  intros Hf Hb [Hok Hs] Hp Hid. destruct (article_conn_booted demangle_type fuel w Hf Hb) as (h & Ec).
  rewrite run_foldr. cbn. unfold show_article, in_app, mbind, M_bind. cbn [fst snd]. rewrite Ec. cbn [fst snd].
  unfold route_param, on_request, gets, mbind, M_bind. cbn [fst snd]. rewrite Hp. cbn [fst snd].
  unfold on_conn, on_part, articles_show, mret, M_ret, mbind, M_bind. cbn [fst snd].
  change (db 1 (set_container_of (booted_container h) w)) with (db 1 w).
  rewrite to_int_to_string, Hs by done. by eexists.
Qed.

(** A matched request whose inner chain answers, answers the same through the kernel, up to
    the session cookie. *)
Lemma handle_answer users (req : Request) (w : App) (route : Route App) (params : gmap string string)
    (P : App -> Prop) (Q : Response -> App -> Prop) :
  match_routes (routes_ (blog_router users)) (method req) (path req) = Some (route, params) ->
  (forall w w', quiet w w' -> P w -> P w') -> (forall r w w', quiet w w' -> Q r w -> Q r w') -> P w ->
  (forall c w1, P w1 -> let req' := set_cookies c (set_route_params params req) in
     exists r w2, run (through (r_middleware route) new_pipeline) (r_handler route) (req', w1) = (Ok r, (req', w2)) /\ Q r w2) ->
  exists r r' w', handle (blog_kernel users) req w = (Ok r', w') /\ same_answer r r' /\ Q r w'.
Proof.
  intros Hm HP HQ Hw Hh. pose proof (handle_stack users req w route params Hm) as E.
  destruct (stack_spec (run (through (r_middleware route) new_pipeline) (r_handler route)) (set_route_params params req) w)
    as (c & w1 & Hc & Hq & _ & Hs).
  destruct (Hh c w1) as (r & w2 & E2 & Hw2); [by eapply HP|]. cbn zeta in E2. rewrite E2 in Hs.
  destruct Hs as (out & w3 & E3 & Hq3 & _ & Hr). destruct (Hr Hc) as (r' & -> & Hsame & _). rewrite E3 in E.
  exists r, r', w3. split; [done|]. split; [done|]. by eapply HQ.
Qed.

(** The state of a running application, and of one that has stored [a] under [id]. *)
Definition running (w : App) : Prop := booted w /\ ok (db 1%nat w).
Definition stored (id : Z) (a : Article) (w : App) : Prop := booted w /\ shows id a w.
Lemma same_db_stored id a w w' : same_db w w' -> stored id a w -> stored id a w'.
Proof.
  intros H0 [Hb Hs]. pose proof Hs as [Hok Hf]. destruct (H0 Hb Hok) as [Hb' E]. split; [done|]. unfold shows. by rewrite E.
Qed.
Lemma post_stores users (post : Request) (w : App) :
  (3 <= fuel)%nat -> running w -> room (db 1%nat w) "articles" 1%nat ->
  method post = "POST" -> path post = "/articles" -> headers post !! "Authorization" = Some "secret-token" ->
  title (form_article (body post)) ≠ "" ->
  norm (VStr (title (form_article (body post)))) = VStr (title (form_article (body post))) ->
  exists id r r' w', handle (blog_kernel users) post w = (Ok r', w') /\ same_answer r r' /\
    stored id (article_set_id id (form_article (body post))) w' /\
    r = response_json (article_json (article_set_id id (form_article (body post)))) 201.
Proof.
  intros Hf [Hb Hok] Hroom Hm Hp Ha Ht Hn.
  destruct (handle_answer users post w store_route ∅ (fun w => running w /\ room (db 1%nat w) "articles" 1%nat)
    (fun r w => exists id, stored id (article_set_id id (form_article (body post))) w /\
       r = response_json (article_json (article_set_id id (form_article (body post)))) 201)) as (r & r' & w' & E & Hs & id & Hid).
  - by rewrite Hm, Hp, match_store.
  - intros u u' Hq [[Hbu Hoku] Hr]. destruct (quiet_same_db u u' Hq Hbu Hoku) as [Hb' E]. unfold running. by rewrite E.
  - intros r u u' Hq (id & Hst & Hr). exists id. split; [|done]. eapply same_db_stored; [|done]. by apply quiet_same_db.
  - done.
  - intros c u [[Hbu Hoku] Hr] req'.
    destruct (store_handled req' u Hf Hbu Hoku Hr Ha Ht Hn) as (id & u' & E & Hb' & Hs). do 2 eexists. split; [exact E|].
    exists id. split; [done|]. done.
  - exists id, r, r', w'. done.
Qed.
Lemma get_shows users (get : Request) (w : App) (id : Z) (a : Article) :
  (3 <= fuel)%nat -> stored id a w -> method get = "GET" -> path get = "/articles/" +:+ to_string id -> in_s64 id = true ->
  exists r' w', handle (blog_kernel users) get w = (Ok r', w') /\ same_answer (response_json (article_json a) 200) r'.
Proof.
  intros Hf Hw Hm Hp Hid. destruct (to_string_segment id) as [Hne Hns].
  destruct (handle_answer users get w show_route {["id" := to_string id]} (stored id a)
    (fun r w => r = response_json (article_json a) 200)) as (r & r' & w' & E & Hs & ->).
  - by rewrite Hm, Hp, match_show.
  - intros u u' Hq. apply same_db_stored. by apply quiet_same_db.
  - done.
  - done.
  - intros c u [Hb Hs] req'. destruct (show_handled req' u id a Hf Hb Hs) as (u' & E); [apply lookup_insert_eq|done|]. eauto.
  - eauto.
Qed.

(** C28: What was stored is shown.  After [bootstrap] and any requests without the token, a
    POST of an article with the token and a title answers 201 with the article under a new
    id; after any further requests without the token, a GET of that id answers 200 with
    exactly the body the POST answered.  The database is any that keeps [TableLaws] and
    gives the title back as it is. *)
Theorem stored_is_shown (w0 w : App) (k : Kernel App) (before after : list Request) (post : Request) :
  (3 <= fuel)%nat -> bootstrap conn open_ demangle_type fuel livewire_js w0 = (Ok k, w) ->
  ok (db 1%nat w) -> room (db 1%nat w) "articles" 1%nat -> Forall untrusted before -> Forall untrusted after ->
  method post = "POST" -> path post = "/articles" -> headers post !! "Authorization" = Some "secret-token" ->
  let a := form_article (body post) in title a ≠ "" -> norm (VStr (title a)) = VStr (title a) ->
  exists id r w2, handle k post (serve k before w) = (Ok r, w2) /\ status r = 201%Z /\
    res_body r = article_json (article_set_id id a) /\
    forall get, method get = "GET" -> path get = "/articles/" +:+ to_string id -> in_s64 id = true ->
      exists r', (handle k get (serve k after w2)).1 = Ok r' /\ status r' = 200%Z /\ res_body r' = res_body r.
Proof.
  intros Hf Hboot Hok Hroom Hbefore Hafter Hm Hp Hauth a Ht Hn.
  destruct (bootstrap_spec conn open_ demangle_type fuel livewire_js w0 w k Hf Hboot) as (users & _ & -> & Hb & _).
  destruct (serve_untrusted users before w Hf Hbefore Hb Hok) as [Hb1 E1].
  assert (Hrun : running (serve (blog_kernel users) before w)) by (split; [exact Hb1|rewrite E1; exact Hok]).
  assert (Hr1 : room (db 1%nat (serve (blog_kernel users) before w)) "articles" 1%nat) by (rewrite E1; exact Hroom).
  destruct (post_stores users post _ Hf Hrun Hr1 Hm Hp Hauth Ht Hn) as (id & r & r' & w2 & E & [Hs Hbody _] & Hst & ->).
  exists id, r', w2. split; [done|]. split; [done|]. split; [done|]. intros get Hgm Hgp Hid. fold a in Hst, Hbody.
  assert (Hst' : stored id (article_set_id id a) (serve (blog_kernel users) after w2))
    by (eapply same_db_stored; [apply (serve_untrusted users after w2 Hf Hafter)|exact Hst]).
  destruct (get_shows users get _ id (article_set_id id a) Hf Hst' Hgm Hgp Hid) as (r2 & w3 & E2 & [Hs2 Hb2 _]).
  exists r2. rewrite E2. split; [done|]. split; [exact Hs2|]. by rewrite Hb2, Hbody.
Qed.
End flows.

(** ** The application on the memory backend *)
Definition demo_env : Env := mkEnv (fun n => Z.of_nat n) 0 (fun n k => "0123456789abcdef") 0.
Definition demo_start : AppState Memory :=
  mkAppState (new_sessions 0) empty_cache demo_env new_container None ∅ [].
Abbreviation demo_bootstrap fuel := (bootstrap MemoryConnection empty_memory (fun k => k) fuel (H := canonical_order) "js").
(** The database after the migrations. *)
Definition demo_db : Memory :=
  fold_left (fun m r => (mem_insert "migrations" r m).2)
    (map (fun m => set_cell "name" (VStr (m_name m)) ∅) (app_migrations MemoryConnection)) empty_memory.
Lemma demo_db_ok : memory_ok demo_db.
Proof. apply memory_ok_inserts; [apply empty_memory_ok|vm_compute; reflexivity]. Qed.

Lemma demo_boots fuel : (3 <= fuel)%nat ->
  exists k w, demo_bootstrap fuel demo_start = (Ok k, w) /\ conn_state empty_memory 1 w = demo_db.
Proof.
  intros Hf. assert (E : match demo_bootstrap fuel demo_start with
              | (Ok _, w) => Some (conn_state empty_memory 1 w)
              | (Throw _, _) => None
              end = Some demo_db) by (destruct fuel as [|[|[|f]]]; [lia..|vm_compute; reflexivity]).
  destruct (demo_bootstrap fuel demo_start) as [[k|e] w]; [|discriminate E]. exists k, w. split; [reflexivity|]. congruence.
Qed.

Definition get_request (p : string) : Request := mkRequest "GET" p ∅ ∅ "" ∅ ∅ "".
Definition post_request (p b : string) (h : gmap string string) : Request := mkRequest "POST" p ∅ h b ∅ ∅ "".

Lemma get_untrusted p : untrusted (get_request p).
Proof. done. Qed.

Lemma writes_need_token_witness : exists k w, demo_bootstrap 9 demo_start = (Ok k, w) /\
  conn_state empty_memory 1 (serve k [post_request "/articles" "title=x" ∅; get_request "/articles"] w) = demo_db.
Proof.
  destruct (demo_boots 9 ltac:(lia)) as (k & w & Hk & Hdb). exists k, w. split; [exact Hk|]. rewrite <- Hdb.
  refine (writes_need_token MemoryConnection memory_ok rows_of memory_room (fun _ => True) (fun _ _ => True) id empty_memory (fun k => k) 9 (H := canonical_order) "js"
    demo_start w k _ 1 _ Hk _ _); [lia|rewrite Hdb; exact demo_db_ok|].
  apply Forall_cons_2; [done|]. apply Forall_singleton, get_untrusted.
Defined.

Lemma stored_is_shown_witness : exists (k : Kernel (AppState Memory)) w,
  let post := post_request "/articles" "title=Hi&views=3" {["Authorization" := "secret-token"]} in
  exists id r w2, handle k post (serve k [get_request "/login"] w) = (Ok r, w2) /\
    status r = 201%Z /\ res_body r = article_json (mkArticle id "Hi" 3 false) /\
    forall get, method get = "GET" -> path get = "/articles/" +:+ to_string id -> in_s64 id = true ->
      exists r', (handle k get (serve k [get_request "/articles"] w2)).1 = Ok r' /\
        status r' = 200%Z /\ res_body r' = res_body r.
Proof.
  destruct (demo_boots 9 ltac:(lia)) as (k & w & Hk & Hdb). exists k, w. intros post.
  refine (stored_is_shown MemoryConnection memory_ok rows_of memory_room (fun _ => True) (fun _ _ => True) id empty_memory (fun k => k) 9 (H := canonical_order) "js"
    demo_start w k [get_request "/login"] [get_request "/articles"] post _ Hk _ _ _ _ eq_refl eq_refl eq_refl _ eq_refl).
  - lia.
  - rewrite Hdb. exact demo_db_ok.
  - rewrite Hdb. vm_compute. reflexivity.
  - apply Forall_singleton, get_untrusted.
  - apply Forall_singleton, get_untrusted.
  - vm_compute. discriminate.
Defined.
