(* ===== verification/BlogLogin.v ===== *)
(** * examples/blog: logging in, end to end

    The login form, the login and the page behind it, as whole requests through the kernel
    of the application with the session cookie a client sends. *)
From S2P Require Import Prelude CppString CppNum Livewire View Container Facade Database Repository Migration BlogModels Session Cache Auth HttpAuth Router Kernel Pipeline Http Blog BlogBoot BlogArticles.

Local Open Scope Z_scope.

Section flows.
Context {D : Type} (conn : Connection D) (open_ : D) (demangle_type : Key -> string) (fuel : nat)
  `{MapOrder string} (livewire_js : string).
Local Abbreviation App := (AppState D).
Local Abbreviation blog_kernel := (blog_kernel conn open_ demangle_type fuel livewire_js).
Local Abbreviation blog_router := (blog_router conn open_ demangle_type fuel livewire_js).
Implicit Types (w : App).

(** ** The session store of the application *)
Definition store_of w : Store := (w_sessions w, w_env w).
Definition app_data w (sid : string) : gmap string string := session_data (w_sessions w) sid.
Definition plain w : Prop := ttl_ (w_sessions w) = 0.

Lemma app_get sid key w : plain w -> s_get app_sessions sid key w = (Ok (app_data w sid !! key), w).
Proof.
  intros Hp. cbn. unfold on_store, on_part. rewrite plain_get by exact Hp. by destruct w.
Qed.
Lemma app_has sid key w : plain w -> s_has app_sessions sid key w = (Ok (bool_decide (app_data w sid !! key ≠ None)), w).
Proof.
  intros Hp. cbn. unfold on_store, on_part. rewrite plain_has by exact Hp. by destruct w.
Qed.
(** [w] with the data of some sessions changed and the source of randomness read. *)
Definition with_data (d : gmap string (gmap string string)) (seen : gmap string Z) (e : Env) w : App :=
  set_store (mkSessions 0 d seen, e) w.
Lemma app_put sid key v w : plain w ->
  s_put app_sessions sid key v w =
    (Ok tt, with_data (<[sid := <[key := v]> (app_data w sid)]> (data_ (w_sessions w))) (last_seen_ (w_sessions w)) (w_env w) w).
Proof. intros Hp. cbn. unfold on_store, on_part. by rewrite plain_put by exact Hp. Qed.
Lemma app_rename from to w d : plain w -> data_ (w_sessions w) !! from = Some d ->
  s_rename app_sessions from to w =
    (Ok true, with_data (delete from (<[to := d]> (data_ (w_sessions w)))) (delete from (last_seen_ (w_sessions w))) (w_env w) w).
Proof. intros Hp Hd. cbn. unfold on_store, on_part. rewrite plain_rename by exact Hp. cbn [fst]. by rewrite Hd. Qed.
Definition next_id w : string := hex_string (entropy (w_env w) (draws (w_env w)) 16).
Lemma app_fresh w : exists e, app_fresh_id w = (Ok (next_id w), set_env e w).
Proof.
  unfold app_fresh_id, on_env, on_part. destruct (new_session_id_spec (w_env w)) as (s & e & -> & -> & _). by exists e.
Qed.

(** ** A request with a session cookie *)
Definition asks (m p sid : string) (req : Request) : Prop :=
  method req = m /\ path req = p /\ sent_cookies req !! "lwsid" = Some sid.
Lemma handle_known users (req : Request) w (route : Route App) params (Q : Response -> Store -> Prop) m p sid :
  asks m p sid req -> match_routes (routes_ (blog_router users)) m p = Some (route, params) ->
  (forall w1, store_of w1 = store_of w ->
     let req' := set_cookies (sent_cookies req) (set_route_params params req) in
     exists r q2 w3, run (through (r_middleware route) new_pipeline) (r_handler route) (req', w1) = (Ok r, (q2, w3)) /\
       cookies q2 !! "lwsid" ≠ None /\ Q r (store_of w3)) ->
  exists r w', handle (blog_kernel users) req w = (Ok r, w') /\ Q r (store_of w').
Proof.
  intros (Hm & Hp & Hsent) E Hh.
  pose proof (handle_stack conn open_ demangle_type fuel livewire_js users req w route params) as Hk.
  rewrite Hm, Hp in Hk. specialize (Hk E).
  destruct (stack_spec (run (through (r_middleware route) new_pipeline) (r_handler route)) (set_route_params params req) w)
    as (c & w1 & _ & Hq & Hsame & Hs).
  change (sent_cookies (set_route_params params req)) with (sent_cookies req) in *.
  destruct Hsame as [-> Henv]; [by rewrite Hsent|].
  destruct (Hh w1) as (r & q2 & w3 & E2 & Hc2 & Hst); [unfold store_of; destruct Hq; congruence|].
  cbn zeta in E2. rewrite E2 in Hs.
  destruct Hs as (out & w4 & E4 & Hq4 & He4 & Hr). destruct (Hr Hc2) as (r' & -> & _ & Hr'). rewrite E4 in Hk.
  exists r, w4. rewrite Hr' in Hk by (by rewrite Hsent). split; [exact Hk|].
  replace (store_of w4) with (store_of w3); [done|]. unfold store_of. destruct Hq4; congruence.
Qed.
(** What the inner chain sees of such a request. *)
Lemma known_request m p sid req params : asks m p sid req ->
  let req' := set_cookies (sent_cookies req) (set_route_params params req) in
  session_of default_options req' = sid /\ cookies req' !! "lwsid" = Some sid /\ body req' = body req /\
  provided_token req' = provided_token req.
Proof. intros (_ & _ & Hs). unfold session_of. cbn [cookies set_cookies o_name default_options]. by rewrite Hs. Qed.

Lemma same_store w w1 sid : store_of w1 = store_of w -> plain w -> plain w1 /\ app_data w1 sid = app_data w sid.
Proof. intros [= E _] Hp. unfold plain, app_data. by rewrite E. Qed.

(** ** The four requests *)
(** The token the form carries: the session's, or a fresh one. *)
Definition form_token (st : Store) (sid : string) : string :=
  match session_data st.1 sid !! "_csrf" with Some t => t | None => hex_string (entropy st.2 (draws st.2) 16) end.
Definition with_token (st : Store) (sid : string) (st' : Store) : Prop :=
  ttl_ st'.1 = 0 /\ session_data st'.1 sid = <["_csrf" := form_token st sid]> (session_data st.1 sid).
Ltac run_handler :=
  rewrite run_foldr; cbn [middlewares_ through foldr r_middleware r_handler blog_route csrf_guard];
  unfold on_request, edit_request, gets, modify, in_app, mret, M_ret, mbind, M_bind; cbn [fst snd].

Lemma form_served users page w sid : plain w -> asks "GET" "/login" sid page ->
  exists r w', handle (blog_kernel users) page w = (Ok r, w') /\
    r = html_page (login_form (form_token (store_of w) sid)) /\ with_token (store_of w) sid (store_of w').
Proof.
  intros Hp Ha. apply (handle_known users page w (blog_route "GET" "/login" (show_login app_sessions app_fresh_id) []) ∅
    (fun r st => r = html_page (login_form (form_token (store_of w) sid)) /\ with_token (store_of w) sid st) _ _ sid Ha eq_refl).
  intros w1 Hst req'. destruct (known_request _ _ _ page ∅ Ha : let r := req' in _) as (Hsid & Hc & _ & _). clearbody req'.
  pose proof (same_store w w1 sid Hst Hp) as [Hp1 Ed].
  run_handler. unfold show_login, csrf_token, on_request, gets, in_app, mret, M_ret, mbind, M_bind. cbn [fst snd].
  rewrite Hsid, app_get by done. rewrite <- Hst. unfold with_token, form_token. cbn [store_of fst snd].
  unfold app_data. destruct (session_data (w_sessions w1) sid !! "_csrf") as [t|] eqn:E.
  - do 3 eexists. split; [reflexivity|]. cbn [fst snd]. split; [by rewrite Hc|]. split; [done|]. split; [done|].
    cbn. rewrite insert_id; [done|exact E].
  - destruct (app_fresh w1) as (e & ->). rewrite app_put by done. do 3 eexists. split; [reflexivity|].
    split; [by rewrite Hc|]. split; [done|]. split; [done|]. unfold session_data at 1. cbn. by rewrite lookup_insert_eq.
Qed.

(** A POST the CSRF guard stops. *)
Lemma forged_refused users post w sid : plain w -> asks "POST" "/login" sid post ->
  app_data w sid !! "_csrf" ≠ Some (provided_token post) ->
  exists r w', handle (blog_kernel users) post w = (Ok r, w') /\ status r = 419 /\ store_of w' = store_of w.
Proof.
  intros Hp Ha Ht. apply (handle_known users post w (blog_route "POST" "/login" (auth_login app_sessions app_fresh_id users) csrf_guard) ∅
    (fun r st => status r = 419 /\ st = store_of w) _ _ sid Ha eq_refl).
  intros w1 Hst req'. destruct (known_request _ _ _ post ∅ Ha : let r := req' in _) as (Hsid & Hc & _ & Htok). clearbody req'.
  pose proof (same_store w w1 sid Hst Hp) as [Hp1 Ed].
  rewrite run_foldr. cbn [middlewares_ through foldr r_middleware r_handler blog_route csrf_guard].
  rewrite (verify_csrf_spec app_sessions), Hsid, Htok, app_get by done.
  rewrite bool_decide_eq_false_2.
  - do 3 eexists. split; [reflexivity|]. split; [by rewrite Hc|]. by split.
  - by rewrite Ed.
Qed.

(** ** Logging in *)
Definition fresh_of (st : Store) : string := hex_string (entropy st.2 (draws st.2) 16).
(** What a successful login leaves: the data under the fresh id, nothing under the old. *)
Definition moved (st : Store) (sid : string) (st' : Store) : Prop :=
  ttl_ st'.1 = 0 /\ data_ st'.1 !! sid = None /\
  session_data st'.1 (fresh_of st) = <["auth_id" := "1"]> (session_data st.1 sid).
Definition posts (name pw : string) (post : Request) : Prop :=
  form_value (parse_form (body post)) "username" = name /\ form_value (parse_form (body post)) "password" = pw.

Lemma login_done users post w sid : seeded users -> plain w -> asks "POST" "/login" sid post ->
  posts "ada" "secret" post -> app_data w sid !! "_csrf" = Some (provided_token post) -> fresh_of (store_of w) ≠ sid ->
  exists r w', handle (blog_kernel users) post w = (Ok r, w') /\
    r = set_res_header "Set-Cookie" (cookie_header (fresh_of (store_of w)) default_options) (response_redirect "/me") /\
    moved (store_of w) sid (store_of w').
Proof.
  intros (u & Hu & _ & Hid & _ & Hpw & _) Hp Ha [Hn Hs] Ht Hne.
  apply (handle_known users post w (blog_route "POST" "/login" (auth_login app_sessions app_fresh_id users) csrf_guard) ∅
    (fun r st => r = set_res_header "Set-Cookie" (cookie_header (fresh_of (store_of w)) default_options) (response_redirect "/me")
       /\ moved (store_of w) sid st) _ _ sid Ha eq_refl).
  intros w1 Hst req'. destruct (known_request _ _ _ post ∅ Ha : let r := req' in _) as (Hsid & Hc & Hbody & Htok). clearbody req'.
  pose proof (same_store w w1 sid Hst Hp) as [Hp1 Ed]. rewrite <- Ed in Ht.
  rewrite run_foldr. cbn [middlewares_ through foldr r_middleware r_handler blog_route csrf_guard].
  rewrite (verify_csrf_spec app_sessions), Hsid, Htok, app_get, bool_decide_eq_true_2 by done.
  unfold auth_login, on_request, edit_request, modify, gets, in_app, mret, M_ret, mbind, M_bind. cbn [fst snd].
  unfold attempt_login, attempt, login, mret, M_ret, mbind, M_bind. rewrite Hbody, Hn, Hs, Hsid, Hu, Hpw, Hid, app_put by done.
  unfold regenerate_id, mret, M_ret, mbind, M_bind. set (w2 := with_data _ _ _ w1).
  assert (Ef : next_id w2 = fresh_of (store_of w)) by (rewrite <- Hst; done).
  destruct (app_fresh w2) as (e & ->). rewrite Ef.
  assert (Hd : data_ (w_sessions (set_env e w2)) !! sid = Some (<["auth_id" := to_string 1]> (app_data w1 sid)))
    by apply lookup_insert_eq.
  rewrite (app_rename sid (fresh_of (store_of w)) (set_env e w2) _ eq_refl Hd). cbn [fst snd].
  do 3 eexists. split; [reflexivity|]. split; [cbn [cookies set_cookies o_name default_options]; by rewrite lookup_insert_eq|].
  split; [done|]. split; [done|]. cbn [store_of fst with_data set_store w_sessions data_].
  split; [apply lookup_delete_eq|]. unfold session_data at 1. cbn [data_].
  rewrite lookup_delete_ne, lookup_insert_eq by done. change (w_sessions w) with (store_of w).1. by rewrite <- Hst.
Qed.

(** ** The page behind the login *)
Local Abbreviation me_route users := (blog_route "GET" "/me" (auth_me app_sessions users) [require_auth app_sessions default_options]).
Lemma me_known users me w sid : seeded users -> plain w -> asks "GET" "/me" sid me -> app_data w sid !! "auth_id" = Some "1" ->
  exists r w', handle (blog_kernel users) me w = (Ok r, w') /\ status r = 200 /\
    res_body r = "{" +:+ dq "id" +:+ ":1," +:+ dq "username" +:+ ":" +:+ dq "ada" +:+ "}".
Proof.
  intros (u & _ & Hu & Hid & Hname & _) Hp Ha E.
  destruct (handle_known users me w (me_route users) ∅ (fun r st => status r = 200 /\
    res_body r = "{" +:+ dq "id" +:+ ":1," +:+ dq "username" +:+ ":" +:+ dq "ada" +:+ "}") _ _ sid Ha eq_refl)
    as (r & w' & Eh & Hr & Hb); [|eauto 6].
  intros w1 Hst req'. destruct (known_request _ _ _ me ∅ Ha : let r := req' in _) as (Hsid & Hc & _ & _). clearbody req'.
  apply (same_store w w1 sid) in Hst as [Hp1 Ed]; [|done]. rewrite <- Ed in E.
  rewrite run_foldr. cbn [middlewares_ through foldr r_middleware r_handler blog_route].
  rewrite (require_auth_spec app_sessions), Hsid, app_has, E, bool_decide_eq_true_2 by done.
  unfold auth_me, user, auth_id, on_request, gets, in_app, mret, M_ret, mbind, M_bind. cbn [fst snd].
  rewrite Hsid, app_get, E by done. change (res_opt (stoll "1")) with (Some 1). cbv iota. rewrite Hu. cbn [fst snd].
  do 3 eexists. split; [reflexivity|]. split; [by rewrite Hc|]. split; [done|]. unfold user_json. by rewrite Hid, Hname.
Qed.
Lemma me_unknown users me w sid : plain w -> asks "GET" "/me" sid me -> app_data w sid !! "auth_id" = None ->
  exists r w', handle (blog_kernel users) me w = (Ok r, w') /\ status r = 401.
Proof.
  intros Hp Ha E.
  destruct (handle_known users me w (me_route users) ∅ (fun r st => status r = 401) _ _ sid Ha eq_refl)
    as (r & w' & Eh & Hr); [|eauto 6].
  intros w1 Hst req'. destruct (known_request _ _ _ me ∅ Ha : let r := req' in _) as (Hsid & Hc & _ & _). clearbody req'.
  apply (same_store w w1 sid) in Hst as [Hp1 Ed]; [|done]. rewrite <- Ed in E.
  rewrite run_foldr. cbn [middlewares_ through foldr r_middleware r_handler blog_route].
  rewrite (require_auth_spec app_sessions), Hsid, app_has, E, bool_decide_eq_false_2 by (done || tauto).
  do 3 eexists. split; [reflexivity|]. split; [by rewrite Hc|done].
Qed.

(** C29: Logging in, as a browser sees it.  In any state of the application, a client with a
    session cookie is given a form with a token.  Posting the seeded user's name and
    password with that token answers with a redirect to /me and a cookie for a fresh
    session, with which /me shows the user; the cookie the client came with, which an
    attacker may have planted, shows nothing.  Posting with another token is refused and
    leaves the sessions as they were. *)
Theorem login_flow (w0 wb w : App) (k : Kernel App) (sid : string) (page post : Request) :
  (3 <= fuel)%nat -> bootstrap conn open_ demangle_type fuel livewire_js w0 = (Ok k, wb) ->
  plain w -> asks "GET" "/login" sid page -> asks "POST" "/login" sid post -> posts "ada" "secret" post ->
  let token := form_token (store_of w) sid in
  exists r1 w1, handle k page w = (Ok r1, w1) /\ status r1 = 200 /\ res_body r1 = login_form token /\
    (provided_token post = token -> next_id w1 ≠ sid ->
     exists r2 w2, handle k post w1 = (Ok r2, w2) /\ status r2 = 302 /\ res_headers r2 !! "Location" = Some "/me" /\
       res_headers r2 !! "Set-Cookie" = Some (cookie_header (next_id w1) default_options) /\
       (forall me, asks "GET" "/me" (next_id w1) me -> exists r w3, handle k me w2 = (Ok r, w3) /\ status r = 200 /\
          res_body r = "{" +:+ dq "id" +:+ ":1," +:+ dq "username" +:+ ":" +:+ dq "ada" +:+ "}") /\
       (forall me, asks "GET" "/me" sid me -> exists r w3, handle k me w2 = (Ok r, w3) /\ status r = 401)) /\
    (provided_token post ≠ token -> exists r2 w2, handle k post w1 = (Ok r2, w2) /\ status r2 = 419 /\
       w_sessions w2 = w_sessions w1).
Proof.
  intros Hf Hb Hp Hpage Hpost Hcred token.
  destruct (bootstrap_spec conn open_ demangle_type fuel livewire_js w0 wb k Hf Hb) as (users & Hs & -> & _).
  destruct (form_served users page w sid Hp Hpage) as (r1 & w1 & E1 & -> & Hp1 & Hd1).
  fold token in Hd1 |- *. exists (html_page (login_form token)), w1.
  assert (Ht : app_data w1 sid !! "_csrf" = Some token) by (unfold app_data; cbn in Hd1; rewrite Hd1; apply lookup_insert_eq).
  split; [done|]. split; [done|]. split; [done|]. split.
  - intros Htok Hne. rewrite <- Htok in Ht.
    destruct (login_done users post w1 sid Hs Hp1 Hpost Hcred Ht Hne) as (r2 & w2 & E2 & -> & Hp2 & Hold & Hnew).
    exists (set_res_header "Set-Cookie" (cookie_header (next_id w1) default_options) (response_redirect "/me")), w2.
    split; [exact E2|]. do 3 (split; [done|]). split; intros me Hme.
    + apply (me_known users me w2 _ Hs Hp2 Hme). unfold app_data. cbn in Hnew.
      change (next_id w1) with (fresh_of (store_of w1)). rewrite Hnew. apply lookup_insert_eq.
    + apply (me_unknown users me w2 _ Hp2 Hme). unfold app_data, session_data. cbn in Hold. by rewrite Hold.
  - intros Htok. destruct (forged_refused users post w1 sid Hp1 Hpost) as (r2 & w2 & E2 & H2 & Hst); [rewrite Ht; congruence|].
    exists r2, w2. split; [done|]. split; [done|]. by injection Hst.
Qed.
End flows.

(** A random source of two draws. *)
Definition two_draws : Env := mkEnv (fun n => Z.of_nat n) 0 (fun n _ => if (n =? 0)%nat then "aaaaaaaaaaaaaaaa" else "bbbbbbbbbbbbbbbb") 0.
Definition planted : gmap string string := {["Cookie" := "lwsid=planted"]}.
Definition login_page : Request := mkRequest "GET" "/login" ∅ planted "" ∅ ∅ "".
Definition login_post : Request :=
  post_request "/login" ("username=ada&password=secret&_token=" +:+ hex_string "aaaaaaaaaaaaaaaa") planted.

Lemma login_flow_witness : exists (k : Kernel (AppState Memory)) w r1 w1 r2 w2,
  handle k login_page w = (Ok r1, w1) /\ handle k login_post w1 = (Ok r2, w2) /\ status r2 = 302.
Proof.
  destruct (demo_boots 9 ltac:(lia)) as (k & w & Hk & _). set (v := set_store (new_sessions 0, two_draws) demo_start).
  destruct (login_flow MemoryConnection empty_memory (fun k => k) 9 (H := canonical_order) "js" demo_start w v k "planted"
    login_page login_post ltac:(lia) Hk eq_refl (conj eq_refl (conj eq_refl eq_refl)) (conj eq_refl (conj eq_refl eq_refl))
    (conj eq_refl eq_refl)) as (r1 & w1 & E1 & _ & _ & Hgood & _).
  destruct Hgood as (r2 & w2 & E2 & H2 & _).
  - vm_compute. reflexivity.
  - unfold next_id. intros E. pose proof (proj1 (hex_string_spec (entropy (w_env w1) (draws (w_env w1)) 16))) as Hh.
    rewrite E in Hh. by apply s_all_cons in Hh as [Hh _].
  - exists k, v, r1, w1, r2, w2. split; [exact E1|]. split; [exact E2|exact H2].
Defined.
