(* ===== verification/BlogCounter.v ===== *)
(** * examples/blog: the counter component, end to end

    A click on the counter's buttons as the request the JavaScript client posts, through
    the kernel, the router, the Livewire entry and the template engine. *)
From S2P Require Import Prelude CppString CppNum Livewire Container Facade Database Repository Migration BlogModels Session Cache Auth HttpAuth Router Kernel Pipeline Http View ViewTree Blog BlogBoot BlogArticles.

Local Open Scope Z_scope.

(** ** The page *)
Definition counter_tree : tree := Page [
  Text "<span>Count: "; Echo " count ";
  Text ("</span> <button wire:click=" +:+ dq "decrement" +:+ ">-</button> <button wire:click=" +:+ dq "increment"
    +:+ ">+</button><div><input wire:model=" +:+ dq "name" +:+ " value=" +:+ str1 quote);
  Echo " name "; Text (str1 quote +:+ "> <p>Hello "); Echo " greeting ";
  Text ("</p></div><span wire:loading>updating…</span><span wire:loading wire:target=" +:+ dq "increment" +:+ ">+1…</span>")].
Definition counter_page (count name : string) : string :=
  "<span>Count: " +:+ escape count +:+ "</span> <button wire:click=" +:+ dq "decrement" +:+ ">-</button> <button wire:click="
  +:+ dq "increment" +:+ ">+</button><div><input wire:model=" +:+ dq "name" +:+ " value=" +:+ dq (escape name)
  +:+ "> <p>Hello " +:+ escape (if bool_decide (name = "") then "stranger" else name)
  +:+ "</p></div><span wire:loading>updating…</span><span wire:loading wire:target=" +:+ dq "increment" +:+ ">+1…</span>".

Lemma counter_template_tree : counter_template = print_tree counter_tree.
Proof. vm_compute. reflexivity. Qed.
Lemma counter_renders count name : exists enough, forall fuel, (enough <= fuel)%nat ->
  View.render fuel counter_template
    (set_var "greeting" (if bool_decide (name = "") then "stranger" else name)
      (set_var "name" name (set_var "count" count (mkView ∅ ∅)))) = Some (Ok (counter_page count name)).
Proof.
  set (ctx := set_var "greeting" _ _). rewrite counter_template_tree.
  destruct (tree_renders (fun _ => "") (fun _ _ _ => "") counter_tree ctx None) as [N HN].
  - vm_compute. reflexivity.
  - intros m Hm. cbn in Hm. by apply elem_of_nil in Hm.
  - vm_compute. reflexivity.
  - exists N. intros fuel Hf. unfold View.render. rewrite HN by done. do 2 f_equal.
    unfold eval_tree, counter_tree, evals, counter_page. cbn [map eval s_concat].
    change (trim " count ") with "count". change (trim " name ") with "name". change (trim " greeting ") with "greeting".
    change (var "greeting" ctx) with (if bool_decide (name = "") then "stranger" else name).
    change (var "name" ctx) with name. change (var "count" ctx) with count.
    unfold dq. rewrite ?s_app_nil_r, ?s_app_assoc. reflexivity.
Qed.

(** ** The click *)
Definition step_of (action : string) : option Z :=
  if bool_decide (action = "increment") then Some 1 else if bool_decide (action = "decrement") then Some (-1) else None.

Section click.
Context `{MapOrder string}.

(** The component rebuilt from the posted state, after the action. *)
Lemma counter_update fuel action arg (st : gmap string string) n d name : (0 < fuel)%nat ->
  step_of action = Some d -> st !! "count" = Some (to_string n) -> st !! "name" = Some name -> in_s32 n = true ->
  View.render fuel counter_template
    (set_var "greeting" (if bool_decide (name = "") then "stranger" else name)
      (set_var "name" name (set_var "count" (to_string (s32 (n + d))) (mkView ∅ ∅)))) = Some (Ok (counter_page (to_string (s32 (n + d))) name)) ->
  Livewire.update (blog_livewire fuel) fuel (mkUpdateRequest "counter" action arg st) =
    Some (Ok (mkUpdateResponse (counter_page (to_string (s32 (n + d))) name) (<["count" := to_string (s32 (n + d))]> st))).
Proof.
  intros Hfuel Hd Hcount Hname Hn Hr. unfold Livewire.update. cbn [req_name req_action req_arg req_state].
  change (Livewire.make (blog_livewire fuel) "counter") with (Some (Counter fuel)). cbv iota zeta.
  assert (Hfill : (st ∪ (fresh (Counter fuel)).1, (fresh (Counter fuel)).2) = (st, tt)).
  { f_equal. cbn [Counter on fresh plain_class fst]. apply map_eq. intros k.
    destruct (st !! k) as [v|] eqn:E; [by apply lookup_union_Some_l|]. rewrite lookup_union_r by done.
    rewrite lookup_insert_ne by (intros <-; congruence). by rewrite lookup_singleton_ne by (intros <-; congruence). }
  rewrite Hfill.
  assert (Hcall : Livewire.call (Counter fuel) action arg (st, tt) = (Ok true, (<["count" := to_string (s32 (n + d))]> st, tt))).
  { unfold Livewire.call.
    match goal with |- (match ?x with _ => _ end) _ = _ => assert (E0 : x = Some (count_by d)) end.
    { unfold step_of in Hd. repeat case_bool_decide; simplify_eq; reflexivity. }
    rewrite E0.
    unfold count_by, gets, modify, lift_res, mbind, M_bind, mret, M_ret. unfold state_item at 1. cbn [fst]. rewrite Hcount.
    pose proof (stoi_to_string n "" Hn eq_refl) as E. rewrite s_app_nil_r in E. by rewrite E. }
  unfold mret, M_ret, mbind, M_bind in *. change (Livewire.hydrate (Counter fuel) (st, tt)) with (Ok tt : res unit, (st, tt)).
  cbv iota beta. rewrite Hcall.
  cbn [Livewire.render Counter on plain_class]. unfold counter_render, state_at. cbn [fst].
  rewrite lookup_insert_eq, lookup_insert_ne, Hname by done. unfold html_res. rewrite Hr. done.
Qed.
End click.

Section flow.
Context {D : Type} (conn : Connection D) (open_ : D) (demangle_type : Key -> string) `{MapOrder string} (livewire_js : string).

(** C30: A click counts.  The request the client posts for a click on the counter's
    "increment" or "decrement" button, holding the count [n] of its page, answers 200 with
    the JSON of the page for [n + 1] or [n - 1] (in 32 bits) and the state that holds it,
    the other properties as they were; in any state of the application. *)
Theorem click_counts (action arg name : string) (st : gmap string string) (n d : Z) :
  step_of action = Some d -> st !! "count" = Some (to_string n) -> st !! "name" = Some name -> in_s32 n = true ->
  request_ok (mkUpdateRequest "counter" action arg st) ->
  exists enough, forall fuel w0 wb w k req, (enough <= fuel)%nat ->
    bootstrap conn open_ demangle_type fuel livewire_js w0 = (Ok k, wb) ->
    method req = "POST" -> path req = "/livewire" -> body req = request_text (mkUpdateRequest "counter" action arg st) ->
    exists r w', handle k req w = (Ok r, w') /\ status r = 200 /\
      res_body r = Livewire.response_json
        (mkUpdateResponse (counter_page (to_string (s32 (n + d))) name) (<["count" := to_string (s32 (n + d))]> st)).
Proof.
  intros Hd Hcount Hname Hn Hok. destruct (counter_renders (to_string (s32 (n + d))) name) as [N HN].
  exists (N + 3)%nat. intros fuel w0 wb w k req Hf Hb Hm Hp Hbody.
  destruct (bootstrap_spec conn open_ demangle_type fuel livewire_js w0 wb k ltac:(lia) Hb) as (users & _ & -> & _).
  assert (Hhandle : Livewire.handle (blog_livewire fuel) fuel (body req) = Some (Ok (Livewire.response_json
    (mkUpdateResponse (counter_page (to_string (s32 (n + d))) name) (<["count" := to_string (s32 (n + d))]> st))))).
  { unfold Livewire.handle. rewrite Hbody, parse_request_posted by done.
    rewrite (counter_update fuel action arg st n d name) by (done || lia || (apply HN; lia)). done. }
  destruct (handle_answer conn open_ demangle_type fuel livewire_js users req w
    (blog_route "POST" "/livewire" (livewire_update fuel) []) ∅ (fun _ => True)
    (fun r _ => r = response_json (Livewire.response_json
      (mkUpdateResponse (counter_page (to_string (s32 (n + d))) name) (<["count" := to_string (s32 (n + d))]> st))) 200))
    as (r & r' & w' & E & [Hs Hbd _] & ->); try done.
  - rewrite Hm, Hp. reflexivity.
  - intros c w1 _ req'. rewrite run_foldr. cbn [middlewares_ through foldr r_middleware r_handler blog_route].
    unfold livewire_update, on_request, gets, in_app, mret, M_ret, mbind, M_bind. cbn [fst snd].
    change (body req') with (body req). rewrite Hhandle. unfold livewire_result, rendered, lift_res. cbn [fst snd]. by do 2 eexists.
  - exists r', w'. done.
Qed.
End flow.

Definition demo_state : gmap string string := <["name" := ""]> {["count" := "41"]}.
Definition click : Request := post_request "/livewire"
  (request_text (H := canonical_order) (mkUpdateRequest "counter" "increment" "" demo_state)) ∅.
Lemma click_counts_witness : exists fuel k w r w',
  demo_bootstrap fuel demo_start = (Ok k, w) /\ handle k click w = (Ok r, w') /\ status r = 200 /\
  res_body r = Livewire.response_json (H := canonical_order)
    (mkUpdateResponse (counter_page "42" "") (<["count" := "42"]> demo_state)).
Proof.
  destruct (click_counts MemoryConnection empty_memory (fun k => k) (H := canonical_order) "js" "increment" "" "" demo_state 41 1)
    as [enough He]; try reflexivity.
  - split; [by_eval|]. split; [repeat split; apply hides_not; by_eval|]. split; [split; apply hides_not; by_eval|].
    split; [apply hides_not; by_eval|by_eval].
  - destruct (demo_boots (enough + 3) ltac:(lia)) as (k & w & Hk & _). exists (enough + 3)%nat, k, w.
    destruct (He (enough + 3)%nat demo_start w w k click ltac:(lia) Hk eq_refl eq_refl eq_refl) as (r & w' & E & H1 & H2).
    exists r, w'. split; [exact Hk|]. split; [exact E|]. split; [exact H1|exact H2].
Defined.
