(* ===== verification/CocoWeb.v ===== *)
(** * examples/coco-web: a static SPA and a JSON API

    The application serves files, lists and creates items and keeps binary save-states, on
    the in-memory connection.  Its state [Coco] is the database and what [time(nullptr)]
    reads; the file system and SHA-256 are parameters, as in StaticFiles.v and Token.v. *)
From S2P Require Import Prelude CppString CppNum Database Token StaticFiles Router Kernel Pipeline Http.

Local Open Scope Z_scope.

(** [std::stoul]: strtoul negates in 64 bits and fails only when the digits overflow. *)
Definition stoul (s : string) : res Z :=
  match parse_int s with
  | None => Throw invalid_argument
  | Some z => if Z.abs z <? 2 ^ 64 then Ok (u64 z) else Throw out_of_range
  end.

Section coco.
Context (canonical : string -> option string) (regular : string -> option (string * Z)) (sha256 : string -> string)
  `{MapOrder string} (public_dir token_secret : string).

Definition Coco : Type := Memory * Z.
Definition on_db {A} (m : M Memory A) : M (Request * Coco) A :=
  in_app (on_part fst (fun d (w : Coco) => (d, w.2)) m).
Definition the_request : M (Request * Coco) Request := on_request (fun r => r).

Definition error_json (message : string) (st : Z) : Response :=
  response_json ("{" +:+ dq "error" +:+ ":" +:+ dq message +:+ "}") st.

(** ** Items *)
Definition item_row (name : string) : Row := set_cell "name" (VStr name) ∅.
Definition item_json (id : Z) (name : string) : string :=
  "{" +:+ dq "id" +:+ ":" +:+ to_string id +:+ "," +:+ dq "name" +:+ ":" +:+ dq (Token.json_escape name) +:+ "}".
Fixpoint items_text (first : bool) (rows : list Row) : res string :=
  match rows with
  | [] => Ok ""
  | r :: rows =>
      id ← get_int r "id"; name ← get_string r "name"; rest ← items_text false rows;
      mret ((if first then "" else ",") +:+ item_json id name +:+ rest)
  end.
(** The number of rows shown: all, or fewer when the query asks for fewer and reads. *)
Definition item_limit (req : Request) (rows : list Row) : nat :=
  match query req !! "limit" with
  | None => length rows
  | Some v => match stoul v with Ok n => Z.to_nat (Z.min (Z.of_nat (length rows)) n) | Throw _ => length rows end
  end.
Definition items_index : Handler Coco :=
  (req ← the_request;
   rows ← on_db (mem_all "items");
   text ← lift_res (items_text true (take (item_limit req rows) rows));
   mret (response_json ("[" +:+ text +:+ "]") 200)
   : M (Request * Coco) Response).
Definition items_store : Handler Coco :=
  (req ← the_request;
   let name := match parse_form (body req) !! "name" with Some n => n | None => "" end in
   if bool_decide (name = "") then mret (error_json "name is required" 422)
   else id ← on_db (mem_insert "items" (item_row name)); mret (response_json (item_json id name) 201)
   : M (Request * Coco) Response).

(** ** Save-states *)
Definition state_row (name data : string) : Row := set_cell "data" (VStr data) (set_cell "name" (VStr name) ∅).
Definition id_json (id : Z) : string := "{" +:+ dq "id" +:+ ":" +:+ to_string id +:+ "}".
Definition savestates_store : Handler Coco :=
  (req ← the_request;
   if bool_decide (body req = "") then mret (error_json "empty body" 422)
   else
     let name := match query req !! "name" with Some n => n | None => "unnamed" end in
     id ← on_db (mem_insert "savestates" (state_row name (body req)));
     mret (response_json (id_json id) 201)
   : M (Request * Coco) Response).
Definition savestates_show : Handler Coco :=
  (req ← the_request;
   match route_params req !! "id" with
   | None => mret (error_json "bad id" 422)
   | Some v =>
       match stoll v with
       | Throw _ => mret (error_json "bad id" 422)
       | Ok id =>
           row ← on_db (mem_find "savestates" id);
           match row with
           | None => mret (error_json "not found" 404)
           | Some row => data ← lift_res (get_string row "data"); mret (response_bytes data "application/octet-stream" 200)
           end
       end
   end
   : M (Request * Coco) Response).

(** ** bootstrap *)
Definition seed : Memory := fold_left (fun m name => (mem_insert "items" (item_row name) m).2) ["first"; "second"] empty_memory.
Definition index_page : Handler Coco := fun s =>
  (Ok (serve canonical regular public_dir "index.html" s.1 default_options), s).
Definition can_do (ability : string) : list (Middleware Coco) := [requires_ability sha256 snd ability token_secret].
Definition coco_routes : res (Router Coco) :=
  r ← Router.get "/" index_page [] (mkRouter []);
  r ← mount canonical regular "/assets" public_dir default_options r;
  r ← Router.get "/api/items" items_index [] r;
  r ← Router.post "/api/items" items_store (can_do "items:write") r;
  r ← Router.post "/api/savestates" savestates_store (can_do "saves:write") r;
  Router.get "/api/savestates/{id}" savestates_show [] r.
Definition coco_bootstrap : res (Kernel Coco * Memory) :=
  r ← coco_routes; mret (new_kernel (router_ops r), seed).

(** ** The table *)
Definition coco_route (m uri : string) (h : Handler Coco) (mw : list (Middleware Coco)) : Route Coco :=
  mkRoute m uri (uri_pattern uri).1 (uri_pattern uri).2 h mw.
Definition asset : Handler Coco :=
  (req ← on_request id;
   let path := match route_params req !! "path" with Some p => p | None => "" end in
   _ ← edit_request (set_route_params (<["path" := path]> (route_params req)));
   mret (serve canonical regular public_dir path req default_options)
   : M (Request * Coco) Response).
Definition coco_router : Router Coco := mkRouter [
  coco_route "GET" "/" index_page [];
  coco_route "GET" "/assets/{path*}" asset [];
  coco_route "GET" "/api/items" items_index [];
  coco_route "POST" "/api/items" items_store (can_do "items:write");
  coco_route "POST" "/api/savestates" savestates_store (can_do "saves:write");
  coco_route "GET" "/api/savestates/{id}" savestates_show []].
Definition coco_kernel : Kernel Coco := new_kernel (router_ops coco_router).
Lemma coco_boots : coco_bootstrap = Ok (coco_kernel, seed).
Proof.
  unfold coco_bootstrap, coco_routes, mount, Router.get, Router.post.
  repeat (rewrite add_registers; unfold mbind at 1, res_bind at 1; cbn [routes_ app]). reflexivity.
Qed.

(** ** The database only grows *)
(** What one request may do: nothing, or one insert. *)
Definition appends (w w' : Coco) : Prop :=
  w'.2 = w.2 /\ (w'.1 = w.1 \/ exists table row, w'.1 = (mem_insert table row w.1).2).
Definition appending (h : Handler Coco) : Prop := forall s, appends s.2 (h s).2.2.
Lemma appends_refl w : appends w w.
Proof. split; [done|by left]. Qed.

Lemma items_index_appends : appending items_index.
Proof.
  intros [req [m t]]. unfold items_index, on_db, in_app, the_request, on_request, gets, on_part, mbind, M_bind, lift_res. cbn.
  destruct (items_text _ _); apply appends_refl.
Qed.
Lemma items_store_appends : appending items_store.
Proof.
  intros [req [m t]]. unfold items_store, on_db, in_app, the_request, on_request, gets, on_part, mbind, M_bind. cbn [fst snd].
  case_bool_decide; [apply appends_refl|]. cbn. split; [done|]. right. by eexists _, _.
Qed.
Lemma savestates_store_appends : appending savestates_store.
Proof.
  intros [req [m t]]. unfold savestates_store, on_db, in_app, the_request, on_request, gets, on_part, mbind, M_bind. cbn [fst snd].
  case_bool_decide; [apply appends_refl|]. cbn. split; [done|]. right. by eexists _, _.
Qed.
Lemma savestates_show_appends : appending savestates_show.
Proof.
  intros [req [m t]]. unfold savestates_show, on_db, in_app, the_request, on_request, gets, on_part, mbind, M_bind, lift_res. cbn [fst snd].
  destruct (route_params req !! "id") as [v|]; [|apply appends_refl]. destruct (stoll v); [|apply appends_refl].
  cbn. destruct (find_row _ _); [|apply appends_refl]. destruct (get_string _ _); apply appends_refl.
Qed.
Lemma guarded_appends ability h : appending h -> appending (run (through (can_do ability) new_pipeline) h).
Proof.
  intros Hh s. rewrite run_foldr. cbn. unfold requires_ability.
  destruct (verify _ _ _ _ _) as [c|]; [|apply appends_refl]. destruct (claims_can c ability); [apply Hh|apply appends_refl].
Qed.
Lemma coco_appends : Forall (fun r => appending (run (through (r_middleware r) new_pipeline) (r_handler r))) (routes_ coco_router).
Proof.
  repeat apply Forall_cons_2; try apply Forall_nil_2; cbn [r_middleware r_handler coco_route].
  - intros s. apply appends_refl.
  - intros s. apply appends_refl.
  - apply items_index_appends.
  - apply guarded_appends, items_store_appends.
  - apply guarded_appends, savestates_store_appends.
  - apply savestates_show_appends.
Qed.

Lemma coco_matched req w route params :
  match_routes (routes_ coco_router) (method req) (path req) = Some (route, params) ->
  let '(out, (_, w')) := run (through (r_middleware route) new_pipeline) (r_handler route) (set_route_params params req, w) in
  handle coco_kernel req w = (Ok (match out with Ok r => r | Throw _ => internal_error end), w').
Proof.
  intros Hm. pose proof (handle_matched coco_kernel req w route params Hm) as E. cbn [global_ coco_kernel new_kernel app] in E.
  destruct (run _ _ _) as [[r|e] [q w']]; done.
Qed.
Lemma request_appends req w : appends w (handle coco_kernel req w).2.
Proof.
  pose proof (match_routes_spec (routes_ coco_router) (method req) (path req)) as Hm.
  destruct (match_routes _ _ _) as [[route params]|] eqn:E.
  - destruct Hm as (pre & post & caps & Hr & _). pose proof coco_appends as Hg. rewrite Hr in Hg.
    apply Forall_app in Hg as [_ [Hg _]%Forall_cons]. pose proof (coco_matched req w route params E) as Hh.
    specialize (Hg (set_route_params params req, w)). destruct (run _ _ _) as [out [q w']]. by rewrite Hh.
  - rewrite (handle_unmatched coco_kernel) by exact E. apply appends_refl.
Qed.

(** Requests at their times, one after the other. *)
Definition serve_all (reqs : list (Z * Request)) (m : Memory) : Memory :=
  fold_left (fun m tr => (handle coco_kernel tr.2 (m, tr.1)).2.1) reqs m.
Lemma serve_all_grows reqs m table : exists new, rows_of (serve_all reqs m) table = rows_of m table ++ new.
Proof.
  revert m. induction reqs as [|[t req] reqs IH]; intros m; cbn [serve_all fold_left]; [exists []; by rewrite app_nil_r|].
  destruct (IH (handle coco_kernel req (m, t)).2.1) as [new E]. fold (serve_all reqs) in *. cbn [fst snd]. unfold serve_all in E. rewrite E.
  destruct (request_appends req (m, t)) as [_ [->|(tb & row & ->)]]; [by eexists|]. cbn [fst].
  unfold mem_insert, rows_of at 1. cbn [snd tables_]. destruct (decide (tb = table)) as [->|Hne].
  - rewrite lookup_insert_eq. rewrite <- app_assoc. by eexists.
  - rewrite lookup_insert_ne by done. by eexists.
Qed.

(** ** A save-state is kept *)
Local Abbreviation store_route := (coco_route "POST" "/api/savestates" savestates_store (can_do "saves:write")).
Local Abbreviation show_route := (coco_route "GET" "/api/savestates/{id}" savestates_show []).
Lemma match_savestate_store : match_routes (routes_ coco_router) "POST" "/api/savestates" = Some (store_route, ∅).
Proof. reflexivity. Qed.
Lemma match_savestate_show s : s ≠ "" -> s_all not_slash s ->
  match_routes (routes_ coco_router) "GET" ("/api/savestates/" +:+ s) = Some (show_route, {["id" := s]}).
Proof.
  intros Hs Ha.
  assert (Hskip : forall (r : Route Coco) rs m p, r_method r ≠ m \/ regex_match (r_pattern r) p = None ->
    match_routes (r :: rs) m p = match_routes rs m p).
  { intros r rs m p [Hm|E]; cbn [match_routes]; [by rewrite bool_decide_eq_true_2|]. rewrite E. by case_match. }
  unfold coco_router. cbn [routes_]. do 5 (rewrite Hskip by (first [right; reflexivity | left; discriminate])).
  cbn [match_routes]. rewrite bool_decide_eq_false_2 by (intros Hn; by apply Hn).
  assert (E : regex_match (r_pattern show_route) ("/api/savestates/" +:+ s) = Some [s]); [|by rewrite E].
  by apply (regex_match_segment "/api/savestates/").
Qed.

(** What the kernel answers, from what the route's stack of middleware does. *)
Lemma coco_answers req w route params out q w' :
  match_routes (routes_ coco_router) (method req) (path req) = Some (route, params) ->
  run (through (r_middleware route) new_pipeline) (r_handler route) (set_route_params params req, w) = (out, (q, w')) ->
  handle coco_kernel req w = (Ok (match out with Ok r => r | Throw _ => internal_error end), w').
Proof.
  intros Hr E. pose proof (coco_matched req w route params Hr) as Hh.
  destruct (run _ _ _) as [o [q0 w0]]. by injection E as <- <- <-.
Qed.
Lemma refused_handled req m t :
  match verify sha256 (bearer_token req) token_secret 0 t with Some c => claims_can c "saves:write" | None => false end = false ->
  run (through (can_do "saves:write") new_pipeline) savestates_store (req, (m, t)) = (Ok (response 403 "Forbidden"), (req, (m, t))).
Proof.
  intros Hno. rewrite run_foldr. cbn. unfold requires_ability. cbn [fst snd].
  destruct (verify _ _ _ _ _) as [c|]; [by rewrite Hno|done].
Qed.
Lemma stored_handled req m t c : req.(body) ≠ "" ->
  verify sha256 (bearer_token req) token_secret 0 t = Some c -> claims_can c "saves:write" = true ->
  memory_ok m -> default 0 (next_id_ m !! "savestates") < 2 ^ 63 - 1 ->
  exists id q m', run (through (can_do "saves:write") new_pipeline) savestates_store (req, (m, t)) =
      (Ok (response_json (id_json id) 201), (q, (m', t))) /\ in_s64 id = true /\
    exists row, find_row id (rows_of m' "savestates") = Some row /\ get_string row "data" = Ok (body req).
Proof.
  intros Hb Hv Hc Hok Hroom. rewrite run_foldr. cbn. unfold requires_ability. cbn [fst snd]. rewrite Hv, Hc.
  unfold savestates_store, on_db, in_app, the_request, on_request, gets, on_part, mbind, M_bind. cbn [fst snd].
  rewrite bool_decide_eq_false_2 by done. set (name := match query req !! "name" with Some n => n | None => "unnamed" end).
  destruct (law_insert (ConnectionLaws := memory_laws) "savestates" (state_row name (body req)) m Hok Hroom)
    as (id & m' & E & _ & Hf & Hview & _). cbn [insert MemoryConnection] in E. unfold mbind, M_bind. cbn [fst snd]. rewrite E.
  exists id, req, m'. split; [reflexivity|]. split.
  - injection E as <- _. unfold s64. apply in_s64_iff. pose proof (Z.mod_pos_bound (default 0 (next_id_ m !! "savestates") + 1 + 2 ^ 63) (2 ^ 64)). lia.
  - exists (set_cell "id" (VInt id) (state_row name (body req))). rewrite Hview, find_row_app, Hf. cbn [find_row]. rewrite is_id_set.
    split; [done|]. unfold get_string, row_at, state_row. rewrite lookup_set_cell_ne, lookup_set_cell by done. done.
Qed.
Lemma shown_handled req m t id row data : route_params req !! "id" = Some (to_string id) -> in_s64 id = true ->
  find_row id (rows_of m "savestates") = Some row -> get_string row "data" = Ok data ->
  run (through [] new_pipeline) savestates_show (req, (m, t)) =
    (Ok (response_bytes data "application/octet-stream" 200), (req, (m, t))).
Proof.
  intros Hp Hid Hf Hd. rewrite run_foldr. cbn.
  unfold savestates_show, on_db, in_app, the_request, on_request, gets, on_part, mbind, M_bind. cbn [fst snd]. rewrite Hp.
  pose proof (stoll_to_string id "" Hid eq_refl) as E. rewrite s_app_nil_r in E. rewrite E. cbn. rewrite Hf. cbn. by rewrite Hd.
Qed.

Lemma savestate_stored post m t c :
  method post = "POST" -> path post = "/api/savestates" -> body post ≠ "" ->
  verify sha256 (bearer_token post) token_secret 0 t = Some c -> claims_can c "saves:write" = true ->
  memory_ok m -> default 0 (next_id_ m !! "savestates") < 2 ^ 63 - 1 ->
  exists id m', handle coco_kernel post (m, t) = (Ok (response_json (id_json id) 201), (m', t)) /\ in_s64 id = true /\
    exists row, find_row id (rows_of m' "savestates") = Some row /\ get_string row "data" = Ok (body post).
Proof.
  intros Hm Hp Hb Ev Ec Hok Hroom.
  destruct (stored_handled (set_route_params ∅ post) m t c Hb Ev Ec Hok Hroom) as (id & q & m' & E & Hid & Hrow).
  exists id, m'. split; [|by split]. apply (coco_answers post _ store_route _ _ _ _ ltac:(rewrite Hm, Hp; exact match_savestate_store) E).
Qed.
Lemma savestate_shown get later m t id row b :
  method get = "GET" -> path get = "/api/savestates/" +:+ to_string id -> in_s64 id = true ->
  find_row id (rows_of m "savestates") = Some row -> get_string row "data" = Ok b ->
  handle coco_kernel get (serve_all later m, t) = (Ok (response_bytes b "application/octet-stream" 200), (serve_all later m, t)).
Proof.
  intros Hgm Hgp Hid Hf Hd. destruct (to_string_segment id) as [Hne Hns]. destruct (serve_all_grows later m "savestates") as [new Hnew].
  apply (coco_answers get (serve_all later m, t) show_route {["id" := to_string id]} (Ok (response_bytes b "application/octet-stream" 200))
    (set_route_params {["id" := to_string id]} get) (serve_all later m, t)).
  - rewrite Hgm, Hgp. exact (match_savestate_show _ Hne Hns).
  - apply (shown_handled _ _ _ id row b); [apply lookup_insert_eq|done| |exact Hd]. by rewrite Hnew, find_row_app, Hf.
Qed.

(** A save-state is kept, byte for byte.  A POST of any non-empty body, zero bytes and
    separators included, with a signed token that carries "saves:write" and has not expired
    answers 201 with an id; whatever requests come after it, with tokens or without, a GET
    of that id answers 200 with exactly those bytes.  Without such a token the answer is
    403 and the database is as before. *)
Theorem savestate_kept (post : Request) (m : Memory) (t : Z) :
  method post = "POST" -> path post = "/api/savestates" -> body post ≠ "" ->
  memory_ok m -> default 0 (next_id_ m !! "savestates") < 2 ^ 63 - 1 ->
  match verify sha256 (bearer_token post) token_secret 0 t with
  | Some c =>
      if claims_can c "saves:write" then
        exists id r m', handle coco_kernel post (m, t) = (Ok r, (m', t)) /\ status r = 201 /\ res_body r = id_json id /\
          forall later get t', method get = "GET" -> path get = "/api/savestates/" +:+ to_string id ->
            exists r' w', handle coco_kernel get (serve_all later m', t') = (Ok r', w') /\ status r' = 200 /\
              res_headers r' !! "Content-Type" = Some "application/octet-stream" /\ res_body r' = body post
      else handle coco_kernel post (m, t) = (Ok (response 403 "Forbidden"), (m, t))
  | None => handle coco_kernel post (m, t) = (Ok (response 403 "Forbidden"), (m, t))
  end.
Proof.
  intros Hm Hp Hb Hok Hroom.
  assert (Hroute : match_routes (routes_ coco_router) (method post) (path post) = Some (store_route, ∅)) by (rewrite Hm, Hp; exact match_savestate_store).
  assert (Hno : match verify sha256 (bearer_token post) token_secret 0 t with Some c => claims_can c "saves:write" | None => false end = false ->
    handle coco_kernel post (m, t) = (Ok (response 403 "Forbidden"), (m, t))).
  { intros Hno. eapply (coco_answers post _ store_route _ (Ok _)); [exact Hroute|]. cbn [r_middleware r_handler coco_route]. by apply refused_handled. }
  destruct (verify _ _ _ _ _) as [c|] eqn:Ev; [|by apply Hno]. destruct (claims_can c "saves:write") eqn:Ec; [|by apply Hno].
  destruct (savestate_stored post m t c Hm Hp Hb Ev Ec Hok Hroom) as (id & m' & E & Hid & row & Hf & Hd).
  exists id, (response_json (id_json id) 201), m'. split; [exact E|]. split; [done|]. split; [done|].
  intros later get t' Hgm Hgp. exists (response_bytes (body post) "application/octet-stream" 200), (serve_all later m', t').
  split; [|done]. by apply (savestate_shown get later m' t' id row (body post)).
Qed.
End coco.

(** ** A run *)
Definition demo_sha256 (s : string) : string := s_take 32 (s +:+ "0123456789abcdef0123456789abcdef").
Definition demo_token : string := sign demo_sha256 (mkClaims "emulator" ["saves:write"] 0 1700003600) "secret".
(** A body of a zero byte, a separator and a quote. *)
Definition demo_body : string := String Ascii.zero ("&=" +:+ str1 quote).
Definition demo_post : Request :=
  mkRequest "POST" "/api/savestates" ∅ {["Authorization" := "Bearer " +:+ demo_token]} demo_body ∅ ∅ "".
Definition demo_show : Request := mkRequest "GET" "/api/savestates/1" ∅ ∅ "" ∅ ∅ "".
Abbreviation demo_kernel := (coco_kernel (fun _ => None) (fun _ => None) demo_sha256 (H := canonical_order) "public" "secret").

Lemma savestate_kept_witness :
  exists id r m', handle demo_kernel demo_post (seed, 1700000000) = (Ok r, (m', 1700000000)) /\ status r = 201 /\
    res_body r = id_json id /\
    forall get, method get = "GET" -> path get = "/api/savestates/" +:+ to_string id ->
      exists r' w', handle demo_kernel get (serve_all (fun _ => None) (fun _ => None) demo_sha256 (H := canonical_order) "public" "secret"
          [(1700000001, demo_post); (1700000002, demo_show)] m', 1700000003) = (Ok r', w') /\ status r' = 200 /\
        res_headers r' !! "Content-Type" = Some "application/octet-stream" /\ res_body r' = demo_body.
Proof.
  assert (Hok : memory_ok seed) by (apply (memory_ok_inserts "items" (map item_row ["first"; "second"])); [apply empty_memory_ok|vm_compute; reflexivity]).
  assert (Hv : match verify demo_sha256 (bearer_token (H := canonical_order) demo_post) "secret" 0 1700000000 with
    | Some c => claims_can c "saves:write" | None => false end = true) by (vm_compute; reflexivity).
  pose proof (savestate_kept (fun _ => None) (fun _ => None) demo_sha256 (H := canonical_order) "public" "secret" demo_post seed 1700000000
    eq_refl eq_refl ltac:(discriminate) Hok ltac:(vm_compute; reflexivity)) as E.
  destruct (verify _ _ _ _ _) as [c|]; [|discriminate Hv]. rewrite Hv in E.
  destruct E as (id & r & m' & E & Hs & Hb & Hl). exists id, r, m'. split; [exact E|]. split; [exact Hs|]. split; [exact Hb|].
  intros get Hm Hp. exact (Hl _ get 1700000003 Hm Hp).
Defined.
