(* ===== verification/CocoWire.v ===== *)
(** * From the socket to the application and back

    The server of HttpServer.v with a kernel of Kernel.v behind it: what a client writes in
    pieces is read, parsed, dispatched and answered.  Applied to the application of
    CocoWeb.v: a save-state that goes out over one connection comes back over another. *)
From S2P Require Import Prelude CppString CppNum Database Token StaticFiles Router Kernel Pipeline Http HttpServer CocoWeb.

Local Open Scope Z_scope.

Section wire.
Context {W : Type} `{MapOrder string}.

Definition head_text (m p : string) (q : option string) (hs : list (string * string)) : string :=
  (m +:+ " " +:+ with_query p q +:+ " HTTP/1.1") +:+ lines_text hs.
(** A request as a client writes it, within the limits of the server: its length declared,
    its header lines well formed. *)
Record writes (limits : Limits) (m p : string) (q : option string) (hs : list (string * string)) (b : string) : Prop := {
  w_method : no_chr " " m /\ no_chr cr m;
  w_path : no_chr "?" p;
  w_target : no_chr " " (with_query p q) /\ no_chr cr (with_query p q);
  w_headers : Forall good_header hs;
  w_length : default 0 (parse_content_length (head_text m p q hs)) = size b;
  w_plain : has_chunked_body (head_text m p q hs) = false;
  w_head_fits : size (head_text m p q hs) + 3 <= max_header_bytes limits;
  w_body_fits : size b <= max_body_bytes limits;
  w_fits : size (head_text m p q hs) + 4 + size b < 2 ^ 64 }.
Definition parsed (m p : string) (q : option string) (hs : list (string * string)) (b remote : string) : Request :=
  mkRequest m p ∅ (set_headers hs ∅) b ∅ (match q with None => ∅ | Some q => parse_form q end) remote.
(** The peer takes what is sent. *)
Definition takes (sizes : list Z) (res : Response) : Prop :=
  Forall (fun n => 0 < n) sizes /\ (len (format_http_response res) <= length sizes)%nat.

Lemma head_end m p q hs b : no_chr cr m -> no_chr cr (with_query p q) -> Forall good_header hs ->
  find_str (head_text m p q hs +:+ crlf2 +:+ b) crlf2 0 = Some (len (head_text m p q hs)).
Proof.
  intros Hm Ht Hh. apply clear_find. apply clear_app; [|by apply clear_crlf2_lines].
  apply (clear_no_chr (chr 13)). rewrite !no_chr_app. split_and!; try done; by_eval.
Qed.

(** The request is read whole, however it was cut, and nothing after it. *)
Lemma read_written m p q hs b chunks rest :
  writes default_limits m p q hs b ->
  Forall (fun c => c ≠ "") chunks -> s_concat chunks = request_text m (with_query p q) hs b ->
  read_request default_limits (chunks ++ rest) "" None = (ROk, request_text m (with_query p q) hs b, rest).
Proof.
  intros [[Hm Hmc] Hp [Ht Htc] Hh Hl Hc Hhs Hbs Hw] Hne E.
  assert (Etext : request_text m (with_query p q) hs b = head_text m p q hs +:+ crlf2 +:+ b)
    by (unfold request_text, head_text; by rewrite !s_app_assoc).
  rewrite Etext. apply read_request_complete; try done.
  - by apply head_end.
  - split_and!; [lia|done|lia].
  - intros ->. apply (f_equal size) in E. rewrite Etext, !size_app in E. change (size crlf2) with 4 in E.
    change (size (s_concat [])) with 0 in E. unfold size in E. lia.
  - by rewrite <- Etext.
Qed.

(** What a connection does: the request is read however it was cut, the kernel gets what
    was written, and the whole answer is sent before the connection closes. *)
Lemma served (k : Request -> M W Response) remote m p q hs b chunks rest sizes w :
  writes default_limits m p q hs b ->
  Forall (fun c => c ≠ "") chunks -> s_concat chunks = request_text m (with_query p q) hs b ->
  let '(res, w') := outcome (k (parsed m p q hs b remote) w) in
  takes sizes res ->
  (handle_client (new_http_server k) remote (mkSock (chunks ++ rest) sizes []) w).2 = w' /\
  log (handle_client (new_http_server k) remote (mkSock (chunks ++ rest) sizes []) w).1 =
    [SetTimeout 30; Sent (format_http_response res); Closed].
Proof.
  intros Hw Hne E. pose proof (read_written m p q hs b chunks rest Hw Hne E) as Hread.
  destruct Hw as [[Hm Hmc] Hp [Ht Htc] Hh Hl Hc Hhs Hbs Hw].
  pose proof (handle_client_plain (new_http_server k) remote (mkSock (chunks ++ rest) sizes []) w _ _
    (mkRequest m p ∅ (set_headers hs ∅) b ∅ (match q with None => ∅ | Some q => parse_form q end) "") Hread) as Hc'.
  rewrite parse_request_query in Hc' by done. specialize (Hc' eq_refl).
  cbn [kernel_ new_http_server] in Hc'. change (set_remote_addr remote _) with (parsed m p q hs b remote) in Hc'.
  destruct (outcome _) as [res w']. intros [Hs Hlen]. destruct Hc' as [-> ->]; [unfold plain_request; by rewrite andb_false_r|].
  split; [done|]. unfold answered. cbn [limits_ new_http_server read_timeout_seconds default_limits HttpServer.sends log app].
  by rewrite send_all_full.
Qed.
End wire.

Section save_state.
Context (canonical : string -> option string) (regular : string -> option (string * Z)) (sha256 : string -> string)
  `{MapOrder string} (public_dir token_secret : string).
Local Abbreviation coco := (coco_kernel canonical regular sha256 public_dir token_secret).
Local Abbreviation server := (new_http_server (handle coco)).
Local Abbreviation post_of q hs b remote := (parsed "POST" "/api/savestates" q hs b remote).

(** C31: A save-state goes out and comes back over the wire.  A client posts any non-empty bytes
    with a token for "saves:write", in whatever pieces the network makes of them; it is
    sent a 201 with an id.  After any other requests, a client that asks for that id over a
    connection of its own is sent exactly those bytes. *)
Theorem savestate_over_wire q hs b remote chunks rest sizes m t c :
  writes default_limits "POST" "/api/savestates" q hs b -> b ≠ "" ->
  Forall (fun s => s ≠ "") chunks -> s_concat chunks = request_text "POST" (with_query "/api/savestates" q) hs b ->
  verify sha256 (bearer_token (post_of q hs b remote)) token_secret 0 t = Some c -> claims_can c "saves:write" = true ->
  memory_ok m -> default 0 (next_id_ m !! "savestates") < 2 ^ 63 - 1 ->
  exists id m',
    let created := response_json (id_json id) 201 in
    (takes sizes created ->
     let '(s, w) := handle_client server remote (mkSock (chunks ++ rest) sizes []) (m, t) in
     w = (m', t) /\ log s = [SetTimeout 30; Sent (format_http_response created); Closed]) /\
    forall later hs' remote' chunks' rest' sizes' t',
      let found := response_bytes b "application/octet-stream" 200 in
      let shown := "/api/savestates/" +:+ to_string id in
      writes default_limits "GET" shown None hs' "" ->
      Forall (fun s => s ≠ "") chunks' -> s_concat chunks' = request_text "GET" shown hs' "" ->
      takes sizes' found ->
      let m2 := serve_all canonical regular sha256 public_dir token_secret later m' in
      let '(s, w) := handle_client server remote' (mkSock (chunks' ++ rest') sizes' []) (m2, t') in
      w = (m2, t') /\ log s = [SetTimeout 30; Sent (format_http_response found); Closed].
Proof.
  intros Hw Hb Hne Hc Hv Hcan Hok Hroom.
  destruct (savestate_stored canonical regular sha256 public_dir token_secret (post_of q hs b remote) m t c
    eq_refl eq_refl Hb Hv Hcan Hok Hroom) as (id & m' & E & Hid & row & Hf & Hd).
  exists id, m'. cbn zeta. split.
  - intros Ht. pose proof (served (handle coco) remote _ _ _ _ _ chunks rest sizes (m, t) Hw Hne Hc) as Hs.
    rewrite E in Hs. cbn [outcome] in Hs. specialize (Hs Ht). by destruct (handle_client _ _ _ _).
  - intros later hs' remote' chunks' rest' sizes' t' Hw' Hne' Hc' Ht'.
    pose proof (served (handle coco) remote' "GET" ("/api/savestates/" +:+ to_string id) None hs' "" chunks' rest' sizes'
      (serve_all canonical regular sha256 public_dir token_secret later m', t') Hw' Hne') as Hs.
    unfold with_query in Hs. rewrite s_app_nil_r in Hs. specialize (Hs Hc').
    rewrite (savestate_shown canonical regular sha256 public_dir token_secret _ later m' t' id row b) in Hs by done.
    cbn [outcome] in Hs. specialize (Hs Ht'). by destruct (handle_client _ _ _ _).
Qed.
End save_state.

(** ** A run *)
(** Deciding that a text has no blanks at its ends. *)
Definition is_trimmed (ws : ascii -> bool) (s : string) : bool :=
  match s, reverse (chars s) with
  | "", _ => true
  | String c _, d :: _ => negb (ws c) && negb (ws d)
  | String _ _, [] => false
  end.
Lemma is_trimmed_ok ws s : is_trimmed ws s = true -> trimmed ws s.
Proof.
  unfold is_trimmed, trimmed. destruct s as [|c s]; [done|]. destruct (reverse _) as [|d r] eqn:E; [done|].
  intros [Hc%negb_true_iff Hd%negb_true_iff]%andb_true_iff. split; [done|]. exists (implode (reverse r)), d. split; [|done].
  rewrite <- (implode_chars (implode (reverse r) +:+ str1 d)), chars_app, chars_implode.
  change (chars (str1 d)) with [d]. by rewrite <- reverse_cons, <- E, reverse_involutive, implode_chars.
Qed.

Definition wire_headers : list (string * string) :=
  [("Content-Length", "4"); ("Authorization", "Bearer " +:+ demo_token)].
Definition wire_text : string := request_text "POST" (with_query "/api/savestates" (Some "name=slot1")) wire_headers demo_body.
Abbreviation demo_server := (new_http_server (handle demo_kernel)).
Abbreviation demo_serves := (serve_all (fun _ => None) (fun _ => None) demo_sha256 (H := canonical_order) "public" "secret").

Lemma wire_writes : writes default_limits "POST" "/api/savestates" (Some "name=slot1") wire_headers demo_body.
Proof.
  split; try (by_eval); try (vm_compute; congruence).
  repeat (apply Forall_cons_2; [unfold good_header; cbn [fst snd]; split_and!; try by_eval; by apply is_trimmed_ok|]). by apply Forall_nil_2.
Qed.
Lemma savestate_over_wire_witness :
  exists id m', let created := response_json (id_json id) 201 in
    (takes (H := canonical_order) (repeat 1 200) created ->
     let '(s, w) := handle_client (H := canonical_order) demo_server "10.0.0.1" (mkSock ([s_take 40 wire_text; s_drop 40 wire_text] ++ ["late"]) (repeat 1 200) []) (seed, 1700000000) in
     w = (m', 1700000000) /\ log s = [SetTimeout 30; Sent (format_http_response (H := canonical_order) created); Closed]) /\
    forall hs' remote' chunks' rest' sizes' t',
      let found := response_bytes demo_body "application/octet-stream" 200 in
      let shown := "/api/savestates/" +:+ to_string id in
      writes default_limits "GET" shown None hs' "" ->
      Forall (fun s => s ≠ "") chunks' -> s_concat chunks' = request_text "GET" shown hs' "" ->
      takes (H := canonical_order) sizes' found ->
      let m2 := demo_serves [(1700000001, demo_post); (1700000002, demo_show)] m' in
      let '(s, w) := handle_client (H := canonical_order) demo_server remote' (mkSock (chunks' ++ rest') sizes' []) (m2, t') in
      w = (m2, t') /\ log s = [SetTimeout 30; Sent (format_http_response (H := canonical_order) found); Closed].
Proof.
  assert (Hok : memory_ok seed) by (apply (memory_ok_inserts "items" (map item_row ["first"; "second"])); [apply empty_memory_ok|vm_compute; reflexivity]).
  assert (Hv : match verify demo_sha256 (bearer_token (H := canonical_order) (parsed "POST" "/api/savestates" (Some "name=slot1") wire_headers demo_body "10.0.0.1")) "secret" 0 1700000000 with
    | Some c => claims_can c "saves:write" | None => false end = true) by (vm_compute; reflexivity).
  destruct (verify _ _ _ _ _) as [c|] eqn:Ev; [|discriminate Hv].
  destruct (savestate_over_wire (fun _ => None) (fun _ => None) demo_sha256 (H := canonical_order) "public" "secret"
    (Some "name=slot1") wire_headers demo_body "10.0.0.1" [s_take 40 wire_text; s_drop 40 wire_text] ["late"] (repeat 1 200) seed 1700000000 c
    wire_writes) as (id & m' & Hpost & Hget).
  - discriminate.
  - repeat (apply Forall_cons_2; [vm_compute; discriminate|]). by apply Forall_nil_2.
  - vm_compute. reflexivity.
  - exact Ev.
  - exact Hv.
  - exact Hok.
  - vm_compute. reflexivity.
  - exists id, m'. split; [exact Hpost|]. intros hs' remote' chunks' rest' sizes' t'.
    exact (Hget [(1700000001, demo_post); (1700000002, demo_show)] hs' remote' chunks' rest' sizes' t').
Defined.
