(* ===== verification/Generators.v ===== *)
(** * generators.hpp and project_scaffold.hpp: make:*, new

    What [cpp-artisan make:*] and [cpp-artisan new] render, and how they write it.  The
    file system is the files with their contents, by path (links are not followed); what
    the disk says of a path, whether it can be opened for writing and how much of a text
    the stream gets onto it are a parameter, [Disk]. *)
From S2P Require Import Prelude CppString.

Definition q : string := str1 quote.
Definition empty_line : string := "".
(** Lines, each with its line end. *)
Definition unlines (l : list string) : string := s_concat (map (fun s => s +:+ str1 (chr 10)) l).

(** ** Names *)
Fixpoint snake_from (first : bool) (l : list ascii) : string :=
  match l with
  | [] => ""
  | c :: l =>
      (if is_upper c then (if first then "" else "_") +:+ str1 (tolower c) else str1 c) +:+ snake_from false l
  end.
Definition to_snake (s : string) : string := snake_from true (chars s).
Definition table_name (pascal : string) : string := to_snake pascal +:+ "s".

(** ** make:model, make:migration, make:controller *)
Definition render_model (name : string) : string :=
  unlines [
    "// " +:+ to_snake name +:+ ".hpp — generated by cpp-artisan make:model";
    "#pragma once";
    "#include <cstdint>";
    "#include <string>";
    empty_line;
    "#include " +:+ q +:+ "database.hpp" +:+ q;
    "#include " +:+ q +:+ "repository.hpp" +:+ q;
    empty_line;
    "struct " +:+ name +:+ " {";
    "    std::int64_t id = 0;";
    "    std::string name;";
    "};";
    empty_line;
    "struct " +:+ name +:+ "Mapper {";
    "    static std::string table() { return " +:+ q +:+ table_name name +:+ q +:+ "; }";
    empty_line;
    "    static " +:+ name +:+ " hydrate(const Row& r) {";
    "        return " +:+ name +:+ "{";
    "            r.get<std::int64_t>(" +:+ q +:+ "id" +:+ q +:+ "),";
    "            r.get<std::string>(" +:+ q +:+ "name" +:+ q +:+ "),";
    "        };";
    "    }";
    empty_line;
    "    static Row to_row(const " +:+ name +:+ "& m) {";
    "        Row r;";
    "        r.set(" +:+ q +:+ "id" +:+ q +:+ ", m.id);";
    "        r.set(" +:+ q +:+ "name" +:+ q +:+ ", m.name);";
    "        return r;";
    "    }";
    empty_line;
    "    static std::int64_t id(const " +:+ name +:+ "& m) { return m.id; }";
    "    static void set_id(" +:+ name +:+ "& m, std::int64_t id) { m.id = id; }";
    "};";
    empty_line;
    "using " +:+ name +:+ "Repository = Repository<" +:+ name +:+ ", " +:+ name +:+ "Mapper>;"].
Definition render_migration (name : string) : string :=
  unlines [
    "// " +:+ to_snake name +:+ ".hpp — generated by cpp-artisan make:migration";
    "#pragma once";
    "#include " +:+ q +:+ "migration.hpp" +:+ q;
    "#include " +:+ q +:+ "schema.hpp" +:+ q;
    empty_line;
    "struct " +:+ name +:+ " : Migration {";
    "    std::string name() const override { return " +:+ q +:+ "0001_" +:+ to_snake name +:+ q +:+ "; }";
    empty_line;
    "    void up(Connection& c) override {";
    "        Schema::create(c, " +:+ q +:+ "table_name" +:+ q +:+ ", [](Blueprint& t) {";
    "            t.id();";
    "            // t.string(" +:+ q +:+ "title" +:+ q +:+ ");";
    "            // t.integer(" +:+ q +:+ "count" +:+ q +:+ ");";
    "            // t.boolean(" +:+ q +:+ "active" +:+ q +:+ ");";
    "        });";
    "    }";
    empty_line;
    "    void down(Connection& c) override { Schema::drop_if_exists(c, " +:+ q +:+ "table_name" +:+ q +:+ "); }";
    "};"].
Definition render_controller (name : string) : string :=
  unlines [
    "// " +:+ to_snake name +:+ "_controller.hpp — generated by cpp-artisan make:controller";
    "#pragma once";
    "#include " +:+ q +:+ "http.hpp" +:+ q;
    empty_line;
    "class " +:+ name +:+ "Controller {";
    "public:";
    "    Response index(Request&) { return Response::json(" +:+ q +:+ "[]" +:+ q +:+ "); }";
    "    Response show(Request& req) { (void)req; return Response::json(" +:+ q +:+ "{}" +:+ q +:+ "); }";
    "    Response store(Request& req) { (void)req; return Response::json(" +:+ q +:+ "{}" +:+ q +:+ ", 201); }";
    "};"].

(** ** The scaffold *)
(** The loop of [sub] from the occurrence [p].  The callers' token is one character: with
    one, no more turns are needed than the text is long; with none it would not end. *)
Fixpoint sub_loop (fuel : nat) (s token value : string) (p : option nat) : string :=
  match p, fuel with
  | None, _ | _, O => s
  | Some p, S fuel =>
      let s := substr s 0 p +:+ value +:+ substr_from s (p + len token) in
      sub_loop fuel s token value (find_str s token (p + len value))
  end.
Definition sub (s token value : string) : string := sub_loop (len s) s token value (find_str s token 0).
Definition cmake_txt (project : string) : string :=
  sub (unlines [
    "cmake_minimum_required(VERSION 3.21)";
    "project(@ LANGUAGES CXX)";
    empty_line;
    "set(CMAKE_CXX_STANDARD 20)";
    "set(CMAKE_CXX_STANDARD_REQUIRED ON)";
    "set(CMAKE_CXX_EXTENSIONS OFF)";
    empty_line;
    "# Pull in the framework. Override with -DLIPP_SOURCE_DIR=/path/to/cpp-laravel to use";
    "# a local checkout instead of fetching from git.";
    "include(FetchContent)";
    "if(DEFINED LIPP_SOURCE_DIR)";
    "    add_subdirectory(${LIPP_SOURCE_DIR} _lipp)";
    "else()";
    "    FetchContent_Declare(lipp";
    "        GIT_REPOSITORY https://github.com/www-e-ventures/cpp-laravel.git";
    "        GIT_TAG main)";
    "    FetchContent_MakeAvailable(lipp)";
    "endif()";
    empty_line;
    "add_library(app STATIC app/bootstrap.cpp)";
    "target_include_directories(app PUBLIC app)";
    "target_link_libraries(app PUBLIC framework)";
    empty_line;
    "add_executable(@ main.cpp)";
    "target_link_libraries(@ PRIVATE app)";
    empty_line;
    "enable_testing()";
    "add_executable(@_tests tests/run_main.cpp tests/feature_test.cpp)";
    "target_link_libraries(@_tests PRIVATE app)";
    "add_test(NAME app COMMAND @_tests)"]) "@" project.
Definition post_controller_hpp : string :=
  unlines [
    "// post_controller.hpp — a CRUD controller over PostRepository.";
    "#pragma once";
    "#include <memory>";
    "#include <string>";
    "#include <utility>";
    empty_line;
    "#include " +:+ q +:+ "http.hpp" +:+ q;
    "#include " +:+ q +:+ "post.hpp" +:+ q;
    empty_line;
    "class PostController {";
    "public:";
    "    explicit PostController(std::shared_ptr<PostRepository> repo) : repo_(std::move(repo)) {}";
    empty_line;
    "    Response index(Request&) {";
    "        return Response::json(" +:+ q +:+ "{\" +:+ q +:+ "count\" +:+ q +:+ ":" +:+ q +:+ " + std::to_string(repo_->all().size()) + " +:+ q +:+ "}" +:+ q +:+ ");";
    "    }";
    "    Response store(Request& req) {";
    "        Post p;";
    "        p.name = req.body; // body is the post name (keep the starter simple)";
    "        repo_->insert(p);";
    "        return Response::json(" +:+ q +:+ "{\" +:+ q +:+ "id\" +:+ q +:+ ":" +:+ q +:+ " + std::to_string(p.id) + " +:+ q +:+ "}" +:+ q +:+ ", 201);";
    "    }";
    empty_line;
    "private:";
    "    std::shared_ptr<PostRepository> repo_;";
    "};"].
Definition bootstrap_hpp : string :=
  unlines [
    "// bootstrap.hpp — wires the app (container, routes, kernel).";
    "#pragma once";
    "#include <memory>";
    empty_line;
    "#include " +:+ q +:+ "container.hpp" +:+ q;
    "#include " +:+ q +:+ "kernel.hpp" +:+ q;
    "#include " +:+ q +:+ "router.hpp" +:+ q;
    empty_line;
    "struct App {";
    "    std::shared_ptr<Container> container;";
    "    std::shared_ptr<Router> router;";
    "    std::shared_ptr<Kernel> kernel;";
    "};";
    empty_line;
    "App bootstrap();"].
Definition bootstrap_cpp : string :=
  unlines [
    "// bootstrap.cpp — see bootstrap.hpp";
    "#include " +:+ q +:+ "bootstrap.hpp" +:+ q;
    empty_line;
    "#include " +:+ q +:+ "database.hpp" +:+ q;
    "#include " +:+ q +:+ "post.hpp" +:+ q;
    "#include " +:+ q +:+ "post_controller.hpp" +:+ q;
    empty_line;
    "App bootstrap() {";
    "    auto c = std::make_shared<Container>();";
    empty_line;
    "    // In-memory backend by default (swap for SqliteConnection when you want SQL).";
    "    c->singleton<Connection>([](ContainerContract&) {";
    "        return std::static_pointer_cast<Connection>(std::make_shared<MemoryConnection>());";
    "    });";
    "    c->bind_auto<PostRepository, Connection>();";
    "    c->bind_auto<PostController, PostRepository>();";
    empty_line;
    "    auto r = std::make_shared<Router>();";
    "    r->get(" +:+ q +:+ "/posts" +:+ q +:+ ", [c](Request& rq) { return c->resolve<PostController>()->index(rq); });";
    "    r->post(" +:+ q +:+ "/posts" +:+ q +:+ ", [c](Request& rq) { return c->resolve<PostController>()->store(rq); });";
    empty_line;
    "    auto k = std::make_shared<Kernel>(c, r);";
    "    return App{c, r, k};";
    "}"].
Definition main_cpp (project : string) : string :=
  sub (unlines [
    "// main.cpp — @ entry point.";
    "#include <iostream>";
    empty_line;
    "#include " +:+ q +:+ "bootstrap.hpp" +:+ q;
    empty_line;
    "int main() {";
    "    App app = bootstrap();";
    "    app.kernel->handle({" +:+ q +:+ "POST" +:+ q +:+ ", " +:+ q +:+ "/posts" +:+ q +:+ ", {}, {}, " +:+ q +:+ "Hello" +:+ q +:+ "});";
    "    Response r = app.kernel->handle({" +:+ q +:+ "GET" +:+ q +:+ ", " +:+ q +:+ "/posts" +:+ q +:+ ", {}, {}, " +:+ q +:+ q +:+ "});";
    "    std::cout << " +:+ q +:+ "@: GET /posts -> " +:+ q +:+ " << r.body << " +:+ q +:+ "\n" +:+ q +:+ ";";
    "    return 0;";
    "}"]) "@" project.
Definition feature_test_cpp : string :=
  unlines [
    "// feature_test.cpp — a Laravel-flavoured feature test.";
    "#include " +:+ q +:+ "test_harness.hpp" +:+ q;
    empty_line;
    "#include " +:+ q +:+ "bootstrap.hpp" +:+ q;
    "#include " +:+ q +:+ "testing.hpp" +:+ q;
    empty_line;
    "TEST(creates_and_counts_posts) {";
    "    auto app = bootstrap();";
    "    HttpClient http(" +:+ "*app.kernel, __fails);";
    empty_line;
    "    http.post(" +:+ q +:+ "/posts" +:+ q +:+ ", " +:+ q +:+ "Hello" +:+ q +:+ ").assertCreated().assertSee(" +:+ q +:+ "\" +:+ q +:+ "id\" +:+ q +:+ ":1" +:+ q +:+ ");";
    "    http.get(" +:+ q +:+ "/posts" +:+ q +:+ ").assertOk().assertSee(" +:+ q +:+ "\" +:+ q +:+ "count\" +:+ q +:+ ":1" +:+ q +:+ ");";
    "}"].
Definition run_main_cpp : string :=
  unlines [
    "#include " +:+ q +:+ "test_harness.hpp" +:+ q;
    empty_line;
    "int main() { return RUN_ALL_TESTS(); }"].
Definition readme_md (project : string) : string :=
  sub (unlines [
    "# @";
    empty_line;
    "A C++ web app built on the [Laravel-in-C++ framework](https://github.com/www-e-ventures/cpp-laravel).";
    empty_line;
    "## Build & run";
    empty_line;
    "```sh";
    "cmake -S . -B build              # fetches the framework via FetchContent";
    "cmake --build build";
    "./build/@                        # runs the demo";
    "ctest --test-dir build           # runs the feature tests";
    "```";
    empty_line;
    "To build against a local checkout of the framework instead of fetching:";
    empty_line;
    "```sh";
    "cmake -S . -B build -DLIPP_SOURCE_DIR=/path/to/cpp-laravel";
    "```";
    empty_line;
    "## Layout";
    empty_line;
    "- `app/` — your code: `post.hpp` (model + mapper + repository), `post_controller.hpp`, `bootstrap.cpp`.";
    "- `main.cpp` — entry point.";
    "- `tests/` — feature tests using the framework's Laravel-flavoured HTTP DSL.";
    empty_line;
    "Add a model + mapper with the framework's `cpp-artisan make:model <Name>`."]) "@" project.
Definition gitignore : string := unlines ["/build/"; "build*/"; "*.o"; "*.a"].

(** ** Writing *)
(** What is not the program's: the directories there are, what [fs::exists] and
    [fs::create_directories] throw, the paths that can be opened for writing, and how
    many bytes of a text a stream stores before the disk refuses more. *)
Record Disk : Type := mkDisk {
  is_dir : string -> bool;
  exists_throws : string -> res unit;
  make_dirs : string -> res unit;
  opens : string -> bool;
  stores : string -> string -> nat
}.

Section files.
Context (disk : Disk).
Local Abbreviation Files := (gmap string string).

(** [p.parent_path()]; the root is its own parent. *)
Definition parent_path (p : string) : string :=
  match rfind_chr p "/" with None => "" | Some 0 => "/" | Some k => substr p 0 k end.
Definition exists_ (p : string) (fs : Files) : bool := is_dir disk p || bool_decide (fs !! p ≠ None).
(** [None]: true is returned; otherwise the error.  Opening makes the file; what the
    stream then fails to store is lost, as its state is not looked at. *)
Definition write_new_file (p content : string) : M Files (option string) :=
  _ ← lift_res (exists_throws disk p);
  found ← gets (exists_ p);
  if (found : bool) then mret (Some ("already exists: " +:+ p))
  else
    _ ← (if bool_decide (parent_path p = "") then mret tt else lift_res (make_dirs disk (parent_path p)));
    if opens disk p
    then _ ← modify (fun fs => <[p := s_take (stores disk p content) content]> fs); mret None
    else mret (Some ("cannot write: " +:+ p)).

Fixpoint write_all (l : list (string * string)) : M Files (option string) :=
  match l with
  | [] => mret None
  | (p, content) :: l =>
      err ← write_new_file p content;
      match err with Some e => mret (Some e) | None => write_all l end
  end.
Definition project_files (project : string) : list (string * string) :=
  [("/CMakeLists.txt", cmake_txt project); ("/.gitignore", gitignore); ("/README.md", readme_md project);
   ("/main.cpp", main_cpp project); ("/app/post.hpp", render_model "Post");
   ("/app/post_controller.hpp", post_controller_hpp); ("/app/bootstrap.hpp", bootstrap_hpp);
   ("/app/bootstrap.cpp", bootstrap_cpp); ("/tests/run_main.cpp", run_main_cpp);
   ("/tests/feature_test.cpp", feature_test_cpp)].
Definition create_project (project dir : string) : M Files (option string) :=
  write_all (map (fun f => (dir +:+ f.1, f.2)) (project_files project)).
End files.

(** ** Names come back *)
Definition toupper (c : ascii) : ascii := if is_lower c then chr (byte_of c - 32) else c.
(** The name a snake-case text stands for: letters after an underscore, and the first, in
    upper case. *)
Fixpoint camel_from (up : bool) (l : list ascii) : string :=
  match l with
  | [] => ""
  | c :: l => if is_char "_" c then camel_from true l else str1 (if up then toupper c else c) +:+ camel_from false l
  end.
Definition camel (s : string) : string := camel_from true (chars s).
(** A name in Pascal case: it starts with an upper-case letter and has no underscore. *)
Definition pascal (s : string) : Prop :=
  match s with String c _ => is_upper c = true /\ no_chr "_" s | "" => False end.

Lemma upper_lower c : is_upper c = true -> toupper (tolower c) = c /\ tolower c ≠ "_"%char.
Proof. intros Hc. destruct c as [[] [] [] [] [] [] [] []]; try discriminate Hc; by split. Qed.
Lemma not_underscore c : c ≠ "_"%char -> is_char "_" c = false.
Proof. intros Hc. unfold is_char. by rewrite bool_decide_eq_false_2. Qed.
Lemma camel_snake l : "_"%char ∉ l -> camel_from false (chars (snake_from false l)) = implode l.
Proof.
  induction l as [|c l IH]; [done|]. intros [Hc Hl]%not_elem_of_cons. cbn [snake_from]. rewrite chars_app.
  destruct (is_upper c) eqn:E.
  - destruct (upper_lower c E) as [Eu Hn]. rewrite chars_app. change (chars "_") with ["_"%char]. change (chars (str1 (tolower c))) with [tolower c].
    cbn. rewrite (not_underscore (tolower c)) by done. rewrite Eu, IH by done. done.
  - cbn. rewrite not_underscore by congruence. by rewrite IH.
Qed.
(** A name in Pascal case is read back from its snake case, so models of different names
    get different files and tables. *)
Theorem snake_of_pascal (s t : string) : pascal s -> pascal t ->
  camel (to_snake s) = s /\ (to_snake s = to_snake t -> s = t) /\ (table_name s = table_name t -> s = t).
Proof.
  assert (Hback : forall s, pascal s -> camel (to_snake s) = s).
  { intros [|c u]; [done|]. intros [Hc Hn]. apply not_elem_of_cons in Hn as [_ Hn]. unfold to_snake, camel. cbn [chars snake_from].
    rewrite Hc. destruct (upper_lower c Hc) as [Eu Hu]. rewrite s_app_nil_l, chars_app. cbn. rewrite not_underscore by congruence.
    rewrite Eu, camel_snake, implode_chars by done. done. }
  intros Hs Ht. assert (Hinj : to_snake s = to_snake t -> s = t) by (intros E; by rewrite <- (Hback s Hs), <- (Hback t Ht), E).
  split; [by apply Hback|]. split; [done|]. unfold table_name. intros E. apply Hinj. by apply s_app_inj_r in E.
Qed.
Lemma snake_of_pascal_witness : camel (to_snake "OrderItem") = "OrderItem" /\ to_snake "OrderItem" = "order_item" /\
  to_snake "Orderitem" ≠ to_snake "OrderItem".
Proof.
  assert (Hs : pascal "OrderItem") by (split; [reflexivity|by_eval]). assert (Ht : pascal "Orderitem") by (split; [reflexivity|by_eval]).
  split; [exact (proj1 (snake_of_pascal _ _ Hs Hs))|]. split; [reflexivity|].
  intros E. discriminate (proj1 (proj2 (snake_of_pascal _ _ Ht Hs)) E).
Defined.

(** ** Substitution *)
Definition sub_char (c : ascii) (value : string) (l : list ascii) : string :=
  s_concat (map (fun d => if is_char c d then value else str1 d) l).
Lemma first_chr c s : no_chr c s \/ exists u w, s = u +:+ String c w /\ no_chr c u.
Proof.
  induction s as [|d s IH]; [left; apply not_elem_of_nil|]. destruct (decide (c = d)) as [->|Hne].
  - right. exists "", s. split; [done|apply not_elem_of_nil].
  - destruct IH as [Hs|(u & w & -> & Hu)]; [left; by apply no_chr_cons|right]. exists (String d u), w. split; [done|by apply no_chr_cons].
Qed.
Lemma sub_char_cons c value d l : sub_char c value (d :: l) = (if is_char c d then value else str1 d) +:+ sub_char c value l.
Proof. reflexivity. Qed.
Lemma sub_char_absent c value s : no_chr c s -> sub_char c value (chars s) = s.
Proof.
  induction s as [|d s IH]; [done|]. intros [Hd Hs]%no_chr_cons. cbn [chars]. rewrite sub_char_cons, IH by done.
  unfold is_char. by rewrite bool_decide_eq_false_2.
Qed.
Lemma sub_char_app c value l l' : sub_char c value (l ++ l') = sub_char c value l +:+ sub_char c value l'.
Proof. induction l as [|d l IH]; [done|]. rewrite <- app_comm_cons, !sub_char_cons, IH. by rewrite s_app_assoc. Qed.
Lemma sub_loop_from c value fuel : forall pre rest, (len rest <= fuel)%nat ->
  sub_loop fuel (pre +:+ rest) (str1 c) value (find_str (pre +:+ rest) (str1 c) (len pre)) = pre +:+ sub_char c value (chars rest).
Proof.
  induction fuel as [|fuel IH]; intros pre rest Hl.
  - destruct rest; [|cbn in Hl; lia]. cbn [sub_loop]. by destruct (find_str _ _ _).
  - destruct (first_chr c rest) as [Hn|(u & w & -> & Hu)].
    + rewrite sub_char_absent by done. unfold find_str. rewrite s_drop_app by done. unfold str1. rewrite find0_none_chr by done.
      by destruct (_ <? _)%nat.
    + rewrite (find_str_at _ (str1 c) (len pre) pre u w c "") by done. cbn [sub_loop].
      assert (E : pre +:+ u +:+ String c w = (pre +:+ u) +:+ str1 c +:+ w) by (by rewrite s_app_assoc).
      rewrite E. unfold substr, substr_from. rewrite s_drop_0, s_take_app by (by rewrite length_s_app).
      rewrite (s_drop_app_ge _ (pre +:+ u)) by (rewrite length_s_app; lia).
      replace (len pre + len u + len (str1 c) - len (pre +:+ u))%nat with 1%nat by (rewrite length_s_app; cbn; lia).
      change (s_drop 1 (str1 c +:+ w)) with w.
      rewrite <- (s_app_assoc (pre +:+ u)). replace (len pre + len u + len value)%nat with (len ((pre +:+ u) +:+ value)) by (by rewrite !length_s_app).
      rewrite IH by (rewrite length_s_app in Hl; cbn in Hl; lia). rewrite chars_app, sub_char_app, (sub_char_absent c value u) by done.
      change (chars (String c w)) with (c :: chars w). rewrite sub_char_cons. unfold is_char. rewrite bool_decide_eq_true_2 by done. by rewrite !s_app_assoc.
Qed.
(** [sub] puts the value for every occurrence of the character, once: occurrences the
    value brings along stay. *)
Theorem sub_replaces (s value : string) (c : ascii) : sub s (str1 c) value = sub_char c value (chars s).
Proof. exact (sub_loop_from c value (len s) "" s ltac:(done)). Qed.

(** ** Files *)
Section file_facts.
Context (disk : Disk).
Local Abbreviation write_new_file := (write_new_file disk).
Local Abbreviation write_all := (write_all disk).
Local Abbreviation stored p c := (s_take (stores disk p c) c).

(** Nothing that existed changes. *)
Definition extends (fs fs' : gmap string string) : Prop := forall p c, fs !! p = Some c -> fs' !! p = Some c.
Lemma write_new_spec p content fs :
  let '(r, fs') := write_new_file p content fs in
  (r = Ok None /\ fs !! p = None /\ fs' = <[p := stored p content]> fs) \/ (r ≠ Ok None /\ fs' = fs).
Proof.
  unfold Generators.write_new_file, gets, mbind, M_bind, exists_, lift_res.
  destruct (exists_throws disk p); [|by right]. destruct (is_dir disk p || _) eqn:E; [by right|].
  apply orb_false_iff in E as [_ Hp%bool_decide_eq_false]. assert (Hnone : fs !! p = None) by (by destruct (fs !! p); [exfalso; apply Hp|]).
  case_bool_decide; cbn; [|destruct (make_dirs disk _); [|by right]]; (destruct (opens disk p); cbn; [by left|by right]).
Qed.
Lemma write_all_spec l fs : NoDup (map fst l) ->
  let '(r, fs') := write_all l fs in
  extends fs fs' /\ (forall p, p ∉ map fst l -> fs' !! p = fs !! p) /\
  (r = Ok None -> forall p c, (p, c) ∈ l -> fs !! p = None /\ fs' !! p = Some (stored p c)).
Proof.
  revert fs. induction l as [|[p c] l IH]; intros fs Hn.
  - cbn. split; [by intros p c|]. split; [done|]. by intros _ p c ?%not_elem_of_nil.
  - cbn [map fst] in Hn. apply NoDup_cons in Hn as [Hp Hn]. cbn [Generators.write_all]. unfold mbind, M_bind.
    pose proof (write_new_spec p c fs) as Hw. destruct (write_new_file p c fs) as [[[e|]|e] fs1].
    + destruct Hw as [[[=] _]|[_ ->]]. split_and!; [by intros ??|done|done].
    + destruct Hw as [(_ & Hnone & ->)|[[] _]]; [|done]. specialize (IH (<[p := stored p c]> fs) Hn).
      destruct (write_all l _) as [r fs']. destruct IH as (He & Ho & Hi). split_and!.
      * intros p' c' Hp'. apply He. rewrite lookup_insert_ne by congruence. done.
      * cbn. intros p' [Hne Hin]%not_elem_of_cons. rewrite Ho by done. by rewrite lookup_insert_ne.
      * intros Hr p' c' [[= -> ->]|Hin]%elem_of_cons.
        -- split; [done|]. apply He. by rewrite lookup_insert_eq.
        -- destruct (Hi Hr p' c' Hin) as [Hl Hs]. rewrite lookup_insert_None in Hl. by destruct Hl.
    + destruct Hw as [[[=] _]|[_ ->]]. split_and!; [by intros ??|done|done].
Qed.
End file_facts.

Lemma paths_differ project dir : NoDup (map fst (map (fun f => (dir +:+ f.1, f.2)) (project_files project))).
Proof.
  rewrite map_map. cbn [fst]. change (map _ (project_files project)) with (map (fun p => dir +:+ p) (map fst (project_files project))).
  assert (Inj (=) (=) (fun p => dir +:+ p)) by (intros a b; apply s_app_inj_l). apply (NoDup_fmap_2 (fun p => dir +:+ p)). cbn [project_files map fst]. by_eval.
Qed.
(** C36: [cpp-artisan new] overwrites nothing: every file that was there is there unchanged,
    whether it succeeds, fails or throws, and nothing is written outside the project.  When
    it reports success the ten files of the project are new, and each holds what is
    rendered as far as the disk took it: all of it where the disk stores the text whole. *)
Theorem new_overwrites_nothing (disk : Disk) (project dir : string) (fs : gmap string string) :
  let '(r, fs') := create_project disk project dir fs in
  (forall p c, fs !! p = Some c -> fs' !! p = Some c) /\
  (forall p, (forall f, f ∈ project_files project -> p ≠ dir +:+ f.1) -> fs' !! p = fs !! p) /\
  (r = Ok None -> forall f, f ∈ project_files project ->
     fs !! (dir +:+ f.1) = None /\
     exists c lost, fs' !! (dir +:+ f.1) = Some c /\ f.2 = c +:+ lost /\
       ((len f.2 <= stores disk (dir +:+ f.1) f.2)%nat -> c = f.2)).
Proof.
  unfold create_project. pose proof (write_all_spec disk _ fs (paths_differ project dir)) as Hw.
  destruct (write_all _ _ _) as [r fs']. destruct Hw as (He & Ho & Hi). split; [done|]. split.
  - intros p Hp. apply Ho. rewrite map_map. cbn [fst]. intros (f & -> & Hf)%list_elem_of_fmap. by apply (Hp f).
  - intros Hr f Hf.
    destruct (Hi Hr (dir +:+ f.1) f.2) as [Hnone Hsome];
      [by apply (list_elem_of_fmap_2 (fun f => (dir +:+ f.1, f.2)))|].
    split; [done|]. do 2 eexists. split; [exact Hsome|]. split; [symmetry; apply s_take_drop|].
    intros Hl. by apply s_take_ge.
Qed.

(** On a disk that takes nothing the files are empty, and the command reports success. *)
Lemma failed_write_reports_success : exists disk fs',
  create_project disk "shop" "shop" ∅ = (Ok None, fs') /\
  fs' !! "shop/main.cpp" = Some "" /\ main_cpp "shop" ≠ "".
Proof.
  exists (mkDisk (fun _ => false) (fun _ => Ok tt) (fun _ => Ok tt) (fun _ => true) (fun _ _ => 0)).
  eexists. split; [reflexivity|]. split; [vm_compute; reflexivity|]. vm_compute. discriminate.
Qed.

(** A project named "app" does not build: its library and its program are targets of one name. *)
Lemma app_is_taken : contains (cmake_txt "app") "add_library(app STATIC" = true /\ contains (cmake_txt "app") "add_executable(app main.cpp)" = true.
Proof. split; vm_compute; reflexivity. Qed.
