(* ===== verification/Artisan.v ===== *)
(** * examples/blog/artisan.cpp: the command line

    [cpp-artisan] boots the application of Blog.v in a process of its own and drives it:
    one request, the routes, the migrations, the queue, one tick of the schedule; or it
    writes files (Generators.v).  A process is the application's state, what it printed and
    the files; what a file database holds goes from one process to the next in [open_].
    Clocks are arguments; [serve] (ServerPool.v) and the local-time conversion too. *)
From S2P Require Import Prelude CppString CppNum Livewire View Container Facade Database Tables Repository Migration Scheduler DbQueue QueueDrain Generators BlogModels Session Cache Auth HttpAuth Router Kernel Pipeline Http Blog.

Local Open Scope Z_scope.

Definition nl : string := str1 (chr 10).
Definition usage_text : string :=
  unlines [
    "cpp-artisan 0.1 — Laravel-in-C++";
    empty_line;
    "Usage:";
    "  cpp-artisan list";
    "  cpp-artisan new <Name> [dir]              scaffold a new app project";
    "  cpp-artisan route:list";
    "  cpp-artisan request <METHOD> <URI> [body] [--token <TOKEN>]";
    "  cpp-artisan serve [port] [workers] (default 8080, 1 worker)";
    "  cpp-artisan make:model <Name> [dir]       (default app/models)";
    "  cpp-artisan make:controller <Name> [dir]  (default app)";
    "  cpp-artisan make:migration <Name> [dir]   (default database/migrations)";
    "  cpp-artisan migrate                        apply pending migrations";
    "  cpp-artisan migrate:rollback               undo the app's migrations";
    "  cpp-artisan queue:work [poll_seconds]     run queued jobs (Ctrl-C to stop)";
    "  cpp-artisan schedule:run                   one scheduler tick (call from cron)";
    "  cpp-artisan --version"].

(** ** The queue and the schedule of the demo *)
Section console.
Context {D : Type} (conn : Connection D) (today_at : Z -> Z -> Z -> Z).
(** The database and what was printed. *)
Definition Console : Type := D * string.
Definition cout (s : string) : M Console unit := modify (fun c => (c.1, c.2 +:+ s)).
Definition on_base {A} (m : M D A) : M Console A := on_part fst (fun d c => (d, c.2)) m.

Definition demo_queue : DbQueue D string :=
  handler "log" (fun payload => cout ("[job] " +:+ payload +:+ nl)) new_queue.
Definition push_task (clock : Z) (payload : string) : M (Sched D string) unit :=
  on_data (push conn clock "log" payload 0).
Definition demo_schedule (clock : Z) : list (Task D string) :=
  daily_at today_at "03:00" "daily-report" (push_task clock "daily report")
    (every 60 "heartbeat" (push_task clock "heartbeat") []).
(** [s.run_pending()] on a fresh [Schedule] over the connection. *)
Definition schedule_tick (clock : Z) : M Console Z := fun c =>
  let '(r, s) := run_pending (Some conn) "schedule_runs" (demo_schedule clock) 0 clock (mkSched ∅ c.1 c.2) in
  (r, (data s, world s)).
(** [q.work()]; DbQueue.work_terminates: there is always a result. *)
Definition queue_pass (clock : Z) : M Console Z := fun c =>
  match work conn demo_queue clock 0 c with
  | (Some r, c) => (r, c)
  | (None, c) => (Throw OtherExn, c)
  end.
Definition queue_pending : M Console string := n ← on_base (pending conn); mret (to_string (Z.of_nat n)).
Definition queue_failed : M Console string := n ← on_base (failed conn); mret (to_string (Z.of_nat n)).

Definition schedule_report (clock : Z) : M Console Z :=
  ran ← schedule_tick clock;
  p ← queue_pending;
  _ ← cout ("schedule:run — " +:+ to_string ran +:+ " task(s) fired, " +:+ p +:+ " job(s) queued" +:+ nl);
  mret 0.
(** The turns of the loop while [running]: the clock of each. *)
Fixpoint queue_loop (turns : list Z) : M Console unit :=
  match turns with
  | [] => mret tt
  | clock :: turns =>
      n ← queue_pass clock;
      _ ← (if n =? 0 then mret tt
           else p ← queue_pending; cout ("processed " +:+ to_string n +:+ " job(s), " +:+ p +:+ " pending" +:+ nl));
      queue_loop turns
  end.
Definition queue_report (poll : Z) (turns : list Z) : M Console Z :=
  _ ← cout ("queue:work polling every " +:+ to_string poll +:+ "s (Ctrl-C to stop)" +:+ nl);
  _ ← queue_loop turns;
  p ← queue_pending;
  f ← queue_failed;
  _ ← cout ("queue:work stopped (" +:+ p +:+ " pending, " +:+ f +:+ " failed)" +:+ nl);
  mret 0.
End console.

(** ** The process *)
Section artisan.
Context {D : Type} (conn : Connection D) (open_ : D) (demangle_type : Key -> string) (fuel : nat)
  `{MapOrder string} (livewire_js : string) (today_at : Z -> Z -> Z -> Z)
  (disk : Disk)
  (serve : Kernel (AppState D) -> Z -> Z -> M (AppState D) Z).

Record Process : Type := mkProcess {
  application : AppState D; stdout : string; stderr : string; files : gmap string string }.
Definition on_app {A} (m : M (AppState D) A) : M Process A :=
  on_part application (fun a p => mkProcess a (stdout p) (stderr p) (files p)) m.
Definition on_files {A} (m : M (gmap string string) A) : M Process A :=
  on_part files (fun f p => mkProcess (application p) (stdout p) (stderr p) f) m.
Definition print (s : string) : M Process unit :=
  modify (fun p => mkProcess (application p) (stdout p +:+ s) (stderr p) (files p)).
Definition complain (s : string) : M Process unit :=
  modify (fun p => mkProcess (application p) (stdout p) (stderr p +:+ s) (files p)).
(** A computation on the connection [c] of the application and on the output. *)
Definition on_console {A} (c : nat) (m : M (Console (D := D)) A) : M Process A :=
  on_part (fun p => (conn_state open_ c (application p), stdout p))
    (fun x p => mkProcess (set_conn c x.1 (application p)) x.2 (stderr p) (files p)) m.

Local Abbreviation boot := (on_app (bootstrap conn open_ demangle_type fuel livewire_js)).
Definition the_connection : M Process nat :=
  c ← on_app (app_resolve demangle_type fuel "Connection"); mret (any_ref c).

Definition usage : M Process Z := _ ← print usage_text; mret 0.
(** What the commands that write files end with. *)
Definition written (err : option string) (created : string) : M Process Z :=
  match err with
  | Some e => _ ← complain ("cpp-artisan: " +:+ e +:+ nl); mret 1
  | None => _ ← print created; mret 0
  end.
Definition needs (what : string) : M Process Z := _ ← complain (what +:+ nl); mret 2.
Definition make_new (args : list string) : M Process Z :=
  match args with
  | _ :: name :: more =>
      let dir := match more with d :: _ => d +:+ "/" +:+ name | [] => name end in
      err ← on_files (create_project disk name dir);
      written err ("created project " +:+ dir +:+ nl +:+ "  cd " +:+ dir +:+
        " && cmake -S . -B build && cmake --build build && ctest --test-dir build" +:+ nl)
  | _ => needs "new needs a <Name>"
  end.
Definition make_file (p content : string) : M Process Z :=
  err ← on_files (write_new_file disk p content); written err ("created " +:+ p +:+ nl).
Definition make (args : list string) (controller : bool) : M Process Z :=
  match args with
  | _ :: name :: more =>
      let dir := match more with d :: _ => d | [] => if controller then "app" else "app/models" end in
      make_file (dir +:+ "/" +:+ to_snake name +:+ (if controller then "_controller.hpp" else ".hpp"))
        (if controller then render_controller name else render_model name)
  | cmd :: _ => needs (cmd +:+ " needs a <Name>")
  | [] => mret 2
  end.
Definition make_migration (args : list string) : M Process Z :=
  match args with
  | _ :: name :: more =>
      let dir := match more with d :: _ => d | [] => "database/migrations" end in
      make_file (dir +:+ "/" +:+ to_snake name +:+ ".hpp") (render_migration name)
  | _ => needs "make:migration needs a <Name>"
  end.

Definition int_arg (s : option string) (default : Z) : Z := match s with Some s => atoi s | None => default end.
Definition serve_command (args : list string) : M Process Z :=
  k ← boot; on_app (serve k (int_arg (args !! 1%nat) 8080) (int_arg (args !! 2%nat) 1)).

(** [std::left << std::setw(7)]. *)
Definition padded (s : string) : string := s +:+ implode (replicate (7 - len s) " "%char).
Definition route_lines (l : list (string * string)) : string :=
  s_concat (map (fun r => padded r.1 +:+ r.2 +:+ nl) l).

(** The arguments after the method and the path: the body and the token. *)
Fixpoint request_args (l : list string) (body token : string) : string * string :=
  match l with
  | [] => (body, token)
  | a :: l' =>
      let other := request_args l' (if bool_decide (body = "") then a else body) token in
      match l' with
      | t :: l'' => if bool_decide (a = "--token") then request_args l'' body t else other
      | [] => other
      end
  end.
Definition request_command (args : list string) : M Process Z :=
  match args with
  | _ :: m :: p :: more =>
      let '(body, token) := request_args more "" "" in
      k ← boot;
      res ← on_app (handle k (mkRequest m p ∅
              (if bool_decide (token = "") then ∅ else {["Authorization" := token]}) body ∅ ∅ ""));
      _ ← print ("HTTP " +:+ to_string (status res) +:+ nl);
      _ ← print (s_concat (map (fun h => h.1 +:+ ": " +:+ h.2 +:+ nl) (iter_map (res_headers res))));
      _ ← print (nl +:+ res_body res +:+ nl);
      mret (if status res <? 400 then 0 else 1)
  | _ => needs "request needs <METHOD> <URI>"
  end.

Definition migrate (rollback : bool) : M Process Z :=
  _ ← boot;
  c ← the_connection;
  let ms := app_migrations conn in
  if rollback then
    _ ← on_app (on_conn open_ c (rollback_all conn ms));
    _ ← print ("rolled back " +:+ to_string (Z.of_nat (length ms)) +:+ " migration(s)" +:+ nl);
    mret 0
  else
    _ ← print (s_concat (map (fun m => "  applied " +:+ m_name m +:+ nl) ms));
    _ ← print ("migrations up to date" +:+ nl);
    mret 0.

Definition queue_work (args : list string) (turns : list Z) : M Process Z :=
  let poll := int_arg (args !! 1%nat) 1 in
  let poll := if poll <? 1 then 1 else poll in
  _ ← boot;
  c ← the_connection;
  on_console c (queue_report conn poll turns).
Definition schedule_run (clock : Z) : M Process Z :=
  _ ← boot;
  c ← the_connection;
  on_console c (schedule_report conn today_at clock).
End artisan.

(** ** Routes and the dispatch *)
Section dispatch.
Context {D : Type} (conn : Connection D) (open_ : D) (demangle_type : Key -> string) (fuel : nat)
  `{MapOrder string} (livewire_js : string) (today_at : Z -> Z -> Z -> Z)
  (disk : Disk)
  (serve : Kernel (AppState D) -> Z -> Z -> M (AppState D) Z).

(** [bootstrap] with the router it also returns. *)
Definition bootstrap_app : M (AppState D) (Kernel (AppState D) * Router (AppState D)) :=
  _ ← new_objects;
  users ← on_env (add_user (mkAuthUser 1 "ada" "secret") (mkArrayUserProvider [] Hasher));
  router ← lift_res (routes conn open_ demangle_type fuel livewire_js (array_users users));
  k ← register_providers [UserServiceProvider demangle_type fuel; DatabaseServiceProvider conn open_ demangle_type fuel]
        (global_middleware global_stack (new_kernel (router_ops router)));
  _ ← set_container set_facade tt;
  mret (k, router).
Definition route_list : M (Process (D := D)) Z :=
  '(_, router) ← on_app bootstrap_app;
  _ ← print (padded "METHOD" +:+ "URI" +:+ nl);
  _ ← print (route_lines (map (fun r => (i_method r, i_uri r)) (list_routes router)));
  mret 0.

(** [main]; the clocks are what the command would read. *)
Definition main (args : list string) (clock : Z) (turns : list Z) : M (Process (D := D)) Z :=
  let files_with {A} (f : Disk -> A) := f disk in
  match args with
  | [] => usage
  | cmd :: _ =>
      if bool_decide (cmd ∈ ["list"; "--help"; "-h"]) then usage
      else if bool_decide (cmd = "--version") then _ ← print ("cpp-artisan 0.1" +:+ nl); mret 0
      else if bool_decide (cmd = "new") then files_with make_new args
      else if bool_decide (cmd = "route:list") then route_list
      else if bool_decide (cmd = "request") then request_command conn open_ demangle_type fuel livewire_js args
      else if bool_decide (cmd = "serve") then serve_command conn open_ demangle_type fuel livewire_js serve args
      else if bool_decide (cmd = "make:model") then files_with make args false
      else if bool_decide (cmd = "make:controller") then files_with make args true
      else if bool_decide (cmd = "make:migration") then files_with make_migration args
      else if bool_decide (cmd = "migrate") then migrate conn open_ demangle_type fuel livewire_js false
      else if bool_decide (cmd = "migrate:rollback") then migrate conn open_ demangle_type fuel livewire_js true
      else if bool_decide (cmd = "queue:work") then queue_work conn open_ demangle_type fuel livewire_js args turns
      else if bool_decide (cmd = "schedule:run") then schedule_run conn open_ demangle_type fuel livewire_js today_at clock
      else
        _ ← complain ("Unknown command: " +:+ cmd +:+ nl +:+ nl);
        _ ← usage;
        mret 1
  end.
Lemma bootstrap_app_is s : bootstrap conn open_ demangle_type fuel livewire_js s =
  let '(r, s') := bootstrap_app s in (fst <$> r, s').
Proof.
  unfold bootstrap, bootstrap_app, mbind, M_bind. destruct (new_objects s) as [[u|e] s1]; [|done].
  destruct (on_env _ s1) as [[us|e] s2]; [|done]. destruct (lift_res _ s2) as [[r|e] s3]; [|done].
  destruct (register_providers _ _ s3) as [[k|e] s4]; [|done]. by destruct (set_container _ _ s4) as [[|] s5].
Qed.
End dispatch.

(** ** One tick of the schedule *)
(** The row of a job for "log", and its payload. *)
Definition is_log_row (r : Row) (payload : string) : Prop :=
  exists id, r = set_cell "id" (VInt id) (job_row "log" payload 0 0).
Definition payload_of (r : Row) : string := match r !! "payload" with Some (VStr p) => p | _ => "" end.
Lemma log_payload r p : is_log_row r p -> payload_of r = p.
Proof. by intros [id ->]. Qed.
Lemma log_rows_perm rows rows' payloads : Forall2 is_log_row rows payloads -> rows' ≡ₚ rows ->
  exists payloads', payloads' ≡ₚ payloads /\ Forall2 is_log_row rows' payloads'.
Proof.
  intros Hf Hp. exists (map payload_of rows'). assert (E : payloads = map payload_of rows).
  { clear -Hf. induction Hf as [|r p rows ps Hr _ IH]; [done|]. cbn. by rewrite (log_payload r p), <- IH. }
  split; [by rewrite E, Hp|]. assert (H : Forall (fun r => exists p, is_log_row r p) rows).
  { clear -Hf. induction Hf; constructor; [by eexists|done]. }
  rewrite <- Hp in H. clear -H. induction H as [|r rows [p Hr] _ IH]; constructor; [by rewrite (log_payload r p)|done].
Qed.

Section backend.
Context {D : Type} (conn : Connection D) ok view room known fits norm `{!TableLaws conn ok view room known fits norm}.
Context `{!QueueTables known fits} `{!ScheduleTable known fits "schedule_runs"} (today_at : Z -> Z -> Z -> Z).
Local Abbreviation Ticking := (Sched D string).
Local Abbreviation stamp := (table_stamp view "schedule_runs").
Implicit Types s : Ticking.

(** Room for [k] more stamps and [j] more jobs. *)
Definition good (k j : nat) s : Prop :=
  table_inv ok view "schedule_runs" s /\ room (data s) "schedule_runs" k /\ room (data s) "jobs" j.
Definition jobs s : list Row := view (data s) "jobs".

Lemma push_appends clock payload k j s : c_str payload = payload -> good k (S j) s ->
  exists s' r, push_task conn clock payload s = (Ok tt, s') /\ good k j s' /\ world s' = world s /\
    jobs s' = jobs s ++ [r] /\ is_log_row r payload /\ forall n, stamp s' n = stamp s n.
Proof.
  intros Hp ([Hok Hone] & Hb & Hr). destruct s as [m d w]. cbn [data] in *.
  destruct (tl_insert "jobs" (job_row "log" payload 0 0) d j qt_jobs Hok Hr (qt_job_row _ _ _ _) eq_refl) as (id & d' & E & Hok' & _ & Hv & Hr' & Ho).
  unfold push_task, push, on_data, on_part, mbind, M_bind. cbn [data memory_ world].
  change (if 0 <? 0 then clock + 0 else 0) with 0. rewrite E. do 2 eexists. split; [reflexivity|].
  destruct (Ho "schedule_runs" ltac:(done)) as [Hruns Hroom]. split.
  - split; [split; [done|]|split; [by apply Hroom|done]]. intros name. unfold runs_of. cbn [data]. rewrite Hruns. apply Hone.
  - split; [done|]. unfold jobs. cbn [data]. rewrite Hv. split; [done|]. split.
    + exists id. f_equal. unfold job_row. rewrite !fmap_set_cell, !tl_norm_int, !tl_norm_str by done. reflexivity.
    + intros n. unfold table_stamp, run_stamp, runs_of. cbn [data]. by rewrite Hruns.
Qed.
Lemma run_task_pushes now clock t payload k j s : c_str (t_name t) = t_name t -> c_str payload = payload ->
  t_fn t = push_task conn clock payload -> good (S k) (S j) s ->
  let due := t_due t now (stamp s (t_name t)) in
  exists s' rows, run_task (Some conn) "schedule_runs" now t s = (Ok due, s') /\ good k j s' /\ world s' = world s /\
    jobs s' = jobs s ++ rows /\ Forall2 is_log_row rows (if due then [payload] else []) /\
    forall n, stamp s' n = if due && bool_decide (n = t_name t) then now else stamp s n.
Proof.
  intros Hname Hpay Hfn (Hinv & Hb & Hr). cbn zeta. unfold run_task, mbind, M_bind.
  rewrite (law_last (Stamps := table_stamps conn ok view room known fits norm "schedule_runs")) by done. destruct (t_due _ _ _).
  - destruct s as [m d w]. destruct Hinv as [Hok Hone]. cbn [data] in *.
    destruct (record_effect conn ok view room known fits norm "schedule_runs" (t_name t) now k m d w Hname Hok Hone Hb)
      as (d1 & E & Hok1 & Hone1 & Hb1 & Ho1 & Hs1 & Hn1). rewrite E, Hfn.
    destruct (Ho1 "jobs" ltac:(done)) as [Hj1 Hr1].
    destruct (push_appends clock payload k j (mkSched m d1 w) Hpay) as (s2 & r & E2 & Hg & Hw2 & Hj2 & Hrow & Hs2).
    { split; [by split|]. split; [done|]. by apply Hr1. }
    rewrite E2. exists s2, [r]. split; [done|]. split; [done|]. split; [done|]. split; [unfold jobs in *; cbn [data] in *; by rewrite Hj2, Hj1|].
    split; [by repeat constructor|]. intros n. rewrite Hs2. cbn [andb]. unfold table_stamp in *. cbn [data] in *.
    case_bool_decide as Hn; [by rewrite Hn|by apply Hn1].
  - exists s, []. split; [done|]. split; [by split; [|split; apply tl_fewer]|]. split; [done|]. split; [by rewrite app_nil_r|]. by split.
Qed.

(** The payloads the tasks due at [now] queue, by their stamps. *)
Definition due_jobs (now : Z) s : list string :=
  (if every_due 60 now (stamp s "heartbeat") then ["heartbeat"] else []) ++
  (if daily_due today_at 3 0 now (stamp s "daily-report") then ["daily report"] else []).
Lemma demo_tasks now : demo_schedule conn today_at now =
  [mkTask "heartbeat" (push_task conn now "heartbeat") (every_due 60);
   mkTask "daily-report" (push_task conn now "daily report") (daily_due today_at 3 0)].
Proof. reflexivity. Qed.
Lemma tick_pushes now k j s : good (S (S k)) (S (S j)) s ->
  exists s' rows, run_pending (Some conn) "schedule_runs" (demo_schedule conn today_at now) 0 now s =
      (Ok (Z.of_nat (length (due_jobs now s))), s') /\ good k j s' /\ world s' = world s /\
    jobs s' = jobs s ++ rows /\ Forall2 is_log_row rows (due_jobs now s) /\ (0 < now -> due_jobs now s' = []).
Proof.
  intros Hg. unfold run_pending. rewrite Z.eqb_refl, demo_tasks. cbn [run_tasks]. unfold mbind, M_bind.
  set (t1 := mkTask "heartbeat" _ _). set (t2 := mkTask "daily-report" _ _).
  destruct (run_task_pushes now now t1 "heartbeat" (S k) (S j) s eq_refl eq_refl eq_refl Hg) as (s1 & r1 & E1 & Hg1 & Hw1 & Hj1 & Hr1 & Hs1).
  destruct (run_task_pushes now now t2 "daily report" k j s1 eq_refl eq_refl eq_refl Hg1) as (s2 & r2 & E2 & Hg2 & Hw2 & Hj2 & Hr2 & Hs2).
  cbn [t_name t_due t1 t2] in *. rewrite E1, E2.
  rewrite (Hs1 "daily-report"), andb_false_r in E2, Hr2, Hs2. exists s2, (r1 ++ r2). split.
  { unfold mret, M_ret, due_jobs. rewrite (Hs1 "daily-report"), andb_false_r. do 2 f_equal. by destruct (every_due _ _ _), (daily_due _ _ _ _ _). }
  split; [done|]. split; [congruence|]. split; [by rewrite Hj2, Hj1, app_assoc|]. split; [by apply Forall2_app|].
  intros Hn. unfold due_jobs. rewrite !Hs2, !Hs1. cbn. rewrite !andb_true_r, !andb_false_r.
  assert (Hd : forall b, every_due 60 now (if every_due 60 now b then now else b) = false).
  { intros b. destruct (every_due 60 now b) eqn:E; [|done]. unfold every_due. rewrite Z.sub_diag. apply orb_false_iff. lia. }
  rewrite Hd. destruct (daily_due today_at 3 0 now (stamp s "daily-report")) eqn:E; [|by rewrite E].
  replace (daily_due today_at 3 0 now now) with false; [done|]. unfold daily_due. symmetry. apply andb_false_iff.
  destruct (today_at now 3 0 <=? now) eqn:El; [right|by left]. apply Z.ltb_ge. lia.
Qed.

(** ** One pass of the worker *)
Definition job_line (payload : string) : string := "[job] " +:+ payload +:+ nl.

Lemma log_found : find_handler demo_queue "log" = Some (fun payload => cout (D := D) ("[job] " +:+ payload +:+ nl)).
Proof. unfold find_handler, demo_queue, handler. cbn [handlers_]. apply lookup_insert_eq. Qed.
(** A job for "log" is printed and removed. *)
Lemma log_row now r payload rest d o n : 0 <= now -> ok d -> is_log_row r payload -> view d "jobs" ≡ₚ r :: rest ->
  exists d', ok d' /\ view d' "jobs" ≡ₚ rest /\ (forall t, t ≠ "jobs" -> view d' t = view d t) /\
    forall fuel tail, run_worker conn (3 + fuel) demo_queue now (Scan (r :: tail) n) (d, o) =
      run_worker conn fuel demo_queue now (Scan tail (n + 1)) (d', o +:+ job_line payload).
Proof.
  intros Hnow Hok [id ->] Hv. set (r := set_cell "id" (VInt id) _) in *.
  assert (Hid : r !! "id" = Some (VInt id)) by apply lookup_set_cell.
  assert (Hcell : forall c, c ≠ "id" -> r !! c = job_row "log" payload 0 0 !! c) by (intros c Hc; by apply lookup_set_cell_ne).
  assert (Hdue : due (D := D) demo_queue now r = true).
  { unfold due, int_or_zero. rewrite !Hcell by done. cbn. apply andb_true_iff. split; [|done]. by apply negb_true_iff, Z.ltb_ge. }
  destruct (claim_row conn ok view room known fits norm "jobs" qt_jobs d r id rest Hok Hv Hid "reserved_at" 0 now ltac:(done) (Hcell "reserved_at" ltac:(done)))
    as (d1 & E1 & Hok1 & Hv1 & Ho1 & _); [intros v y; apply qt_number; by left|].
  destruct (remove_row conn ok view room known fits norm "jobs" qt_jobs d1 _ id rest Hok1 Hv1) as (d2 & E2 & Hok2 & Hv2 & Ho2 & _);
    [by rewrite lookup_set_cell_ne|].
  exists d2. split; [done|]. split; [done|]. split; [intros t Ht; by rewrite Ho2, Ho1|].
  intros fuel tail. cbn [Nat.add]. rewrite run_worker_S. cbn [worker_step]. unfold get_int, row_at. rewrite Hid.
  cbn [mbind res_bind mret res_ret value_int]. rewrite Hdue. cbn [negb]. unfold int_or_zero. rewrite (Hcell "reserved_at") by done. cbn [value_int].
  change (job_row "log" payload 0 0 !! "reserved_at") with (Some (VInt 0)). cbn [value_int].
  unfold on_db at 1, on_part. cbn [fst snd]. rewrite E1. rewrite run_worker_S. cbn [worker_step]. unfold get_string, row_at.
  rewrite (Hcell "job"), (Hcell "payload") by done.
  change (job_row "log" payload 0 0 !! "job") with (Some (VStr "log")). change (job_row "log" payload 0 0 !! "payload") with (Some (VStr payload)).
  cbn [mbind res_bind mret res_ret value_string]. rewrite log_found. unfold cout, modify. cbn [fst snd].
  rewrite run_worker_S. cbn [worker_step]. unfold on_db, on_part. cbn [fst snd]. by rewrite E2.
Qed.
Lemma log_rows now rows payloads : forall d o n, 0 <= now -> ok d -> Forall2 is_log_row rows payloads -> view d "jobs" ≡ₚ rows ->
  exists d', ok d' /\ view d' "jobs" = [] /\ (forall t, t ≠ "jobs" -> view d' t = view d t) /\
    forall fuel, run_worker conn (3 * length rows + fuel) demo_queue now (Scan rows n) (d, o) =
      run_worker conn fuel demo_queue now (Scan [] (n + Z.of_nat (length rows))) (d', o +:+ s_concat (map job_line payloads)).
Proof.
  intros d o n Hnow Hok Hf. revert d o n Hok. induction Hf as [|r p rows payloads Hr Hf IH]; intros d o n Hok Hv.
  - exists d. split; [done|]. split; [by apply Permutation_nil_r|]. split; [done|]. intros fuel. cbn. by rewrite Z.add_0_r, s_app_nil_r.
  - destruct (log_row now r p rows d o n Hnow Hok Hr Hv) as (d1 & Hok1 & Hv1 & Ho1 & E1).
    destruct (IH d1 (o +:+ job_line p) (n + 1) Hok1 Hv1) as (d2 & Hok2 & Hv2 & Ho2 & E2).
    exists d2. do 2 (split; [done|]). split; [intros t Ht; by rewrite Ho2, Ho1|]. intros fuel.
    replace (3 * length (r :: rows) + fuel)%nat with (3 + (3 * length rows + fuel))%nat by (cbn; lia).
    rewrite E1, E2. cbn [map s_concat foldr length]. rewrite s_app_assoc. do 2 f_equal. lia.
Qed.
Lemma pass_prints now payloads d o : 0 <= now -> ok d -> Forall2 is_log_row (view d "jobs") payloads ->
  exists d' printed, printed ≡ₚ payloads /\ ok d' /\ view d' "jobs" = [] /\ (forall t, t ≠ "jobs" -> view d' t = view d t) /\
    queue_pass conn now (d, o) = (Ok (Z.of_nat (length printed)), (d', o +:+ s_concat (map job_line printed))).
Proof.
  intros Hnow Hok Hf. destruct (tl_all "jobs" d qt_jobs Hok) as (rows & Ea & Hp).
  destruct (log_rows_perm _ rows _ Hf Hp) as (printed & Hpp & Hf').
  destruct (log_rows now rows printed d o 0 Hnow Hok Hf' (symmetry Hp)) as (d' & Hok' & Hv' & Ho' & E).
  exists d', printed. do 4 (split; [done|]). unfold queue_pass, work. cbn zeta. rewrite Z.eqb_refl. cbn [worker_step].
  unfold on_db at 1, on_part. cbn [fst snd]. rewrite Ea. cbn [rows_left].
  replace (5 * length rows + 5)%nat with (3 * length rows + S (2 * length rows + 4))%nat by lia.
  rewrite E, run_worker_S. cbn [worker_step]. rewrite run_worker_Done, (Forall2_length _ _ _ Hf'). done.
Qed.

(** ** From the schedule to the output *)
Definition tick_line (n : nat) : string :=
  "schedule:run — " +:+ to_string (Z.of_nat n) +:+ " task(s) fired, " +:+ to_string (Z.of_nat n) +:+ " job(s) queued" +:+ nl.
(** What a worker that makes one pass prints. *)
Definition worker_lines (poll : Z) (payloads : list string) (failed : nat) : string :=
  "queue:work polling every " +:+ to_string poll +:+ "s (Ctrl-C to stop)" +:+ nl +:+
  s_concat (map job_line payloads) +:+
  (if bool_decide (payloads = []) then ""
   else "processed " +:+ to_string (Z.of_nat (length payloads)) +:+ " job(s), 0 pending" +:+ nl) +:+
  "queue:work stopped (0 pending, " +:+ to_string (Z.of_nat failed) +:+ " failed)" +:+ nl.

Lemma pending_shown d o : ok d -> queue_pending conn (d, o) = (Ok (to_string (Z.of_nat (length (view d "jobs")))), (d, o)).
Proof.
  intros Hok. destruct (tl_all "jobs" d qt_jobs Hok) as (rows & E & Hp).
  unfold queue_pending, pending, on_base, on_part, mbind, M_bind. cbn [fst snd]. rewrite E. by rewrite <- Hp.
Qed.
Lemma failed_shown d o : ok d -> queue_failed conn (d, o) = (Ok (to_string (Z.of_nat (length (view d "failed_jobs")))), (d, o)).
Proof.
  intros Hok. destruct (tl_all "failed_jobs" d qt_failed Hok) as (rows & E & Hp).
  unfold queue_failed, failed, on_base, on_part, mbind, M_bind. cbn [fst snd]. rewrite E. by rewrite <- Hp.
Qed.
Lemma worker_reports poll now payloads d o : 0 <= now -> ok d -> Forall2 is_log_row (view d "jobs") payloads ->
  exists d' printed, printed ≡ₚ payloads /\ queue_report conn poll [now] (d, o) =
      (Ok 0, (d', o +:+ worker_lines poll printed (length (view d "failed_jobs")))) /\ ok d' /\ view d' "jobs" = [].
Proof.
  intros Hnow Hok Hf.
  set (o1 := o +:+ ("queue:work polling every " +:+ to_string poll +:+ "s (Ctrl-C to stop)" +:+ nl)).
  destruct (pass_prints now payloads d o1 Hnow Hok Hf) as (d' & printed & Hp & Hok' & Hv' & Ho' & E).
  exists d', printed. split; [done|]. split; [|done]. unfold queue_report, mbind, M_bind. unfold cout at 1, modify at 1. cbn [fst snd]. fold o1.
  cbn [queue_loop]. unfold mbind, M_bind. rewrite E. unfold worker_lines.
  destruct printed as [|p ps]; [change (Z.of_nat (length []) =? 0) with true; cbv iota|rewrite (proj2 (Z.eqb_neq _ 0)) by (cbn [length]; lia); cbv beta; rewrite pending_shown by done];
    unfold cout, modify, mret, M_ret; cbn [fst snd Z.of_nat length Z.eqb]; rewrite pending_shown, failed_shown, Hv', Ho' by done;
    cbn [fst snd length]; unfold o1; rewrite ?bool_decide_eq_false_2 by done; rewrite !s_app_assoc; reflexivity.
Qed.
End backend.

(** C35: What the schedule fires is run and printed, on any backend that keeps [TableLaws]
    (a SQLite file, which processes share, among them).  On an empty queue, a tick at [t]
    reports the tasks that are due by their stamps and queues a job for each, and a second
    tick at the same time, in a process of its own, fires nothing; then a worker, in another
    process, prints each payload once and leaves the queue empty. *)
Theorem scheduled_jobs_run {D} (conn : Connection D) ok view room known fits norm `{!TableLaws conn ok view room known fits norm}
    `{!QueueTables known fits} `{!ScheduleTable known fits "schedule_runs"}
    (today_at : Z -> Z -> Z -> Z) (t t2 poll : Z) (d : D) (o o1 o2 : string) :
  good ok view room 4 4 (mkSched ∅ d o) -> view d "jobs" = [] -> 0 < t -> 0 <= t2 ->
  let due := due_jobs view today_at t (mkSched ∅ d o) in
  exists d1 d2 d3 printed,
    schedule_report conn today_at t (d, o) = (Ok 0, (d1, o +:+ tick_line (length due))) /\
    schedule_tick conn today_at t (d1, o1) = (Ok 0, (d2, o1)) /\
    queue_report conn poll [t2] (d2, o2) =
      (Ok 0, (d3, o2 +:+ worker_lines poll printed (length (view d2 "failed_jobs")))) /\
    printed ≡ₚ due /\ view d3 "jobs" = [].
Proof.
  intros Hg Hj Ht Ht2 due.
  destruct (tick_pushes conn ok view room known fits norm today_at t 2 2 (mkSched ∅ d o) Hg) as (s1 & rows & E1 & Hg1 & Hw1 & Hj1 & Hr & Hnone).
  specialize (Hnone Ht). fold due in E1, Hr. unfold jobs in Hj1. cbn [data world] in Hj1, Hw1. rewrite Hj in Hj1. cbn [Datatypes.app] in Hj1.
  destruct s1 as [mem1 d1 w1]. cbn [data world] in *. subst w1.
  assert (Hg1' : good ok view room 2 2 (mkSched ∅ d1 o1)) by exact Hg1.
  destruct (tick_pushes conn ok view room known fits norm today_at t 0 0 (mkSched ∅ d1 o1) Hg1') as (s2 & rows2 & E2 & Hg2 & Hw2 & Hj2 & Hr2 & _).
  change (due_jobs view today_at t (mkSched ∅ d1 o1)) with (due_jobs view today_at t (mkSched mem1 d1 o)) in E2, Hr2.
  rewrite Hnone in E2, Hr2. apply Forall2_nil_inv_r in Hr2. subst rows2. rewrite app_nil_r in Hj2.
  destruct s2 as [mem2 d2 w2]. unfold jobs in Hj2. cbn [data world] in *. subst w2.
  destruct (worker_reports conn ok view room known fits norm poll t2 due d2 o2 Ht2 (proj1 (proj1 Hg2))) as (d3 & printed & Hp & E3 & _ & Hj3); [by rewrite Hj2, Hj1|].
  exists d1, d2, d3, printed. split; [|split; [unfold schedule_tick; cbn [fst snd]; by rewrite E2|by split]].
  unfold schedule_report, mbind, M_bind, schedule_tick. cbn [fst snd]. rewrite E1. cbn [data world].
  rewrite (pending_shown conn ok view room known fits norm) by apply Hg1. rewrite Hj1, (Forall2_length _ _ _ Hr). reflexivity.
Qed.

Definition utc_at (now hour minute : Z) : Z := now / 86400 * 86400 + hour * 3600 + minute * 60.
(** At four in the morning of a day on which nothing ran yet, both tasks are due. *)
Lemma scheduled_jobs_run_witness : exists d1 d2 d3 printed,
  schedule_report MemoryConnection utc_at 878400 (empty_memory, "") = (Ok 0, (d1, tick_line 2)) /\
  schedule_tick MemoryConnection utc_at 878400 (d1, "") = (Ok 0, (d2, "")) /\
  queue_report MemoryConnection 1 [878401] (d2, "") =
    (Ok 0, (d3, worker_lines 1 printed (length (rows_of d2 "failed_jobs")))) /\
  printed ≡ₚ ["heartbeat"; "daily report"] /\ rows_of d3 "jobs" = [].
Proof.
  apply (scheduled_jobs_run MemoryConnection memory_ok rows_of memory_room (fun _ => True) (fun _ _ => True) id utc_at 878400 878401 1 empty_memory "" "" "").
  - split; [split; [apply empty_memory_ok|apply empty_single]|split; vm_compute; reflexivity].
  - reflexivity.
  - lia.
  - lia.
Defined.
