(* ===== verification/SqliteDemo.v ===== *)
(** * A small database that keeps what SqliteTables.v relies on

    [SqlTables] states what the SQLite library promises of four forms of statements.  Here
    is a library that reads a text back into its statement and carries it out on tables of
    cells: the promises can be kept, all of them at once.  With the tables of the example
    application's migrations it runs the scheduler and the workers on the SQLite connection. *)
From S2P Require Import Prelude CppString CppNum Database Tables Migration Scheduler DbQueue Sqlite SqliteTables BlogModels Artisan.

Local Open Scope Z_scope.

(** ** Reading a statement *)
Fixpoint read_list (width : nat) (sep : string) (fuel : nat) (l : list string) : option (list string * list string) :=
  match fuel, l with
  | S fuel, c :: l =>
      match drop width l with
      | s :: rest =>
          if bool_decide (s = sep) then
            match read_list width sep fuel rest with Some (cs, rest) => Some (c :: cs, rest) | None => None end
          else Some ([c], s :: rest)
      | [] => Some ([c], [])
      end
  | _, _ => None
  end.
Lemma read_list_separated sep (tail : list string) cols rest fuel : cols ≠ [] -> head rest ≠ Some sep -> (length cols <= fuel)%nat ->
  read_list (length tail) sep fuel (separated sep true (map (fun c => c :: tail) cols) ++ rest) = Some (cols, rest).
Proof.
  intros Hne Hr. revert fuel. induction cols as [|c cols IH]; intros fuel Hf; [done|]. destruct fuel as [|fuel]; [cbn in Hf; lia|].
  cbn [map separated app read_list]. rewrite <- app_assoc, drop_app_length. destruct cols as [|c' cols].
  - cbn [map separated app]. destruct rest as [|s rest]; [done|]. rewrite bool_decide_eq_false_2; [done|]. intros ->. by apply Hr.
  - specialize (IH ltac:(done) fuel ltac:(cbn in *; lia)). cbn [map separated app] in IH |- *. rewrite bool_decide_eq_true_2 by done. by rewrite IH.
Qed.
Definition read_where (l : list string) : option (list string) :=
  match l with
  | [] => Some []
  | _ :: l => match read_list 2 "AND" (length l) l with Some (conds, []) => Some conds | _ => None end
  end.
Definition read_statement (l : list string) : option Statement :=
  match l with
  | "SELECT" :: _ :: _ :: t :: l => conds ← read_where l; Some (Select t conds)
  | "DELETE" :: _ :: t :: l => conds ← read_where l; Some (Delete t conds)
  | "UPDATE" :: t :: _ :: l =>
      '(cols, l) ← read_list 2 "," (length l) l; conds ← read_where l; Some (Update t cols conds)
  | "INSERT" :: _ :: t :: _ :: l => '(cols, l) ← read_list 0 "," (length l) l; Some (Insert t cols)
  | _ => None
  end.

Lemma separated_length sep first l : Forall (fun x => (1 <= length x)%nat) l -> (length l <= length (separated sep first l))%nat.
Proof.
  intros H. revert first. induction H as [|x l Hx _ IH]; intros first; [done|]. cbn [separated length]. rewrite !length_app.
  specialize (IH false). lia.
Qed.
Lemma list_fuel {A} sep (f : string -> list string) (cols : list string) (rest : list A) : (forall c, (1 <= length (f c))%nat) ->
  (length cols <= length (separated sep true (map f cols)) + length rest)%nat.
Proof.
  intros Hf. etrans; [|apply Nat.le_add_r]. rewrite <- (length_map f cols). apply separated_length, Forall_map, Forall_forall. intros c _. apply Hf.
Qed.
Lemma read_where_tokens conds : read_where (where_tokens_eq conds) = Some conds.
Proof.
  destruct conds as [|c conds]; [done|]. unfold where_tokens_eq, read_where.
  rewrite <- (app_nil_r (separated "AND" true (map equation (c :: conds)))).
  change (map equation (c :: conds)) with (map (fun c => c :: ["="; "?"]) (c :: conds)).
  rewrite (read_list_separated "AND" ["="; "?"]); [done|done|done|]. rewrite length_app. apply list_fuel. cbn. lia.
Qed.
Lemma read_statement_tokens st : match st with Insert _ cols | Update _ cols _ => cols ≠ [] | _ => True end ->
  read_statement (statement_tokens st) = Some st.
Proof.
  destruct st as [t conds|t cols|t cols conds|t conds]; cbn [statement_tokens app read_statement]; intros H.
  - by rewrite read_where_tokens.
  - rewrite (read_list_separated "," []); [done|done|done|]. rewrite length_app. apply list_fuel. cbn. lia.
  - change (map equation cols) with (map (fun c => c :: ["="; "?"]) cols).
    rewrite (read_list_separated "," ["="; "?"]); [|done|by destruct conds|rewrite length_app; apply list_fuel; cbn; lia].
    cbn [mbind option_bind]. by rewrite read_where_tokens.
  - by rewrite read_where_tokens.
Qed.

(** ** Carrying it out *)
Record Engine : Type := mkEngine { e_tables : gmap string (list Cells); e_last : Z; e_changes : Z }.
Definition engine_rows (d : Engine) (t : string) : list Cells := default [] (e_tables d !! t).
Section engine.
Context (tables : gmap string (gmap string Affinity)).
Definition engine_write (st : Statement) (binds : list SqlVal) (d : Engine) : bool * Engine :=
  let t := table_of st in
  match tables !! t with
  | None => (false, d)
  | Some s =>
      match st with
      | Insert _ cols =>
          (true, mkEngine (<[t := engine_rows d t ++ [new_row s cols binds (e_last d + 1)]]> (e_tables d)) (e_last d + 1) 1)
      | _ =>
          (true, mkEngine (<[t := changed st binds (engine_rows d t)]> (e_tables d)) (e_last d)
             (Z.of_nat (length (List.filter (meets st binds) (engine_rows d t)))))
      end
  end.
Definition engine : SqliteLib Engine := mkSqliteLib _
  (fun sql _ => bool_decide (read_statement (tokens sql) ≠ None))
  (fun sql binds d =>
     match read_statement (tokens sql) with
     | Some st => map map_to_list (List.filter (meets st binds) (engine_rows d (table_of st)))
     | None => []
     end)
  (fun sql binds d => match read_statement (tokens sql) with Some st => engine_write st binds d | None => (false, d) end)
  (fun _ d => (None, d)) (fun _ => "") e_changes e_last.

(** The rows are the tables', and the keys given so far are behind the counter. *)
Definition row_good (t : string) (r : Cells) : Prop :=
  exists s, tables !! t = Some s /\ dom r = dom s /\ forall c v, r !! c = Some v -> column_keeps s c v = true.
Record engine_up (d : Engine) : Prop := {
  up_rows t r : r ∈ engine_rows d t -> row_good t r;
  up_keys t : NoDup (map (fun r => r !! "id") (engine_rows d t));
  up_last t r id : r ∈ engine_rows d t -> r !! "id" = Some (SInteger id) -> id <= e_last d
}.

Definition names_good : Prop :=
  map_Forall (fun t s => is_sql_identifier t = true /\ s !! "id" = Some AInteger /\ delete "id" s ≠ ∅ /\
    map_Forall (fun c _ => is_sql_identifier c = true) s) tables.
Context (Hnames : names_good).
Local Abbreviation schema := (fun t => tables !! t).

Lemma engine_rows_set d t rows t' l c :
  engine_rows (mkEngine (<[t := rows]> (e_tables d)) l c) t' = if bool_decide (t' = t) then rows else engine_rows d t'.
Proof.
  unfold engine_rows. cbn [e_tables]. case_bool_decide as E; [subst; by rewrite lookup_insert_eq|by rewrite lookup_insert_ne].
Qed.
Lemma assign_good s cols vals (r : Cells) : Forall (fun cv => column_keeps s cv.1 cv.2 = true) (zip cols vals) ->
  dom r = dom s -> (forall c v, r !! c = Some v -> column_keeps s c v = true) ->
  dom (assign cols vals r) = dom s /\ forall c v, assign cols vals r !! c = Some v -> column_keeps s c v = true.
Proof.
  intros Hk Hd Hr. assert (Hin : forall c v, (list_to_map (zip cols vals) : Cells) !! c = Some v -> column_keeps s c v = true).
  { intros c v Hv%elem_of_list_to_map_2. rewrite Forall_forall in Hk. by apply (Hk _ Hv). }
  unfold assign. split.
  - rewrite dom_union_L, Hd. apply set_eq. intros c. rewrite elem_of_union. split; [|by right]. intros [[v Hv]%elem_of_dom|Hc]; [|done].
    apply elem_of_dom. specialize (Hin c v Hv). unfold column_keeps in Hin. by destruct (s !! c).
  - intros c v [Hv|[_ Hv]]%lookup_union_Some_raw; [by apply Hin|by apply Hr].
Qed.
Lemma assign_id cols vals (r : Cells) : "id" ∉ cols -> assign cols vals r !! "id" = r !! "id".
Proof.
  intros Hid. unfold assign. apply lookup_union_r. apply not_elem_of_list_to_map_1. intros ([c v] & E & Hin)%list_elem_of_fmap.
  cbn in E. subst c. apply Hid. apply elem_of_zip_l in Hin. done.
Qed.
Lemma proper_assigned s st binds : proper schema s st binds ->
  Forall (fun cv => column_keeps s cv.1 cv.2 = true) (zip (assigned st) (new_values st binds)).
Proof.
  intros [_ Hl Hk _ _ _]. unfold new_values. rewrite <- (take_drop (length (assigned st)) binds), zip_with_app in Hk.
  - by apply Forall_app in Hk as [Hk _].
  - rewrite length_take. lia.
Qed.
Lemma engine_up_change d s st binds : engine_up d -> proper schema s st binds ->
  match st with Update _ _ _ | Delete _ _ => True | _ => False end -> exists d', engine_write st binds d = (true, d') /\
  engine_up d' /\ engine_rows d' (table_of st) = changed st binds (engine_rows d (table_of st)) /\
  (forall t, t ≠ table_of st -> engine_rows d' t = engine_rows d t) /\
  e_changes d' = Z.of_nat (length (List.filter (meets st binds) (engine_rows d (table_of st)))).
Proof.
  intros Hup Hpr Hst. pose proof (proper_assigned s st binds Hpr) as Has. destruct Hpr as [Hs _ _ _ Hid _].
  assert (Hx : forall x, x ∈ changed st binds (engine_rows d (table_of st)) ->
    row_good (table_of st) x /\ exists r, r ∈ engine_rows d (table_of st) /\ x !! "id" = r !! "id").
  { intros x Hx. destruct st as [|t cols|t cols conds|t conds]; try done; cbn [changed table_of] in *.
    - apply list_elem_of_In, in_map_iff in Hx as (r & <- & Hr%list_elem_of_In). pose proof (up_rows _ Hup t r Hr) as Hg.
      case_match; [|split; [done|by exists r]]. destruct Hg as (s' & Hs' & Hd & Hk). assert (s' = s) as -> by congruence.
      split; [exists s; split; [done|]; by apply assign_good|]. exists r. split; [done|]. by apply assign_id.
    - apply list_elem_of_In, List.filter_In in Hx as [Hr%list_elem_of_In _]. split; [by apply (up_rows _ Hup)|by exists x]. }
  assert (Hkeys : NoDup (map (fun r => r !! "id") (changed st binds (engine_rows d (table_of st))))).
  { pose proof (up_keys _ Hup (table_of st)) as Hn. destruct st as [|t cols|t cols conds|t conds]; try done; cbn [changed table_of] in *.
    - rewrite map_map. erewrite map_ext; [exact Hn|]. intros r. cbn beta. case_match; [by apply assign_id|done].
    - revert Hn. generalize (engine_rows d t). intros l. induction l as [|r l IH]; [done|]. cbn [map List.filter]. intros [Hn Hl]%NoDup_cons.
      destruct (negb _); cbn [map]; [|by apply IH]. apply NoDup_cons. split; [|by apply IH]. intros Hin. apply Hn.
      apply list_elem_of_In, in_map_iff in Hin as (y & Ey & Hy%List.filter_In). apply list_elem_of_In, in_map_iff. exists y. by destruct Hy. }
  unfold engine_write. rewrite Hs. exists (mkEngine (<[table_of st := changed st binds (engine_rows d (table_of st))]> (e_tables d)) (e_last d)
             (Z.of_nat (length (List.filter (meets st binds) (engine_rows d (table_of st)))))).
  split; [by destruct st|]. split; [|split; [|split; [|done]]].
  - split; [intros t r|intros t|intros t r k]; rewrite engine_rows_set; case_bool_decide as E; subst; try apply Hup.
    + intros Hr. by apply Hx.
    + done.
    + intros Hr Hk. destruct (Hx r Hr) as [_ (r0 & Hr0 & E0)]. rewrite E0 in Hk. by apply (up_last _ Hup (table_of st) r0).
  - by rewrite engine_rows_set, bool_decide_eq_true_2.
  - intros t Hne. by rewrite engine_rows_set, bool_decide_eq_false_2.
Qed.
Lemma engine_up_insert d s t cols binds : engine_up d -> proper schema s (Insert t cols) binds ->
  exists d', engine_write (Insert t cols) binds d = (true, d') /\ engine_up d' /\
  engine_rows d' t = engine_rows d t ++ [new_row s cols binds (e_last d')] /\
  Forall (fun r => r !! "id" ≠ Some (SInteger (e_last d'))) (engine_rows d t) /\
  (forall t', t' ≠ t -> engine_rows d' t' = engine_rows d t').
Proof.
  intros Hup Hpr. pose proof (proper_assigned s _ binds Hpr) as Has. destruct Hpr as [Hs Hl _ _ Hid _]. cbn [table_of assigned conditions] in *.
  assert (Eb : new_values (Insert t cols) binds = binds) by (unfold new_values; apply take_ge; cbn in *; lia). rewrite Eb in Has.
  destruct (Hnames t s Hs) as (_ & Hint & _ & _). unfold engine_write. cbn [table_of]. rewrite Hs.
  set (row := new_row s cols binds (e_last d + 1)). eexists. split; [reflexivity|]. cbn [e_last].
  assert (Hfresh : Forall (fun r => r !! "id" ≠ Some (SInteger (e_last d + 1))) (engine_rows d t)).
  { apply Forall_forall. intros r Hr E. pose proof (up_last _ Hup t r _ Hr E). lia. }
  assert (Hrow : row_good t row).
  { exists s. split; [done|]. destruct (assign_good s cols binds (default_cell <$> s) Has) as [Hd Hk].
    - apply dom_fmap_L.
    - intros c v Hv. rewrite lookup_fmap in Hv. unfold column_keeps. destruct (s !! c) as [a|]; [|done]. cbn in Hv. injection Hv as <-. by destruct a.
    - unfold row, new_row. split.
      + rewrite dom_insert_L, Hd. apply subseteq_union_1_L. apply singleton_subseteq_l, elem_of_dom. by rewrite Hint.
      + intros c v [[<- <-]|[_ Hv]]%lookup_insert_Some; [unfold column_keeps; by rewrite Hint|by apply Hk]. }
  assert (Eid : row !! "id" = Some (SInteger (e_last d + 1))) by apply lookup_insert_eq.
  split; [|split; [|split]].
  - split; [intros t' r|intros t'|intros t' r k]; rewrite engine_rows_set; cbn [e_last]; case_bool_decide as E; subst; try apply Hup.
    + intros [Hr|Hr]%elem_of_app; [by apply Hup|]. by apply list_elem_of_singleton in Hr as ->.
    + rewrite map_app. apply NoDup_app. split; [apply Hup|]. split; [|cbn; apply NoDup_singleton]. intros y Hy Hy2. cbn in Hy2.
      apply list_elem_of_singleton in Hy2 as ->. apply list_elem_of_In, in_map_iff in Hy as (r & Er & Hr%list_elem_of_In).
      rewrite Forall_forall in Hfresh. apply (Hfresh r Hr). by rewrite Er.
    + intros [Hr|Hr]%elem_of_app Hk; [pose proof (up_last _ Hup t r k Hr Hk); lia|]. apply list_elem_of_singleton in Hr as ->.
      rewrite Eid in Hk. injection Hk as <-. lia.
    + intros Hr Hk. pose proof (up_last _ Hup t' r k Hr Hk). lia.
  - by rewrite engine_rows_set, bool_decide_eq_true_2.
  - done.
  - intros t' Hne. by rewrite engine_rows_set, bool_decide_eq_false_2.
Qed.
#[export] Instance engine_tables : SqlTables engine schema (engine_up) engine_rows (fun _ _ _ => True).
Proof.
  split.
  - done.
  - intros t s Hs. destruct (Hnames t s Hs) as (Ht & Hid & Hsome & Hc). do 3 (split; [done|]). intros c [a Ha]. by apply (Hc c a).
  - intros t s d r Hup Hs Hr. destruct (up_rows _ Hup t r Hr) as (s' & Hs' & H). assert (s' = s) as -> by congruence. done.
  - intros t d Hup. apply Hup.
  - intros d s st binds sql Hup Hpr Est Htok. cbn [lib_prepare lib_rows engine]. rewrite Htok, read_statement_tokens by (by rewrite Est).
    rewrite bool_decide_eq_true_2 by done. split; [done|]. split.
    + apply Forall_map, Forall_forall. intros r _. apply NoDup_fst_map_to_list.
    + rewrite map_map. rewrite (map_ext _ (fun r => r)) by (intros r; apply list_to_map_to_list). by rewrite map_id.
  - intros d s st binds sql Hup Hpr Hst Htok. cbn [lib_prepare lib_write lib_changes engine].
    rewrite Htok, read_statement_tokens by (destruct Hpr; by destruct st). rewrite bool_decide_eq_true_2 by done. split; [done|].
    destruct (engine_up_change d s st binds Hup Hpr Hst) as (d' & E & Hup' & Hr & Ho & Hc). by exists d'.
  - intros d s t cols binds sql n Hup _ Hpr Htok. cbn [lib_prepare lib_write lib_last_insert_rowid engine].
    rewrite Htok, read_statement_tokens by (by destruct Hpr). rewrite bool_decide_eq_true_2 by done. split; [done|].
    destruct (engine_up_insert d s t cols binds Hup Hpr) as (d' & E & Hup' & Hr & Hf & Ho). exists d'. do 4 (split; [done|]).
    split; [done|]. intros t' Hne. split; [by apply Ho|done].
Qed.
End engine.

(** ** The tables of the example application *)
#[export] Instance Affinity_dec : EqDecision Affinity.
Proof. solve_decision. Defined.
(** The columns a blueprint declares, read off its text. *)
Definition declared (b : Blueprint) : gmap string Affinity :=
  list_to_map (omap (fun col => match tokens col with
                                | [n; "INTEGER"; _; _; _] | [n; "INTEGER"; _; _; _; _] => Some (n, AInteger)
                                | [n; "TEXT"; _; _; _; _; _] => Some (n, AText)
                                | [n; "REAL"; _; _; _; _] => Some (n, AReal)
                                | _ => None
                                end) b).
Definition app_tables : gmap string (gmap string Affinity) := {[
  "jobs" := declared (bp_integer "reserved_at" (bp_integer "available_at" (bp_integer "attempts"
              (bp_string "payload" (bp_string "job" (bp_id []))))));
  "failed_jobs" := declared (bp_string "error" (bp_string "payload" (bp_string "job" (bp_id []))));
  "schedule_runs" := declared (bp_integer "last_run" (bp_string "name" (bp_id [])));
  "articles" := declared (bp_boolean "published" (bp_integer "views" (bp_string "title" (bp_id [])))) ]}.
Lemma app_names : names_good app_tables.
Proof. by_eval. Qed.
Example jobs_declared : app_tables !! "jobs" = Some {[ "id" := AInteger; "job" := AText; "payload" := AText;
  "attempts" := AInteger; "available_at" := AInteger; "reserved_at" := AInteger ]}.
Proof. by_eval. Qed.

Local Abbreviation app_schema := (fun t => app_tables !! t).
Lemma fits_by t s (r : gmap string Value) : app_tables !! t = Some s -> r !! "id" = None -> r ≠ ∅ ->
  dom r = dom (delete "id" s) -> map_Forall (fun c v => column_keeps s c (bind_value v) = true) r -> sql_fits app_schema t r.
Proof.
  intros Hs Hid Hne Hd Hk. assert (E : delete "id" r = r) by (by apply delete_id). exists s. split; [done|]. split; [split|].
  - intros E2. apply Hne. etrans; [symmetry; exact E|exact E2].
  - intros c v Hv _. by apply Hk.
  - etrans; [exact (f_equal dom E)|exact Hd].
Qed.
Lemma c_str_c_str s : c_str (c_str s) = c_str s.
Proof. induction s as [|c s IH]; [done|]. cbn. destruct (is_char _ c) eqn:E; [done|]. cbn. by rewrite E, IH. Qed.
Lemma text_kept s c text : s !! c = Some AText -> column_keeps s c (bind_value (VStr text)) = true.
Proof. intros E. unfold column_keeps. rewrite E. cbn. rewrite c_str_c_str. by apply bool_decide_eq_true. Qed.
(** A number put in an integer column. *)
Lemma fits_number t s key z r : app_tables !! t = Some s -> s !! key = Some AInteger /\ key ≠ "id" ->
  sql_fits app_schema t r -> sql_fits app_schema t (set_cell key (VInt z) r).
Proof.
  intros Hs [Ekey Hne] (s' & Hs' & [Hsome Hk] & Hd). assert (s' = s) as -> by congruence. exists s. split; [done|]. split; [split|].
  - intros E. assert (Hin : delete "id" (set_cell key (VInt z) r) !! key = None) by (rewrite E; apply lookup_empty).
    apply lookup_delete_None in Hin as [Hin|Hin]; [done|]. by rewrite lookup_set_cell in Hin.
  - intros c v Hv Hc. destruct (decide (c = key)) as [->|Hck].
    + rewrite lookup_set_cell in Hv. injection Hv as <-. unfold column_keeps. by rewrite Ekey.
    + rewrite lookup_set_cell_ne in Hv by done. by apply (Hk c v).
  - rewrite <- Hd. etrans; [apply (f_equal dom), (delete_insert_ne (r : gmap string Value)); congruence|]. etrans; [apply dom_insert_L|].
    apply subseteq_union_1_L. apply singleton_subseteq_l. rewrite Hd. apply elem_of_dom. exists AInteger. by apply lookup_delete_Some.
Qed.
#[export] Instance sqlite_queue : QueueTables (sql_known app_schema) (sql_fits app_schema).
Proof.
  split.
  - by eexists.
  - by eexists.
  - intros job payload attempts available. eapply fits_by; [reflexivity|reflexivity|done|reflexivity|].
    unfold job_row, set_cell. do 5 (apply map_Forall_insert_2; [by rewrite ?text_kept|]). apply map_Forall_empty.
  - intros job payload what. eapply fits_by; [reflexivity|reflexivity|done|reflexivity|].
    unfold failed_row, set_cell. do 3 (apply map_Forall_insert_2; [by rewrite ?text_kept|]). apply map_Forall_empty.
  - intros key z r Hkey (s & Hs & Hf). apply (fits_number "jobs" s); [done| |by exists s].
    injection Hs as <-. repeat (apply elem_of_cons in Hkey as [->|Hkey]; [by_eval|]). by apply not_elem_of_nil in Hkey.
Qed.
#[export] Instance sqlite_schedule : ScheduleTable (sql_known app_schema) (sql_fits app_schema) "schedule_runs".
Proof.
  split.
  - by eexists.
  - intros name now. eapply fits_by; [reflexivity|reflexivity|done|reflexivity|].
    unfold run_row, set_cell. do 2 (apply map_Forall_insert_2; [by rewrite ?text_kept|]). apply map_Forall_empty.
  - intros r now. eapply fits_number; [reflexivity|by_eval].
Qed.
#[export] Instance sqlite_articles : ArticleTable (sql_known app_schema) (sql_fits app_schema).
Proof.
  split; [by eexists|]. intros a. eapply fits_by; [reflexivity|reflexivity|done|reflexivity|].
  change (delete "id" (article_to_row a)) with (set_cell "published" (VBool (published a)) (set_cell "views" (VInt (views a)) (set_cell "title" (VStr (title a)) ∅))).
  unfold set_cell. do 3 (apply map_Forall_insert_2; [by rewrite ?text_kept|]). apply map_Forall_empty.
Qed.

(** The demonstration database, and its connection. *)
Definition empty_engine : Engine := mkEngine ∅ 0 0.
Lemma empty_engine_up : engine_up app_tables empty_engine.
Proof.
  split; [intros t r|intros t|intros t r k]; unfold engine_rows, empty_engine; cbn [e_tables]; rewrite lookup_empty; cbn; try by intros ?%not_elem_of_nil.
  constructor.
Qed.
#[local] Existing Instance canonical_order.
Definition app_connection : Connection Engine := SqliteConnection (engine app_tables) (fun _ => 0).
#[export] Instance app_connection_tables : SqlTables (engine app_tables) app_schema (engine_up app_tables) engine_rows (fun _ _ _ => True) :=
  engine_tables app_tables app_names.

Lemma sqlite_tables_witness :
  QueueTables (sql_known app_schema) (sql_fits app_schema) /\ engine_up app_tables empty_engine /\
  TableLaws app_connection (engine_up app_tables) (sql_view engine_rows) (fun _ _ _ => True)
    (sql_known app_schema) (sql_fits app_schema) sql_norm /\
  (QueueTables (sql_known app_schema) (sql_fits app_schema) -> forall W (q : DbQueue Engine W) (now : Z) (workers : nat) s p,
     0 < retry_after_ q -> now ≠ 0 -> quiet q -> engine_up app_tables s.1 ->
     rtc (pool_move app_connection (fun _ _ _ => True) (sql_known app_schema) (sql_fits app_schema) q now) (replicate workers Fetch, s) p -> exclusive p).
Proof. split; [apply sqlite_queue|]. split; [apply empty_engine_up|]. apply sqlite_tables, app_connection_tables. Defined.

(** Two workers of one queue on SQLite: the job is claimed once, run once and deleted. *)
Definition sqlite_job : Engine := (push app_connection 1000 "job" "p" 0 empty_engine).2.
Example sqlite_workers :
  let q : DbQueue Engine nat := mkDbQueue 2 60 90 {["job" := fun _ s => (Ok tt, (s.1, S s.2))]} in
  let '(ws, (d, calls)) := run_schedule app_connection q 1000 [0; 1; 0; 1; 0; 1; 0; 0; 1]%nat (replicate 2 Fetch) (sqlite_job, 0%nat) in
  ws = [Done (Ok 1); Done (Ok 0)] /\ calls = 1%nat /\ sql_view engine_rows d "jobs" = [].
Proof. vm_compute. done. Qed.

(** Three processes on one file: the schedule at four in the morning, the schedule again,
    and a worker. *)
Example sqlite_schedule_and_worker :
  let '(r1, (d1, o1)) := schedule_report app_connection utc_at 878400 (empty_engine, "") in
  let '(r2, (d2, o2)) := schedule_tick app_connection utc_at 878400 (d1, "") in
  let '(r3, (d3, o3)) := queue_report app_connection 1 [878401] (d2, "") in
  r1 = Ok 0 /\ o1 = tick_line 2 /\ r2 = Ok 0 /\ r3 = Ok 0 /\ o3 = worker_lines 1 ["heartbeat"; "daily report"] 0 /\
  sql_view engine_rows d3 "jobs" = [].
Proof. vm_compute. done. Qed.
