(* ===== verification/Hold.v ===== *)
(** * http_server.cpp: how long a client can hold a worker

    [set_recv_timeout] bounds one [recv], not the request: a client that sends a byte
    before each timeout keeps [read_request] going until the limits stop it.  A client is
    what it sends and how long each piece takes to come; [held] is the time its worker
    waits in [recv]. *)
From S2P Require Import Prelude CppString CppNum Http HttpServer.

Local Open Scope Z_scope.

(** A piece of what the client sends, and the seconds it comes after. *)
Record Piece : Type := mkPiece { p_delay : Z; p_bytes : string }.
(** [recv] under SO_RCVTIMEO: the piece, or a failure once the timeout is over. *)
Definition in_time (timeout : Z) (p : Piece) : bool := p_delay p <? timeout.
Definition recv_bytes (timeout : Z) (p : Piece) : string := if in_time timeout p then p_bytes p else "".
Definition recv_wait (timeout : Z) (p : Piece) : Z := if in_time timeout p then p_delay p else timeout.

(** After its last piece the client is silent: one more [recv] times out. *)
Definition recv_script (timeout : Z) (client : list Piece) : list string := map (recv_bytes timeout) client ++ [""].
Definition recv_waits (timeout : Z) (client : list Piece) : list Z := map (recv_wait timeout) client ++ [timeout].
(** The number of calls of [recv] a read of the script makes. *)
Definition recvs_made (limits : Limits) (script : list string) : nat :=
  length script - length (read_request limits script "" None).2.
Definition sum_Z (l : list Z) : Z := foldr Z.add 0 l.
Definition held (limits : Limits) (client : list Piece) : Z :=
  let timeout := read_timeout_seconds limits in
  sum_Z (take (recvs_made limits (recv_script timeout client)) (recv_waits timeout client)).

(** ** The bound *)
(** Bytes at which a request is over, whatever it is. *)
Definition byte_cap (limits : Limits) : Z := max_header_bytes limits + 4 + max_body_bytes limits.
Definition sane (limits : Limits) : Prop :=
  0 <= max_header_bytes limits /\ 0 <= max_body_bytes limits /\ byte_cap limits < 2 ^ 64.

Lemma read_request_used limits recvs data have : sane limits ->
  headers_of limits data have -> size data < byte_cap limits ->
  let rest := (read_request limits recvs data have).2 in
  (length rest <= length recvs)%nat /\ Z.of_nat (length recvs - length rest) <= byte_cap limits - size data.
Proof.
  intros (HH & HB & Hcap). revert data have. induction recvs as [|c recvs IH]; intros data have Hh Hs; [cbn; lia|].
  cbn [read_request]. destruct c as [|x c]; [cbn; lia|]. set (chunk := String x c) in *.
  assert (Hgrow : size data + 1 <= size (data +:+ chunk)) by (rewrite size_app; unfold size, chunk; cbn [len String.length]; lia).
  apply (headers_of_app _ _ chunk) in Hh. cbn zeta.
  assert (Hstop : (length recvs <= length (String x c :: recvs))%nat /\
    Z.of_nat (length (String x c :: recvs) - length recvs) <= byte_cap limits - size data) by (cbn [length]; lia).
  assert (Hgo : forall have', headers_of limits (data +:+ chunk) have' -> size (data +:+ chunk) < byte_cap limits ->
    (length (read_request limits recvs (data +:+ chunk) have').2 <= length (chunk :: recvs))%nat /\
    Z.of_nat (length (chunk :: recvs) - length (read_request limits recvs (data +:+ chunk) have').2) <= byte_cap limits - size data).
  { intros have' Hh' Hs'. destruct (IH _ _ Hh' Hs') as [Hl Hu]. cbn [length]. lia. }
  destruct have as [h|].
  - destruct (u64 _ <=? _) eqn:Eu; [done|]. apply Hgo; [done|]. destruct Hh as (k & Hk & Ha & ->).
    pose proof (content_length_nonneg (substr (data +:+ chunk) 0 k)) as Hc. apply find_str_bound in Hk as Hb. change (len crlf2) with 4%nat in Hb.
    destruct Ha as (Ha & _ & Hm). cbn [header_end content_length] in Eu. bools. unfold byte_cap in *.
    assert (Hk' : Z.of_nat k <= max_header_bytes limits).
    { unfold size, substr in Ha. rewrite s_drop_0, length_s_take in Ha. lia. }
    rewrite u64_small in Eu by lia. lia.
  - destruct (read_headers limits (data +:+ chunk)) as [[st|h]|] eqn:E; [done| |].
    + assert (Hh' : headers_of limits (data +:+ chunk) (Some h)) by by apply read_headers_Some.
      destruct (u64 _ <=? _) eqn:Eu; [done|]. apply Hgo; [done|]. destruct Hh' as (k & Hk & Ha & ->).
      pose proof (content_length_nonneg (substr (data +:+ chunk) 0 k)) as Hc. apply find_str_bound in Hk as Hb. change (len crlf2) with 4%nat in Hb.
      destruct Ha as (Ha & _ & Hm). cbn [header_end content_length] in Eu. bools. unfold byte_cap in *.
      assert (Hk' : Z.of_nat k <= max_header_bytes limits).
      { unfold size, substr in Ha. rewrite s_drop_0, length_s_take in Ha. lia. }
      rewrite u64_small in Eu by lia. lia.
    + apply Hgo; [done|]. unfold read_headers in E. unfold byte_cap. repeat case_match; bools; try done. lia.
Qed.

Lemma take_map_le (n : nat) (f : Piece -> Z) (last bound : Z) client :
  (forall p, In p client -> f p <= bound) -> last <= bound -> 0 <= bound ->
  sum_Z (take n (map f client ++ [last])) <= Z.of_nat n * bound.
Proof.
  intros Hf Hl Hb. revert n. induction client as [|p client IH]; intros [|n]; cbn; try lia.
  - rewrite take_nil. cbn. nia.
  - specialize (IH (fun q Hq => Hf q (or_intror Hq)) n). specialize (Hf p (or_introl eq_refl)). cbn in Hf. rewrite Nat2Z.inj_succ, Z.mul_succ_l. unfold sum_Z in *. lia.
Qed.

Lemma recv_wait_le timeout p : recv_wait timeout p <= timeout.
Proof. unfold recv_wait, in_time. case_match; bools; lia. Qed.

(** C4: What a client can hold a worker for while its request is read: however it cuts and
    delays its bytes, the reader makes at most as many calls of recv as it accepts bytes,
    and the waits before them sum to at most that many read timeouts. *)
Theorem read_hold_bounded limits client :
  sane limits -> 0 < byte_cap limits -> 0 < read_timeout_seconds limits ->
  Z.of_nat (recvs_made limits (recv_script (read_timeout_seconds limits) client)) <= byte_cap limits /\
  held limits client <= byte_cap limits * read_timeout_seconds limits.
Proof.
  intros Hs Hc Ht. set (t := read_timeout_seconds limits) in *.
  assert (Hn : Z.of_nat (recvs_made limits (recv_script t client)) <= byte_cap limits).
  { destruct (read_request_used limits (recv_script t client) "" None Hs) as [_ Hu]; [done|change (size "") with 0; lia|].
    cbn zeta in Hu. change (size "") with 0 in Hu. unfold recvs_made. lia. }
  split; [done|]. unfold held. fold t.
  pose proof (take_map_le (recvs_made limits (recv_script t client)) (recv_wait t) t t client
    (fun p _ => recv_wait_le t p)) as Hsum. unfold recv_waits. nia.
Qed.

(** ** The client that trickles *)
(** [n] pieces of one byte, each [timeout - 1] seconds after the one before. *)
Definition trickle (timeout : Z) (n : nat) : list Piece := repeat (mkPiece (timeout - 1) "a") n.

Lemma no_crlf2 data : no_chr (chr 13) data -> find_str data crlf2 0 = None.
Proof. intros Hd. rewrite find_str_0. by apply find0_none_chr. Qed.

Lemma read_trickle limits n data : no_chr (chr 13) data -> size data + Z.of_nat n <= max_header_bytes limits ->
  (read_request limits (repeat "a" n ++ [""]) data None).2 = [].
Proof.
  revert data. induction n as [|n IH]; intros data Hd Hs; [done|]. cbn [repeat app read_request].
  assert (Hd' : no_chr (chr 13) (data +:+ "a")) by (rewrite no_chr_app; split; [done|by by_eval]).
  assert (Hsz : size (data +:+ "a") = size data + 1) by (rewrite size_app; done).
  unfold read_headers. rewrite (no_crlf2 _ Hd'), Hsz. rewrite (proj2 (Z.ltb_ge _ _)) by lia. apply IH; [done|lia].
Qed.

Lemma recv_script_trickle timeout n : recv_script timeout (trickle timeout n) = repeat "a" n ++ [""].
Proof.
  unfold recv_script, trickle. f_equal. induction n as [|n IH]; cbn [repeat map]; [done|]. rewrite IH. f_equal.
  unfold recv_bytes, in_time. cbn [p_delay p_bytes]. by rewrite (proj2 (Z.ltb_lt _ _)) by lia.
Qed.
Lemma recv_waits_trickle timeout n :
  sum_Z (recv_waits timeout (trickle timeout n)) = Z.of_nat n * (timeout - 1) + timeout.
Proof.
  unfold recv_waits, trickle. induction n as [|n IH]; cbn [repeat map app sum_Z foldr]; [cbn; lia|].
  fold (sum_Z (map (recv_wait timeout) (repeat (mkPiece (timeout - 1) "a") n) ++ [timeout])). rewrite IH.
  unfold recv_wait, in_time. cbn [p_delay]. rewrite (proj2 (Z.ltb_lt _ _)) by lia. lia.
Qed.

(** The comment in [handle_client] says that a client that trickles releases the worker
    after [read_timeout_seconds]; it holds it [n] times as long, within the limits. *)
Theorem trickle_holds limits n : Z.of_nat n <= max_header_bytes limits ->
  let timeout := read_timeout_seconds limits in
  held limits (trickle timeout n) = Z.of_nat n * (timeout - 1) + timeout.
Proof.
  intros Hn timeout. unfold held, recvs_made. fold timeout. rewrite recv_script_trickle.
  rewrite read_trickle by (done || (cbn; lia)). cbn [length]. rewrite Nat.sub_0_r, <- recv_waits_trickle. f_equal.
  apply take_ge. unfold recv_waits, trickle. by rewrite !length_app, length_map, !repeat_length.
Qed.

(** With the default limits: more than 22 days for one connection. *)
Example trickle_default : held default_limits (trickle 30 (Z.to_nat 65536)) = 1900574.
Proof. apply (trickle_holds default_limits). by by_eval. Qed.

Lemma read_hold_bounded_witness :
  let client := trickle 30 3 ++ [mkPiece 40 "late"] in
  recvs_made default_limits (recv_script 30 client) = 4%nat /\ held default_limits client = 117 /\
  held default_limits client <= byte_cap default_limits * 30.
Proof.
  split; [by vm_compute|]. split; [by vm_compute|].
  apply (read_hold_bounded default_limits _); [by by_eval|by by_eval|by by_eval].
Defined.
