(* ===== verification/Smtp.v ===== *)
(** * smtp.hpp: [SmtpMailer::send] on a socket

    The socket is what its calls return ([socket], [connect], each [send]) and a log of
    what the mailer did with it; [inet_pton] is a parameter.  The replies are read into a
    buffer and not looked at, so their text is not part of the model.  The server at the
    other end is a parameter: what RFC 5321 says of one that accepts the commands is the
    class [SmtpServer]. *)
From S2P Require Import Prelude CppString CppNum Messaging.

Local Open Scope Z_scope.

Inductive SmtpEvent : Type :=
  | Connect (address : list Z) (port : Z)
  | AwaitReply
  | Wrote (bytes : string)
  | ShutDown.
Global Instance SmtpEvent_eq_dec : EqDecision SmtpEvent.
Proof. solve_decision. Defined.

(** [send_results] scripts the calls of [send]; when it is over, they fail. *)
Record Net : Type := mkNet {
  socket_result : Z;
  connect_result : Z;
  send_results : list Z;
  events : list SmtpEvent
}.
Definition record (e : SmtpEvent) (net : Net) : Net :=
  mkNet (socket_result net) (connect_result net) (send_results net) (events net ++ [e]).
(** One call of [send]: the kernel takes at most what it is given. *)
Definition write (line : string) (net : Net) : Net :=
  let n := default (-1) (head (send_results net)) in
  mkNet (socket_result net) (connect_result net) (tail (send_results net))
    (events net ++ [Wrote (s_take (Z.to_nat n) line)]).

Record SmtpMailer : Type := mkSmtpMailer { host_ : string; port_ : Z; from_ : string }.

Section send.
(** The bytes of the address, when the text is a dotted quad. *)
Variable inet_pton : string -> option (list Z).

(** [sockaddr_in addr{}]: the address is zero when [inet_pton] writes none. *)
Definition peer_address (mailer : SmtpMailer) : list Z := default [0; 0; 0; 0] (inet_pton (c_str (host_ mailer))).
Definition peer_port (mailer : SmtpMailer) : Z := port_ mailer mod 2 ^ 16.

Definition say (net : Net) (cmd : string) : Net := record AwaitReply (write (cmd +:+ nl) net).
Definition smtp_send (mailer : SmtpMailer) (message : Mail) (net : Net) : Net :=
  if socket_result net <? 0 then net
  else
    let net := record (Connect (peer_address mailer) (peer_port mailer)) net in
    let net := if connect_result net =? 0
               then fold_left say (smtp_commands (from_ mailer) message) (record AwaitReply net)
               else net in
    record ShutDown net.
End send.

(** ** What goes over the wire *)
Definition written (e : SmtpEvent) : string := match e with Wrote s => s | _ => "" end.
Definition wire (net : Net) : string := s_concat (map written (events net)).

Lemma wire_app (a b : list SmtpEvent) : s_concat (map written (a ++ b)) = s_concat (map written a) +:+ s_concat (map written b).
Proof. by rewrite map_app, s_concat_app. Qed.

(** The sends of a network that takes whole lines. *)
Definition takes_all (lines : list string) (net : Net) : Prop :=
  Forall2 (fun n line => size line <= n) (send_results net) lines.

Lemma say_all cmds net : takes_all (map (fun c => c +:+ nl) cmds) net ->
  events (fold_left say cmds net) = events net ++ flat_map (fun c => [Wrote (c +:+ nl); AwaitReply]) cmds.
Proof.
  revert net. induction cmds as [|c cmds IH]; intros net Ht; [by rewrite app_nil_r|]. cbn [fold_left flat_map map] in *.
  unfold takes_all in Ht. apply Forall2_cons_inv_r in Ht as (n & ns & Hn & Hns & Er).
  assert (Es : say net c = mkNet (socket_result net) (connect_result net) ns (events net ++ [Wrote (c +:+ nl); AwaitReply])).
  { unfold say, write, record. cbn [socket_result connect_result events send_results]. rewrite Er. cbn [head tail from_option id].
    rewrite s_take_ge by (cbv beta in Hn; unfold size in Hn; lia). by rewrite <- app_assoc. }
  rewrite Es, IH by exact Hns. cbn [events]. by rewrite <- !app_assoc.
Qed.

(** ** The server *)
Definition eol (l : string) : string := l +:+ nl.
Definition text_of (lines : list string) : string := s_concat (map eol lines).

(** Lines a server has to take (RFC 5321, 4.5.3.1): no line break inside, at most 512
    octets for a command and 1000 for a line of text, the line end included. *)
Definition one_line (s : string) : Prop := no_chr (chr 13) s /\ no_chr (chr 10) s.
Definition command_line (s : string) : Prop := one_line s /\ size s <= 510.
Definition text_line (s : string) : Prop := one_line s /\ size s <= 998.
(** RFC 5321, 4.5.2: of a line of text that begins with a dot, the dot is deleted. *)
Definition undot (l : string) : string := match l with String "." l => l | _ => l end.

(** A server that accepts the commands: it reads command lines up to DATA, then the text
    up to a line that is a dot, which it stores with leading dots deleted; [server] gives
    the commands, the stored text and what follows. *)
Class SmtpServer (server : string -> option (list string * string * string)) : Prop :=
  server_reads : forall cmds lines rest,
    Forall command_line cmds -> "DATA" ∉ cmds -> Forall text_line lines -> "." ∉ lines ->
    server (text_of (cmds ++ ["DATA"]) +:+ text_of (lines ++ ["."]) +:+ rest)
    = Some (cmds, text_of (map undot lines), rest).

(** A server with that behaviour. *)
Fixpoint lines_until (stop : string) (fuel : nat) (s : string) : option (list string * string) :=
  match fuel with
  | O => None
  | S fuel =>
      match find_str s nl 0 with
      | None => None
      | Some k =>
          let l := s_take k s in
          let rest := s_drop (k + 2) s in
          if bool_decide (l = stop) then Some ([], rest)
          else '(ls, rest) ← lines_until stop fuel rest; Some (l :: ls, rest)
      end
  end.
Definition rfc_server (s : string) : option (list string * string * string) :=
  '(cmds, rest) ← lines_until "DATA" (S (len s)) s;
  '(lines, rest) ← lines_until "." (S (len rest)) rest;
  Some (cmds, text_of (map undot lines), rest).

Lemma text_of_cons l ls : text_of (l :: ls) = l +:+ nl +:+ text_of ls.
Proof. unfold text_of. cbn [map s_concat foldr]. unfold eol. by rewrite s_app_assoc. Qed.
Lemma text_of_app a b : text_of (a ++ b) = text_of a +:+ text_of b.
Proof. unfold text_of. by rewrite map_app, s_concat_app. Qed.

Lemma lines_until_text stop rest : one_line stop -> forall lines fuel,
  Forall one_line lines -> stop ∉ lines -> (length lines < fuel)%nat ->
  lines_until stop fuel (text_of (lines ++ [stop]) +:+ rest) = Some (lines, rest).
Proof.
  intros Hstop.
  assert (Hread : forall l t, one_line l -> find_str (l +:+ nl +:+ t) nl 0 = Some (len l) /\
    s_take (len l) (l +:+ nl +:+ t) = l /\ s_drop (len l + 2) (l +:+ nl +:+ t) = t).
  { intros l t [Hl _]. rewrite clear_find by (by apply clear_no_chr). rewrite s_take_app by done.
    rewrite s_drop_app_ge by lia. by replace (len l + 2 - len l)%nat with 2%nat by lia. }
  induction lines as [|l lines IH]; intros [|fuel] Hl Hs Hf; cbn [length] in Hf; try lia.
  - cbn [app lines_until]. rewrite text_of_cons, !s_app_assoc.
    destruct (Hread stop (text_of [] +:+ rest) Hstop) as (-> & -> & ->). by rewrite bool_decide_eq_true_2.
  - apply Forall_cons in Hl as [Hx Hl]. apply not_elem_of_cons in Hs as [Hn Hs].
    cbn [app lines_until]. rewrite text_of_cons, !s_app_assoc.
    destruct (Hread l (text_of (lines ++ [stop]) +:+ rest) Hx) as (-> & -> & ->).
    rewrite bool_decide_eq_false_2 by congruence. by rewrite IH by (done || lia).
Qed.

Lemma text_of_length lines : (length lines <= len (text_of lines))%nat.
Proof.
  induction lines as [|l ls IH]; [done|]. rewrite text_of_cons, !length_s_app. cbn. lia.
Qed.

#[export] Instance rfc_server_ok : SmtpServer rfc_server.
Proof.
  intros cmds lines rest Hc Hd Hl Hn. unfold rfc_server.
  assert (Hone : forall l n, Forall (fun s => one_line s /\ size s <= n) l -> Forall one_line l)
    by (intros l n H; eapply Forall_impl; [exact H|]; by intros ? []).
  pose proof (text_of_length cmds). pose proof (text_of_length lines).
  rewrite (lines_until_text "DATA" (text_of (lines ++ ["."]) +:+ rest));
    [|split; by_eval|by eapply Hone|done|rewrite length_s_app, text_of_app, length_s_app; lia].
  cbn [mbind option_bind]. rewrite (lines_until_text "." rest); [done|split; by_eval|by eapply Hone|done|].
  rewrite length_s_app, text_of_app, length_s_app. lia.
Qed.

(** The bytes on the wire and what the server makes of them. *)
Definition whole (mailer : SmtpMailer) (m : Mail) (net : Net) : Prop :=
  0 <= socket_result net /\ connect_result net = 0 /\ events net = [] /\
  takes_all (conversation (from_ mailer) m) net.
(** The message as lines: its headers, an empty line, the lines of the body. *)
Definition mail_lines (from : string) (m : Mail) (body : list string) : list string :=
  ["From: " +:+ from; "To: " +:+ to m; "Subject: " +:+ subject m; ""] ++ body.
Definition well_formed (from : string) (m : Mail) (body : list string) : Prop :=
  Forall command_line ["MAIL FROM:<" +:+ from +:+ ">"; "RCPT TO:<" +:+ to m +:+ ">"] /\
  Forall text_line (mail_lines from m body) /\ mail_body m +:+ nl = text_of body.

Lemma smtp_send_wire pton mailer m net : whole mailer m net ->
  wire (smtp_send pton mailer m net) = s_concat (conversation (from_ mailer) m).
Proof.
  intros (Hs & Hc & He & Ht). unfold smtp_send, wire. rewrite (proj2 (Z.ltb_ge _ _)) by done.
  cbn [record connect_result]. rewrite Hc. cbn [Z.eqb]. cbn [events record].
  rewrite say_all by exact Ht. cbn [events record]. rewrite He, !wire_app. cbn [app map written s_concat foldr].
  rewrite !s_app_nil_l, s_app_nil_r. unfold conversation. generalize (smtp_commands (from_ mailer) m). intros l.
  induction l as [|c l IH]; [done|]. cbn [flat_map map app written]. unfold s_concat in *. cbn [foldr]. rewrite IH.
  by rewrite s_app_nil_l.
Qed.

Lemma mail_text from m body : mail_body m +:+ nl = text_of body ->
  format_email from m = text_of (mail_lines from m body).
Proof.
  intros E. unfold format_email, mail_lines. rewrite text_of_app, <- E, !text_of_cons.
  by rewrite !s_app_assoc.
Qed.

Lemma conversation_text from m body : mail_body m +:+ nl = text_of body ->
  s_concat (conversation from m) =
  text_of (["HELO localhost"; "MAIL FROM:<" +:+ from +:+ ">"; "RCPT TO:<" +:+ to m +:+ ">"] ++ ["DATA"])
  +:+ text_of (mail_lines from m body ++ ["."]) +:+ text_of ["QUIT"].
Proof.
  intros E. rewrite (text_of_app (mail_lines from m body)), <- (mail_text _ _ _ E).
  unfold conversation, smtp_commands. cbn [map s_concat foldr app]. rewrite !text_of_cons.
  by rewrite !s_app_assoc.
Qed.

Lemma undot_lines from m body :
  map undot (mail_lines from m body) = mail_lines from m (map undot body).
Proof. unfold mail_lines. by rewrite map_app. Qed.

Lemma undot_id l : head (chars l) ≠ Some "."%char -> undot l = l.
Proof. intros H. destruct l as [|c l]; [done|]. by destruct c as [[] [] [] [] [] [] [] []]. Qed.

Lemma undot_shorter l : (len (undot l) <= len l)%nat /\
  (head (chars l) = Some "."%char -> (len (undot l) < len l)%nat).
Proof. destruct l as [|c l]; [done|]. destruct c as [[] [] [] [] [] [] [] []]; cbn; split; try done; lia. Qed.

Lemma undot_all body : text_of (map undot body) = text_of body <->
  Forall (fun l => head (chars l) ≠ Some "."%char) body.
Proof.
  split.
  - assert (Hle : forall ls, (len (text_of (map undot ls)) <= len (text_of ls))%nat).
    { induction ls as [|l ls IH]; [done|]. cbn [map]. rewrite !text_of_cons, !length_s_app.
      pose proof (undot_shorter l). lia. }
    intros E%(f_equal len). induction body as [|l ls IH]; [done|]. cbn [map] in E.
    rewrite !text_of_cons, !length_s_app in E. destruct (undot_shorter l) as [Hl Hd]. specialize (Hle ls).
    constructor; [intros H; specialize (Hd H); lia|]. apply IH. lia.
  - intros H. f_equal. induction H as [|l ls Hl _ IH]; [done|]. cbn [map]. by rewrite undot_id, IH.
Qed.

(** C40: A server that accepts the commands and follows RFC 5321 is given the envelope of
    the message and stores its headers and its body, of every body line that begins with
    a dot the rest: the mailer does not double such dots.  So a message of lines within
    the limits, none of them a single dot, arrives as it was composed exactly if none of
    its lines begins with a dot. *)
Theorem smtp_message_arrives server `{!SmtpServer server} pton mailer m body net :
  whole mailer m net -> well_formed (from_ mailer) m body -> "." ∉ body ->
  (exists text,
     server (wire (smtp_send pton mailer m net)) =
     Some (["HELO localhost"; "MAIL FROM:<" +:+ from_ mailer +:+ ">"; "RCPT TO:<" +:+ to m +:+ ">"],
           text, "QUIT" +:+ nl) /\
     text = text_of (mail_lines (from_ mailer) m (map undot body)) /\
     (text = format_email (from_ mailer) m <-> Forall (fun l => head (chars l) ≠ Some "."%char) body)) /\
  last (events (smtp_send pton mailer m net)) = Some ShutDown.
Proof.
  intros Hw (Hc & Ht & Hb) Hdot. rewrite smtp_send_wire, (conversation_text _ _ _ Hb) by done. split.
  - eexists. split; [|split; [reflexivity|]].
    + rewrite server_reads; [by rewrite undot_lines| | |done|].
      * constructor; [split; [split; by_eval|by vm_compute]|done].
      * intros H. do 3 (apply elem_of_cons in H as [H|H]; [discriminate H|]). by apply elem_of_nil in H.
      * intros H. unfold mail_lines in H. cbn [app] in H.
        do 4 (apply elem_of_cons in H as [H|H]; [discriminate H|]). done.
    + rewrite (mail_text _ _ _ Hb). unfold mail_lines. rewrite !text_of_app, <- undot_all. split.
      * intros E. by apply s_app_inj_l in E.
      * by intros ->.
  - destruct Hw as (Hs & _). unfold smtp_send. rewrite (proj2 (Z.ltb_ge _ _)) by done. apply last_snoc.
Qed.

Lemma smtp_message_arrives_witness :
  let mailer := mkSmtpMailer "127.0.0.1" 2525 "app@x" in
  let m := mkMail "ada@x" "Hi" ("one" +:+ nl +:+ "two") in
  let net := mkNet 3 0 [100; 100; 100; 100; 100; 100] [] in
  rfc_server (wire (smtp_send (fun _ => None) mailer m net)) =
  Some (["HELO localhost"; "MAIL FROM:<app@x>"; "RCPT TO:<ada@x>"], format_email "app@x" m, "QUIT" +:+ nl).
Proof.
  destruct (smtp_message_arrives rfc_server (fun _ => None) (mkSmtpMailer "127.0.0.1" 2525 "app@x")
    (mkMail "ada@x" "Hi" ("one" +:+ nl +:+ "two")) ["one"; "two"] (mkNet 3 0 [100; 100; 100; 100; 100; 100] []))
    as [(text & E & _ & Hiff) _].
  - split; [done|]. split; [done|]. split; [done|]. repeat constructor; done.
  - split; [|split; [|reflexivity]];
      repeat (apply Forall_cons; split; [split; [split; by_eval|by vm_compute]|]); by apply Forall_nil.
  - by_eval.
  - cbv zeta. etrans; [exact E|]. by rewrite (proj2 Hiff) by (repeat constructor; discriminate).
Defined.

(** A line of the body that begins with a dot arrives without it. *)
Lemma leading_dot_is_lost :
  rfc_server (wire (smtp_send (fun _ => None) (mkSmtpMailer "127.0.0.1" 2525 "app@x")
    (mkMail "ada@x" "Hi" ("one" +:+ nl +:+ ". two")) (mkNet 3 0 [100; 100; 100; 100; 100; 100] []))) =
  Some (["HELO localhost"; "MAIL FROM:<app@x>"; "RCPT TO:<ada@x>"],
        format_email "app@x" (mkMail "ada@x" "Hi" ("one" +:+ nl +:+ " two")), "QUIT" +:+ nl).
Proof. by vm_compute. Qed.

(** ** What it does not look at *)
Definition events_of (mailer : SmtpMailer) (m : Mail) (net : Net) : list SmtpEvent :=
  events (smtp_send (fun _ => None) mailer m net).

(** A host that is a name is not looked up: the address stays 0.0.0.0, which connects to
    the machine itself. *)
Lemma host_name_is_any_address port from m : 0 <= port < 2 ^ 16 ->
  head (events_of (mkSmtpMailer "mail.example.com" port from) m (mkNet 3 0 [] [])) = Some (Connect [0; 0; 0; 0] port).
Proof. intros Hp. unfold events_of, smtp_send, peer_port, peer_address. cbn. by rewrite Z.mod_small. Qed.

(** No connection: nothing is written, and nobody is told. *)
Lemma unreachable_is_silent pton mailer m net : connect_result net <> 0 -> events net = [] ->
  wire (smtp_send pton mailer m net) = "".
Proof.
  intros Hc He. unfold wire, smtp_send. case_match; [by rewrite He|]. cbn [record connect_result].
  rewrite (proj2 (Z.eqb_neq _ _)) by done. cbn [events record]. by rewrite He.
Qed.

(** A send that takes part of a line: the rest of it is not sent again. *)
Lemma short_send_loses_text :
  wire (smtp_send (fun _ => None) (mkSmtpMailer "" 25 "f@x") (mkMail "t@x" "s" "b") (mkNet 3 0 [16; 7; 100] [])) =
  "HELO localhost" +:+ nl +:+ "MAIL FR" +:+ "RCPT TO:<t@x>" +:+ nl.
Proof. by vm_compute. Qed.

(** An address with a line break adds a recipient. *)
Lemma recipient_with_line_break :
  let m := mkMail ("t@x>" +:+ nl +:+ "RCPT TO:<eve@x") "s" "b" in
  (fun r => r.1.1) <$> rfc_server (s_concat (conversation "f@x" m)) =
  Some ["HELO localhost"; "MAIL FROM:<f@x>"; "RCPT TO:<t@x>"; "RCPT TO:<eve@x>"].
Proof. by vm_compute. Qed.
