(* ===== verification/Slice.v ===== *)
(** * slice.cpp: the framework in one file

    The vertical slice has its own requests, container, pipeline, router and kernel, and a
    program that runs five requests through them.  The names of its classes are those of
    the library, whose definitions are written with their file here ([Http.Request],
    [Router.add]).  A [std::any] is as in Container.v, and
    std::regex is that of Router.v.  SliceAgrees.v compares the two. *)
From S2P Require Import Prelude CppString CppNum Http Pipeline Router Kernel Container.

(** ** HTTP contracts *)
Record Request : Type := mkRequest {
  method : string;
  path : string;
  route_params : gmap string string;
  headers : gmap string string;
  body : string
}.
Record Response : Type := mkResponse {
  status : Z;
  res_body : string;
  res_headers : gmap string string
}.
#[export] Instance slice_Response_eq_dec : EqDecision Response.
Proof. solve_decision. Defined.

(** [Response{status, body}] keeps the initialiser of the headers. *)
Definition response (st : Z) (b : string) : Response := mkResponse st b {["Content-Type" := "text/plain"]}.
Definition response_json (payload : string) (st : Z) : Response :=
  let r := response st payload in
  mkResponse (status r) (res_body r) (<["Content-Type" := "application/json"]> (res_headers r)).
Definition set_route_params (p : gmap string string) (q : Request) : Request :=
  mkRequest (method q) (path q) p (headers q) (body q).

(** ** Container *)
(** What a factory does with the container it is given. *)
Inductive Prog : Type :=
  | Return (v : Any)
  | Fail (e : exn)
  | Resolve (T : Key) (k : Any -> Prog)                      (* c.resolve<T>() *)
  | Construct (T : Key) (deps : list nat) (k : Any -> Prog). (* std::make_shared<T>(deps...) *)
Inductive Factory : Type :=
  | Transient (p : Prog)
  | Singleton (key : Key) (p : Prog)
  | Constant (obj : Any).
Record Container : Type := mkContainer {
  factories_ : gmap Key Factory;
  instances_ : gmap Key Any;
  heap : list (Key * list nat)
}.
Definition new_container : Container := mkContainer ∅ ∅ [].

Definition bind (T : Key) (p : Prog) (c : Container) : Container :=
  mkContainer (<[T := Transient p]> (factories_ c)) (instances_ c) (heap c).
Definition singleton (T : Key) (p : Prog) (c : Container) : Container :=
  mkContainer (<[T := Singleton T p]> (factories_ c)) (instances_ c) (heap c).
Definition memoise (T : Key) (obj : Any) (c : Container) : Container :=
  mkContainer (factories_ c) (<[T := obj]> (instances_ c)) (heap c).
Definition instance (T : Key) (obj : Any) (c : Container) : Container :=
  let c := memoise T obj c in mkContainer (<[T := Constant obj]> (factories_ c)) (instances_ c) (heap c).
Definition bound (T : Key) (c : Container) : bool := bool_decide (is_Some (factories_ c !! T)).

Definition Outcome (A : Type) : Type := option (res A * Container).
Definition continue {A B} (o : Outcome A) (k : A -> Container -> Outcome B) : Outcome B :=
  match o with
  | None => None
  | Some (Throw e, c) => Some (Throw e, c)
  | Some (Ok a, c) => k a c
  end.

Section resolution.
(** [typeid(T).name()]. *)
Variable type_name : Key -> string.
Definition unresolved (T : Key) : exn := StdExn ("Unresolved binding: " +:+ type_name T).

Section run.
Variable res : Key -> Container -> Outcome Any.
Fixpoint exec (p : Prog) (c : Container) : Outcome Any :=
  match p with
  | Return v => Some (Ok v, c)
  | Fail e => Some (Throw e, c)
  | Resolve T k => continue (res T c) (fun v c => exec (k v) c)
  | Construct T deps k =>
      exec (k (mkAny T (length (heap c)))) (mkContainer (factories_ c) (instances_ c) (heap c ++ [(T, deps)]))
  end.
Definition call (f : Factory) (c : Container) : Outcome Any :=
  match f with
  | Transient p => exec p c
  | Singleton key p =>
      match instances_ c !! key with
      | Some v => Some (Ok v, c)
      | None => continue (exec p c) (fun made c => Some (Ok made, memoise key made c))
      end
  | Constant obj => Some (Ok obj, c)
  end.
End run.

Fixpoint resolve (fuel : nat) (T : Key) (c : Container) : Outcome Any :=
  match fuel with
  | O => None
  | S fuel =>
      match factories_ c !! T with
      | None => Some (Throw (unresolved T), c)
      | Some f => continue (call (resolve fuel) f c) (fun made c => Some (any_cast T made, c))
      end
  end.
End resolution.

(** ** Pipeline, router, kernel *)
Definition Handler (W : Type) : Type := M (Request * W) Response.
Definition Next (W : Type) : Type := Handler W.
Definition Middleware (W : Type) : Type := Next W -> Handler W.

(** The regular expression of a segment has no star: [{rest*}] is literal text. *)
Definition seg_at (s : string) : option (string * string) :=
  match s with
  | String "{" s1 =>
      let n := span is_word s1 in
      if n =? 0 then None
      else match s_drop n s1 with
           | String "}" rest => Some (s_take n s1, rest)
           | _ => None
           end
  | _ => None
  end.
Fixpoint escape (s : string) : string :=
  match s with
  | "" => ""
  | String c s' => if special c then String "\" (String c (escape s')) else String c (escape s')
  end.
Fixpoint add_loop (fuel : nat) (lit uri : string) : string * list string :=
  match fuel with
  | 0 => ("", [])
  | S fuel =>
      match seg_at uri with
      | Some (name, rest) =>
          let '(rx, names) := add_loop fuel "" rest in (escape lit +:+ "([^/]+)" +:+ rx, name :: names)
      | None =>
          match uri with
          | "" => (escape lit +:+ "$", [])
          | String c uri' => add_loop fuel (lit +:+ str1 c) uri'
          end
      end
  end.
Definition add_pattern (uri : string) : string * list string :=
  let '(rx, names) := add_loop (S (len uri)) "" uri in ("^" +:+ rx, names).

Section framework.
Context {W : Type}.

Record Pipeline : Type := mkPipeline { middlewares_ : list (Middleware W) }.
Definition through (mws : list (Middleware W)) (p : Pipeline) : Pipeline := mkPipeline mws.
Definition run (p : Pipeline) (dest : Handler W) : Handler W :=
  fold_left (fun prev mw => mw prev) (rev (middlewares_ p)) dest.

Record Route : Type := mkRoute {
  r_method : string;
  r_pattern : list rx;
  r_params : list string;
  r_handler : Handler W;
  r_middleware : list (Middleware W)
}.
Record Router : Type := mkRouter { routes_ : list Route }.
Definition add (m uri : string) (h : Handler W) (mw : list (Middleware W)) (r : Router) : res Router :=
  let '(text, names) := add_pattern uri in
  match parse_rx text with
  | None => Throw regex_error
  | Some pat => Ok (mkRouter (routes_ r ++ [mkRoute m pat names h mw]))
  end.
Definition get (uri : string) (h : Handler W) (mw : list (Middleware W)) : Router -> res Router := add "GET" uri h mw.
Definition post (uri : string) (h : Handler W) (mw : list (Middleware W)) : Router -> res Router := add "POST" uri h mw.
Fixpoint match_routes (rs : list Route) (m p : string) : option (Route * gmap string string) :=
  match rs with
  | [] => None
  | r :: rs =>
      if bool_decide (r_method r <> m) then match_routes rs m p
      else match regex_match (r_pattern r) p with
           | Some caps => Some (r, bind_params (r_params r) caps)
           | None => match_routes rs m p
           end
  end.
Definition match_request (r : Router) (req : Request) : option (Route * gmap string string) :=
  match_routes (routes_ r) (method req) (path req).

Record Kernel : Type := mkKernel { router_ : Router; global_ : list (Middleware W) }.
Definition new_kernel (r : Router) : Kernel := mkKernel r [].
Definition global_middleware (mw : list (Middleware W)) (k : Kernel) : Kernel := mkKernel (router_ k) mw.
Definition handle (k : Kernel) (req : Request) (w : W) : res Response * W :=
  match match_request (router_ k) req with
  | None => (Ok (response 404 "Not Found"), w)
  | Some (route, params) =>
      match run (through (global_ k ++ r_middleware route) (mkPipeline [])) (r_handler route)
              (set_route_params params req, w) with
      | (r, (_, w')) => (r, w')
      end
  end.
End framework.
Arguments Pipeline : clear implicits.
Arguments Route : clear implicits.
Arguments Router : clear implicits.
Arguments Kernel : clear implicits.

(** ** The application *)
Definition UserService_find (id : string) : string :=
  if bool_decide (id = "42") then "{" +:+ dq "id" +:+ ":42," +:+ dq "name" +:+ ":" +:+ dq "Ada Lovelace" +:+ "}"
  else "".

(** The container of the closures and what was written to std::cerr. *)
Record World : Type := mkWorld { container : Container; err : string }.
Definition eprint (text : string) {A} : M (A * World) unit :=
  modify (fun s => (s.1, mkWorld (container s.2) (err s.2 +:+ text))).

Definition error_json (text : string) : string := "{" +:+ dq "error" +:+ ":" +:+ dq text +:+ "}".
(** [req.route_params["id"]] adds an empty parameter when there is none. *)
Definition UserController_show : M (Request * World) Response :=
  id ← gets (fun s : Request * World => default "" (route_params s.1 !! "id"));
  _ ← modify (fun s : Request * World => (set_route_params (<["id" := id]> (route_params s.1)) s.1, s.2));
  let user := UserService_find id in
  mret (if bool_decide (user = "") then response_json (error_json "not found") 404 else response_json user 200).

Definition logging_mw (next : M (Request * World) Response) : M (Request * World) Response :=
  req ← gets (fun s : Request * World => s.1);
  _ ← eprint ("[log] --> " +:+ method req +:+ " " +:+ path req +:+ lf);
  res ← next;
  _ ← eprint ("[log] <-- " +:+ to_string (status res) +:+ lf);
  mret res.
Definition require_token (expected : string) (next : M (Request * World) Response) : M (Request * World) Response :=
  req ← gets (fun s : Request * World => s.1);
  if bool_decide (headers req !! "Authorization" = Some expected) then next
  else mret (response_json (error_json "unauthorized") 401).

(** ** main *)
Definition services (c : Container) : Container :=
  bind "UserController" (Resolve "UserService" (fun svc => Construct "UserController" [any_ref svc] Return))
    (singleton "UserService" (Construct "UserService" [] Return) c).

Section main.
Variable type_name : Key -> string.
Variable fuel : nat.

(** [container->resolve<T>()]; a resolution that has not ended is an error here. *)
Definition resolve_main (T : Key) : M World Any := fun w =>
  match resolve type_name fuel T (container w) with
  | Some (r, c) => (r, mkWorld c (err w))
  | None => (Throw OtherExn, w)
  end.
Definition resolve_in (T : Key) : M (Request * World) Any := on_part snd (fun w (s : Request * World) => (s.1, w)) (resolve_main T).
Definition routes (r : Router World) : res (Router World) :=
  r ← get "/users/{id}" ((_ ← resolve_in "UserController"; UserController_show) : M (Request * World) Response)
         [require_token "secret-token"] r;
  get "/health" (mret (response 200 "ok") : M (Request * World) Response) [] r.

(** std::cout: what was printed before an exception stays. *)
Definition print (text : string) : M (string * World) unit := modify (fun s => (s.1 +:+ text, s.2)).
Definition dump (label : string) (r : Response) : M (string * World) unit :=
  _ ← print (label +:+ "  status=" +:+ to_string (status r) +:+ "  ct=");
  ct ← lift_res (match res_headers r !! "Content-Type" with Some ct => Ok ct | None => Throw out_of_range end);
  print (ct +:+ "  body=" +:+ res_body r +:+ lf).
Definition in_world {A} (m : M World A) : M (string * World) A := on_part snd (fun w (s : string * World) => (s.1, w)) m.
(** One line of the output: a request through the kernel. *)
Definition shown (k : Kernel World) (label m p : string) (hs : gmap string string) : M (string * World) unit :=
  r ← in_world (handle k (mkRequest m p ∅ hs ""));
  dump label r.
Definition same_instance : M (string * World) unit :=
  _ ← print "singleton  same_instance=";
  a ← in_world (resolve_main "UserService");
  b ← in_world (resolve_main "UserService");
  print ((if bool_decide (any_ref a = any_ref b) then "1" else "0") +:+ lf).
(** The exit code, or the exception that ends the program; std::cout and std::cerr. *)
Definition main : res Z * (string * World) :=
  let w := mkWorld (services new_container) "" in
  match routes (mkRouter []) with
  | Throw e => (Throw e, ("", w))
  | Ok router =>
      let k := global_middleware [logging_mw : Middleware World] (new_kernel router) in
      let token := {["Authorization" := "secret-token"]} in
      (_ ← shown k "auth+found " "GET" "/users/42" token;
       _ ← shown k "auth+miss  " "GET" "/users/7" token;
       _ ← shown k "no-token   " "GET" "/users/42" ∅;
       _ ← shown k "404        " "GET" "/nope" ∅;
       _ ← same_instance;
       mret 0%Z) ("", w)
  end.
End main.

(** What the program prints, whatever the names of the types are: resolving a controller
    recurses twice. *)
Lemma main_prints type_name fuel : 2 <= fuel ->
  (main type_name fuel).1 = Ok 0%Z /\
  (main type_name fuel).2.1 =
    "auth+found   status=200  ct=application/json  body={" +:+ dq "id" +:+ ":42," +:+ dq "name" +:+ ":" +:+ dq "Ada Lovelace" +:+ "}" +:+ lf +:+
    "auth+miss    status=404  ct=application/json  body={" +:+ dq "error" +:+ ":" +:+ dq "not found" +:+ "}" +:+ lf +:+
    "no-token     status=401  ct=application/json  body={" +:+ dq "error" +:+ ":" +:+ dq "unauthorized" +:+ "}" +:+ lf +:+
    "404          status=404  ct=text/plain  body=Not Found" +:+ lf +:+
    "singleton  same_instance=1" +:+ lf /\
  err (main type_name fuel).2.2 =
    "[log] --> GET /users/42" +:+ lf +:+ "[log] <-- 200" +:+ lf +:+ "[log] --> GET /users/7" +:+ lf +:+ "[log] <-- 404" +:+ lf +:+
    "[log] --> GET /users/42" +:+ lf +:+ "[log] <-- 401" +:+ lf.
Proof. intros Hf. destruct fuel as [|[|fuel]]; [lia|lia|]. vm_compute. done. Qed.
