(* ===== verification/SliceAgrees.v ===== *)
(** * slice.cpp against the library

    The slice is the library in small: on what both have, its router registers the same
    patterns, its kernel gives the same answers and its container the same objects.  Where
    they part is stated too: the library contains exceptions, answers 405 and knows
    catch-all segments. *)
From S2P Require Import Prelude CppString CppNum Http Pipeline Router Kernel Container Slice.

(** ** Patterns *)
Definition starless (uri : string) : Prop := no_chr "*" uri.

Lemma escape_same s : Router.escape s = escape s.
Proof. reflexivity. Qed.

Lemma seg_at_same s : starless s -> Router.seg_at s = (fun x => (x.1, false, x.2)) <$> seg_at s.
Proof.
  destruct s as [|c s1]; [done|]. intros [_ Hs]%no_chr_cons. cbn [Router.seg_at seg_at].
  assert (Hd : no_chr "*" (s_drop (span is_word s1) s1)) by by apply no_chr_drop.
  destruct c as [[] [] [] [] [] [] [] []]; try reflexivity.
  destruct (span is_word s1 =? 0); [done|].
  destruct (s_drop (span is_word s1) s1) as [|d t]; [done|]. apply no_chr_cons in Hd as [Hd _].
  destruct d as [[] [] [] [] [] [] [] []]; first [reflexivity | by destruct Hd].
Qed.

Lemma seg_at_suffix s name rest : seg_at s = Some (name, rest) -> exists k, rest = s_drop k s.
Proof.
  unfold seg_at. destruct s as [|c s1]; [done|]. intros H. assert (c = "{"%char) as ->.
  { destruct c as [[] [] [] [] [] [] [] []]; try discriminate H; done. }
  destruct (span is_word s1 =? 0); [done|]. destruct (s_drop (span is_word s1) s1) as [|d t] eqn:E; [done|].
  assert (d = "}"%char) as -> by (destruct d as [[] [] [] [] [] [] [] []]; try discriminate H; done).
  injection H as _ <-. exists (S (span is_word s1 + 1)). cbn [s_drop]. rewrite <- s_drop_drop, E. done.
Qed.

Lemma add_loop_same fuel : forall lit uri, starless uri -> Router.add_loop fuel lit uri = add_loop fuel lit uri.
Proof.
  induction fuel as [|fuel IH]; intros lit uri Hu; [done|]. cbn [Router.add_loop add_loop].
  rewrite seg_at_same by done. destruct (seg_at uri) as [[name rest]|] eqn:E; cbn [fmap option_fmap option_map fst snd].
  - rewrite IH; [done|]. apply seg_at_suffix in E as [k ->]. by apply no_chr_drop.
  - destruct uri as [|c uri]; [done|]. apply IH. by apply no_chr_cons in Hu as [_ Hu].
Qed.
Lemma add_pattern_same uri : starless uri -> Router.add_pattern uri = add_pattern uri.
Proof. intros Hu. unfold Router.add_pattern, add_pattern. by rewrite add_loop_same. Qed.

(** ** Requests, handlers and middleware of the one as those of the other *)
Definition embed (r : Slice.Request) : Http.Request :=
  Http.mkRequest (method r) (path r) (route_params r) (headers r) (body r) ∅ ∅ "".
Definition embed_res (r : Slice.Response) : Http.Response := Http.mkResponse (status r) (res_body r) (res_headers r).

Section agreement.
Context {W : Type}.

Definition same_handler (h : Slice.Handler W) (h' : Pipeline.Handler W) : Prop := forall r w,
  h' (embed r, w) = match h (r, w) with (o, (r', w')) => (embed_res <$> o, (embed r', w')) end.
Definition same_middleware (mw : Slice.Middleware W) (mw' : Pipeline.Middleware W) : Prop :=
  forall next next', same_handler next next' -> same_handler (mw next) (mw' next').
Record same_route (r : Slice.Route W) (r' : Router.Route W) : Prop := {
  same_method : Router.r_method r' = r_method r;
  same_pattern : Router.r_pattern r' = r_pattern r;
  same_params : Router.r_params r' = r_params r;
  same_dest : same_handler (r_handler r) (Router.r_handler r');
  same_stack : Forall2 same_middleware (r_middleware r) (Router.r_middleware r')
}.
Definition same_router (r : Slice.Router W) (r' : Router.Router W) : Prop :=
  Forall2 same_route (routes_ r) (Router.routes_ r').

(** Registering a route without catch-all segments keeps the routers the same, and fails in
    the one when it fails in the other. *)
Lemma add_same m uri h h' mw mw' r r' : starless uri -> same_router r r' -> same_handler h h' ->
  Forall2 same_middleware mw mw' ->
  match add m uri h mw r, Router.add m uri h' mw' r' with
  | Ok s, Ok s' => same_router s s'
  | Throw e, Throw e' => e = e'
  | _, _ => False
  end.
Proof.
  intros Hu Hr Hh Hm. unfold add, Router.add. rewrite add_pattern_same by done.
  destruct (add_pattern uri) as [text names]. destruct (parse_rx text) as [pat|]; [|done].
  unfold same_router. cbn [routes_ Router.routes_]. apply Forall2_app; [done|]. repeat constructor; done.
Qed.

Lemma run_same stack stack' h h' p p' : Forall2 same_middleware stack stack' -> same_handler h h' ->
  same_handler (run (through stack p) h) (Pipeline.run (Pipeline.through stack' p') h').
Proof.
  intros Hs Hh. rewrite Pipeline.run_foldr. unfold run. cbn [through middlewares_ Pipeline.through Pipeline.middlewares_].
  rewrite <- fold_left_rev_right, rev_involutive. induction Hs as [|mw mw' l l' Hm _ IH]; [done|]. cbn [foldr]. by apply Hm.
Qed.

Lemma match_routes_same rs rs' m p : Forall2 same_route rs rs' ->
  match match_routes rs m p, Router.match_routes rs' m p with
  | Some (r, ps), Some (r', ps') => same_route r r' /\ ps = ps'
  | None, None => True
  | _, _ => False
  end.
Proof.
  induction 1 as [|r r' rs rs' Hr Hrs IH]; [done|]. cbn [match_routes Router.match_routes].
  rewrite (same_method _ _ Hr), (same_pattern _ _ Hr), (same_params _ _ Hr).
  destruct (bool_decide _); [done|]. by destruct (regex_match _ _).
Qed.

(** The library's answer to what the slice answers: an exception becomes a 500. *)
Definition contained (o : res Slice.Response) : Http.Response :=
  match o with Ok r => embed_res r | Throw _ => Kernel.internal_error end.

(** C39: The single-file kernel and the library's are one kernel: with the same routes and
    middleware, a request that matches a route gets the same answer and leaves the same
    state, but for an exception, which the library turns into a 500; one that matches none
    is a plain 404 in the slice and a 404 or a 405 in the library, by the path. *)
Theorem kernel_agrees (k : Slice.Kernel W) (r' : Router.Router W) global' ps req w :
  same_router (router_ k) r' -> Forall2 same_middleware (global_ k) global' ->
  let answer := Kernel.handle (Kernel.mkKernel (router_ops r') global' ps) (embed req) w in
  match match_request (router_ k) req with
  | Some _ => answer = (Ok (contained (handle k req w).1), (handle k req w).2)
  | None => handle k req w = (Ok (response 404 "Not Found"), w) /\
            answer = (Ok (match allowed_methods r' (path req) with
                          | [] => embed_res (response 404 "Not Found")
                          | ms => method_not_allowed ms
                          end), w)
  end.
Proof.
  intros Hr Hg answer. pose proof (match_routes_same _ _ (method req) (path req) Hr) as Hm.
  unfold match_request, handle, match_request. unfold answer.
  destruct (match_routes _ _ _) as [[route params]|] eqn:E, (Router.match_routes _ _ _) as [[route' params']|] eqn:E'; try done.
  - destruct Hm as [Hroute <-]. rewrite (handle_matched _ _ _ route' params) by exact E'.
    pose proof (run_same (global_ k ++ r_middleware route) (global' ++ Router.r_middleware route') _ _
      (mkPipeline []) new_pipeline (Forall2_app Hg (same_stack _ _ Hroute)) (same_dest _ _ Hroute)
      (set_route_params params req) w) as Hrun.
    change (Http.set_route_params params (embed req)) with (embed (set_route_params params req)).
    cbn [Kernel.global_]. rewrite Hrun. by destruct (run _ _ _) as [[o|e] [q' w']].
  - split; [done|]. rewrite handle_unmatched by exact E'. cbn [Kernel.router_ op_allowed router_ops]. done.
Qed.
End agreement.

(** ** The slice's own routes in the library *)
(** A handler of the slice on the requests of the library, and back. *)
Definition project (q : Http.Request) : Slice.Request :=
  mkRequest (Http.method q) (Http.path q) (Http.route_params q) (Http.headers q) (Http.body q).
Definition unembed_res (r : Http.Response) : Slice.Response := mkResponse (Http.status r) (Http.res_body r) (Http.res_headers r).

Lemma project_embed r : project (embed r) = r.
Proof. by destruct r. Qed.
Lemma unembed_embed r : unembed_res (embed_res r) = r.
Proof. by destruct r. Qed.

Section lifting.
Context {W : Type}.

Definition lift_handler (h : Slice.Handler W) : Pipeline.Handler W := fun s =>
  match h (project s.1, s.2) with (o, (r', w')) => (embed_res <$> o, (embed r', w')) end.
Definition unlift (h : Pipeline.Handler W) : Slice.Handler W := fun s =>
  match h (embed s.1, s.2) with (o, (q', w')) => (unembed_res <$> o, (project q', w')) end.
Definition lift_middleware (mw : Slice.Middleware W) : Pipeline.Middleware W := fun next => lift_handler (mw (unlift next)).
Definition lift_route (r : Slice.Route W) : Router.Route W :=
  Router.mkRoute (r_method r) "" (r_pattern r) (r_params r) (lift_handler (r_handler r)) (map lift_middleware (r_middleware r)).
Definition lift_router (r : Slice.Router W) : Router.Router W := Router.mkRouter (map lift_route (routes_ r)).

(** A middleware that can only call what it is given. *)
Definition respectful (mw : Slice.Middleware W) : Prop := forall next next',
  (forall s, next s = next' s) -> forall s, mw next s = mw next' s.

Lemma lift_handler_same h : same_handler h (lift_handler h).
Proof. intros r w. unfold lift_handler. cbn [fst snd]. by rewrite project_embed. Qed.
Lemma lift_middleware_same mw : respectful mw -> same_middleware mw (lift_middleware mw).
Proof.
  intros Hr next next' Hn r w. unfold lift_middleware, lift_handler. cbn [fst snd]. rewrite project_embed.
  rewrite (Hr _ next); [done|]. intros [q v]. unfold unlift. cbn [fst snd]. rewrite Hn.
  destruct (next (q, v)) as [o [q' v']]. rewrite project_embed.
  destruct o as [a|e]; cbn; [by rewrite unembed_embed|done].
Qed.
Lemma lift_router_same r : Forall (fun x => Forall respectful (r_middleware x)) (routes_ r) -> same_router r (lift_router r).
Proof.
  unfold same_router, lift_router. cbn [Router.routes_]. induction 1 as [|x l Hx _ IH]; [constructor|].
  constructor; [|exact IH]. split; [done|done|done|apply lift_handler_same|]. cbn [lift_route Router.r_middleware].
  induction Hx as [|mw mws Hmw _ IHm]; constructor; [by apply lift_middleware_same|exact IHm].
Qed.
End lifting.

Lemma logging_respectful : respectful (logging_mw : Slice.Middleware World).
Proof. intros next next' H s. unfold logging_mw, mbind, M_bind, gets, eprint, modify. cbn [fst snd]. by rewrite H. Qed.
Lemma token_respectful t : respectful (require_token t : Slice.Middleware World).
Proof. intros next next' H s. unfold require_token, mbind, M_bind, gets. by case_match. Qed.

Definition demo_router : Slice.Router World :=
  match routes id 2 (mkRouter []) with Ok r => r | Throw _ => mkRouter [] end.
Definition demo_kernel : Slice.Kernel World := global_middleware [logging_mw : Slice.Middleware World] (new_kernel demo_router).

Lemma kernel_agrees_witness :
  let req := mkRequest "GET" "/users/42" ∅ {["Authorization" := "secret-token"]} "" in
  let w := mkWorld (services new_container) "" in
  Kernel.handle (Kernel.mkKernel (router_ops (lift_router demo_router)) [lift_middleware logging_mw] []) (embed req) w =
  (Ok (contained (handle demo_kernel req w).1), (handle demo_kernel req w).2).
Proof.
  intros req w. refine (kernel_agrees demo_kernel (lift_router demo_router) [lift_middleware logging_mw] [] req w _ _).
  - apply lift_router_same. repeat constructor. apply token_respectful.
  - repeat constructor. apply lift_middleware_same, logging_respectful.
Defined.

(** ** The container *)
Fixpoint embed_prog (p : Slice.Prog) : Container.Prog :=
  match p with
  | Return v => Container.Return v
  | Fail e => Container.Fail e
  | Resolve T k => Container.Resolve T (fun v => embed_prog (k v))
  | Construct T deps k => Container.Construct T deps (fun v => embed_prog (k v))
  end.
Definition embed_factory (f : Slice.Factory) : Container.Factory :=
  match f with
  | Transient p => Container.Transient (embed_prog p)
  | Singleton key p => Container.Singleton key (embed_prog p)
  | Constant v => Container.Constant v
  end.
Definition embed_container (c : Slice.Container) : Container.Container :=
  Container.mkContainer (embed_factory <$> factories_ c) (instances_ c) ∅ ∅ ∅ [] (heap c).

(** The same object and container, or a failure of both; or neither has ended. *)
Definition same_outcome (o : Slice.Outcome Any) (o' : Container.Outcome Any) : Prop :=
  match o, o' with
  | None, None => True
  | Some (Ok v, c), Some (Ok v', c') => v' = v /\ c' = embed_container c
  | Some (Throw _, c), Some (Throw _, c') => c' = embed_container c
  | _, _ => False
  end.

Lemma same_continue o o' k k' : same_outcome o o' ->
  (forall v c, same_outcome (k v c) (k' v (embed_container c))) ->
  same_outcome (continue o k) (Container.continue o' k').
Proof.
  intros Ho Hk. destruct o as [[[v|e] c]|], o' as [[[v'|e'] c']|]; cbn in *; try done.
  by destruct Ho as [-> ->].
Qed.

Section resolving.
Variables type_name demangle_type : Key -> string.

Lemma exec_same (res : Key -> Slice.Container -> Slice.Outcome Any) (mk : Key -> Container.Container -> Container.Outcome Any) p c :
  (forall T c, same_outcome (res T c) (resolve_with mk T (embed_container c))) ->
  same_outcome (exec res p c) (Container.exec mk (embed_prog p) (embed_container c)).
Proof.
  intros Hr. revert c. induction p as [v|e|T k IH|T deps k IH]; intros c; cbn [exec embed_prog Container.exec]; [done|done| |].
  - apply same_continue; [apply Hr|]. intros v c'. apply IH.
  - apply IH.
Qed.

Theorem resolve_agrees fuel T c :
  same_outcome (resolve type_name fuel T c) (Container.resolve demangle_type fuel T (embed_container c)).
Proof.
  revert T c. induction fuel as [|fuel IH]; intros T c; [done|]. unfold Container.resolve, resolve_with.
  cbn [resolve make_erased]. change (factory_for T (embed_container c)) with ((embed_factory <$> factories_ c) !! T).
  rewrite lookup_fmap. destruct (factories_ c !! T) as [f|]; cbn [fmap option_fmap option_map]; [|done].
  apply same_continue.
  - destruct f as [p|key p|v]; cbn [call embed_factory Container.call embed_container Container.instances_].
    + apply exec_same. exact IH.
    + destruct (instances_ c !! key); [done|]. apply same_continue; [by apply exec_same|]. done.
    + done.
  - intros v c'. unfold any_cast. by case_decide.
Qed.
End resolving.
