(* ===== verification/Testing.v ===== *)
(** * test_harness.hpp and testing.hpp: the test runner and the in-process client

    A test case is a computation over whatever the tests share, with the failure counter
    it is given; it may throw, which nobody catches.  The runner and the fluent assertions
    write to std::cout and std::cerr, kept as text. *)
From S2P Require Import Prelude CppString CppNum Pipeline Router Kernel Http.

Local Open Scope Z_scope.

(** ** test_harness.hpp *)
(** What a test case works on: the tests' world, its failure counter, std::cerr. *)
Record Running (W : Type) : Type := mkRunning { world : W; fails : Z; cerr : string }.
Arguments mkRunning {_} _ _ _.
Arguments world {_} _.
Arguments fails {_} _.
Arguments cerr {_} _.

Section harness.
Context {W : Type}.

Record Case : Type := mkCase { name : string; fn : M (Running W) unit }.
(** [registry()] in the order the registrars ran. *)
Definition Registrar (n : string) (f : M (Running W) unit) (registry : list Case) : list Case := registry ++ [mkCase n f].

Definition fail_with (text : string) : M (Running W) unit :=
  modify (fun s => mkRunning (world s) (fails s + 1) (cerr s +:+ text)).
Definition report_eq_failure (expr_a expr_b a b file : string) (line : Z) : M (Running W) unit :=
  fail_with ("    FAIL " +:+ file +:+ ":" +:+ to_string line +:+ "  " +:+ expr_a +:+ " == " +:+ expr_b
    +:+ lf +:+ "         got: " +:+ a +:+ lf +:+ "         vs:  " +:+ b +:+ lf).
Definition report_failure (expr file : string) (line : Z) : M (Running W) unit :=
  fail_with ("    FAIL " +:+ file +:+ ":" +:+ to_string line +:+ "  CHECK(" +:+ expr +:+ ")" +:+ lf).
(** The macros: the condition is evaluated once. *)
Definition CHECK (cond : bool) (expr file : string) (line : Z) : M (Running W) unit :=
  if cond then mret tt else report_failure expr file line.
Definition CHECK_EQ {A} `{EqDecision A} (show : A -> string) (a b : A) (expr_a expr_b file : string) (line : Z)
    : M (Running W) unit :=
  if bool_decide (a = b) then mret tt else report_eq_failure expr_a expr_b (show a) (show b) file line.

(** One turn of the loop of [run_all]: total_fails, passed_cases, std::cout. *)
Record Tally : Type := mkTally { total_fails : Z; passed_cases : Z; cout : string }.
Definition run_case (c : Case) (t : Tally) : M (W * string) Tally := fun s =>
  match fn c (mkRunning s.1 0 s.2) with
  | (Throw e, r) => (Throw e, (world r, cerr r))
  | (Ok _, r) =>
      (Ok (if fails r =? 0
           then mkTally (total_fails t + fails r) (passed_cases t + 1) (cout t +:+ "  ok   " +:+ name c +:+ lf)
           else mkTally (total_fails t + fails r) (passed_cases t)
                  (cout t +:+ "  FAIL " +:+ name c +:+ " (" +:+ to_string (fails r) +:+ " assertion(s))" +:+ lf)),
       (world r, cerr r))
  end.
Fixpoint run_cases (l : list Case) (t : Tally) : M (W * string) Tally :=
  match l with
  | [] => mret t
  | c :: l => t ← run_case c t; run_cases l t
  end.
(** The exit code and what was printed. *)
Definition run_all (registry : list Case) : M (W * string) (Z * string) :=
  t ← run_cases registry (mkTally 0 0 "");
  let total := Z.of_nat (length registry) in
  mret (if total_fails t =? 0 then 0 else 1,
        cout t +:+ lf +:+ to_string (passed_cases t) +:+ "/" +:+ to_string total +:+ " passing"
        +:+ (if 0 <? total_fails t then "  (" +:+ to_string (total_fails t) +:+ " failed assertion(s))" else "") +:+ lf).
End harness.
Arguments Case : clear implicits.

(** ** testing.hpp *)
Record TestResponse : Type := mkTestResponse { res_ : Response; label_ : string }.

Section client.
Context {W : Type}.

(** The counter is the caller's; the reference returned is the response itself. *)
Definition check (r : TestResponse) (ok : bool) (what : string) : M (Running W) TestResponse :=
  if ok then mret r
  else _ ← fail_with ("    FAIL [" +:+ label_ r +:+ "] " +:+ what +:+ lf +:+ "         body: " +:+ res_body (res_ r) +:+ lf);
       mret r.
Definition assertStatus (expected : Z) (r : TestResponse) : M (Running W) TestResponse :=
  check r (status (res_ r) =? expected)
    ("assertStatus(" +:+ to_string expected +:+ ") — got " +:+ to_string (status (res_ r))).
Definition assertOk : TestResponse -> M (Running W) TestResponse := assertStatus 200.
Definition assertCreated : TestResponse -> M (Running W) TestResponse := assertStatus 201.
Definition assertNotFound : TestResponse -> M (Running W) TestResponse := assertStatus 404.
Definition assertUnauthorized : TestResponse -> M (Running W) TestResponse := assertStatus 401.
Definition assertUnprocessable : TestResponse -> M (Running W) TestResponse := assertStatus 422.
Definition assertSee (text : string) (r : TestResponse) : M (Running W) TestResponse :=
  check r (contains (res_body (res_ r)) text) ("assertSee(" +:+ dq text +:+ ")").
Definition assertDontSee (text : string) (r : TestResponse) : M (Running W) TestResponse :=
  check r (negb (contains (res_body (res_ r)) text)) ("assertDontSee(" +:+ dq text +:+ ")").
Definition assertJsonFragment (fragment : string) (r : TestResponse) : M (Running W) TestResponse :=
  check r (contains (res_body (res_ r)) fragment) ("assertJsonFragment(" +:+ fragment +:+ ")").
Definition assertExactBody (expected : string) (r : TestResponse) : M (Running W) TestResponse :=
  check r (bool_decide (res_body (res_ r) = expected)) ("assertExactBody — got " +:+ dq (res_body (res_ r))).
Definition assertHeader (key value : string) (r : TestResponse) : M (Running W) TestResponse :=
  check r (bool_decide (res_headers (res_ r) !! key = Some value)) ("assertHeader(" +:+ key +:+ ": " +:+ value +:+ ")").

Record HttpClient : Type := mkHttpClient { kernel_ : Kernel W; default_headers_ : gmap string string }.
Definition new_client (k : Kernel W) : HttpClient := mkHttpClient k ∅.
Definition withHeader (key value : string) (c : HttpClient) : HttpClient :=
  mkHttpClient (kernel_ c) (<[key := value]> (default_headers_ c)).
Definition withToken (token : string) (c : HttpClient) : HttpClient := withHeader "Authorization" token c.
Definition client_request (c : HttpClient) (m uri b : string) : Request := mkRequest m uri ∅ (default_headers_ c) b ∅ ∅ "".
Definition send (m uri b : string) (c : HttpClient) : M (Running W) TestResponse :=
  res ← on_part world (fun w s => mkRunning w (fails s) (cerr s)) (Kernel.handle (kernel_ c) (client_request c m uri b));
  mret (mkTestResponse res (m +:+ " " +:+ uri)).
Definition get (uri : string) : HttpClient -> M (Running W) TestResponse := send "GET" uri "".
Definition post (uri b : string) : HttpClient -> M (Running W) TestResponse := send "POST" uri b.
End client.
Arguments HttpClient : clear implicits.

(** ** What a run decides *)
Section verdict.
Context {W : Type}.

(** The failures of the cases of a suite, run one after the other; none throws. *)
Inductive suite_runs : list (Case W) -> W * string -> list Z -> W * string -> Prop :=
  | suite_nil s : suite_runs [] s [] s
  | suite_cons c l s r ns s' : fn c (mkRunning s.1 0 s.2) = (Ok tt, r) ->
      suite_runs l (world r, cerr r) ns s' -> suite_runs (c :: l) s (fails r :: ns) s'.

Definition sum_fails (l : list Z) : Z := foldr Z.add 0 l.
Definition passed (l : list Z) : Z := foldr (fun n k => (if n =? 0 then 1 else 0) + k) 0 l.

Lemma run_cases_suite l s ns s' : suite_runs l s ns s' -> forall t, exists text,
  run_cases l t s = (Ok (mkTally (total_fails t + sum_fails ns) (passed_cases t + passed ns) text), s').
Proof.
  induction 1 as [s|c l s r ns s' Hc Hl IH]; intros t; cbn [run_cases].
  - exists (cout t). unfold sum_fails, passed. cbn. rewrite !Z.add_0_r. by destruct t.
  - unfold mbind, M_bind, run_case. rewrite Hc. unfold sum_fails, passed in *. cbn [foldr].
    destruct (fails r =? 0) eqn:E.
    + edestruct IH as [text Ht]. rewrite Ht. cbn [total_fails passed_cases]. exists text. by rewrite ?Z.add_0_l, <- !Z.add_assoc.
    + edestruct IH as [text Ht]. rewrite Ht. cbn [total_fails passed_cases]. exists text. by rewrite ?Z.add_0_l, <- !Z.add_assoc.
Qed.

Lemma sum_fails_zero ns : Forall (fun n => 0 <= n) ns -> 0 <= sum_fails ns /\ (sum_fails ns = 0 <-> Forall (fun n => n = 0) ns).
Proof.
  unfold sum_fails. induction 1 as [|n ns Hn _ [Hs IH]]; cbn [foldr]; [by split|]. split; [lia|]. rewrite Forall_cons, <- IH. lia.
Qed.

(** The exit code is 0 when no assertion of any case failed, 1 otherwise. *)
Lemma run_all_verdict l s ns s' : suite_runs l s ns s' -> Forall (fun n => 0 <= n) ns ->
  exists code text, run_all l s = (Ok (code, text), s') /\ (code = 0 <-> Forall (fun n => n = 0) ns).
Proof.
  intros Hr Hn. destruct (run_cases_suite _ _ _ _ Hr (mkTally 0 0 "")) as [text Ht].
  unfold run_all, mbind, M_bind. rewrite Ht. cbn [total_fails passed_cases]. do 2 eexists. split; [reflexivity|].
  destruct (sum_fails_zero ns Hn) as [_ Hz]. rewrite <- Hz, Z.add_0_l. destruct (sum_fails ns =? 0) eqn:E; bools; lia.
Qed.

(** A case that throws ends the run with its exception: there is no summary. *)
Lemma run_all_throws l c rest s ns s1 e r : suite_runs l s ns s1 ->
  fn c (mkRunning s1.1 0 s1.2) = (Throw e, r) ->
  run_all (l ++ c :: rest) s = (Throw e, (world r, cerr r)).
Proof.
  intros Hl Hc. assert (Hrun : forall t, run_cases (l ++ c :: rest) t s = (Throw e, (world r, cerr r))).
  { revert Hc. induction Hl as [s|d l s r' ns s' Hd _ IH]; intros Hc t; cbn [app run_cases]; unfold mbind, M_bind, run_case.
    - by rewrite Hc.
    - rewrite Hd. by apply IH. }
  unfold run_all, mbind, M_bind. by rewrite Hrun.
Qed.

(** ** Feature tests *)
(** [HttpClient http(...); http.get(...).assertStatus(...).assertExactBody(...)]. *)
Record Feature : Type := mkFeature {
  f_name : string; f_client : HttpClient W; f_method : string; f_uri : string; f_body : string;
  f_status : Z; f_text : string
}.
Definition feature_case (f : Feature) : Case W := mkCase (f_name f)
  (r ← send (f_method f) (f_uri f) (f_body f) (f_client f);
   r ← assertStatus (f_status f) r;
   _ ← assertExactBody (f_text f) r;
   mret tt).
(** What the kernel answers to the features in turn, and the world after them. *)
Definition f_request (f : Feature) : Request := client_request (f_client f) (f_method f) (f_uri f) (f_body f).
Fixpoint answers (l : list Feature) (w : W) : list Response * W :=
  match l with
  | [] => ([], w)
  | f :: l =>
      match Kernel.handle (kernel_ (f_client f)) (f_request f) w with
      | (Ok r, w') => let '(rs, w'') := answers l w' in (r :: rs, w'')
      | (Throw _, w') => ([], w')
      end
  end.
Definition expected (f : Feature) (r : Response) : Prop := status r = f_status f /\ res_body r = f_text f.

Lemma handle_answers (k : Kernel W) req w : exists r w', Kernel.handle k req w = (Ok r, w').
Proof.
  unfold Kernel.handle. destruct (handle_in_total k (req, w)) as (r & [q w'] & E). rewrite E. eauto.
Qed.

Lemma send_answers m uri b c (s : Running W) r w' :
  Kernel.handle (kernel_ c) (client_request c m uri b) (world s) = (Ok r, w') ->
  send m uri b c s = (Ok (mkTestResponse r (m +:+ " " +:+ uri)), mkRunning w' (fails s) (cerr s)).
Proof. intros Hh. unfold send, on_part, mbind, M_bind. by rewrite Hh. Qed.

Lemma check_runs r (passes : bool) what (s : Running W) : exists s',
  check r passes what s = (Ok r, s') /\ world s' = world s /\ fails s' = fails s + (if passes then 0 else 1).
Proof. destruct passes; eexists; (split; [reflexivity|]); split; cbn; lia || done. Qed.

Lemma feature_case_runs f w e :
  exists r w' n e', Kernel.handle (kernel_ (f_client f)) (f_request f) w = (Ok r, w') /\
    fn (feature_case f) (mkRunning w 0 e) = (Ok tt, mkRunning w' n e') /\ 0 <= n /\ (n = 0 <-> expected f r).
Proof.
  destruct (handle_answers (kernel_ (f_client f)) (f_request f) w) as (r & w' & Hh). exists r, w'.
  cbn [feature_case fn]. unfold mbind at 1, M_bind at 1. rewrite (send_answers _ _ _ _ (mkRunning w 0 e) r w') by exact Hh.
  set (t := mkTestResponse r _). unfold mbind at 1, M_bind at 1, assertStatus at 1.
  edestruct (check_runs t) as (s1 & E1 & Ew1 & Ef1). rewrite E1. unfold mbind, M_bind, assertExactBody at 1.
  edestruct (check_runs t) as (s2 & E2 & Ew2 & Ef2). rewrite E2. cbn [world fails cerr res_ t] in *.
  exists (fails s2), (cerr s2). split; [done|]. split; [by rewrite <- Ew1, <- Ew2; destruct s2|].
  rewrite Ef2, Ef1. unfold expected. destruct (status r =? f_status f) eqn:Es, (bool_decide (res_body r = f_text f)) eqn:Eb; bools; split; lia || tauto || (split; [lia|tauto]).
Qed.

Lemma features_run l w e : exists ns e',
  suite_runs (map feature_case l) (w, e) ns ((answers l w).2, e') /\ Forall (fun n => 0 <= n) ns /\
  (Forall (fun n => n = 0) ns <-> Forall2 expected l (answers l w).1).
Proof.
  revert w e. induction l as [|f l IH]; intros w e; cbn [map answers].
  - exists [], e. split; [constructor|]. split; [constructor|]. split; constructor.
  - destruct (feature_case_runs f w e) as (r & w' & n & e' & Hh & Hf & Hn & Hz). rewrite Hh.
    destruct (IH w' e') as (ns & e'' & Hs & Hns & Hi). destruct (answers l w') as [rs w''].
    exists (n :: ns), e''. cbn [fst snd] in *. split; [by apply (suite_cons _ _ (w, e) (mkRunning w' n e'))|].
    split; [by constructor|]. rewrite Forall_cons, Hz, Hi. split; [by intros []; constructor|by inversion 1].
Qed.
End verdict.

(** A suite of feature tests exits with 0 exactly when the kernel, request after request
    over the shared world, answers what the tests expect; the runner always finishes. *)
Theorem suite_green_iff {W} (l : list (Feature (W := W))) w e : exists code text e',
  run_all (map feature_case l) (w, e) = (Ok (code, text), ((answers l w).2, e')) /\
  (code = 0 <-> Forall2 expected l (answers l w).1).
Proof.
  destruct (features_run l w e) as (ns & e' & Hs & Hns & Hi).
  destruct (run_all_verdict _ _ _ _ Hs Hns) as (code & text & Hr & Hc). exists code, text, e'. by rewrite <- Hi.
Qed.

(** The demo router of Kernel.v under test. *)
Example demo_suite :
  let http := withToken "secret" (new_client (new_kernel (router_ops demo_router))) in
  (run_all [feature_case (mkFeature "index" http "GET" "/articles" "" 200 "");
            feature_case (mkFeature "missing" http "GET" "/nope" "" 200 "")] (tt, "")).1 =
  Ok (1, "  ok   index" +:+ lf +:+ "  FAIL missing (2 assertion(s))" +:+ lf +:+ lf +:+
         "1/2 passing  (2 failed assertion(s))" +:+ lf).
Proof. by vm_compute. Qed.
