(* ===== verification/Wasm.v ===== *)
(** * wasm/main.cpp: the framework behind two C functions

    The build for the browser and for C hosts has no server: [lipp_handle] hands a request
    to the kernel of a small article application on the in-memory connection, and
    [lipp_status] tells the status of the last answer.  The controller is the blog's.  The
    host embeds the same functions behind a linear memory (wasm/host.cpp). *)
From S2P Require Import Prelude CppString CppNum Container Database Repository BlogModels Router Kernel Pipeline Http Blog.

Local Open Scope Z_scope.

(** The objects of the process: the container, and the connections it made, by identity. *)
Record Process : Type := mkProcess { p_container : Container.Container; p_conns : gmap nat Memory }.
Definition fresh_process : Process := mkProcess new_container ∅.

Section page.
Variable demangle_type : Key -> string.
Variable fuel : nat.

Definition resolve_in (T : Key) : M Process Any := fun p =>
  match Container.resolve demangle_type fuel T (p_container p) with
  | Some (r, c) => (r, mkProcess c (p_conns p))
  | None => (Throw OtherExn, p)
  end.
(** What the object was built with. *)
Definition built_on (object : nat) : M Process nat := gets (fun p => built_with object 0 (p_container p)).
Definition conn_of (c : nat) (p : Process) : Memory := default empty_memory (p_conns p !! c).
Definition with_conn {A} (c : nat) (m : M Memory A) : M Process A :=
  on_part (conn_of c) (fun d p => mkProcess (p_container p) (<[c := d]> (p_conns p))) m.

Definition bindings (c : Container.Container) : Container.Container :=
  bind_auto "ArticleController" ["ArticleRepository"] (bind_auto "ArticleRepository" ["Connection"]
    (singleton_erased "Connection" (Construct "Connection" [] Return) c)).
Definition seeds : list Article :=
  [mkArticle 0 "Hello from compiled C++" 7 true; mkArticle 0 "Running in your browser via WebAssembly" 42 true].

(** [c->resolve<ArticleController>()], down to the connection its repository holds. *)
Definition controller_conn : M Process nat :=
  controller ← resolve_in "ArticleController";
  repo ← built_on (any_ref controller);
  built_on repo.
Definition action (act : M Memory Response) : Handler Process := in_app (c ← controller_conn; with_conn c act).
Definition show : Handler Process :=
  (c ← in_app controller_conn; id ← route_param "id"; in_app (with_conn c (articles_show MemoryConnection id))
   : M (Request * Process) Response).
Definition store : Handler Process :=
  (c ← in_app controller_conn; b ← on_request body; in_app (with_conn c (articles_store MemoryConnection b))
   : M (Request * Process) Response).
Definition routes : res (Router Process) :=
  r ← Router.get "/articles" (action (articles_index MemoryConnection)) [] (mkRouter []);
  r ← Router.get "/articles/{id}" show [] r;
  r ← Router.post "/articles" store [] r;
  Router.get "/articles.html" (action (articles_html MemoryConnection fuel)) [] r.

(** [build]: the bindings and the two seeds; then the routes and the kernel. *)
Definition seed : M Process unit :=
  _ ← modify (fun p => mkProcess (bindings (p_container p)) (p_conns p));
  repo ← resolve_in "ArticleRepository";
  c ← built_on (any_ref repo);
  each (fun a => _ ← with_conn c (repo_insert MemoryConnection ArticleMapper a); mret tt) seeds.
Definition build : M Process (Kernel Process) :=
  _ ← seed;
  r ← lift_res routes;
  mret (new_kernel (router_ops r)).

(** The globals of the library: the application once built, the last answer. *)
Record Globals : Type := mkGlobals {
  instance : option (Kernel Process);
  process : Process;
  g_status : Z;
  g_body : string
}.
Definition fresh_globals : Globals := mkGlobals None fresh_process 200 "".

(** [app()]: a function-local static, built by the first call. *)
Definition app : M Globals (Kernel Process) := fun g =>
  match instance g with
  | Some k => (Ok k, g)
  | None =>
      match build (process g) with
      | (Ok k, p) => (Ok k, mkGlobals (Some k) p (g_status g) (g_body g))
      | (Throw e, p) => (Throw e, mkGlobals None p (g_status g) (g_body g))
      end
  end.
(** A [const char*]: null, or bytes of which the function sees those before the first zero. *)
Definition text_or (fallback : string) (arg : option string) : string :=
  match arg with Some s => c_str s | None => fallback end.
Definition lipp_handle (m p b : option string) : M Globals string :=
  k ← app;
  let req := mkRequest (text_or "GET" m) (text_or "/" p) ∅ ∅ (text_or "" b) ∅ ∅ "" in
  res ← on_part process (fun q g => mkGlobals (instance g) q (g_status g) (g_body g)) (Kernel.handle k req);
  _ ← modify (fun g => mkGlobals (instance g) (process g) (status res) (res_body res));
  mret (c_str (res_body res)).
Definition lipp_status : M Globals Z := gets g_status.
End page.
