(* ===== verification/WasmCalls.v ===== *)
(** * wasm/main.cpp: what the calls of a host answer

    Seen through [lipp_handle] and [lipp_status], the library is a list of articles: the
    two seeds, then what was posted.  [answer] is that specification, one call at a time;
    the theorem runs the two side by side from a page that has not been used. *)
From S2P Require Import Prelude CppString CppNum Container Database Repository BlogModels Router Kernel Pipeline Http View ViewTree Blog BlogBoot Wasm.

Local Open Scope Z_scope.

(** ** The specification *)
Inductive Call : Type :=
  | Index                  (* GET /articles *)
  | Show (id : string)     (* GET /articles/<id> *)
  | Store (form : string)  (* POST /articles *)
  | Html                   (* GET /articles.html *)
  | Other (m p : string).  (* anything no route is for *)
Definition call_text (c : Call) : string * string * string :=
  match c with
  | Index => ("GET", "/articles", "")
  | Show id => ("GET", "/articles/" +:+ id, "")
  | Store form => ("POST", "/articles", form)
  | Html => ("GET", "/articles.html", "")
  | Other m p => (m, p, "")
  end.

Definition html_list (l : list Article) : string :=
  "<ul>" +:+ s_concat (map (fun a => "<li>" +:+ escape (title a) +:+ "</li>") l) +:+ "</ul>".
Definition known (p : string) : bool :=
  existsb (fun uri => bool_decide (is_Some (regex_match (uri_pattern uri).1 p))) ["/articles"; "/articles/{id}"; "/articles.html"].
Definition answer (c : Call) (l : list Article) : Z * string * list Article :=
  match c with
  | Index => (200, articles_json l, l)
  | Show id => match List.find (fun a => a_id a =? to_int id) l with
               | Some a => (200, article_json a, l)
               | None => (404, json_message "error" "not found", l)
               end
  | Store form =>
      let a := form_article form in
      if bool_decide (title a = "") then (422, json_message "error" "title is required", l)
      else let a := article_set_id (Z.of_nat (length l) + 1) a in (201, article_json a, l ++ [a])
  | Html => (200, html_list l, l)
  | Other m p => if known p then (405, "Method Not Allowed", l) else (404, "Not Found", l)
  end.
Fixpoint answers (calls : list Call) (l : list Article) : list (Z * string) :=
  match calls with
  | [] => []
  | c :: calls => let '(st, text, l) := answer c l in (st, c_str text) :: answers calls l
  end.
Definition seeded_articles : list Article :=
  [mkArticle 1 "Hello from compiled C++" 7 true; mkArticle 2 "Running in your browser via WebAssembly" 42 true].

(** What a C string can carry, and which paths the calls are for. *)
Definition route_table : list (string * string) :=
  [("GET", "/articles"); ("GET", "/articles/{id}"); ("POST", "/articles"); ("GET", "/articles.html")].
Definition unrouted (m p : string) : Prop :=
  Forall (fun r => m = r.1 -> regex_match (uri_pattern r.2).1 p = None) route_table.
Definition well_formed (c : Call) : Prop :=
  (let '(m, p, b) := call_text c in no_chr (chr 0) m /\ no_chr (chr 0) p /\ no_chr (chr 0) b) /\
  match c with
  | Show id => id <> "" /\ s_all not_slash id
  | Other m p => unrouted m p
  | _ => True
  end.

(** ** The articles of a connection *)
Definition row_of (r : Row) (a : Article) : Prop := r !! "id" = Some (VInt (a_id a)) /\ article_hydrate r = Ok a.
Definition articles_in (l : list Article) (m : Memory) : Prop :=
  Forall2 row_of (rows_of m "articles") l /\ default 0 (next_id_ m !! "articles") = Z.of_nat (length l).

Lemma all_articles l m : articles_in l m -> repo_all MemoryConnection ArticleMapper m = (Ok l, m).
Proof.
  intros [Hr _]. unfold repo_all, mbind, M_bind. cbn [all MemoryConnection]. unfold mem_all, gets, lift_res.
  change (table ArticleMapper) with "articles". do 2 f_equal. apply hydrate_all_Forall2.
  eapply Forall2_impl; [exact Hr|]. by intros r a [_ H].
Qed.
Lemma find_article l m id : articles_in l m ->
  repo_find MemoryConnection ArticleMapper id m = (Ok (List.find (fun a => a_id a =? id) l), m).
Proof.
  intros [Hr _]. unfold repo_find, mbind, M_bind. cbn [Database.find MemoryConnection]. unfold mem_find, gets.
  change (table ArticleMapper) with "articles". induction Hr as [|r a rows l [Hid Hh] _ IH]; [done|].
  cbn [find_row List.find]. unfold is_id. rewrite Hid. cbn [value_int]. destruct (a_id a =? id); [|exact IH].
  unfold lift_res. change (hydrate ArticleMapper r) with (article_hydrate r). by rewrite Hh.
Qed.
Lemma insert_article a l m : articles_in l m -> Z.of_nat (length l) + 1 < 2 ^ 63 ->
  let a' := article_set_id (Z.of_nat (length l) + 1) a in
  exists m', repo_insert MemoryConnection ArticleMapper a m = (Ok a', m') /\ articles_in (l ++ [a']) m'.
Proof.
  intros [Hr Hn] Hl a'. unfold repo_insert, mbind, M_bind. cbn [insert MemoryConnection]. unfold mem_insert.
  change (table ArticleMapper) with "articles". rewrite Hn.
  replace (s64 (Z.of_nat (length l) + 1)) with (Z.of_nat (length l) + 1) by (unfold s64; rewrite Z.mod_small; lia).
  eexists. split; [reflexivity|]. unfold articles_in, rows_of. cbn [tables_ next_id_]. rewrite !lookup_insert_eq. split.
  - apply Forall2_app; [exact Hr|]. constructor; [|constructor]. split; [apply lookup_insert_eq|]. apply (hydrate_inserted _ article_faithful).
  - cbn [default from_option id]. rewrite length_app. cbn [length]. lia.
Qed.

(** ** The controller on the connection *)
Lemma html_renders l : exists enough, forall fuel, (enough <= fuel)%nat ->
  View.render fuel articles_template (articles_view l) = Some (Ok (html_list l)).
Proof.
  set (t := Page [Text "<ul>"; Foreach "articles" "a" [Text "<li>"; Echo " title "; Text "</li>"]; Text "</ul>"]).
  destruct (tree_renders (fun _ => "") (fun _ _ _ => "") t (articles_view l) None) as [N HN].
  - vm_compute. reflexivity.
  - intros m Hm. cbn in Hm. by apply elem_of_nil in Hm.
  - vm_compute. reflexivity.
  - exists N. intros fuel Hf. unfold View.render. change articles_template with (print_tree t). rewrite HN by done. do 2 f_equal.
    unfold eval_tree, t, evals, html_list. cbn [map eval s_concat foldr]. rewrite s_app_nil_r. do 2 f_equal.
    change (match _ with Some items => items | None => [] end)
      with (match view_list "articles" (map (fun a => set_var "title" (title a) (mkView ∅ ∅)) l) !! "articles" with Some items => items | None => [] end).
    assert (E : match view_list "articles" (map (fun a => set_var "title" (title a) (mkView ∅ ∅)) l) !! "articles" with
                | Some items => items | None => [] end = map (fun a => set_var "title" (title a) (mkView ∅ ∅)) l)
      by (destruct l; [done|]; cbn [map view_list]; by rewrite lookup_singleton_eq).
    by rewrite E, map_map.
Qed.

(** A call's action on the connection: the response, and the articles after it. *)
Definition ok_response (a : Z * string * list Article) (r : Response) : Prop := status r = a.1.1 /\ res_body r = a.1.2.

(** ** The process *)
Section calls.
Variable demangle_type : Key -> string.
Variable fuel : nat.
Hypothesis enough_fuel : (3 <= fuel)%nat.

(** The container once the application is built: object 0 is the connection, object 1 the
    repository the seeds went through; [h] is what requests had built since. *)
Definition built_container (h : list (Key * list nat)) : Container.Container :=
  mkContainer (factories_ (bindings new_container)) {["Connection" := mkAny "Connection" 0]} ∅ ∅ ∅ []
    (("Connection", []) :: ("ArticleRepository", [0%nat]) :: h).
Definition wasm_route (m uri : string) (h : Handler Process) : Route Process :=
  mkRoute m uri (uri_pattern uri).1 (uri_pattern uri).2 h [].
Definition wasm_router : Router Process := mkRouter [
  wasm_route "GET" "/articles" (action demangle_type fuel (articles_index MemoryConnection));
  wasm_route "GET" "/articles/{id}" (show demangle_type fuel);
  wasm_route "POST" "/articles" (store demangle_type fuel);
  wasm_route "GET" "/articles.html" (action demangle_type fuel (articles_html MemoryConnection fuel))].
Definition wasm_kernel : Kernel Process := new_kernel (router_ops wasm_router).
(** The invariant between calls: a built process whose connection holds [l]. *)
Definition serving (l : list Article) (p : Process) : Prop :=
  exists h m, p_container p = built_container h /\ p_conns p !! 0%nat = Some m /\ articles_in l m.

Lemma routes_wasm : routes demangle_type fuel = Ok wasm_router.
Proof.
  unfold routes, Router.get, Router.post.
  repeat (rewrite add_registers; unfold mbind at 1, res_bind at 1; cbn [routes_ app]). reflexivity.
Qed.

Lemma resolve_controller h : exists n,
  Container.resolve demangle_type fuel "ArticleController" (built_container h) =
    Some (Ok (mkAny "ArticleController" (S (S (length (h ++ [("ArticleRepository", [0%nat])]))))),
      built_container ((h ++ [("ArticleRepository", [0%nat])]) ++ [("ArticleController", [n])])) /\
  n = S (S (length h)).
Proof. destruct fuel as [|[|[|f]]]; [lia..|]. eexists. split; [|reflexivity]. vm_compute. reflexivity. Qed.

Lemma built_with_at r c T n : heap c !! r = Some (T, [n]) -> built_with r 0 c = n.
Proof. intros H. unfold built_with. by rewrite H. Qed.

Lemma controller_conn_serving l p : serving l p -> exists h', controller_conn demangle_type fuel p =
  (Ok 0%nat, mkProcess (built_container h') (p_conns p)).
Proof.
  intros (h & m & Hc & Hm & Ha). destruct (resolve_controller h) as (n & E & ->). eexists.
  unfold controller_conn, resolve_in, built_on, gets, mbind, M_bind. rewrite Hc, E. cbn [p_container any_ref].
  rewrite (built_with_at (S (S (length (h ++ [("ArticleRepository", [0%nat])])))) _ "ArticleController" (S (S (length h)))).
  - rewrite (built_with_at (S (S (length h))) _ "ArticleRepository" 0); [reflexivity|].
    change (heap _) with (("Connection", []) :: ("ArticleRepository", [0%nat]) :: (h ++ [("ArticleRepository", [0%nat])]) ++ [("ArticleController", [S (S (length h))])]).
    cbn [lookup list_lookup]. rewrite <- app_assoc. by apply list_lookup_middle.
  - change (heap _) with (("Connection", []) :: ("ArticleRepository", [0%nat]) :: (h ++ [("ArticleRepository", [0%nat])]) ++ [("ArticleController", [S (S (length h))])]).
    cbn [lookup list_lookup]. by apply list_lookup_middle.
Qed.

(** An action on the connection, from a serving process. *)
Lemma action_serving act l l' p r :
  (forall m, articles_in l m -> exists m', act m = (Ok r, m') /\ articles_in l' m') -> serving l p ->
  exists p', (controller_conn demangle_type fuel ≫= fun c => with_conn c act : M Process Response) p = (Ok r, p') /\ serving l' p'.
Proof.
  intros Hact Hp. destruct (controller_conn_serving l p Hp) as (h' & E). destruct Hp as (h & m & Hc & Hm & Ha).
  destruct (Hact m Ha) as (m' & Em & Ha'). unfold mbind, M_bind. rewrite E. unfold with_conn, on_part, conn_of.
  cbn [p_conns p_container]. rewrite Hm. cbn [default from_option id]. rewrite Em. eexists. split; [reflexivity|].
  exists h', m'. split; [done|]. split; [apply lookup_insert_eq|done].
Qed.

(** ** Through the kernel *)
Definition call_request (c : Call) : Request :=
  let '(m, p, b) := call_text c in mkRequest m p ∅ ∅ b ∅ ∅ "".
Lemma unrouted_matches m p : unrouted m p -> match_routes (routes_ wasm_router) m p = None.
Proof.
  assert (Hskip : forall (r : Route Process) rs, (m = r_method r -> regex_match (r_pattern r) p = None) ->
    match_routes (r :: rs) m p = match_routes rs m p)
    by (intros r rs Hr; cbn [match_routes]; case_bool_decide as Hb; [done|]; by rewrite Hr by congruence).
  unfold unrouted, route_table. rewrite !Forall_cons. intros (H1 & H2 & H3 & H4 & _). unfold wasm_router. cbn [routes_].
  by rewrite !Hskip.
Qed.
(** A matched route without middleware: the handler's answer is the kernel's. *)
Lemma handle_route req p m uri h params r p' :
  match_routes (routes_ wasm_router) (method req) (path req) = Some (wasm_route m uri h, params) ->
  h (set_route_params params req, p) = (Ok r, (set_route_params params req, p')) ->
  handle wasm_kernel req p = (Ok r, p').
Proof.
  intros Hm Hh. rewrite (handle_matched wasm_kernel req p _ _ Hm). unfold wasm_kernel. cbn [Kernel.global_ new_kernel].
  change (r_middleware (wasm_route m uri h)) with (@nil (Middleware Process)). rewrite run_foldr.
  change (foldr _ (r_handler (wasm_route m uri h)) _) with h. by rewrite Hh.
Qed.

Lemma match_show_route id : id <> "" -> s_all not_slash id ->
  match_routes (routes_ wasm_router) "GET" ("/articles/" +:+ id) =
  Some (wasm_route "GET" "/articles/{id}" (show demangle_type fuel), {["id" := id]}).
Proof.
  intros Hs Ha. unfold wasm_router. cbn [routes_ match_routes].
  rewrite bool_decide_eq_false_2 by (intros Hn; by apply Hn).
  change (regex_match (r_pattern (wasm_route "GET" "/articles" _)) ("/articles/" +:+ id)) with (@None (list string)). cbv iota.
  rewrite bool_decide_eq_false_2 by (intros Hn; by apply Hn).
  assert (E : regex_match (uri_pattern "/articles/{id}").1 ("/articles/" +:+ id) = Some [id]) by by apply (regex_match_segment "/articles/").
  cbn [wasm_route r_pattern]. by rewrite E.
Qed.

Lemma known_allowed p : known p = false <-> allowed_methods wasm_router p = [].
Proof.
  unfold known, allowed_methods, wasm_router. cbn [routes_ existsb allowed_loop wasm_route r_pattern r_method].
  destruct (regex_match (uri_pattern "/articles").1 p), (regex_match (uri_pattern "/articles/{id}").1 p),
    (regex_match (uri_pattern "/articles.html").1 p); cbn; split; done.
Qed.

(** A call whose route runs an action of the controller on the connection. *)
Lemma route_served req m uri h params act (a : Z * string * list Article) l p r :
  match_routes (routes_ wasm_router) (method req) (path req) = Some (wasm_route m uri h, params) ->
  (forall p, h (set_route_params params req, p) =
    let '(o, p') := (controller_conn demangle_type fuel ≫= fun c => with_conn c act : M Process Response) p in
    (o, (set_route_params params req, p'))) ->
  (forall d, articles_in l d -> exists d', act d = (Ok r, d') /\ articles_in a.2 d') -> ok_response a r -> serving l p ->
  exists r p', handle wasm_kernel req p = (Ok r, p') /\ ok_response a r /\ serving a.2 p'.
Proof.
  intros Hm Hh Ha Hok Hp. destruct (action_serving act l a.2 p r Ha Hp) as (p' & E & Hs). exists r, p'.
  split; [|by split]. eapply handle_route; [exact Hm|]. by rewrite Hh, E.
Qed.

(** The part of a handler between the controller and the action only reads. *)
Lemma after_conn {A} (g : M (Request * Process) A) (v : A) (f : A -> M Memory Response) q p :
  (forall p, g (q, p) = (Ok v, (q, p))) ->
  (c ← in_app (controller_conn demangle_type fuel); a ← g; in_app (with_conn c (f a)) : M (Request * Process) Response) (q, p) =
  let '(o, p') := (controller_conn demangle_type fuel ≫= fun c => with_conn c (f v) : M Process Response) p in (o, (q, p')).
Proof.
  intros Hg. unfold in_app, mbind, M_bind. cbn [fst snd].
  destruct (controller_conn demangle_type fuel p) as [[c|e] p1]; [|done]. cbn [fst snd]. rewrite Hg. done.
Qed.

Lemma call_served c l p : well_formed c -> Z.of_nat (length l) + 1 < 2 ^ 63 ->
  View.render fuel articles_template (articles_view l) = Some (Ok (html_list l)) -> serving l p ->
  exists r p', handle wasm_kernel (call_request c) p = (Ok r, p') /\ ok_response (answer c l) r /\ serving (answer c l).2 p'.
Proof.
  intros [_ Hw] Hl Hr Hp. destruct c as [|id|form| |m u]; cbn [answer].
  - eapply route_served; [reflexivity|reflexivity| | |exact Hp].
    + intros d Hd. exists d. unfold articles_index, mbind, M_bind. by rewrite (all_articles l).
    + done.
  - destruct Hw as [Hid Hns]. eapply (route_served _ _ _ _ _ (articles_show MemoryConnection id) _ l p
      (match List.find (fun a => a_id a =? to_int id) l with
       | Some a => response_json (article_json a) 200
       | None => response_json (json_message "error" "not found") 404
       end)); [by apply match_show_route| | | |exact Hp].
    + intros q. apply (after_conn _ id (articles_show MemoryConnection)). intros p1.
      unfold route_param, on_request, gets, mbind, M_bind. cbn [fst Http.set_route_params Http.route_params]. by rewrite lookup_singleton_eq.
    + intros d Hd. exists d. unfold articles_show, mbind, M_bind. rewrite (find_article l) by done.
      destruct (List.find _ l) as [a|]; by (split; [reflexivity|]).
    + by destruct (List.find _ l).
  - eapply (route_served _ _ _ _ _ (articles_store MemoryConnection form) _ l p
      (if bool_decide (title (form_article form) = "") then response_json (json_message "error" "title is required") 422
       else response_json (article_json (article_set_id (Z.of_nat (length l) + 1) (form_article form))) 201)); [reflexivity| | | |exact Hp].
    + intros q. apply (after_conn _ form (articles_store MemoryConnection)). done.
    + intros d Hd. unfold articles_store. case_bool_decide; [by exists d|].
      destruct (insert_article (form_article form) l d Hd Hl) as (d' & E & Hd'). exists d'. unfold mbind, M_bind. by rewrite E.
    + by case_bool_decide.
  - eapply route_served; [reflexivity|reflexivity| | |exact Hp].
    + intros d Hd. exists d. unfold articles_html, mbind, M_bind. rewrite (all_articles l) by done. rewrite Hr. by split.
    + done.
  - pose proof (handle_unmatched wasm_kernel (call_request (Other m u)) p (unrouted_matches m u Hw)) as E.
    cbn [wasm_kernel new_kernel Kernel.router_ op_allowed router_ops] in E.
    change (path (call_request (Other m u))) with u in E. pose proof (known_allowed u) as Hk.
    destruct (known u), (allowed_methods wasm_router u) as [|x ms]; try (destruct Hk as [H1 H2]; discriminate (H2 eq_refl) || discriminate (H1 eq_refl)).
    + do 2 eexists. split; [exact E|]. by repeat split.
    + do 2 eexists. split; [exact E|]. by repeat split.
Qed.

(** ** From the first call on *)
Lemma build_serving : exists p, build demangle_type fuel fresh_process = (Ok wasm_kernel, p) /\ serving seeded_articles p.
Proof.
  assert (Hseed : exists p, seed demangle_type fuel fresh_process = (Ok tt, p) /\ serving seeded_articles p).
  { destruct fuel as [|[|[|f]]]; [lia..|]. eexists. split; [vm_compute; reflexivity|].
    exists [], (repo_insert MemoryConnection ArticleMapper (mkArticle 0 "Running in your browser via WebAssembly" 42 true)
      (repo_insert MemoryConnection ArticleMapper (mkArticle 0 "Hello from compiled C++" 7 true) empty_memory).2).2.
    split; [vm_compute; reflexivity|]. split; [vm_compute; reflexivity|]. split; [|done].
    constructor; [by split|]. constructor; [by split|]. constructor. }
  destruct Hseed as (p & E & Hp). exists p. split; [|done]. unfold build, mbind, M_bind. rewrite E, routes_wasm. done.
Qed.

(** Between calls: nothing has been built yet, or the application serves the articles. *)
Definition ready (l : list Article) (g : Globals) : Prop :=
  (instance g = Some wasm_kernel /\ serving l (process g)) \/
  (instance g = None /\ process g = fresh_process /\ l = seeded_articles).
Lemma app_ready l g : ready l g -> exists g', app demangle_type fuel g = (Ok wasm_kernel, g') /\
  instance g' = Some wasm_kernel /\ serving l (process g').
Proof.
  intros [[Hi Hs]|(Hi & Hp & ->)]; unfold app; rewrite Hi; [by exists g|].
  rewrite Hp. destruct build_serving as (p & E & Hs). rewrite E. by eexists.
Qed.

Lemma call_answered c l g : well_formed c -> Z.of_nat (length l) + 1 < 2 ^ 63 ->
  View.render fuel articles_template (articles_view l) = Some (Ok (html_list l)) -> ready l g ->
  let '(m, p, b) := call_text c in
  exists g', lipp_handle demangle_type fuel (Some m) (Some p) (Some b) g = (Ok (c_str (answer c l).1.2), g') /\
    g_status g' = (answer c l).1.1 /\ ready (answer c l).2 g'.
Proof.
  intros Hw Hl Hr Hg. destruct (app_ready l g Hg) as (g1 & E1 & Hi & Hs).
  destruct (call_served c l (process g1) Hw Hl Hr Hs) as (r & p' & E & [Hst Hb] & Hs').
  destruct Hw as [Hz _]. unfold call_request in E. destruct (call_text c) as [[m p] b].
  destruct Hz as (Hm & Hp & Hbd). unfold lipp_handle, mbind, M_bind. rewrite E1. unfold text_or, on_part.
  rewrite !c_str_id by done. rewrite E. eexists. split; [by rewrite <- Hb|]. split; [done|]. left. by split.
Qed.
End calls.

(** What a host gets: the text of each answer and the status it then asks for. *)
Fixpoint run_calls (demangle_type : Key -> string) (fuel : nat) (calls : list Call) : M Globals (list (Z * string)) :=
  match calls with
  | [] => mret []
  | c :: calls =>
      let '(m, p, b) := call_text c in
      text ← lipp_handle demangle_type fuel (Some m) (Some p) (Some b);
      st ← lipp_status;
      rest ← run_calls demangle_type fuel calls;
      mret ((st, text) :: rest)
  end.

Lemma answer_length c l : (length (answer c l).2 <= length l + 1)%nat.
Proof. destruct c; cbn [answer]; repeat case_match; cbn; rewrite ?length_app; cbn; lia. Qed.

Lemma calls_from calls : Forall well_formed calls -> forall l, Z.of_nat (length l + length calls) < 2 ^ 63 ->
  exists enough, forall fuel demangle_type g, (enough <= fuel)%nat -> ready demangle_type fuel l g ->
    (run_calls demangle_type fuel calls g).1 = Ok (answers calls l).
Proof.
  induction 1 as [|c calls Hc _ IH]; intros l Hl; [by exists 0%nat|]. cbn [length] in Hl. pose proof (answer_length c l) as Ha.
  destruct (IH (answer c l).2 ltac:(lia)) as [N1 H1], (html_renders l) as [N2 H2]. exists (3 + N1 + N2)%nat.
  intros fuel dm g Hf Hg. pose proof (call_answered dm fuel ltac:(lia) c l g Hc ltac:(lia) (H2 fuel ltac:(lia)) Hg) as Hca.
  cbn [run_calls answers]. destruct (call_text c) as [[m p] b]. destruct Hca as (g' & E & Hst & Hg').
  specialize (H1 fuel dm g' ltac:(lia) Hg'). unfold mbind, M_bind. rewrite E. unfold lipp_status, gets.
  destruct (run_calls dm fuel calls g') as [o g'']. cbn [fst] in H1. rewrite H1, Hst.
  by destruct (answer c l) as [[st text] l'].
Qed.

(** A host's calls, any number in any order, answer as the list of articles does: the two
    seeds and what was posted, whatever the fuel of the templates once there is enough. *)
Theorem calls_answered calls demangle_type :
  Forall well_formed calls -> Z.of_nat (length calls) + 2 < 2 ^ 63 ->
  exists enough, forall fuel, (enough <= fuel)%nat ->
    (run_calls demangle_type fuel calls fresh_globals).1 = Ok (answers calls seeded_articles).
Proof.
  intros Hw Hl. destruct (calls_from calls Hw seeded_articles) as [N HN]; [cbn [length seeded_articles]; lia|].
  exists N. intros fuel Hf. apply HN; [done|]. by right.
Qed.

Lemma calls_answered_witness :
  let calls := [Index; Store "title=New&views=3"; Show "3"; Store "views=1"; Html; Show "9"; Other "GET" "/nope"; Other "DELETE" "/articles"] in
  (exists enough, forall fuel, (enough <= fuel)%nat ->
    (run_calls id fuel calls fresh_globals).1 = Ok (answers calls seeded_articles)) /\
  map fst (answers calls seeded_articles) = [200; 201; 200; 422; 200; 404; 404; 405].
Proof.
  split; [|by vm_compute]. apply (calls_answered _ id); [|done].
  repeat (apply Forall_cons_2; [split; [by by_eval|first [done|by split; [done|by_eval]|by by_eval]]|]). apply Forall_nil_2.
Defined.
