(* ===== verification/WasmHost.v ===== *)
(** * wasm/host.cpp: strings across a linear memory

    The host copies a request's strings into the memory of the WebAssembly module, at the
    blocks the module's [malloc] gives, and reads the answer back up to its zero byte. *)
From S2P Require Import Prelude CppString CppNum.

(** [memory.data(store)]: the bytes of the module. *)
Abbreviation LinearMemory := (list ascii).
Definition zero : ascii := chr 0.

(** [memcpy(mem + ptr, s, size); mem[ptr + size] = 0]: inside the block, as the caller asked
    for one byte more than the text. *)
Fixpoint store_bytes (ptr : nat) (bytes : list ascii) (mem : LinearMemory) : LinearMemory :=
  match bytes with
  | [] => mem
  | b :: bytes => store_bytes (S ptr) bytes (<[ptr := b]> mem)
  end.
Definition write_string (ptr : nat) (s : string) (mem : LinearMemory) : LinearMemory :=
  store_bytes ptr (chars s ++ [zero]) mem.
(** [for (i = ptr; i < mem.size() && mem[i] != 0; ++i) out += mem[i]]. *)
Fixpoint read_bytes (mem : LinearMemory) : string :=
  match mem with
  | [] => ""
  | b :: mem => if is_char zero b then "" else String b (read_bytes mem)
  end.
Definition read_string (mem : LinearMemory) (ptr : nat) : string := read_bytes (drop ptr mem).

(** The block [malloc(size + 1)] gave. *)
Definition block (ptr : nat) (s : string) (mem : LinearMemory) : Prop := ptr + len s + 1 <= length mem.
Definition apart (p : nat) (s : string) (q : nat) (t : string) : Prop := p + len s + 1 <= q \/ q + len t + 1 <= p.

Lemma length_store ptr bytes mem : length (store_bytes ptr bytes mem) = length mem.
Proof. revert ptr mem. induction bytes as [|b bytes IH]; intros ptr mem; cbn; [done|]. by rewrite IH, length_insert. Qed.
Lemma store_outside bytes : forall ptr mem i, i < ptr \/ ptr + length bytes <= i -> store_bytes ptr bytes mem !! i = mem !! i.
Proof.
  induction bytes as [|b bytes IH]; intros ptr mem i Hi; cbn in *; [done|].
  rewrite IH by lia. apply list_lookup_insert_ne. lia.
Qed.
Lemma store_inside bytes : forall ptr mem i, i < length bytes -> ptr + length bytes <= length mem ->
  store_bytes ptr bytes mem !! (ptr + i) = bytes !! i.
Proof.
  induction bytes as [|b bytes IH]; intros ptr mem i Hi Hb; cbn in *; [lia|]. destruct i as [|i].
  - rewrite store_outside by lia. rewrite Nat.add_0_r. apply list_lookup_insert_eq. lia.
  - replace (ptr + S i) with (S ptr + i) by lia. apply IH; [lia|]. rewrite length_insert. lia.
Qed.

(** What is read where [s] and its zero are. *)
Lemma read_at s : forall mem ptr, (forall i, i < len s + 1 -> mem !! (ptr + i) = (chars s ++ [zero]) !! i) ->
  read_string mem ptr = c_str s.
Proof.
  unfold read_string. induction s as [|c s IH]; intros mem ptr Hm.
  - specialize (Hm 0 ltac:(cbn; lia)). rewrite Nat.add_0_r in Hm. apply drop_S in Hm. rewrite Hm. by cbn.
  - pose proof (Hm 0 ltac:(cbn; lia)) as H0. rewrite Nat.add_0_r in H0. cbn in H0. apply drop_S in H0. rewrite H0.
    cbn [read_bytes c_str]. unfold zero. case_match; [done|]. f_equal. apply IH. intros i Hi.
    replace (S ptr + i) with (ptr + S i) by lia. apply (Hm (S i)). cbn. lia.
Qed.
Lemma write_apart p s q t mem : apart p s q t -> block q t mem ->
  (forall i, i < len t + 1 -> mem !! (q + i) = (chars t ++ [zero]) !! i) ->
  forall i, i < len t + 1 -> write_string p s mem !! (q + i) = (chars t ++ [zero]) !! i.
Proof.
  intros Ha Hb Hm i Hi. unfold write_string. rewrite store_outside; [by apply Hm|].
  rewrite length_app, length_chars. cbn. unfold apart in Ha. lia.
Qed.

(** The three strings of a request, written one after the other into blocks that do not
    overlap, are what the module reads: up to the first zero byte, each. *)
Theorem arguments_arrive pm m pp p pb b mem :
  block pm m mem -> block pp p mem -> block pb b mem -> apart pp p pm m -> apart pb b pm m -> apart pb b pp p ->
  let mem' := write_string pb b (write_string pp p (write_string pm m mem)) in
  length mem' = length mem /\
  read_string mem' pm = c_str m /\ read_string mem' pp = c_str p /\ read_string mem' pb = c_str b.
Proof.
  intros Bm Bp Bb A1 A2 A3 mem'. assert (Hlen : forall q s u, length (write_string q s u) = length u) by (intros; apply length_store).
  assert (Hin : forall q s u, block q s u -> forall i, i < len s + 1 -> write_string q s u !! (q + i) = (chars s ++ [zero]) !! i).
  { intros q s u Hb i Hi. unfold write_string, block in *. apply store_inside; rewrite length_app, length_chars; cbn; lia. }
  split; [unfold mem'; by rewrite !Hlen|]. unfold mem'. split; [|split].
  - apply read_at. apply write_apart; [done|unfold block in *; rewrite !Hlen; lia|].
    apply write_apart; [done|unfold block in *; rewrite Hlen; lia|]. by apply Hin.
  - apply read_at. apply write_apart; [done|unfold block in *; rewrite !Hlen; lia|]. apply Hin. unfold block in *. rewrite Hlen. lia.
  - apply read_at. apply Hin. unfold block in *. rewrite !Hlen. lia.
Qed.

(** The calls the program makes, and their arguments in a memory of 200 bytes. *)
Definition requests : list (string * string * string) :=
  [("GET", "/articles", ""); ("GET", "/articles/2", ""); ("POST", "/articles", "title=Created from a C++ host&published=1");
   ("GET", "/articles.html", ""); ("POST", "/articles", "published=1"); ("GET", "/nope", "")].
Lemma arguments_arrive_witness :
  let mem := repeat "x"%char 200 in
  let mem' := write_string 40 "title=Created from a C++ host&published=1" (write_string 20 "/articles" (write_string 8 "POST" mem)) in
  read_string mem' 8 = "POST" /\ read_string mem' 20 = "/articles" /\
  read_string mem' 40 = "title=Created from a C++ host&published=1".
Proof.
  destruct (arguments_arrive 8 "POST" 20 "/articles" 40 "title=Created from a C++ host&published=1" (repeat "x"%char 200))
    as (_ & H1 & H2 & H3); [unfold block, apart; cbn; lia..|]. split; [exact H1|]. split; [exact H2|exact H3].
Defined.
