(* ===== verification/Clang.v ===== *)
(** * tools: the part of libclang the code generators call

    libclang is not part of the repository: its functions are the fields of [Libclang], and
    what the tools rely on is [ClangLaws], the documented order of [clang_visitChildren].
    The command line, the name of the included header and the traversals the tools share
    are here too. *)
From S2P Require Import Prelude CppString CppNum.

Local Open Scope Z_scope.

Inductive CursorKind : Type :=
  | CXCursor_Constructor | CXCursor_ClassDecl | CXCursor_StructDecl | CXCursor_FieldDecl | CXCursor_Other.
Inductive VisitResult : Type := CXChildVisit_Break | CXChildVisit_Continue | CXChildVisit_Recurse.
#[export] Instance CursorKind_eq_dec : EqDecision CursorKind.
Proof. solve_decision. Defined.

(** A string of libclang may be null. *)
Record Libclang (Cursor CType : Type) : Type := mkLibclang {
  getCursorKind : Cursor -> CursorKind;
  isPublic : Cursor -> bool;
  isCursorDefinition : Cursor -> bool;
  getCursorSpelling : Cursor -> option string;
  getNumArguments : Cursor -> Z;
  getArgument : Cursor -> Z -> Cursor;
  getCursorType : Cursor -> CType;
  getTypeSpelling : CType -> option string;
  getNumTemplateArguments : CType -> Z;
  getTemplateArgumentAsType : CType -> Z -> CType;
  visitChildren : forall A, Cursor -> (Cursor -> A -> VisitResult * A) -> A -> A
}.
Arguments getCursorKind {_ _} _. Arguments isPublic {_ _} _. Arguments isCursorDefinition {_ _} _.
Arguments getCursorSpelling {_ _} _. Arguments getNumArguments {_ _} _. Arguments getArgument {_ _} _.
Arguments getCursorType {_ _} _. Arguments getTypeSpelling {_ _} _. Arguments getNumTemplateArguments {_ _} _.
Arguments getTemplateArgumentAsType {_ _} _. Arguments visitChildren {_ _} _ {_}.

(** [take]: a null pointer is the empty string. *)
Definition take_text (s : option string) : string := default "" s.

(** ** Traversal *)
Section traversal.
Context {Cursor : Type} (children : Cursor -> list Cursor).

(** The visitor on a list of siblings, and below each one it recurses into; the flag says
    that a Break has stopped it. *)
Inductive visits {A} (f : Cursor -> A -> VisitResult * A) : list Cursor -> A -> A -> bool -> Prop :=
  | visits_nil a : visits f [] a a false
  | visits_break c l a a' : f c a = (CXChildVisit_Break, a') -> visits f (c :: l) a a' true
  | visits_continue c l a a' a'' s : f c a = (CXChildVisit_Continue, a') -> visits f l a' a'' s -> visits f (c :: l) a a'' s
  | visits_stopped c l a a' a'' : f c a = (CXChildVisit_Recurse, a') -> visits f (children c) a' a'' true ->
      visits f (c :: l) a a'' true
  | visits_recurse c l a a' a'' a3 s : f c a = (CXChildVisit_Recurse, a') -> visits f (children c) a' a'' false ->
      visits f l a'' a3 s -> visits f (c :: l) a a3 s.

(** The cursors below a list of siblings, each before its own children. *)
Inductive preorder : list Cursor -> list Cursor -> Prop :=
  | preorder_nil : preorder [] []
  | preorder_cons c l below after : preorder (children c) below -> preorder l after ->
      preorder (c :: l) (c :: below ++ after).

(** A visitor that appends what it finds at a cursor and always recurses. *)
Lemma visits_collects {B} (f : Cursor -> list B -> VisitResult * list B) (found : Cursor -> option B) :
  (forall c bs, f c bs = (CXChildVisit_Recurse, bs ++ option_list (found c))) ->
  forall l a a' s, visits f l a a' s ->
  exists all, preorder l all /\ a' = a ++ omap found all /\ s = false.
Proof.
  intros Hf. induction 1 as [a|c l a a' Hc|c l a a' a'' s Hc _ _|c l a a' a'' Hc _ IH|c l a a' a'' a3 s Hc _ IH1 _ IH2];
    [|congruence|congruence| |].
  - exists []. split; [constructor|]. by rewrite app_nil_r.
  - destruct IH as (all & _ & _ & Hs). discriminate Hs.
  - destruct IH1 as (below & Hb & -> & _), IH2 as (after & Ha & -> & ->). rewrite Hf in Hc. injection Hc as <-.
    exists (c :: below ++ after). split; [by constructor|]. split; [|done].
    cbn [omap list_omap]. rewrite omap_app, <- !app_assoc. by destruct (found c).
Qed.
End traversal.

(** What the documentation says of [clang_visitChildren]. *)
Class ClangLaws {Cursor CType} (lib : Libclang Cursor CType) (children : Cursor -> list Cursor) : Prop := {
  visit_children_in_order A (f : Cursor -> A -> VisitResult * A) c a :
    exists stopped, visits children f (children c) a (visitChildren lib c f a) stopped
}.

(** ** A tree of cursors

    What the examples run on: cursors as a tree, visited as the documentation says. *)
Inductive Ty : Type := mkTy (spelling : string) (targs : list Ty).
Inductive Tree : Type :=
  mkTree (kind : CursorKind) (name : string) (public definition : bool) (ty : Ty) (args kids : list Tree).
Definition tree_children (c : Tree) : list Tree := match c with mkTree _ _ _ _ _ _ kids => kids end.
Definition tree_type (c : Tree) : Ty := match c with mkTree _ _ _ _ ty _ _ => ty end.
Definition tree_args (c : Tree) : list Tree := match c with mkTree _ _ _ _ _ args _ => args end.
Definition no_tree : Tree := mkTree CXCursor_Other "" false false (mkTy "" []) [] [].
Definition ty_args (t : Ty) : list Ty := match t with mkTy _ l => l end.

Fixpoint visit_tree {A} (f : Tree -> A -> VisitResult * A) (c : Tree) (a : A) : A * bool :=
  match c with
  | mkTree _ _ _ _ _ _ kids =>
      (fix go (l : list Tree) (a : A) : A * bool :=
        match l with
        | [] => (a, false)
        | k :: l =>
            match f k a with
            | (CXChildVisit_Break, a) => (a, true)
            | (CXChildVisit_Continue, a) => go l a
            | (CXChildVisit_Recurse, a) => let '(a, stopped) := visit_tree f k a in if stopped then (a, true) else go l a
            end
        end) kids a
  end.
Definition tree_clang : Libclang Tree Ty :=
  mkLibclang Tree Ty (fun c => match c with mkTree k _ _ _ _ _ _ => k end) (fun c => match c with mkTree _ _ p _ _ _ _ => p end)
    (fun c => match c with mkTree _ _ _ d _ _ _ => d end) (fun c => match c with mkTree _ n _ _ _ _ _ => Some n end)
    (fun c => Z.of_nat (length (tree_args c))) (fun c i => nth (Z.to_nat i) (tree_args c) no_tree) tree_type
    (fun t => match t with mkTy s _ => Some s end) (fun t => Z.of_nat (length (ty_args t)))
    (fun t i => nth (Z.to_nat i) (ty_args t) (mkTy "" [])) (fun A c f a => (visit_tree f c a).1).

Lemma visit_tree_visits {A} (f : Tree -> A -> VisitResult * A) :
  forall c a, visits tree_children f (tree_children c) a (visit_tree f c a).1 (visit_tree f c a).2.
Proof.
  fix IH 1. intros [k n p d t args kids] a. cbn [tree_children visit_tree]. revert a.
  induction kids as [|x kids IHk]; intros a; [constructor|]. destruct (f x a) as [[] a'] eqn:E.
  - by apply visits_break.
  - by eapply visits_continue.
  - specialize (IH x a'). destruct (visit_tree f x a') as [a'' []] eqn:Ex; cbn [fst snd] in *.
    + by eapply visits_stopped.
    + by eapply visits_recurse.
Qed.
#[export] Instance tree_laws : ClangLaws tree_clang tree_children.
Proof. split. intros A f c a. exists (visit_tree f c a).2. apply visit_tree_visits. Qed.

(** ** The command line *)
Record Arguments_ : Type := mkArguments { header_arg : string; out_path : string; clang_args : list string }.
Fixpoint read_args (argv : list string) (past_sep : bool) (a : Arguments_) : Arguments_ :=
  match argv with
  | [] => a
  | x :: argv =>
      let plain := if bool_decide (header_arg a = "") then mkArguments x (out_path a) (clang_args a) else a in
      if past_sep then read_args argv true (mkArguments (header_arg a) (out_path a) (clang_args a ++ [x]))
      else if bool_decide (x = "--") then read_args argv true a
      else if bool_decide (x = "-o") then
        match argv with
        | o :: argv => read_args argv false (mkArguments (header_arg a) o (clang_args a))
        | [] => plain
        end
      else read_args argv false plain
  end.
Definition main_args (argv : list string) : Arguments_ := read_args argv false (mkArguments "" "" []).
Definition clang_command (a : Arguments_) : list string := ["-std=c++20"; "-x"; "c++"] ++ clang_args a.

(** [header.substr(header.find_last_of("/\\") + 1)]: npos + 1 is 0. *)
Fixpoint after_last_slash (s rest : string) : string :=
  match s with
  | "" => rest
  | String c s => after_last_slash s (if is_char "/" c || is_char backslash c then s else rest)
  end.
Definition basename (header : string) : string := after_last_slash header header.

(** What a run of a tool leaves: the exit code, std::cout, std::cerr, the file it wrote. *)
Record Outcome : Type := mkOutcome { exit_code : Z; out : string; err : string; written : option (string * string) }.
