(* ===== verification/Autowire.v ===== *)
(** * tools/autowire/autowire.cpp: registrations from constructors

    The visitors over libclang's tree, the text that is emitted and the command.  What the
    emitted function does when it is called, and the driver that proves it, are stated on
    the container of Container.v. *)
From S2P Require Import Prelude CppString CppNum Container Clang.

Local Open Scope Z_scope.

Record Binding : Type := mkBinding { b_type : string; deps : list string }.
Record ClassCtx : Type := mkClassCtx { class_name : string; found : bool; binding : Binding }.

Section tool.
Context {Cursor CType : Type} (lib : Libclang Cursor CType).

Definition shared_ptr_inner (t : CType) : string :=
  let spelling := take_text (getTypeSpelling lib t) in
  if negb (contains spelling "shared_ptr") then ""
  else if getNumTemplateArguments lib t <? 1 then ""
  else take_text (getTypeSpelling lib (getTemplateArgumentAsType lib t 0)).

(** [for (i = 0; i < nargs; ++i)]: the inner types, or nothing once one is not injectable. *)
Fixpoint ctor_deps (c : Cursor) (n : nat) (i : Z) : option (list string) :=
  match n with
  | O => Some []
  | S n =>
      let inner := shared_ptr_inner (getCursorType lib (getArgument lib c i)) in
      if bool_decide (inner = "") then None else cons inner <$> ctor_deps c n (i + 1)
  end.
Definition visit_member (c : Cursor) (ctx : ClassCtx) : VisitResult * ClassCtx :=
  if found ctx then (CXChildVisit_Continue, ctx)
  else if negb (bool_decide (getCursorKind lib c = CXCursor_Constructor)) then (CXChildVisit_Continue, ctx)
  else if negb (isPublic lib c) then (CXChildVisit_Continue, ctx)
  else
    let nargs := getNumArguments lib c in
    if nargs <=? 0 then (CXChildVisit_Continue, ctx)
    else match ctor_deps c (Z.to_nat nargs) 0 with
         | None => (CXChildVisit_Continue, ctx)
         | Some ds => (CXChildVisit_Break, mkClassCtx (class_name ctx) true (mkBinding (class_name ctx) ds))
         end.
Definition visit_top (c : Cursor) (bs : list Binding) : VisitResult * list Binding :=
  let k := getCursorKind lib c in
  (CXChildVisit_Recurse,
   if (bool_decide (k = CXCursor_ClassDecl) || bool_decide (k = CXCursor_StructDecl)) && isCursorDefinition lib c then
     let name := take_text (getCursorSpelling lib c) in
     if bool_decide (name = "") then bs
     else let ctx := visitChildren lib c visit_member (mkClassCtx name false (mkBinding "" [])) in
          if found ctx then bs ++ [binding ctx] else bs
   else bs).

Definition emit_binding (b : Binding) : string :=
  "    container.bind_auto<" +:+ b_type b +:+ s_concat (map (fun d => ", " +:+ d) (deps b)) +:+ ">();" +:+ lf.
Definition emit (header : string) (bs : list Binding) : string :=
  "// GENERATED by tools/autowire — do not edit." +:+ lf +:+
  "// Source header: " +:+ header +:+ lf +:+
  "#include " +:+ dq "container.hpp" +:+ lf +:+
  "#include " +:+ dq (basename header) +:+ lf +:+ lf +:+
  "void register_autowired(Container& container) {" +:+ lf +:+
  match bs with [] => "    // (no injection constructors found)" +:+ lf | _ => s_concat (map emit_binding bs) end +:+
  "}" +:+ lf.

(** [clang_parseTranslationUnit]: nothing, or the root cursor with the diagnostics, each
    with whether it is an error and its text.  [writable]: the files that can be opened. *)
Section main.
Variable parse : string -> list string -> option (Cursor * list (bool * option string)).
Variable writable : string -> bool.

Definition diagnostics (l : list (bool * option string)) : string :=
  s_concat (map (fun d : bool * option string => if d.1 then "autowire: " +:+ take_text d.2 +:+ lf else "") l).
Definition autowire_main (argv : list string) : Outcome :=
  let a := main_args argv in
  if bool_decide (header_arg a = "") then
    mkOutcome 2 "" ("usage: autowire <header> -o <out.cpp> [-- <clang args>]" +:+ lf) None
  else match parse (header_arg a) (clang_command a) with
  | None => mkOutcome 1 "" ("autowire: failed to parse " +:+ header_arg a +:+ lf) None
  | Some (root, diags) =>
      let e := diagnostics diags in
      let bs := visitChildren lib root visit_top [] in
      let text := emit (header_arg a) bs in
      if bool_decide (out_path a = "") then mkOutcome 0 text e None
      else if negb (writable (out_path a)) then mkOutcome 1 "" (e +:+ "autowire: cannot write " +:+ out_path a +:+ lf) None
      else mkOutcome 0 "" (e +:+ "autowire: wrote " +:+ to_string (Z.of_nat (length bs)) +:+ " binding(s) to " +:+ out_path a +:+ lf)
             (Some (out_path a, text))
  end.
End main.
End tool.

(** ** What is found *)
Section found.
Context {Cursor CType : Type} (lib : Libclang Cursor CType) (children : Cursor -> list Cursor) `{!ClangLaws lib children}.

(** A constructor that can be wired: public, with parameters, all of them shared pointers. *)
Definition injection (c : Cursor) : option (list string) :=
  if bool_decide (getCursorKind lib c = CXCursor_Constructor) && isPublic lib c && (0 <? getNumArguments lib c)
  then ctor_deps lib c (Z.to_nat (getNumArguments lib c)) 0 else None.
(** The binding of a cursor: of a named class definition, its first such constructor. *)
Definition class_binding (c : Cursor) : option Binding :=
  let k := getCursorKind lib c in
  let name := take_text (getCursorSpelling lib c) in
  if (bool_decide (k = CXCursor_ClassDecl) || bool_decide (k = CXCursor_StructDecl)) && isCursorDefinition lib c
     && negb (bool_decide (name = ""))
  then mkBinding name <$> head (omap injection (children c)) else None.

Lemma visit_member_injection c ctx : found ctx = false ->
  visit_member lib c ctx = match injection c with
                           | Some ds => (CXChildVisit_Break, mkClassCtx (class_name ctx) true (mkBinding (class_name ctx) ds))
                           | None => (CXChildVisit_Continue, ctx)
                           end.
Proof.
  intros Hf. unfold visit_member, injection. rewrite Hf.
  destruct (bool_decide (getCursorKind lib c = CXCursor_Constructor)), (isPublic lib c); cbn [negb andb]; try done.
  rewrite Z.leb_antisym. by destruct (0 <? getNumArguments lib c).
Qed.
Lemma members_first l ctx ctx' s : visits children (visit_member lib) l ctx ctx' s -> found ctx = false ->
  ctx' = match head (omap injection l) with
         | Some ds => mkClassCtx (class_name ctx) true (mkBinding (class_name ctx) ds)
         | None => ctx
         end.
Proof.
  induction 1 as [ctx|c l ctx ctx' Hc|c l ctx ctx' ctx'' s Hc _ IH|c l ctx ctx' ctx'' Hc _ _|c l ctx ctx' ctx'' ctx3 s Hc _ _ _ _];
    intros Hf; [done|..]; rewrite visit_member_injection in Hc by done; cbn [omap list_omap];
    destruct (injection c) as [ds|]; try discriminate Hc; injection Hc as <-; [done|by apply IH].
Qed.
Lemma visit_top_binding c bs : visit_top lib c bs = (CXChildVisit_Recurse, bs ++ option_list (class_binding c)).
Proof.
  unfold visit_top, class_binding. f_equal. set (name := take_text _). destruct (_ && isCursorDefinition lib c); cbn [andb]; [|by rewrite app_nil_r].
  destruct (bool_decide (name = "")); cbn [negb]; [by rewrite app_nil_r|].
  destruct (visit_children_in_order ClassCtx (visit_member lib) c (mkClassCtx name false (mkBinding "" []))) as [s Hv].
  rewrite (members_first _ _ _ _ Hv eq_refl). destruct (head _) as [ds|]; cbn; [done|by rewrite app_nil_r].
Qed.

(** The tool writes the registrations of exactly the classes of the header's translation
    unit that have an injection constructor, in the order the declarations appear, a nested
    class after the class it is in. *)
Theorem autowire_writes parse writable argv root diags :
  let a := main_args argv in
  header_arg a <> "" -> out_path a <> "" -> writable (out_path a) = true ->
  parse (header_arg a) (clang_command a) = Some (root, diags) ->
  exists all, preorder children (children root) all /\
    let o := autowire_main lib parse writable argv in
    exit_code o = 0 /\ out o = "" /\ written o = Some (out_path a, emit (header_arg a) (omap class_binding all)).
Proof.
  intros a Hh Ho Hw Hp. destruct (visit_children_in_order (list Binding) (visit_top lib) root []) as [s Hv].
  destruct (visits_collects children (visit_top lib) class_binding visit_top_binding _ _ _ _ Hv) as (all & Hall & E & _).
  exists all. split; [done|]. unfold autowire_main. fold a. rewrite bool_decide_eq_false_2 by done. rewrite Hp.
  rewrite bool_decide_eq_false_2 by done. rewrite Hw. cbn [negb exit_code out written]. by rewrite E.
Qed.
End found.

(** ** What the emitted function does *)
(** [container.bind_auto<T, Deps...>()], line after line. *)
Definition register_autowired (bs : list Binding) (c : Container.Container) : Container.Container :=
  fold_left (fun c b => bind_auto (b_type b) (deps b) c) bs c.

(** sample.hpp as libclang presents it, and the driver. *)
Definition shared_ptr (t : string) : Ty := mkTy ("std::shared_ptr<" +:+ t +:+ ">") [mkTy t []].
Definition param (t : Ty) : Tree := mkTree CXCursor_Other "" false false t [] [].
Definition sample_tree : Tree :=
  mkTree CXCursor_Other "sample.hpp" false false (mkTy "" []) [] [
    mkTree CXCursor_StructDecl "SampleService" true true (mkTy "SampleService" []) [] [
      mkTree CXCursor_Other "ping" true true (mkTy "std::string () const" []) [] []];
    mkTree CXCursor_StructDecl "SampleController" true true (mkTy "SampleController" []) [] [
      mkTree CXCursor_Constructor "SampleController" true true (mkTy "void" []) [param (shared_ptr "SampleService")] [];
      mkTree CXCursor_FieldDecl "svc" true true (shared_ptr "SampleService") [] []]].
Definition sample_bindings : list Binding := visitChildren tree_clang sample_tree (visit_top tree_clang) [].
(** [main] of the driver: whether the controller came with its service. *)
Definition verify_driver (fuel : nat) : option (res bool) :=
  let c := register_autowired sample_bindings (singleton_auto "SampleService" [] new_container) in
  match Container.resolve id fuel "SampleController" c with
  | None => None
  | Some (Throw e, _) => Some (Throw e)
  | Some (Ok ctrl, c) => Some (Ok (match heap c !! any_ref ctrl with
      | Some (_, [svc]) => bool_decide (fst <$> heap c !! svc = Some "SampleService")
      | _ => false end))
  end.
Example sample_is_wired : sample_bindings = [mkBinding "SampleController" ["SampleService"]] /\
  verify_driver 3 = Some (Ok true).
Proof. by vm_compute. Qed.

Definition sample_parse (header : string) (args : list string) : option (Tree * list (bool * option string)) :=
  if bool_decide (header = "tools/autowire/sample.hpp") then Some (sample_tree, []) else None.
Lemma autowire_writes_witness :
  exists all, preorder tree_children (tree_children sample_tree) all /\
    let o := autowire_main tree_clang sample_parse (fun _ => true) ["tools/autowire/sample.hpp"; "-o"; "out.cpp"; "--"; "-I"; "include"] in
    exit_code o = 0 /\ out o = "" /\
    written o = Some ("out.cpp", emit "tools/autowire/sample.hpp" (omap (class_binding tree_clang tree_children) all)).
Proof.
  apply (autowire_writes tree_clang tree_children sample_parse (fun _ => true)
    ["tools/autowire/sample.hpp"; "-o"; "out.cpp"; "--"; "-I"; "include"] sample_tree []); by vm_compute.
Defined.
Example sample_text : emit "tools/autowire/sample.hpp" sample_bindings =
  "// GENERATED by tools/autowire — do not edit." +:+ lf +:+ "// Source header: tools/autowire/sample.hpp" +:+ lf +:+
  "#include " +:+ dq "container.hpp" +:+ lf +:+ "#include " +:+ dq "sample.hpp" +:+ lf +:+ lf +:+
  "void register_autowired(Container& container) {" +:+ lf +:+
  "    container.bind_auto<SampleController, SampleService>();" +:+ lf +:+ "}" +:+ lf.
Proof. by vm_compute. Qed.

(** The name of a class is its own, without its namespace: two classes of one name in two
    namespaces give two registrations of the same type. *)
Lemma namespaces_collide :
  let cls := mkTree CXCursor_ClassDecl "Service" true true (mkTy "Service" []) [] [
    mkTree CXCursor_Constructor "Service" true true (mkTy "void" []) [param (shared_ptr "Db")] []] in
  let ns n := mkTree CXCursor_Other n true true (mkTy "" []) [] [cls] in
  visitChildren tree_clang (mkTree CXCursor_Other "" false false (mkTy "" []) [] [ns "a"; ns "b"]) (visit_top tree_clang) [] =
  [mkBinding "Service" ["Db"]; mkBinding "Service" ["Db"]].
Proof. by vm_compute. Qed.
