(* ===== verification/Genmodel.v ===== *)
(** * tools/codegen/genmodel.cpp: mappers from model structs

    The visitors, the emitted text and the command; that what is emitted is what
    make:model writes by hand; and what the emitted mapper does, as a [Mapper] of
    Repository.v on structs of field values. *)
From S2P Require Import Prelude CppString CppNum Database Repository Clang Generators.

Local Open Scope Z_scope.

Definition normalise_type (spelling : string) : string :=
  if contains spelling "basic_string" then "std::string" else spelling.
Definition pluralise_lower (name : string) : string := lower name +:+ "s".

Record Field : Type := mkField { f_name : string; f_type : string }.
#[export] Instance Field_eq_dec : EqDecision Field.
Proof. solve_decision. Defined.
Record Model : Type := mkModel { m_name : string; fields : list Field }.

Section tool.
Context {Cursor CType : Type} (lib : Libclang Cursor CType).

Definition visit_field (c : Cursor) (m : Model) : VisitResult * Model :=
  (CXChildVisit_Continue,
   if bool_decide (getCursorKind lib c = CXCursor_FieldDecl) then
     mkModel (m_name m) (fields m ++ [mkField (take_text (getCursorSpelling lib c))
       (normalise_type (take_text (getTypeSpelling lib (getCursorType lib c))))])
   else m).
Definition has_id (m : Model) : bool := existsb (fun f => bool_decide (f_name f = "id")) (fields m).
Definition visit_top (c : Cursor) (models : list Model) : VisitResult * list Model :=
  let k := getCursorKind lib c in
  (CXChildVisit_Recurse,
   if (bool_decide (k = CXCursor_StructDecl) || bool_decide (k = CXCursor_ClassDecl)) && isCursorDefinition lib c then
     let m := visitChildren lib c visit_field (mkModel (take_text (getCursorSpelling lib c)) []) in
     if negb (bool_decide (m_name m = "")) && has_id m then models ++ [m] else models
   else models).

Definition emit_model (m : Model) : string :=
  let n := m_name m in
  unlines ([
    empty_line;
    "struct " +:+ n +:+ "Mapper {";
    "    static std::string table() { return " +:+ dq (pluralise_lower n) +:+ "; }";
    empty_line;
    "    static " +:+ n +:+ " hydrate(const Row& r) {";
    "        return " +:+ n +:+ "{"] ++
    map (fun f => "            r.get<" +:+ f_type f +:+ ">(" +:+ dq (f_name f) +:+ "),") (fields m) ++ [
    "        };";
    "    }";
    empty_line;
    "    static Row to_row(const " +:+ n +:+ "& m) {";
    "        Row r;"] ++
    map (fun f => "        r.set(" +:+ dq (f_name f) +:+ ", m." +:+ f_name f +:+ ");") (fields m) ++ [
    "        return r;";
    "    }";
    empty_line;
    "    static std::int64_t id(const " +:+ n +:+ "& m) { return m.id; }";
    "    static void set_id(" +:+ n +:+ "& m, std::int64_t id) { m.id = id; }";
    "};";
    empty_line;
    "using " +:+ n +:+ "Repository = Repository<" +:+ n +:+ ", " +:+ n +:+ "Mapper>;"]).
Definition emit (header : string) (models : list Model) : string :=
  unlines [
    "// GENERATED by tools/codegen/genmodel — do not edit.";
    "// Source header: " +:+ header;
    "#pragma once";
    "#include " +:+ dq "database.hpp";
    "#include " +:+ dq "repository.hpp";
    "#include " +:+ dq (basename header)] +:+
  s_concat (map emit_model models).

(** The stream is not tested after it is opened: what cannot be written is reported all
    the same. *)
Section main.
Variable parse : string -> list string -> option Cursor.
Variable writable : string -> bool.
Definition genmodel_main (argv : list string) : Outcome :=
  let a := main_args argv in
  if bool_decide (header_arg a = "") then
    mkOutcome 2 "" ("usage: genmodel <header> -o <out.hpp> [-- <clang args>]" +:+ lf) None
  else match parse (header_arg a) (clang_command a) with
  | None => mkOutcome 1 "" ("genmodel: failed to parse " +:+ header_arg a +:+ lf) None
  | Some root =>
      let models := visitChildren lib root visit_top [] in
      let text := emit (header_arg a) models in
      if bool_decide (out_path a = "") then mkOutcome 0 text "" None
      else mkOutcome 0 ""
             ("genmodel: wrote " +:+ to_string (Z.of_nat (length models)) +:+ " mapper(s) to " +:+ out_path a +:+ lf)
             (if writable (out_path a) then Some (out_path a, text) else None)
  end.
Lemma unwritable_is_reported_written argv root :
  let a := main_args argv in
  header_arg a <> "" -> out_path a <> "" -> parse (header_arg a) (clang_command a) = Some root ->
  writable (out_path a) = false ->
  let o := genmodel_main argv in
  exit_code o = 0 /\ written o = None /\ is_prefix "genmodel: wrote " (err o) = true.
Proof.
  intros a Hh Ho Hp Hw. unfold genmodel_main. fold a. rewrite bool_decide_eq_false_2, Hp by done.
  rewrite bool_decide_eq_false_2 by done. cbn [exit_code written err]. rewrite Hw. split; [done|]. split; [done|].
  apply is_prefix_app.
Qed.
End main.
End tool.

(** ** What is found *)
Section found.
Context {Cursor CType : Type} (lib : Libclang Cursor CType) (children : Cursor -> list Cursor) `{!ClangLaws lib children}.

Definition field_of (c : Cursor) : option Field :=
  if bool_decide (getCursorKind lib c = CXCursor_FieldDecl)
  then Some (mkField (take_text (getCursorSpelling lib c)) (normalise_type (take_text (getTypeSpelling lib (getCursorType lib c)))))
  else None.
(** The model of a cursor: a named struct or class definition with its fields, if one is [id]. *)
Definition model_of (c : Cursor) : option Model :=
  let k := getCursorKind lib c in
  let m := mkModel (take_text (getCursorSpelling lib c)) (omap field_of (children c)) in
  if (bool_decide (k = CXCursor_StructDecl) || bool_decide (k = CXCursor_ClassDecl)) && isCursorDefinition lib c
     && (negb (bool_decide (m_name m = "")) && has_id m)
  then Some m else None.

Lemma fields_collected l m m' s : visits children (visit_field lib) l m m' s ->
  m' = mkModel (m_name m) (fields m ++ omap field_of l).
Proof.
  assert (Hf : forall c m, visit_field lib c m = (CXChildVisit_Continue, mkModel (m_name m) (fields m ++ option_list (field_of c)))).
  { intros c [n fs]. unfold visit_field, field_of. case_bool_decide; cbn; [done|by rewrite app_nil_r]. }
  induction 1 as [m|c l m m' Hc|c l m m' m'' s Hc _ IH|c l m m' m'' Hc _ _|c l m m' m'' m3 s Hc _ _ _ _];
    [rewrite app_nil_r; by destruct m|..]; rewrite Hf in Hc; try discriminate Hc.
  - injection Hc as <-. rewrite IH. cbn [m_name fields omap list_omap]. rewrite <- app_assoc. by destruct (field_of c).
Qed.
Lemma visit_top_model c ms : visit_top lib c ms = (CXChildVisit_Recurse, ms ++ option_list (model_of c)).
Proof.
  unfold visit_top, model_of. f_equal. destruct (_ && isCursorDefinition lib c); cbn [andb]; [|by rewrite app_nil_r].
  destruct (visit_children_in_order Model (visit_field lib) c (mkModel (take_text (getCursorSpelling lib c)) [])) as [s Hv].
  rewrite (fields_collected _ _ _ _ Hv). cbn [m_name fields app]. destruct (_ && has_id _); cbn; [done|by rewrite app_nil_r].
Qed.

(** The command writes the mappers of exactly the model structs of the translation unit,
    in the order of their declarations. *)
Theorem genmodel_writes parse writable argv root :
  let a := main_args argv in
  header_arg a <> "" -> out_path a <> "" -> writable (out_path a) = true ->
  parse (header_arg a) (clang_command a) = Some root ->
  exists all, preorder children (children root) all /\
    let o := genmodel_main lib parse writable argv in
    exit_code o = 0 /\ written o = Some (out_path a, emit (header_arg a) (omap model_of all)).
Proof.
  intros a Hh Ho Hw Hp. destruct (visit_children_in_order (list Model) (visit_top lib) root []) as [s Hv].
  destruct (visits_collects children (visit_top lib) model_of visit_top_model _ _ _ _ Hv) as (all & Hall & E & _).
  exists all. split; [done|]. unfold genmodel_main. fold a. rewrite bool_decide_eq_false_2, Hp by done.
  rewrite bool_decide_eq_false_2 by done. cbn [exit_code written]. rewrite Hw. by rewrite E.
Qed.
End found.

(** ** The two generators *)
(** The part of make:model's file before the mapper. *)
Definition model_head (name : string) : string :=
  unlines [
    "// " +:+ to_snake name +:+ ".hpp — generated by cpp-artisan make:model"; "#pragma once"; "#include <cstdint>";
    "#include <string>"; empty_line; "#include " +:+ q +:+ "database.hpp" +:+ q; "#include " +:+ q +:+ "repository.hpp" +:+ q;
    empty_line; "struct " +:+ name +:+ " {"; "    std::int64_t id = 0;"; "    std::string name;"; "};"].
Definition made_model (name : string) : Model :=
  mkModel name [mkField "id" "std::int64_t"; mkField "name" "std::string"].

(** The mapper genmodel emits for the struct make:model writes is the mapper make:model writes, as
    long as the name has one capital; a second one gives another table. *)
Lemma snake_lower s : Forall (fun c => is_upper c = false) (chars s) -> snake_from false (chars s) = lower s.
Proof.
  unfold lower. induction s as [|c s IH]; [done|]. cbn [chars]. intros [Hc Hs]%Forall_cons. cbn [snake_from map implode].
  rewrite Hc, IH by done. unfold tolower. by rewrite Hc.
Qed.
Lemma table_names c s : Forall (fun c => is_upper c = false) (chars s) -> pluralise_lower (String c s) = table_name (String c s).
Proof.
  intros Hs. unfold pluralise_lower, table_name, to_snake. cbn [chars snake_from]. rewrite snake_lower by done.
  change (lower (String c s)) with (String (tolower c) (lower s)). destruct (is_upper c) eqn:E; [done|].
  unfold tolower at 1. by rewrite E.
Qed.
Lemma unlines_app a b : unlines (a ++ b) = unlines a +:+ unlines b.
Proof. unfold unlines. by rewrite map_app, s_concat_app. Qed.

Lemma capitals_differ c s t d : Forall (fun c => is_upper c = false) (chars s) -> is_upper d = true ->
  pluralise_lower (String c (s +:+ String d t)) <> table_name (String c (s +:+ String d t)).
Proof.
  intros Hs Hd E. assert (Hlen : forall l b, (length l <= len (snake_from b l))%nat).
  { induction l as [|x l IH]; intros b; cbn [snake_from length]; [lia|]. rewrite length_s_app. specialize (IH false).
    destruct (is_upper x), b; rewrite ?length_s_app; cbn; lia. }
  apply (f_equal len) in E. unfold pluralise_lower, table_name, to_snake in E. rewrite !length_s_app in E.
  unfold lower in E. rewrite <- length_chars, chars_implode, length_map in E. cbn [chars] in E. rewrite chars_app in E.
  cbn [chars length snake_from] in E. rewrite length_app in E. cbn [length] in E.
  assert (Hsplit : len (snake_from false (chars s ++ d :: chars t)) = (length (chars s) + S (S (len (snake_from false (chars t)))))%nat).
  { clear E. induction s as [|x s IH]; cbn [chars app snake_from].
    - rewrite Hd, length_s_app. done.
    - apply Forall_cons in Hs as [Hx Hs]. rewrite Hx, length_s_app, IH by done. cbn. lia. }
  rewrite length_s_app, Hsplit in E. specialize (Hlen (chars t) false).
  replace (len (if is_upper c then _ else _)) with 1%nat in E by (by destruct (is_upper c)). cbn in E. lia.
Qed.

(** The mapper genmodel emits for the struct make:model writes is the mapper make:model writes
    when the name has no capital after its first letter; when it has one, the two tools
    name different tables. *)
Theorem generators_agree c s :
  (Forall (fun c => is_upper c = false) (chars s) ->
   render_model (String c s) = model_head (String c s) +:+ emit_model (made_model (String c s))) /\
  (forall u d t, s = u +:+ String d t -> Forall (fun c => is_upper c = false) (chars u) -> is_upper d = true ->
   pluralise_lower (String c s) <> table_name (String c s)).
Proof.
  split; [|intros u d t -> Hu Hd; by apply capitals_differ]. intros Hs. pose proof (table_names c s Hs) as E.
  unfold model_head, emit_model. rewrite <- unlines_app. cbn [made_model m_name fields map f_name f_type app].
  unfold render_model, dq, q. rewrite <- E, !s_app_assoc. reflexivity.
Qed.

(** ** What the emitted mapper does *)
(** A struct is its field values in order.  [r.get<T>(name)] for the types a [Value] has;
    the mapper of a struct with another type does not compile. *)
Definition typed (ty : string) (v : Value) : bool :=
  match v with
  | VInt _ => bool_decide (ty = "std::int64_t")
  | VDouble _ => bool_decide (ty = "double")
  | VStr _ => bool_decide (ty = "std::string")
  | VBool _ => bool_decide (ty = "bool")
  end.
Definition get_typed (ty : string) (r : Row) (key : string) : res Value :=
  if bool_decide (ty = "std::int64_t") then VInt <$> get_int r key
  else if bool_decide (ty = "double") then VDouble <$> get_double r key
  else if bool_decide (ty = "std::string") then VStr <$> get_string r key
  else VBool <$> get_bool r key.
Fixpoint hydrate_fields (fs : list Field) (r : Row) : res (list Value) :=
  match fs with
  | [] => mret []
  | f :: fs => v ← get_typed (f_type f) r (f_name f); vs ← hydrate_fields fs r; mret (v :: vs)
  end.
Definition fields_row (fs : list Field) (vs : list Value) : Row :=
  fold_left (fun r fv => set_cell (f_name fv.1) fv.2 r) (combine fs vs) ∅.
Fixpoint set_field (fs : list Field) (key : string) (v : Value) (vs : list Value) : list Value :=
  match fs, vs with
  | f :: fs, x :: vs => if bool_decide (f_name f = key) then v :: vs else x :: set_field fs key v vs
  | _, _ => vs
  end.
Fixpoint field_value (fs : list Field) (key : string) (vs : list Value) : Value :=
  match fs, vs with
  | f :: fs, x :: vs => if bool_decide (f_name f = key) then x else field_value fs key vs
  | _, _ => VInt 0
  end.
Definition mapper_of (m : Model) : Mapper (list Value) :=
  mkMapper (pluralise_lower (m_name m)) (hydrate_fields (fields m)) (fields_row (fields m))
    (fun vs => value_int (field_value (fields m) "id" vs)) (fun id => set_field (fields m) "id" (VInt id)).

(** A struct the tool is for: distinct fields, an integer [id]; and its values. *)
Definition plain_model (m : Model) : Prop :=
  NoDup (map f_name (fields m)) /\ mkField "id" "std::int64_t" ∈ fields m.
Definition values_of (m : Model) (vs : list Value) : Prop := Forall2 (fun f v => typed (f_type f) v = true) (fields m) vs.

Lemma get_typed_at ty r key v : typed ty v = true -> r !! key = Some v -> get_typed ty r key = Ok v.
Proof.
  intros Ht Hr. unfold get_typed, get_int, get_double, get_string, get_bool, row_at. rewrite Hr.
  destruct v; cbn [typed] in Ht; bools; by subst.
Qed.
Lemma hydrate_at fs vs r : Forall2 (fun f v => typed (f_type f) v = true /\ r !! f_name f = Some v) fs vs ->
  hydrate_fields fs r = Ok vs.
Proof.
  induction 1 as [|f v fs vs [Ht Hr] _ IH]; [done|]. cbn [hydrate_fields]. by rewrite (get_typed_at _ _ _ v Ht Hr), IH.
Qed.
Lemma fields_row_at fs vs : NoDup (map f_name fs) -> Forall2 (fun f v => typed (f_type f) v = true) fs vs -> forall acc,
  let r := fold_left (fun r fv => set_cell (f_name fv.1) fv.2 r) (combine fs vs) acc in
  Forall2 (fun f v => typed (f_type f) v = true /\ r !! f_name f = Some v) fs vs /\
  (forall k, k ∉ map f_name fs -> r !! k = acc !! k).
Proof.
  intros Hn Hv. revert Hn. induction Hv as [|f v fs vs Hfv Hv IH]; intros Hn acc r; [by split|].
  cbn [map] in Hn. apply NoDup_cons in Hn as [Hf Hn]. subst r. cbn [combine fold_left fst snd].
  destruct (IH Hn (set_cell (f_name f) v acc)) as [H1 H2]. split.
  - constructor; [|exact H1]. split; [done|]. rewrite H2 by done. apply lookup_insert_eq.
  - intros k Hk. cbn [map] in Hk. apply not_elem_of_cons in Hk as [Hk1 Hk2]. rewrite H2 by done. by apply lookup_insert_ne.
Qed.
Lemma same_field fs f g : NoDup (map f_name fs) -> f ∈ fs -> g ∈ fs -> f_name f = f_name g -> f = g.
Proof.
  induction fs as [|x fs IH]; cbn [map]; intros Hn Hf Hg E; [by apply elem_of_nil in Hf|]. apply NoDup_cons in Hn as [Hx Hn].
  apply elem_of_cons in Hf as [->|Hf], Hg as [->|Hg]; [done| | |by apply IH].
  - destruct Hx. rewrite E. apply list_elem_of_In, in_map, list_elem_of_In, Hg.
  - destruct Hx. rewrite <- E. apply list_elem_of_In, in_map, list_elem_of_In, Hf.
Qed.
Lemma set_field_Forall2 (P Q : Field -> Value -> Prop) fs vs key w : NoDup (map f_name fs) -> Forall2 P fs vs ->
  (forall f v, f_name f <> key -> P f v -> Q f v) -> (forall f, f ∈ fs -> f_name f = key -> Q f w) ->
  Forall2 Q fs (set_field fs key w vs).
Proof.
  intros Hn Hp Hne. revert Hn. induction Hp as [|f v fs vs Hfv Hp IH]; intros Hn Heq; [constructor|].
  cbn [map] in Hn. apply NoDup_cons in Hn as [Hf Hn].
  assert (Htail : Forall2 Q fs (set_field fs key w vs)) by (apply IH; [done|]; intros g Hg; apply Heq; by right).
  cbn [set_field]. case_bool_decide as Hk; [|by constructor; [apply Hne|]].
  constructor; [apply Heq; [left|done]|]. clear IH Htail Heq Hn. subst key.
  induction Hp as [|g u fs vs Hgu Hp IH]; [constructor|]. cbn [map] in Hf. apply not_elem_of_cons in Hf as [Hf1 Hf2].
  constructor; [by apply Hne|by apply IH].
Qed.

(** The mapper genmodel emits loses nothing: a struct with distinct fields and an integer
    id is what hydrating its row gives, under whatever id the table stores it. *)
Theorem emitted_mapper_faithful m vs id : plain_model m -> values_of m vs ->
  hydrate (mapper_of m) (to_row (mapper_of m) vs) = Ok vs /\
  hydrate (mapper_of m) (set_cell "id" (VInt id) (delete "id" (to_row (mapper_of m) vs))) = Ok (set_id (mapper_of m) id vs).
Proof.
  intros [Hn Hid] Hv. cbn [hydrate to_row set_id mapper_of]. unfold fields_row, values_of in *.
  destruct (fields_row_at (fields m) vs Hn Hv ∅) as [Hr _]. split; [by apply hydrate_at|].
  apply hydrate_at. eapply set_field_Forall2; [done|exact Hr| |].
  - intros f v Hf [Ht Hl]. split; [done|]. rewrite lookup_set_cell_ne by done. etrans; [by apply lookup_delete_ne|exact Hl].
  - intros f Hf Hname. rewrite (same_field (fields m) f _ Hn Hf Hid Hname). split; [done|]. apply lookup_insert_eq.
Qed.

(** demo_model.hpp as libclang presents it, and the driver: what it prints and its code. *)
Definition member (name ty : string) : Tree := mkTree CXCursor_FieldDecl name true true (mkTy ty []) [] [].
Definition demo_tree : Tree :=
  mkTree CXCursor_Other "demo_model.hpp" false false (mkTy "" []) [] [
    mkTree CXCursor_StructDecl "Widget" true true (mkTy "Widget" []) [] [
      member "id" "std::int64_t"; member "name" "std::string"; member "active" "bool"; member "quantity" "std::int64_t"]].
Definition demo_models : list Model := visitChildren tree_clang demo_tree (visit_top tree_clang) [].
Definition Widget : Model := hd (mkModel "" []) demo_models.
Definition demo_driver : M Memory (string * Z) :=
  w ← repo_insert MemoryConnection (mapper_of Widget) [VInt 0; VStr "generated"; VBool true; VInt 5];
  got ← repo_find MemoryConnection (mapper_of Widget) (model_id (mapper_of Widget) w);
  q ← lift_res (where_eq "active" (VBool true) empty_query);
  active ← get MemoryConnection (mapper_of Widget) q;
  let ok := (0 <? model_id (mapper_of Widget) w) &&
    match got with
    | Some g => bool_decide (field_value (fields Widget) "name" g = VStr "generated") &&
                bool_decide (field_value (fields Widget) "quantity" g = VInt 5) && (length active =? 1)%nat
    | None => false
    end in
  mret ("codegen_demo: id=" +:+ to_string (model_id (mapper_of Widget) w) +:+ " ok=" +:+ (if ok then "1" else "0") +:+ lf,
        if ok then 0 else 1).
Example demo_works : (demo_driver empty_memory).1 = Ok ("codegen_demo: id=1 ok=1" +:+ lf, 0).
Proof. by vm_compute. Qed.

Lemma emitted_mapper_faithful_witness :
  let w := [VInt 0; VStr "generated"; VBool true; VInt 5] in
  hydrate (mapper_of Widget) (to_row (mapper_of Widget) w) = Ok w /\
  hydrate (mapper_of Widget) (set_cell "id" (VInt 7) (delete "id" (to_row (mapper_of Widget) w))) =
    Ok [VInt 7; VStr "generated"; VBool true; VInt 5].
Proof.
  apply (emitted_mapper_faithful Widget [VInt 0; VStr "generated"; VBool true; VInt 5] 7).
  - split; by by_eval.
  - repeat constructor.
Defined.
Lemma genmodel_writes_witness :
  let parse (header : string) (args : list string) := Some demo_tree in
  exists all, preorder tree_children (tree_children demo_tree) all /\
    let o := genmodel_main tree_clang parse (fun _ => true) ["demo_model.hpp"; "-o"; "widget.gen.hpp"] in
    exit_code o = 0 /\ written o = Some ("widget.gen.hpp", emit "demo_model.hpp" (omap (model_of tree_clang tree_children) all)).
Proof.
  apply (genmodel_writes tree_clang tree_children (fun _ _ => Some demo_tree) (fun _ => true)
    ["demo_model.hpp"; "-o"; "widget.gen.hpp"] demo_tree); by vm_compute.
Defined.
