(* ===== verification/LivewireClient.v ===== *)
(** * examples/blog/app/livewire_client.hpp: the browser side of a component

    The script the application serves patches the page in place with what the server
    answers.  The DOM is a tree of nodes with their identity: a node that was in the page
    has one, a node the script made by cloning has none yet.  What JavaScript throws is an
    exception of the model; the focused element is a parameter.  An inline style holds
    nothing but what the script writes there. *)
From S2P Require Import Prelude CppString CppNum Livewire.

Inductive Node : Type :=
  | Element (id : option nat) (tag : string) (attrs : gmap string string) (value : string) (kids : list Node)
  | Text (id : option nat) (data : string)
  | Comment (id : option nat) (data : string).
Definition childNodes (n : Node) : list Node := match n with Element _ _ _ _ kids => kids | _ => [] end.
Definition attributes (n : Node) : gmap string string := match n with Element _ _ a _ _ => a | _ => ∅ end.
Definition node_id (n : Node) : option nat := match n with Element i _ _ _ _ | Text i _ | Comment i _ => i end.
Definition hasAttribute (name : string) (n : Node) : bool := bool_decide (is_Some (attributes n !! name)).
Definition is_element (n : Node) : bool := match n with Element _ _ _ _ _ => true | _ => false end.

(** [cloneNode(true)]: new nodes, an input's value that of its attribute. *)
Fixpoint cloneNode (n : Node) : Node :=
  match n with
  | Element _ t a _ kids => Element None t a (default "" (a !! "value")) (map cloneNode kids)
  | Text _ d => Text None d
  | Comment _ d => Comment None d
  end.

Definition TypeError : exn := StdExn "TypeError".
(** The names an empty object literal answers to all the same. *)
Definition proto_member (key : string) : bool :=
  bool_decide (key ∈ ["constructor"; "toString"; "valueOf"; "hasOwnProperty"; "isPrototypeOf"; "propertyIsEnumerable";
    "toLocaleString"; "__proto__"; "__defineGetter__"; "__defineSetter__"; "__lookupGetter__"; "__lookupSetter__"]).

Section morph.
(** [document.activeElement]. *)
Variable active : option nat.

(** The attributes the new element lacks go, the others are set where they differ. *)
Definition sync_attrs (o n : gmap string string) : gmap string string :=
  map_fold (fun k v out => if bool_decide (out !! k = Some v) then out else <[k := v]> out)
    (filter (fun kv => is_Some (n !! kv.1)) o) n.
Definition sync_value (id : option nat) (tag value : string) (n : gmap string string) : string :=
  if bool_decide (tag = "INPUT") && negb (bool_decide (is_Some id /\ id = active)) then default "" (n !! "value") else value.

(** [syncAttrs(oc, nc); reconcile(oc, nc)], unless [oc] is the root of a component. *)
Definition patch (rec : list Node -> res (list Node)) (oc nc : Node) : res Node :=
  match oc with
  | Element i t a v kids =>
      if hasAttribute "wire:id" oc then Ok oc
      else kids ← rec kids; Ok (Element i t (sync_attrs a (attributes nc)) (sync_value i t v (attributes nc)) kids)
  | _ => Throw TypeError
  end.
(** The body of the loop over the positions, when there is an old node. *)
Definition patch_at (rec : list Node -> res (list Node)) (oc nc : Node) : res Node :=
  match oc, nc with
  | Element _ t _ _ _, Element _ t' _ _ _ => if bool_decide (t <> t') then Ok (cloneNode nc) else patch rec oc nc
  | Text i _, Text _ d => Ok (Text i d)
  | Comment _ _, Comment _ _ => Throw TypeError
  | _, _ => Ok (cloneNode nc)
  end.

(** [oldByKey]: of several old children with a key the last. *)
Definition old_by_key (old : list Node) : gmap string Node :=
  fold_left (fun m c => match attributes c !! "wire:key" with Some key => <[key := c]> m | None => m end) old ∅.
(** [key ? oldByKey[key] : null], with the key when there is a node. *)
Definition find_old (nc : Node) (m : gmap string Node) : res (option (string * Node)) :=
  match attributes nc !! "wire:key" with
  | None => Ok None
  | Some key =>
      if bool_decide (key = "") then Ok None
      else match m !! key with
           | Some oc => Ok (Some (key, oc))
           | None => if proto_member key then Throw TypeError else Ok None
           end
  end.

(** The two loops over the new children; [rec nc kids] reconciles the children of an old
    node with those of [nc]. *)
Section loops.
Variable rec : Node -> list Node -> res (list Node).
Fixpoint positions (n old : list Node) : res (list Node) :=
  match n, old with
  | [], _ => Ok []
  | nc :: n, [] => rest ← positions n []; Ok (cloneNode nc :: rest)
  | nc :: n, oc :: old => c ← patch_at (rec nc) oc nc; rest ← positions n old; Ok (c :: rest)
  end.
Fixpoint reconcileKeyed (n : list Node) (byKey : gmap string Node) : res (list Node) :=
  match n with
  | [] => Ok []
  | nc :: n =>
      if negb (is_element nc) then reconcileKeyed n byKey
      else
        found ← find_old nc byKey;
        match found with
        | Some (key, oc) => c ← patch (rec nc) oc nc; rest ← reconcileKeyed n (delete key byKey); Ok (c :: rest)
        | None => rest ← reconcileKeyed n byKey; Ok (cloneNode nc :: rest)
        end
  end.
End loops.
(** The children of the old element after [reconcile(oldEl, newEl)]. *)
Fixpoint reconcile (newEl : Node) (old : list Node) : res (list Node) :=
  match newEl with
  | Element _ _ _ _ n =>
      if existsb (hasAttribute "wire:key") n then reconcileKeyed reconcile n (old_by_key old)
      else positions reconcile n old
  | _ => Ok []
  end.
Definition morph (rootEl tmp : Node) : res Node :=
  match rootEl with
  | Element i t a v kids => kids ← reconcile tmp kids; Ok (Element i t a v kids)
  | _ => Ok rootEl
  end.
End morph.

(** ** The indicators *)
Definition hidden : string := "display: none;".
Definition display (on : bool) (n : Node) : Node :=
  match n with
  | Element i t a v kids =>
      Element i t (if on then (if bool_decide (a !! "style" = Some hidden) then <["style" := ""]> a else a)
                   else <["style" := hidden]> a) v kids
  | _ => n
  end.
(** [root.querySelectorAll('[wire:loading]')]: the descendants, the root not among them. *)
Fixpoint each_loading (f : Node -> Node) (n : Node) : Node :=
  match n with
  | Element i t a v kids => if hasAttribute "wire:loading" n then f (Element i t a v (map (each_loading f) kids))
                            else Element i t a v (map (each_loading f) kids)
  | _ => n
  end.
Definition on_loading (f : Node -> Node) (root : Node) : Node :=
  match root with Element i t a v kids => Element i t a v (map (each_loading f) kids) | _ => root end.
Definition setLoading (on : bool) (action : string) (root : Node) : Node :=
  on_loading (fun el =>
    let target := default "" (attributes el !! "wire:target") in
    if bool_decide (target = "") || bool_decide (target = action) then display on el else el) root.
Definition hideLoading (root : Node) : Node := on_loading (display false) root.

(** [post]: what the page is once the promises have run.  The answer is the new state's text
    and the parsed page, or nothing when the request failed; a morph that throws has left
    the page as [broken] says. *)
Definition setState (text : string) (n : Node) : Node :=
  match n with Element i t a v kids => Element i t (<["wire:state" := text]> a) v kids | _ => n end.
Definition after_post (active : option nat) (broken : Node -> Node) (action : string) (answer : option (string * Node)) (root : Node) : Node :=
  let root := setLoading true action root in
  match answer with
  | None => setLoading false action root
  | Some (state, tmp) =>
      let root := setState state root in
      match morph active root tmp with
      | Ok root => setLoading false action root
      | Throw _ => setLoading false action (broken root)
      end
  end.

(** ** Events *)
Definition word_char (c : ascii) : bool := is_digit c || is_upper c || is_lower c || is_char "_" c.
Definition line_end (c : ascii) : bool := bool_decide (byte_of c = 10%Z) || bool_decide (byte_of c = 13%Z).
Fixpoint word_prefix (s : string) : string :=
  match s with String c s => if word_char c then String c (word_prefix s) else "" | "" => "" end.
(** /^(\w+)(?:\((.* )\))?$/ with an empty argument when the group is absent; a text it does
    not match makes the handler throw. *)
Definition parse_click (s : string) : res (string * string) :=
  let name := word_prefix s in
  let rest := s_drop (len name) s in
  if bool_decide (name = "") then Throw TypeError
  else if bool_decide (rest = "") then Ok (name, "")
  else match rest with
       | String "(" arg =>
           let inner := s_take (len arg - 1) arg in
           if bool_decide (arg = inner +:+ ")") && forallb (fun c => negb (line_end c)) (chars inner)
           then Ok (name, inner) else Throw TypeError
       | _ => Throw TypeError
       end.
(** What a click on a button of the component, and what typing in a bound input, posts. *)
Definition on_click (component : string) (state : gmap string string) (wire_click : string) : res UpdateRequest :=
  call ← parse_click wire_click; Ok (mkUpdateRequest component call.1 call.2 state).
Definition on_input (component : string) (state : gmap string string) (wire_model value : string) : UpdateRequest :=
  mkUpdateRequest component "$refresh" "" (<[wire_model := value]> state).

(** ** What the page is after a morph *)
Lemma Node_nested (P : Node -> Prop) :
  (forall i t a v kids, Forall P kids -> P (Element i t a v kids)) -> (forall i d, P (Text i d)) -> (forall i d, P (Comment i d)) ->
  forall n, P n.
Proof.
  intros HE HT HC. fix IH 1. intros [i t a v kids|i d|i d]; [|apply HT|apply HC]. apply HE.
  induction kids as [|n kids IHk]; constructor; [apply IH|exact IHk].
Qed.

(** What a node shows: its tags, attributes and text; not which node it is, nor what was
    typed into it. *)
Fixpoint shape (n : Node) : Node :=
  match n with
  | Element _ t a _ kids => Element None t a "" (map shape kids)
  | Text _ d => Text None d
  | Comment _ d => Comment None d
  end.

Lemma shape_clone n : shape (cloneNode n) = shape n.
Proof.
  induction n as [i t a v kids IH| |] using Node_nested; [|done|done]. cbn [cloneNode shape]. f_equal. rewrite map_map.
  induction IH as [|n kids Hn _ IH]; [done|]. cbn [map]. by rewrite Hn, IH.
Qed.

Lemma sync_attrs_new o n : sync_attrs o n = n.
Proof.
  unfold sync_attrs. set (kept := filter _ o).
  assert (Hkept : forall k, is_Some (kept !! k) -> is_Some (n !! k)).
  { intros k [v Hv]. by apply map_lookup_filter_Some in Hv as [_ Hv]. }
  assert (H : forall k, map_fold (fun k v out => if bool_decide (out !! k = Some v) then out else <[k := v]> out) kept n !! k =
    match n !! k with Some v => Some v | None => kept !! k end).
  { apply (map_fold_weak_ind (fun out m => forall k, out !! k = match m !! k with Some v => Some v | None => kept !! k end)).
    - intros k. by rewrite lookup_empty.
    - intros i v m out _ IH k. destruct (decide (i = k)) as [<-|Hne].
      + rewrite lookup_insert_eq. case_bool_decide; [done|apply lookup_insert_eq].
      + rewrite lookup_insert_ne by done. case_bool_decide; [apply IH|]. rewrite lookup_insert_ne by done. apply IH. }
  apply map_eq. intros k. rewrite H. destruct (n !! k) as [v|] eqn:E; [done|].
  destruct (kept !! k) as [v|] eqn:Ek; [|done]. destruct (Hkept k) as [w Hw]; [by eexists|]. congruence.
Qed.

Section outcome.
Variable active : option nat.
(** Keys tell tags: two nodes with one key have one tag. *)
Variable tag_of : string -> string.

Definition tag_ok (n : Node) : bool :=
  match n with
  | Element _ t a _ _ => match a !! "wire:key" with Some key => bool_decide (tag_of key = t) | None => true end
  | _ => true
  end.
(** A page: no comments; siblings one of which has a key are all elements, none with a key
    every object answers to. *)
Fixpoint page_ok (n : Node) : bool :=
  match n with
  | Element _ _ _ _ kids =>
      tag_ok n && forallb page_ok kids &&
      (if existsb (hasAttribute "wire:key") kids
       then forallb (fun c => is_element c && negb (proto_member (default "" (attributes c !! "wire:key")))) kids else true)
  | Text _ _ => true
  | Comment _ _ => false
  end.
(** What is patched: no component inside. *)
Fixpoint flat (n : Node) : bool :=
  match n with
  | Element _ _ _ _ kids => tag_ok n && negb (hasAttribute "wire:id" n) && forallb flat kids
  | _ => true
  end.

Lemma old_by_key_spec old key oc : old_by_key old !! key = Some oc -> oc ∈ old /\ attributes oc !! "wire:key" = Some key.
Proof.
  unfold old_by_key. assert (H : forall m : gmap string Node,
    fold_left (fun m c => match attributes c !! "wire:key" with Some key => <[key := c]> m | None => m end) old m !! key = Some oc ->
    m !! key = Some oc \/ (oc ∈ old /\ attributes oc !! "wire:key" = Some key)).
  { induction old as [|c old IH]; intros m Hm; [by left|]. cbn [fold_left] in Hm. apply IH in Hm as [Hm|[Hin Hk]]; [|right; by split; [right|]].
    destruct (attributes c !! "wire:key") as [k|] eqn:E; [|by left]. destruct (decide (k = key)) as [->|Hne].
    - rewrite lookup_insert_eq in Hm. injection Hm as ->. right. by split; [left|].
    - rewrite lookup_insert_ne in Hm by done. by left. }
  intros Hm. apply H in Hm as [Hm|Hm]; [by rewrite lookup_empty in Hm|done].
Qed.

(** The outcome for one new node: whatever flat children are below, they come to show its. *)
Definition reaches (nc : Node) : Prop := page_ok nc = true -> is_element nc = true -> forall old, forallb flat old = true ->
  exists kids, reconcile active nc old = Ok kids /\ map shape kids = map shape (childNodes nc).

Lemma patch_shape nc oc : reaches nc -> page_ok nc = true -> flat oc = true -> is_element nc = true -> is_element oc = true ->
  (forall t t' i i' a a' v v' k k', oc = Element i t a v k -> nc = Element i' t' a' v' k' -> t = t') ->
  exists c, patch active (reconcile active nc) oc nc = Ok c /\ shape c = shape nc.
Proof.
  intros Hr Hp Hf He Ho Ht. destruct oc as [i t a v kids| |]; try discriminate Ho. destruct nc as [i' t' a' v' kids'| |]; try discriminate He.
  cbn [flat] in Hf. apply andb_true_iff in Hf as [[_ Hid]%andb_true_iff Hk]. unfold patch. apply negb_true_iff in Hid.
  change (hasAttribute "wire:id" (Element i t a v kids)) with (hasAttribute "wire:id" (Element i t a v kids)) in Hid. rewrite Hid.
  destruct (Hr Hp eq_refl kids Hk) as (ks & E & Hs). rewrite E. eexists. split; [reflexivity|].
  cbn [shape attributes childNodes] in *. rewrite sync_attrs_new, Hs. by rewrite (Ht t t' i i' a a' v v' kids kids' eq_refl eq_refl).
Qed.

Lemma positions_shape n old : Forall reaches n -> forallb page_ok n = true -> forallb flat old = true ->
  exists kids, positions active (reconcile active) n old = Ok kids /\ map shape kids = map shape n.
Proof.
  intros Hr. revert old. induction Hr as [|nc n Hnc _ IH]; intros old Hp Hf; [by exists []|].
  cbn [forallb] in Hp. apply andb_true_iff in Hp as [Hp1 Hp]. destruct old as [|oc old].
  - destruct (IH [] Hp eq_refl) as (ks & E & Hs). cbn [positions]. rewrite E. eexists. split; [reflexivity|].
    cbn [map]. by rewrite shape_clone, Hs.
  - cbn [forallb] in Hf. apply andb_true_iff in Hf as [Hf1 Hf]. destruct (IH old Hp Hf) as (ks & E & Hs).
    assert (Hc : exists c, patch_at active (reconcile active nc) oc nc = Ok c /\ shape c = shape nc).
    { unfold patch_at. destruct oc as [i t a v k|i d|i d], nc as [i' t' a' v' k'|i' d'|i' d']; try discriminate Hp1;
        try (eexists; split; [reflexivity|]; by rewrite ?shape_clone).
      case_bool_decide as Ht; [eexists; split; [reflexivity|]; apply shape_clone|]. apply patch_shape; try done.
      intros ? ? ? ? ? ? ? ? ? ? [= <- <- <- <- <-] [= <- <- <- <- <-]. exact Ht. }
    destruct Hc as (c & Ec & Hc). cbn [positions]. rewrite Ec. cbn [mbind res_bind]. rewrite E. eexists. split; [reflexivity|].
    cbn [map]. by rewrite Hc, Hs.
Qed.

(** The map of old children while the keyed loop runs. *)
Definition map_ok (m : gmap string Node) : Prop :=
  forall key oc, m !! key = Some oc -> flat oc = true /\ attributes oc !! "wire:key" = Some key.
Lemma keyed_shape n m : Forall reaches n -> forallb page_ok n = true ->
  forallb (fun c => is_element c && negb (proto_member (default "" (attributes c !! "wire:key")))) n = true -> map_ok m ->
  exists kids, reconcileKeyed active (reconcile active) n m = Ok kids /\ map shape kids = map shape n.
Proof.
  intros Hr. revert m. induction Hr as [|nc n Hnc _ IH]; intros m Hp Hk Hm; [by exists []|].
  cbn [forallb] in Hp, Hk. apply andb_true_iff in Hp as [Hp1 Hp]. apply andb_true_iff in Hk as [[He Hpm]%andb_true_iff Hk].
  cbn [reconcileKeyed]. rewrite He. cbn [negb].
  assert (Hclone : exists kids, (rest ← reconcileKeyed active (reconcile active) n m; Ok (cloneNode nc :: rest)) = Ok kids /\
    map shape kids = map shape (nc :: n)).
  { destruct (IH m Hp Hk Hm) as (ks & E & Hs). rewrite E. eexists. split; [reflexivity|]. cbn [map]. by rewrite shape_clone, Hs. }
  unfold find_old. destruct (attributes nc !! "wire:key") as [key|] eqn:Ekey; [|exact Hclone].
  case_bool_decide as Hempty; [exact Hclone|]. destruct (m !! key) as [oc|] eqn:Eoc.
  - destruct (Hm key oc Eoc) as [Hf Hok]. cbn [mbind res_bind].
    destruct (patch_shape nc oc) as (c & Ec & Hc); [exact Hnc|exact Hp1|exact Hf|exact He|by destruct oc| |].
    { intros t t' i i' a a' v v' k k' -> ->. cbn [flat page_ok tag_ok attributes] in *. rewrite Hok in Hf. rewrite Ekey in Hp1. bools. congruence. }
    destruct (IH (delete key m) Hp Hk) as (ks & E & Hs); [intros k o Ho; apply lookup_delete_Some in Ho as [_ Ho]; by apply Hm|].
    rewrite Ec. cbn [mbind res_bind]. rewrite E. eexists. split; [reflexivity|]. cbn [map]. by rewrite Hc, Hs.
  - cbn [default from_option id] in Hpm. apply negb_true_iff in Hpm. rewrite Hpm. exact Hclone.
Qed.

Lemma reconcile_reaches nc : reaches nc.
Proof.
  induction nc as [i t a v kids IH|i d|i d] using Node_nested; intros Hp He old Hf; try discriminate He.
  cbn [page_ok] in Hp. apply andb_true_iff in Hp as [[_ Hk]%andb_true_iff Hkey]. cbn [reconcile childNodes].
  destruct (existsb (hasAttribute "wire:key") kids); [|by apply positions_shape].
  apply keyed_shape; [done|done|done|]. intros key oc Hoc. apply old_by_key_spec in Hoc as [Hin Hoc]. split; [|done].
  rewrite forallb_forall in Hf. apply Hf. by apply list_elem_of_In.
Qed.

(** C37: After a morph the element shows the page the server answered: the same tags,
    attributes and text in the same order, wherever the old nodes could be kept. *)
Theorem morph_shows_page root tmp : page_ok tmp = true -> is_element tmp = true -> is_element root = true ->
  forallb flat (childNodes root) = true ->
  exists root', morph active root tmp = Ok root' /\ node_id root' = node_id root /\ attributes root' = attributes root /\
    map shape (childNodes root') = map shape (childNodes tmp).
Proof.
  intros Hp He Hr Hf. destruct root as [i t a v kids| |]; try discriminate Hr.
  destruct (reconcile_reaches tmp Hp He kids Hf) as (ks & E & Hs). exists (Element i t a v ks). unfold morph. by rewrite E.
Qed.
End outcome.

(** ** Which nodes stay *)
(** Keyed siblings keep their node across any reordering, insertion and removal. *)
Definition key_of (n : Node) : string := default "" (attributes n !! "wire:key").
Definition kept_id (m : gmap string Node) (nc : Node) : option nat := match m !! key_of nc with Some oc => node_id oc | None => None end.

Lemma patch_id active rec oc nc c : patch active rec oc nc = Ok c -> node_id c = node_id oc.
Proof.
  unfold patch. destruct oc as [i t a v kids| |]; try done. destruct (hasAttribute _ _); [by intros [= <-]|].
  destruct (rec kids); cbn; [by intros [= <-]|done].
Qed.
Lemma clone_id n : node_id (cloneNode n) = None.
Proof. by destruct n. Qed.
Lemma keyed_keep active rec n m kids : NoDup (map key_of n) -> Forall (fun c => is_element c = true /\ key_of c <> "") n ->
  reconcileKeyed active rec n m = Ok kids -> Forall2 (fun nc c => node_id c = kept_id m nc) n kids.
Proof.
  revert m kids. induction n as [|nc n IH]; intros m kids Hn He Hk; cbn [reconcileKeyed] in Hk; [injection Hk as <-; constructor|].
  apply Forall_cons in He as [[He Hne] Hes]. cbn [map] in Hn. apply NoDup_cons in Hn as [Hnc Hn]. rewrite He in Hk. cbn [negb] in Hk.
  assert (Hkey : attributes nc !! "wire:key" = Some (key_of nc)).
  { unfold key_of in *. destruct (attributes nc !! "wire:key"); [done|by destruct Hne]. }
  unfold find_old in Hk. rewrite Hkey, bool_decide_eq_false_2 in Hk by done. unfold kept_id at 1. destruct (m !! key_of nc) as [oc|] eqn:Eoc.
  - cbn [mbind res_bind] in Hk. destruct (patch active (rec nc) oc nc) as [c|] eqn:Ec; [|discriminate Hk]. cbn [mbind res_bind] in Hk.
    destruct (reconcileKeyed active rec n (delete (key_of nc) m)) as [ks|] eqn:Ek; [|discriminate Hk]. injection Hk as <-.
    constructor; [unfold kept_id; rewrite Eoc; by eapply patch_id|]. pose proof (IH _ _ Hn Hes Ek) as Hi.
    assert (Hsame : Forall (fun x => kept_id (delete (key_of nc) m) x = kept_id m x) n).
    { apply Forall_forall. intros x Hx. unfold kept_id. rewrite lookup_delete_ne; [done|]. intros E. apply Hnc. rewrite E.
      apply list_elem_of_In, in_map, list_elem_of_In, Hx. }
    clear -Hi Hsame. induction Hi as [|x c n ks Hx _ IH]; [constructor|]. apply Forall_cons in Hsame as [Hs Hsame].
    constructor; [by rewrite Hx|by apply IH].
  - destruct (proto_member _); [discriminate Hk|]. cbn [mbind res_bind] in Hk.
    destruct (reconcileKeyed active rec n m) as [ks|] eqn:Ek; [|discriminate Hk]. injection Hk as <-.
    constructor; [unfold kept_id; rewrite Eoc; apply clone_id|]. by apply IH.
Qed.
Lemma keyed_siblings_keep_nodes active i t a v n old kids : NoDup (map key_of n) -> n <> [] ->
  Forall (fun c => is_element c = true /\ key_of c <> "") n ->
  reconcile active (Element i t a v n) old = Ok kids -> Forall2 (fun nc c => node_id c = kept_id (old_by_key old) nc) n kids.
Proof.
  intros Hn Hne He. cbn [reconcile]. assert (existsb (hasAttribute "wire:key") n = true) as ->; [|by apply keyed_keep].
  destruct n as [|c n]; [done|]. apply Forall_cons in He as [[_ Hk] _]. cbn [existsb].
  unfold hasAttribute, key_of in *. rewrite bool_decide_eq_true_2; [done|]. destruct (attributes c !! "wire:key"); [by eexists|by destruct Hk].
Qed.
(** A nested component at its place is left as it is, with everything below it. *)
Lemma nested_component_stays active rec i t a v kids i' a' v' kids' : is_Some (a !! "wire:id") ->
  patch_at active rec (Element i t a v kids) (Element i' t a' v' kids') = Ok (Element i t a v kids).
Proof.
  intros Hid. unfold patch_at. rewrite bool_decide_eq_false_2 by (intros Hn; by apply Hn). unfold patch, hasAttribute.
  cbn [attributes]. by rewrite bool_decide_eq_true_2.
Qed.

(** A call as a template writes it is what is posted. *)
Lemma word_prefix_app s t : s_all word_char s -> match t with String c _ => word_char c = false | "" => True end ->
  word_prefix (s +:+ t) = s.
Proof.
  intros Hs Ht. induction s as [|c s IH].
  - rewrite s_app_nil_l. destruct t as [|c t]; [done|]. cbn [word_prefix]. by rewrite Ht.
  - apply s_all_cons in Hs as [Hc Hs]. rewrite s_app_cons. cbn [word_prefix]. by rewrite Hc, IH.
Qed.
Lemma parse_click_call name arg : name <> "" -> s_all word_char name -> s_all (fun c => negb (line_end c)) arg ->
  parse_click (name +:+ "(" +:+ arg +:+ ")") = Ok (name, arg) /\ parse_click name = Ok (name, "").
Proof.
  intros Hne Hn Ha. split; unfold parse_click.
  - rewrite word_prefix_app, bool_decide_eq_false_2, s_drop_app by done. rewrite bool_decide_eq_false_2 by done.
    change ("(" +:+ arg +:+ ")") with (String "(" (arg +:+ ")")). cbv iota beta zeta.
    replace (len (arg +:+ ")") - 1) with (len arg) by (rewrite length_s_app; cbn; lia).
    rewrite s_take_app, bool_decide_eq_true_2 by done. unfold s_all in Ha. rewrite Forall_forall in Ha.
    assert (forallb (fun c => negb (line_end c)) (chars arg) = true) as ->; [|done].
    apply forallb_forall. intros c Hc. apply Ha. by apply list_elem_of_In.
  - assert (E : word_prefix name = name) by (rewrite <- (s_app_nil_r name) at 1; by apply word_prefix_app).
    by rewrite E, bool_decide_eq_false_2, s_drop_ge, bool_decide_eq_true_2.
Qed.

(** ** The counter's page, and where the script falls short *)
Definition el (i : nat) (t : string) (a : list (string * string)) (kids : list Node) : Node := Element (Some i) t (list_to_map a) "" kids.
Definition counter_nodes (count : string) : list Node := [
  el 1 "SPAN" [] [Text (Some 2) ("Count: " +:+ count)]; Text (Some 3) " ";
  el 4 "BUTTON" [("wire:click", "decrement")] [Text (Some 5) "-"]; Text (Some 6) " ";
  el 7 "BUTTON" [("wire:click", "increment")] [Text (Some 8) "+"];
  el 9 "SPAN" [("wire:loading", "")] [Text (Some 10) "updating…"];
  el 11 "SPAN" [("wire:loading", ""); ("wire:target", "increment")] [Text (Some 12) "+1…"]].
Definition counter_root (count : string) : Node := el 0 "DIV" [("wire:id", "counter")] (counter_nodes count).
Definition tmp_div (kids : list Node) : Node := Element None "DIV" ∅ "" (map cloneNode kids).

Lemma morph_shows_page_witness :
  exists root', morph None (counter_root "41") (tmp_div (counter_nodes "42")) = Ok root' /\
    map shape (childNodes root') = map shape (counter_nodes "42").
Proof.
  destruct (morph_shows_page None (fun _ => "LI") (counter_root "41") (tmp_div (counter_nodes "42"))) as (r & E & _ & _ & Hs);
    [by vm_compute|by vm_compute|by vm_compute|by vm_compute|]. exists r. split; [exact E|]. rewrite Hs. by vm_compute.
Defined.

(** An indicator with a target is hidden through its style, which the morph removes, and is
    only hidden again when its own action ends: after a click on "-" the "+1…" stays. *)
Lemma indicator_stays_visible :
  let page := after_post None id "decrement" (Some ("{}", tmp_div (counter_nodes "40"))) (hideLoading (counter_root "41")) in
  (fun n => attributes n !! "style") <$> childNodes (hideLoading (counter_root "41")) !! 6 = Some (Some hidden) /\
  (fun n => attributes n !! "style") <$> childNodes page !! 5 = Some (Some hidden) /\
  (fun n => attributes n !! "style") <$> childNodes page !! 6 = Some None.
Proof. by vm_compute. Qed.
(** Text beside keyed siblings is dropped, not only white space. *)
Lemma text_beside_keys_is_dropped :
  morph None (el 0 "UL" [] []) (tmp_div [Text None "Items: "; el 1 "LI" [("wire:key", "a")] []]) =
  Ok (el 0 "UL" [] [Element None "LI" {["wire:key" := "a"]} "" []]).
Proof. by vm_compute. Qed.
(** A keyed node keeps its tag when the page has another for its key. *)
Lemma keyed_node_keeps_its_tag :
  morph None (el 0 "DIV" [] [el 1 "LI" [("wire:key", "a")] []]) (tmp_div [el 2 "P" [("wire:key", "a")] []]) =
  Ok (el 0 "DIV" [] [el 1 "LI" [("wire:key", "a")] []]).
Proof. by vm_compute. Qed.
(** Two comments at one position: the script reads the attributes of a node that has none. *)
Lemma comment_stops_the_morph :
  morph None (el 0 "DIV" [] [Comment (Some 1) "x"; Text (Some 2) "old"]) (tmp_div [Comment None "x"; Text None "new"]) = Throw TypeError.
Proof. by vm_compute. Qed.
