(* ===== verification/CocoMain.v ===== *)
(** * examples/coco-web/main.cpp

    The entry point of the coco-web demo: port and secret, the application of CocoWeb.v
    behind a server, and the terminal endpoint, which greets a browser and echoes its
    lines.  The terminal is shown to end for every peer, and to answer every line once and
    in order, from the upgrade request on the socket to the close frame. *)
From S2P Require Import Prelude CppString CppNum Database Token StaticFiles Router Kernel Pipeline Base64 Websocket Http HttpServer WsServer CocoWeb CocoWire.

Local Open Scope Z_scope.

(** ** The handler of /terminal *)
Definition greeting : string :=
  "coco-web terminal - type a line and press Enter." +:+ crlf +:+ "> ".
Definition said (line : string) : string := "you said: " +:+ line +:+ crlf +:+ "> ".
Definition echo (c : Connection) (line : string) : Connection := (send_binary (said line) c).2.

Section terminal.
Variable sha1 : string -> string.

(** [None] is fuel running out ([terminal_ends]: it does not). *)
Definition terminal (c : Connection) : option (res unit * Connection) :=
  let '(ok, c) := handshake sha1 c in
  if negb ok then Some (Ok tt, close c)
  else
    let c := (send_binary greeting c).2 in
    match run_terminal (S (len (stream c))) echo c with
    | Some (Ok _, c) => Some (Ok tt, close c)
    | r => r
    end.
End terminal.

(** ** main *)
Section main.
Context (canonical : string -> option string) (regular : string -> option (string * Z)) (sha256 : string -> string)
  `{MapOrder string} (public_dir : string).

(** [argv] without the program's name; [COCO_WEB_SECRET] from the environment. *)
Definition port_of (args : list string) : Z := match args with a :: _ => atoi a | [] => 8080 end.
Definition secret_of (env : option string) : string := default "demo-secret-change-me" env.
Definition banner (port : Z) : string :=
  "coco-web on http://127.0.0.1:" +:+ to_string port +:+ lf
  +:+ "  GET  /                    -> index.html (static)" +:+ lf
  +:+ "  GET  /assets/<file>       -> static asset (correct MIME, incl. .wasm)" +:+ lf
  +:+ "  GET  /api/items[?limit=N] -> JSON list (ORM)" +:+ lf
  +:+ "  POST /api/items           -> create (needs a token with 'items:write')" +:+ lf
  +:+ "  WS   /terminal            -> byte terminal (open /assets/terminal.html)" +:+ lf.

(** What [main] sets up before [serve(4)]: what it prints, the server and its database.
    The endpoint gets the socket, not the application's state ([terminal] is what it does
    there). *)
Definition main (args : list string) (env : option string) : res (string * HttpServer Coco * Memory) :=
  '(k, db) ← coco_bootstrap canonical regular sha256 public_dir (secret_of env);
  mret (banner (port_of args), on_websocket "/terminal" (fun _ w => w) (new_http_server (handle k)), db).

Definition terminal_server (secret : string) : HttpServer Coco :=
  on_websocket "/terminal" (fun _ w => w)
    (new_http_server (handle (coco_kernel canonical regular sha256 public_dir secret))).

Lemma main_starts args env :
  main args env = Ok (banner (port_of args), terminal_server (secret_of env), seed).
Proof. unfold main. by rewrite coco_boots. Qed.
End main.

(** ** The terminal ends, whatever the peer sends *)
Lemma conn_send_fd out c : fd_ (conn_send out c).2 = fd_ c.
Proof. unfold conn_send. by destruct (send_all _ _). Qed.

Lemma conn_send_whole out c :
  Forall (fun n => 0 < n) (c_sends c) -> (len out <= length (c_sends c))%nat -> (conn_send out c).1 = true.
Proof.
  intros H0 H1. unfold conn_send. pose proof (send_all_full _ out H0 H1) as E.
  destruct (send_all _ _) as [sent rest]. cbn [fst] in *. subst sent. by apply bool_decide_eq_true_2.
Qed.

Lemma echo_input c m : same_input c (echo c m).
Proof. apply conn_send_spec. Qed.

Lemma terminal_loop_ends fuel c :
  0 <= max_message_bytes_ c < max_size -> (len (stream c) < fuel)%nat ->
  exists c', run_terminal fuel echo c = Some (Ok tt, c').
Proof.
  revert c. induction fuel as [|fuel IH]; intros c Hm Hf; [lia|]. cbn [run_terminal].
  destruct (receive_total c Hm) as (r & c' & Hr & Hmax & Hlen). rewrite Hr.
  destruct r as [m|]; [|eauto]. destruct (echo_input c' m) as (S1 & _ & S3 & _).
  apply IH; [by rewrite S3, Hmax|]. rewrite S1. specialize (Hlen m eq_refl). lia.
Qed.

Lemma close_closed c : fd_ (close c) < 0.
Proof. unfold close. destruct (0 <=? fd_ c) eqn:E; bools; [done|lia]. Qed.

Lemma stream_close c : stream (close c) = stream c.
Proof. unfold close. by destruct (0 <=? fd_ c). Qed.
Lemma log_close c : c_log (close c) = c_log c.
Proof. unfold close. by destruct (0 <=? fd_ c). Qed.

(** Whatever a peer sends and however the sends go, the handler returns, throws nothing and
    leaves the socket closed. *)
Theorem terminal_ends sha1 (c : Connection) :
  0 <= max_message_bytes_ c < max_size ->
  exists c', terminal sha1 c = Some (Ok tt, c') /\ fd_ c' < 0.
Proof.
  intros Hm. unfold terminal. pose proof (handshake_input sha1 c) as (_ & _ & S3 & _).
  destruct (handshake sha1 c) as [ok c1]. cbn [snd] in S3.
  destruct ok; cbn [negb]; [|eexists; split; [done|apply close_closed]].
  destruct (conn_send_spec (encode_binary greeting) c1) as [(_ & _ & S3' & _) _].
  destruct (terminal_loop_ends (S (len (stream (send_binary greeting c1).2))) (send_binary greeting c1).2) as [c2 E].
  { unfold send_binary. by rewrite S3', S3. }
  { lia. }
  rewrite E. eexists. split; [done|apply close_closed].
Qed.

(** ** A session *)
(** What a browser sends: messages, each over frames of its own with control frames
    between them, and the replies those call for; then a close frame. *)
Record Line : Type := mkLine { l_frames : list Wire; l_text : string; l_replies : list string }.
Definition good_line (cap : Z) (l : Line) : Prop :=
  message false (l_frames l) (l_text l) (l_replies l) /\ size (l_text l) <= cap /\
  Forall (good_wire cap) (l_frames l).
Definition closing (key payload : string) : Wire := mkWire true 8 (Some key) payload.
Definition close_echo (payload : string) : string :=
  if 2 <=? size payload
  then encode_close_code (Z.lor (Z.shiftl (byte payload 0) 8) (byte payload 1))
  else encode_close.
(** The bytes of the session and what the terminal writes in it, after the handshake. *)
Definition frames_of (lines : list Line) (key payload : string) : list Wire :=
  concat (map l_frames lines) ++ [closing key payload].
Definition answers (lines : list Line) (payload : string) : list string :=
  concat (map (fun l => l_replies l ++ [encode_binary (said (l_text l))]) lines) ++ [close_echo payload].

(** A connection on which the lines are still to be read. *)
Record at_lines (lines : list Line) (key payload tail : string) (c : Connection) : Prop := {
  at_cap : 0 <= max_message_bytes_ c < max_size;
  at_masked : require_masked_ c = true;
  at_chunks : Forall (fun x => x ≠ "") (c_recvs c);
  at_stream : stream c = wires (frames_of lines key payload) +:+ tail }.

Lemma at_lines_same lines key payload tail c c' :
  same_input c c' -> at_lines lines key payload tail c -> at_lines lines key payload tail c'.
Proof.
  intros (S1 & S2 & S3 & S4) []. split; [by rewrite S3|by rewrite S4|by rewrite S2|by rewrite S1].
Qed.

Lemma consume_closing cap key payload :
  consume cap true "" false [closing key payload] = Some (None, [close_echo payload], []).
Proof.
  cbn [consume]. change (masked_by (w_key (closing key payload))) with true. cbn [negb andb].
  unfold on_frame, close_echo, closing, wire_frame. cbn [f_opcode w_op f_payload w_payload].
  change (opcode_of 8) with Close. cbn match. by destruct (2 <=? size payload).
Qed.

Lemma good_closing cap key payload : len key = 4%nat -> size payload <= cap -> good_wire cap (closing key payload).
Proof. intros Hk Hs. split_and!; cbn; [lia|lia|done|done]. Qed.

Lemma frames_of_cons l lines key payload :
  l_frames l ++ frames_of lines key payload = frames_of (l :: lines) key payload.
Proof. unfold frames_of. cbn [map concat]. by rewrite app_assoc. Qed.

Lemma terminal_loop_answers lines key payload tail : len key = 4%nat ->
  forall fuel c, (len (stream c) < fuel)%nat -> at_lines lines key payload tail c ->
  size payload <= max_message_bytes_ c -> Forall (good_line (max_message_bytes_ c)) lines ->
  exists c', run_terminal fuel echo c = Some (Ok tt, c') /\
    written c' = written c ++ answers lines payload /\ stream c' = tail.
Proof.
  intros Hk. induction lines as [|l lines IH]; intros fuel c Hf [Hcap Hr Hne Hs] Hp Hl;
    (destruct fuel as [|fuel]; [lia|]); cbn [run_terminal]; unfold receive.
  - destruct (receive_loop_consume [closing key payload] tail _ _ "" false _ _ _ (S (len (stream c))) c
      (proj2 Hcap) (Forall_cons_2 _ _ _ (good_closing _ key payload Hk Hp) (Forall_nil_2 _)) Hne eq_refl Hr Hs
      ltac:(lia) (consume_closing _ key payload)) as (c' & -> & Hs' & Hw & _).
    exists c'. split; [done|]. split; [exact Hw|]. by rewrite Hs'.
  - apply Forall_cons in Hl as [(Hm & Hsz & Hg) Hl].
    assert (Hws : Forall (good_wire (max_message_bytes_ c)) (frames_of (l :: lines) key payload)).
    { unfold frames_of. rewrite Forall_app. split; [|by repeat constructor; try apply good_closing].
      apply Forall_concat, Forall_map, Forall_cons. split; [done|].
      eapply Forall_impl; [exact Hl|]. by intros l' (_ & _ & ?). }
    pose proof (consume_message (max_message_bytes_ c) false (l_frames l) (l_text l) (l_replies l)
      (frames_of lines key payload) "" (proj2 Hcap) Hm ltac:(done) ltac:(done)) as Hc.
    rewrite (frames_of_cons l) in Hc.
    destruct (receive_loop_consume _ tail _ _ "" false _ _ _ (S (len (stream c))) c (proj2 Hcap) Hws Hne eq_refl
      Hr Hs ltac:(lia) Hc) as (c' & Er & Hs' & Hw & Hne' & Hm' & Hr'). rewrite Er, s_app_nil_l.
    destruct (receive_loop_progress _ _ _ _ _ _ Er) as [_ Hlt]. specialize (Hlt _ eq_refl).
    destruct (conn_send_spec (encode_binary (said (l_text l))) c') as [Hsame We].
    pose proof Hsame as (S1 & _ & S3 & _).
    destruct (IH fuel (echo c' (l_text l))) as (c'' & -> & Hw'' & Hs'').
    + unfold echo, send_binary. rewrite S1. lia.
    + apply (at_lines_same _ _ _ _ c'); [exact Hsame|]. split; [by rewrite Hm'|done..].
    + unfold echo, send_binary. by rewrite S3, Hm'.
    + unfold echo, send_binary. by rewrite S3, Hm'.
    + exists c''. split; [done|]. split; [|done]. rewrite Hw''. unfold echo, send_binary. rewrite We, Hw.
      unfold answers. cbn [map concat]. by rewrite <- !app_assoc.
Qed.

(** ** From the upgrade request on *)
Section session.
Context (canonical : string -> option string) (regular : string -> option (string * Z)) (sha256 sha1 : string -> string)
  `{MapOrder string} (public_dir secret : string).
Local Abbreviation server := (terminal_server canonical regular sha256 public_dir secret).

(** A request for the terminal is handed over, the timeout of the reader lifted; the
    bytes after it stay on the socket. *)
Lemma upgrade_handed_over q hs remote chunks rest sizes w :
  writes default_limits "GET" "/terminal" q hs "" ->
  is_websocket_upgrade (parsed "GET" "/terminal" q hs "" remote) = true ->
  Forall (fun c => c ≠ "") chunks -> s_concat chunks = request_text "GET" (with_query "/terminal" q) hs "" ->
  handle_client server remote (mkSock (chunks ++ rest) sizes []) w =
    (mkSock rest sizes [SetTimeout 30; SetTimeout 0; HandOver "/terminal"], w).
Proof.
  intros Hw Hup Hne E. pose proof (read_written _ _ _ _ _ _ rest Hw Hne E) as Hread.
  destruct Hw as [[Hm Hmc] Hp [Ht Htc] Hh _ _ _ _ _].
  unfold handle_client. cbn [server terminal_server on_websocket new_http_server limits_ read_timeout_seconds default_limits emit recvs HttpServer.sends log].
  change (0 <? 30) with true. cbn match. cbn [emit recvs HttpServer.sends log app]. change (mkLimits _ _ 30) with default_limits.
  rewrite Hread, parse_request_query by done. cbn [fmap option_fmap option_map].
  change (set_remote_addr remote _) with (parsed "GET" "/terminal" q hs "" remote).
  rewrite Hup. reflexivity.
Qed.

(** C13: The terminal of coco-web, from the socket: a client whose upgrade request arrives in
    any pieces is handed over and gets the 101 and the greeting; each of its lines, split
    into frames and pieces as the network likes and with control frames in between, is
    answered once, in order, after the replies to its pings; its close frame is echoed, the
    socket is closed, what follows on the stream is not read, and the application's state
    is the one there was. *)
Theorem terminal_session q hs remote chunks rest sizes w fd lines mask payload tail :
  let req := parsed "GET" "/terminal" q hs "" remote in
  let key := header_ci req "Sec-WebSocket-Key" in
  let cap := 1024 * 1024 in
  writes default_limits "GET" "/terminal" q hs "" -> is_websocket_upgrade req = true -> key ≠ "" ->
  Forall (fun c => c ≠ "") chunks -> s_concat chunks = request_text "GET" (with_query "/terminal" q) hs "" ->
  Forall (fun c => c ≠ "") rest -> s_concat rest = wires (frames_of lines mask payload) +:+ tail ->
  len mask = 4%nat -> size payload <= cap -> Forall (good_line cap) lines ->
  Forall (fun n => 0 < n) sizes -> (len (switching_protocols sha1 key) <= length sizes)%nat ->
  exists s, handle_client server remote (mkSock (chunks ++ rest) sizes []) w = (s, w) /\
    log s = [SetTimeout 30; SetTimeout 0; HandOver "/terminal"] /\
    exists c', terminal sha1 (new_connection fd req (recvs s) (HttpServer.sends s)) = Some (Ok tt, c') /\
      fd_ c' < 0 /\ stream c' = tail /\
      map w_out (c_log c') =
        switching_protocols sha1 key :: encode_binary greeting :: answers lines payload.
Proof.
  intros req key cap Hw Hup Hk Hne E Hne' E' Hmk Hp Hl Hsz Hlen.
  eexists. split; [by apply (upgrade_handed_over q hs)|]. split; [done|]. cbn [recvs HttpServer.sends].
  assert (Ha : at_lines lines mask payload tail (new_connection fd req rest sizes)).
  { split; [vm_compute; split; congruence|done|done|]. unfold stream. cbn [new_connection buf_ c_recvs].
    by rewrite s_app_nil_l. }
  fold req. set (c0 := new_connection fd req rest sizes) in *.
  unfold terminal, handshake. cbn [c0 new_connection client_key_ allowed_origins_].
  fold key. rewrite bool_decide_eq_false_2 by done. fold c0.
  destruct (conn_send_spec (switching_protocols sha1 key) c0) as [Hsame We].
  assert (Eok : (conn_send (switching_protocols sha1 key) c0).1 = true).
  { by apply conn_send_whole. }
  destruct (conn_send _ c0) as [ok c1]. cbn [fst snd] in *. subst ok. cbn [negb].
  destruct (conn_send_spec (encode_binary greeting) c1) as [Hsame' We'].
  fold (send_binary greeting) in Hsame', We'. set (c2 := (send_binary greeting c1).2) in *.
  assert (Ha' : at_lines lines mask payload tail c2) by (eapply at_lines_same; [done|]; by eapply at_lines_same).
  assert (Em : max_message_bytes_ c2 = cap).
  { destruct Hsame as (_ & _ & S3 & _), Hsame' as (_ & _ & S3' & _). by rewrite S3', S3. }
  destruct (terminal_loop_answers lines mask payload tail Hmk (S (len (stream c2))) c2 ltac:(lia) Ha')
    as (c3 & -> & Hw3 & Hs3); [by rewrite Em|by rewrite Em|].
  eexists. split; [done|]. split; [apply close_closed|]. split; [by rewrite stream_close|].
  rewrite log_close. fold (written c3). by rewrite Hw3, We', We.
Qed.
End session.

(** ** A browser *)
Definition browser_headers : list (string * string) :=
  [("Host", "localhost"); ("Upgrade", "websocket"); ("Connection", "Upgrade"); ("Sec-WebSocket-Key", "dGhlIHNhbXBsZQ==")].
Definition browser_text : string := request_text "GET" (with_query "/terminal" None) browser_headers "".
(** "dir" in two fragments around a ping, then "run" in one frame. *)
Definition browser_lines : list Line :=
  [mkLine [mkWire false 1 (Some "abcd") "di"; mkWire true 9 (Some "wxyz") "p"; mkWire true 0 (Some "1234") "r"]
     "dir" [encode_pong "p"];
   mkLine [mkWire true 1 (Some "abcd") "run"] "run" []].
Definition browser_frames : string := wires (frames_of browser_lines "zzzz" "") +:+ "!".
Definition browser_rest : list string := [s_take 5 browser_frames; s_drop 5 browser_frames].

Lemma browser_writes : writes default_limits "GET" "/terminal" None browser_headers "".
Proof.
  split; try (by_eval); try (vm_compute; congruence).
  repeat (apply Forall_cons_2; [unfold good_header; cbn [fst snd]; split_and!; try by_eval; by apply is_trimmed_ok|]). by apply Forall_nil_2.
Qed.

Lemma good_small cap w : 1024 <= cap ->
  (0 <=? w_op w) && (w_op w <? 16) && match w_key w with Some k => (len k =? 4)%nat | None => true end
    && (size (w_payload w) <=? 1024) = true ->
  good_wire cap w.
Proof.
  intros Hc Hb. bools. split_and!; [done|done| |lia]. unfold good_key. destruct (w_key w); bools; done.
Qed.

Lemma browser_lines_good : Forall (good_line (1024 * 1024)) browser_lines.
Proof.
  apply Forall_cons_2; [split; [|split]|apply Forall_cons_2; [split; [|split]|by apply Forall_nil_2]].
  - apply (m_first 1 (Some "abcd") "di"); [done|by left|]. apply m_ping; [done|]. by apply m_last.
  - by_eval.
  - repeat (apply Forall_cons_2; [by apply good_small; [|vm_compute]|]). by apply Forall_nil_2.
  - apply m_single; [done|by left].
  - by_eval.
  - repeat (apply Forall_cons_2; [by apply good_small; [|vm_compute]|]). by apply Forall_nil_2.
Qed.

Abbreviation demo_terminal_server := (terminal_server (fun _ => None) (fun _ => None) demo_sha256 (H := canonical_order) "public" "secret").

Lemma terminal_session_witness :
  let req := parsed "GET" "/terminal" None browser_headers "" "10.0.0.1" in
  let key := header_ci (H := canonical_order) req "Sec-WebSocket-Key" in
  exists s, handle_client (H := canonical_order) demo_terminal_server "10.0.0.1"
      (mkSock ([s_take 9 browser_text; s_drop 9 browser_text] ++ browser_rest) (repeat 1000 300) []) (seed, 7) = (s, (seed, 7)) /\
    log s = [SetTimeout 30; SetTimeout 0; HandOver "/terminal"] /\
    exists c', terminal demo_sha256 (new_connection (H := canonical_order) 5 req (recvs s) (HttpServer.sends s)) = Some (Ok tt, c') /\
      fd_ c' < 0 /\ stream c' = "!" /\
      map w_out (c_log c') = switching_protocols demo_sha256 key :: encode_binary greeting ::
        [encode_pong "p"; encode_binary (said "dir"); encode_binary (said "run"); encode_close].
Proof.
  apply (terminal_session (fun _ => None) (fun _ => None) demo_sha256 demo_sha256 (H := canonical_order) "public" "secret"
    None browser_headers "10.0.0.1" [s_take 9 browser_text; s_drop 9 browser_text] browser_rest (repeat 1000 300) (seed, 7) 5
    browser_lines "zzzz" "" "!").
  - exact browser_writes.
  - vm_compute. reflexivity.
  - vm_compute. discriminate.
  - repeat (apply Forall_cons_2; [vm_compute; discriminate|]). by apply Forall_nil_2.
  - vm_compute. reflexivity.
  - repeat (apply Forall_cons_2; [vm_compute; discriminate|]). by apply Forall_nil_2.
  - vm_compute. reflexivity.
  - reflexivity.
  - vm_compute. discriminate.
  - exact browser_lines_good.
  - apply Forall_forall. intros n Hn%list_elem_of_In%repeat_spec. lia.
  - vm_compute. lia.
Defined.
