(* ===== verification/BlogMain.v ===== *)
(** * examples/blog/main.cpp

    The demo program: seven lines, each from a part of the booted application. *)
From S2P Require Import Prelude CppString CppNum Database Repository Container Facade Session Cache Auth HttpAuth Router Kernel Pipeline Http BlogModels Blog BlogBoot BlogArticles.

Section main.
Context {D : Type} (conn : Connection D) (open_ : D) (demangle_type : Key -> string) (fuel : nat)
  `{MapOrder string} (livewire_js : string).
Local Abbreviation App := (AppState D).

(** std::cout beside the process: what was printed before an exception stays. *)
Definition print (text : string) : M (string * App) unit := modify (fun s => (s.1 +:+ text, s.2)).
Definition in_process {A} (m : M App A) : M (string * App) A :=
  on_part snd (fun w (s : string * App) => (s.1, w)) m.

Definition dump (label : string) (r : Response) : M (string * App) unit :=
  _ ← print (label +:+ "  status=" +:+ to_string (status r) +:+ "  ct=");
  ct ← lift_res (match res_headers r !! "Content-Type" with Some ct => Ok ct | None => Throw out_of_range end);
  print (ct +:+ "  body=" +:+ res_body r +:+ lf).
(** [dump(label, kernel.handle({"GET", p, {}, hs, ""}))]. *)
Definition shown (k : Kernel App) (label p : string) (hs : gmap string string) : M (string * App) unit :=
  r ← in_process (handle k (mkRequest "GET" p ∅ hs "" ∅ ∅ ""));
  dump label r.
Definition same_instance : M (string * App) unit :=
  _ ← print "singleton  same_instance=";
  a ← in_process (app_resolve demangle_type fuel "UserService");
  b ← in_process (app_resolve demangle_type fuel "UserService");
  print ((if bool_decide (any_ref a = any_ref b) then "1" else "0") +:+ lf).
Definition facade_line : M (string * App) unit :=
  _ ← print "facade     Users::find(42)=";
  u ← in_process (Users_find demangle_type fuel "42");
  print (u +:+ lf).
(** A repository of the container, on the connection it was built with. *)
Definition orm_line (post : Article) : M (string * App) unit :=
  articles ← in_process (app_resolve demangle_type fuel "ArticleRepository");
  c ← in_process (argument (any_ref articles) 0);
  post ← in_process (on_conn open_ c (repo_insert conn ArticleMapper post));
  fetched ← in_process (on_conn open_ c (repo_find conn ArticleMapper (a_id post)));
  print ("orm        inserted id=" +:+ to_string (a_id post)
    +:+ " found_title=" +:+ match fetched with Some a => title a | None => "<none>" end +:+ lf).

Definition main : M (string * App) Z :=
  k ← in_process (bootstrap conn open_ demangle_type fuel livewire_js);
  let token := {["Authorization" := "secret-token"]} in
  _ ← shown k "auth+found " "/users/42" token;
  _ ← shown k "auth+miss  " "/users/7" token;
  _ ← shown k "no-token   " "/users/42" ∅;
  _ ← shown k "404        " "/nope" ∅;
  _ ← same_instance;
  _ ← facade_line;
  _ ← orm_line (mkArticle 0 "Hello, persistence" 0 true);
  mret 0%Z.
End main.

(** What the program prints, whatever the names of the types are. *)
Lemma blog_main_prints fuel : (3 <= fuel)%nat ->
  let '(r, (out, w)) := main MemoryConnection empty_memory (fun k => k) fuel (H := canonical_order) "js" ("", demo_start) in
  r = Ok 0%Z /\
  out =
    "auth+found   status=200  ct=application/json  body={" +:+ dq "id" +:+ ":42," +:+ dq "name" +:+ ":" +:+ dq "Ada Lovelace" +:+ "}" +:+ lf +:+
    "auth+miss    status=404  ct=application/json  body={" +:+ dq "error" +:+ ":" +:+ dq "not found" +:+ "}" +:+ lf +:+
    "no-token     status=401  ct=application/json  body={" +:+ dq "error" +:+ ":" +:+ dq "unauthorized" +:+ "}" +:+ lf +:+
    "404          status=404  ct=text/plain  body=Not Found" +:+ lf +:+
    "singleton  same_instance=1" +:+ lf +:+
    "facade     Users::find(42)={" +:+ dq "id" +:+ ":42," +:+ dq "name" +:+ ":" +:+ dq "Ada Lovelace" +:+ "}" +:+ lf +:+
    "orm        inserted id=1 found_title=Hello, persistence" +:+ lf.
Proof. intros Hf. destruct fuel as [|[|[|f]]]; [lia..|vm_compute; done]. Qed.
