(* ===== verification/HubThreads.v ===== *)
(** * websocket_server.hpp: the hub under threads

    A broadcast takes a snapshot of the registry with the hub locked and sends with it
    unlocked; meanwhile the threads of the connections add, remove and tear theirs down.
    Each locked section and each send of a frame is one step, and threads interleave in any
    order.  A connection is an identity; its object is in [objects] from its construction to
    its end, and a send to one that is gone is what the contract in the header is to rule
    out. *)
From S2P Require Import Prelude CppString CppNum Http Base64 Websocket HttpServer WsServer.

(** A broadcast under way: what it has sent to and what it still has to. *)
Record Cast : Type := mkCast { k_text : string; k_sent : list nat; k_left : list nat }.
Record Threads : Type := mkThreads {
  hub : Hub;
  opened : gset nat;                   (* every identity there ever was *)
  objects : gmap nat Connection;
  casts : gmap nat Cast;
  sends : list (option nat * nat * string);   (* by a broadcast or the connection's own thread; to; bytes *)
  dangling : list (nat * nat)          (* a broadcast's sends to objects that are gone *)
}.
Definition no_threads : Threads := mkThreads (mkHub ∅) ∅ ∅ ∅ [] [].

Inductive Event : Type :=
  | Open (i : nat) (c : Connection)    (* a connection object is constructed *)
  | Add (i : nat)
  | Remove (i : nat)
  | Destroy (i : nat)
  | Own (i : nat) (out : string)       (* its own thread sends: a handshake, a frame, a pong *)
  | Snapshot (t : nat) (text : string)
  | Send (t : nat).

(** [None]: the event cannot happen here.  Identities are used once. *)
Definition step (e : Event) (s : Threads) : option Threads :=
  match e with
  | Open i c =>
      if bool_decide ((i ∉ opened s) /\ c_log c = [])
      then Some (mkThreads (hub s) ({[i]} ∪ opened s) (<[i := c]> (objects s)) (casts s) (sends s) (dangling s)) else None
  | Add i =>
      match objects s !! i with
      | Some _ => Some (mkThreads (hub_add i (hub s)) (opened s) (objects s) (casts s) (sends s) (dangling s))
      | None => None
      end
  | Remove i => Some (mkThreads (hub_remove i (hub s)) (opened s) (objects s) (casts s) (sends s) (dangling s))
  | Destroy i => Some (mkThreads (hub s) (opened s) (delete i (objects s)) (casts s) (sends s) (dangling s))
  | Own i out =>
      match objects s !! i with
      | Some c => Some (mkThreads (hub s) (opened s) (<[i := (conn_send out c).2]> (objects s)) (casts s)
                          (sends s ++ [(None, i, out)]) (dangling s))
      | None => None
      end
  | Snapshot t text =>
      match casts s !! t with
      | Some _ => None
      | None => Some (mkThreads (hub s) (opened s) (objects s) (<[t := mkCast text [] (snapshot (hub s))]> (casts s)) (sends s) (dangling s))
      end
  | Send t =>
      match casts s !! t with
      | Some (mkCast text sent (i :: rest)) =>
          let casts' := <[t := mkCast text (sent ++ [i]) rest]> (casts s) in
          match objects s !! i with
          | Some _ => Some (mkThreads (hub s) (opened s) (send_to (send_text text) (objects s) i) casts' (sends s ++ [(Some t, i, encode_text text)]) (dangling s))
          | None => Some (mkThreads (hub s) (opened s) (objects s) casts' (sends s) (dangling s ++ [(t, i)]))
          end
      | _ => None
      end
  end.
Fixpoint run_events (es : list Event) (s : Threads) : option Threads :=
  match es with
  | [] => Some s
  | e :: es => match step e s with Some s => run_events es s | None => None end
  end.

(** ** A broadcast on its own is [broadcast] *)
Lemma broadcast_loop text t : forall l sent s, casts s !! t = Some (mkCast text sent l) ->
  Forall (fun i => is_Some (objects s !! i)) l ->
  exists s', run_events (replicate (length l) (Send t)) s = Some s' /\
    objects s' = fold_left (send_to (send_text text)) l (objects s) /\ hub s' = hub s /\
    casts s' !! t = Some (mkCast text (sent ++ l) []) /\ dangling s' = dangling s.
Proof.
  induction l as [|i l IH]; intros sent s Hk Hl; cbn [length replicate run_events].
  { exists s. rewrite app_nil_r. by split_and!. }
  apply Forall_cons in Hl as [[c Hc] Hl]. cbn [step]. rewrite Hk, Hc.
  match goal with |- context [run_events _ ?s1] => destruct (IH (sent ++ [i]) s1) as (s' & -> & Ho & Hh & Hk' & Hd) end.
  - cbn [casts]. apply lookup_insert_eq.
  - cbn [objects]. eapply Forall_impl; [exact Hl|]. cbn. intros j Hj. unfold send_to. rewrite Hc.
    destruct (decide (i = j)) as [->|Hne]; [by rewrite lookup_insert_eq|by rewrite lookup_insert_ne].
  - exists s'. split; [done|]. cbn [objects] in Ho. split; [exact Ho|]. split; [done|].
    split; [by rewrite Hk', <- app_assoc|done].
Qed.

Lemma broadcast_alone text t s : casts s !! t = None ->
  (forall i, i ∈ conns_ (hub s) -> is_Some (objects s !! i)) ->
  exists s', run_events (Snapshot t text :: replicate (hub_size (hub s)) (Send t)) s = Some s' /\
    objects s' = broadcast text (hub s) (objects s) /\ hub s' = hub s /\ dangling s' = dangling s.
Proof.
  intros Ht Hlive. cbn [run_events step]. rewrite Ht.
  destruct (broadcast_loop text t (snapshot (hub s)) [] (mkThreads (hub s) (opened s) (objects s)
    (<[t := mkCast text [] (snapshot (hub s))]> (casts s)) (sends s) (dangling s))) as (s' & E & Ho & Hh & _ & Hd).
  - cbn. apply lookup_insert_eq.
  - apply Forall_forall. intros i Hi. apply Hlive. by apply elem_of_elements.
  - exists s'. split; [|done]. exact E.
Qed.

(** ** Every interleaving *)
(** What was sent to a connection, and the connections a broadcast was sent to. *)
Definition bytes_to (i : nat) (l : list (option nat * nat * string)) : list string :=
  omap (fun x => if bool_decide (x.1.2 = i) then Some x.2 else None) l.
Definition reached (t : nat) (l : list (option nat * nat * string)) : list nat :=
  omap (fun x => if bool_decide (x.1.1 = Some t) then Some x.1.2 else None) l.
Definition missed (t : nat) (l : list (nat * nat)) : list nat :=
  omap (fun x => if bool_decide (x.1 = t) then Some x.2 else None) l.

Arguments bytes_to : simpl never.
Arguments reached : simpl never.
Arguments missed : simpl never.

Lemma bytes_to_snoc i l t j x : bytes_to i (l ++ [(t, j, x)]) = bytes_to i l ++ if bool_decide (j = i) then [x] else [].
Proof. unfold bytes_to. rewrite omap_app. cbn. by case_bool_decide. Qed.
Lemma reached_snoc t l u j x : reached t (l ++ [(u, j, x)]) = reached t l ++ if bool_decide (u = Some t) then [j] else [].
Proof. unfold reached. rewrite omap_app. cbn. by case_bool_decide. Qed.
Lemma missed_snoc t l u j : missed t (l ++ [(u, j)]) = missed t l ++ if bool_decide (u = t) then [j] else [].
Proof. unfold missed. rewrite omap_app. cbn. by case_bool_decide. Qed.
Lemma bytes_to_fresh i l : Forall (fun x => x.1.2 ≠ i) l -> bytes_to i l = [].
Proof. induction 1 as [|[[t j] x] l Hx _ IH]; [done|]. unfold bytes_to. cbn. rewrite bool_decide_eq_false_2 by done. apply IH. Qed.

Lemma run_events_app es es' s :
  run_events (es ++ es') s = match run_events es s with Some s' => run_events es' s' | None => None end.
Proof. revert s. induction es as [|e es IH]; intros s; cbn; [done|]. by destruct (step e s). Qed.

(** ** Who is registered, by the history alone *)
(** [i] was added and not removed since. *)
Definition registered (es : list Event) (i : nat) : Prop :=
  exists es1 es2, es = es1 ++ Add i :: es2 /\ Remove i ∉ es2.

Lemma registered_snoc es e i :
  registered (es ++ [e]) i <-> e = Add i \/ (registered es i /\ e ≠ Remove i).
Proof.
  split.
  - intros (es1 & es2 & E & Hr). destruct es2 as [|x es2 _] using rev_ind.
    + apply app_inj_tail in E as [_ ->]. by left.
    + rewrite app_comm_cons, app_assoc in E. apply app_inj_tail in E as [-> ->]. right.
      split; [|intros ->; apply Hr; set_solver]. exists es1, es2. split; [done|]. set_solver.
  - intros [->|[(es1 & es2 & -> & Hr) He]].
    + exists es, []. split; [done|]. apply not_elem_of_nil.
    + exists es1, (es2 ++ [e]). split; [by rewrite <- app_assoc|]. set_solver.
Qed.

(** The registry holds the connections added and not removed. *)
Lemma hub_registered es : forall s, run_events es no_threads = Some s ->
  forall i, i ∈ conns_ (hub s) <-> registered es i.
Proof.
  induction es as [|e es IH] using rev_ind; intros s H i.
  { injection H as <-. cbn. split; [set_solver|]. by intros ([] & es2 & E & _). }
  rewrite run_events_app in H. destruct (run_events es no_threads) as [s1|]; [|done].
  cbn in H. destruct (step e s1) as [s2|] eqn:E; [|done]. injection H as <-.
  rewrite registered_snoc, <- (IH s1 eq_refl i). destruct e as [j c|j|j|j|j out|t text|t]; cbn [step] in E.
  - case_bool_decide; [|done]. injection E as <-. cbn. naive_solver.
  - destruct (objects s1 !! j); [|done]. injection E as <-. cbn. set_solver.
  - injection E as <-. cbn. set_solver.
  - injection E as <-. cbn. naive_solver.
  - destruct (objects s1 !! j); [|done]. injection E as <-. cbn. naive_solver.
  - destruct (casts s1 !! t); [done|]. injection E as <-. cbn. naive_solver.
  - destruct (casts s1 !! t) as [[? ? [|j l]]|]; try done.
    destruct (objects s1 !! j); injection E as <-; cbn; naive_solver.
Qed.

(** The broadcast [t] started on [text], when just the connections of [l] were
    registered, each once in [l]. *)
Definition started (es : list Event) (t : nat) (text : string) (l : list nat) : Prop :=
  exists es1 es2, es = es1 ++ Snapshot t text :: es2 /\ NoDup l /\ forall i, i ∈ l <-> registered es1 i.
Lemma started_snoc es e t text l : started es t text l -> started (es ++ [e]) t text l.
Proof. intros (es1 & es2 & -> & H). exists es1, (es2 ++ [e]). split; [by rewrite <- app_assoc|done]. Qed.

Record interleaved (es : list Event) (s : Threads) : Prop := {
  i_opened : forall i, is_Some (objects s !! i) \/ (exists x, x ∈ sends s /\ x.1.2 = i) -> i ∈ opened s;
  i_frames : forall i c, objects s !! i = Some c -> written c = bytes_to i (sends s);
  i_once : forall t k, casts s !! t = Some k -> started es t (k_text k) (k_sent k ++ k_left k) /\
    k_sent k ≡ₚ reached t (sends s) ++ missed t (dangling s);
  i_none : forall t, casts s !! t = None -> reached t (sends s) = [] /\ missed t (dangling s) = [];
  i_texts : forall t i out, (Some t, i, out) ∈ sends s -> exists k, casts s !! t = Some k /\ out = encode_text (k_text k)
}.

Lemma interleaved_start : interleaved [] no_threads.
Proof. split; cbn; [|by intros i c|by intros t k|done|].
  - intros i [[c Hc]|(x & Hx & _)]; [done|by apply elem_of_nil in Hx].
  - intros t i out Hx. by apply elem_of_nil in Hx. Qed.

(** Steps that touch the registry or end an object change nothing of this. *)
Lemma interleaved_same es e s s' : interleaved es s -> opened s' = opened s -> objects s' ⊆ objects s ->
  casts s' = casts s -> sends s' = sends s -> dangling s' = dangling s -> interleaved (es ++ [e]) s'.
Proof.
  intros [Hop Hf Ho Hn Htx] E1 E2 E3 E4 E5. split; rewrite ?E1, ?E3, ?E4, ?E5; [| | |done|done].
  - intros i [[c Hc]|Hx]; apply Hop; [left|by right]. exists c. by eapply lookup_weaken.
  - intros i c Hc. apply Hf. by eapply lookup_weaken.
  - intros t k Hk. destruct (Ho t k Hk) as [Hs Hp]. split; [by apply started_snoc|done].
Qed.

Lemma interleaved_send es s s' t : interleaved es s -> step (Send t) s = Some s' -> interleaved (es ++ [Send t]) s'.
Proof.
  intros [Hop Hf Ho Hn Htx] Hs. cbn [step] in Hs. destruct (casts s !! t) as [[text sent [|i rest]]|] eqn:Ht; try done.
  destruct (Ho t _ Ht) as [Hst Hp]. cbn in Hst, Hp. apply (started_snoc _ (Send t)) in Hst.
  change (sent ++ i :: rest) with (sent ++ [i] ++ rest) in Hst. rewrite app_assoc in Hst.
  assert (Ho' : forall u k, casts s !! u = Some k -> started (es ++ [Send t]) u (k_text k) (k_sent k ++ k_left k) /\
    k_sent k ≡ₚ reached u (sends s) ++ missed u (dangling s)).
  { intros u k Hu. destruct (Ho u k Hu). split; [by apply started_snoc|done]. }
  destruct (objects s !! i) as [c|] eqn:Hi; injection Hs as <-; split; cbn.
  - intros j [[d Hj]|(x & [Hx|Hx%list_elem_of_singleton]%elem_of_app & <-)].
    + unfold send_to in Hj. rewrite Hi in Hj. apply lookup_insert_Some in Hj as [[-> _]|[_ Hj]]; apply Hop; eauto.
    + apply Hop. eauto.
    + subst x. apply Hop. eauto.
  - intros j d. unfold send_to. rewrite Hi. intros [[-> <-]|[Hne Hj]]%lookup_insert_Some; rewrite bytes_to_snoc.
    + rewrite bool_decide_eq_true_2 by done. cbn. destruct (conn_send_spec (encode_text text) c) as [_ W].
      unfold send_text. by rewrite W, (Hf j c Hi).
    + rewrite bool_decide_eq_false_2, app_nil_r by done. by apply Hf.
  - intros u k [[-> <-]|[Hne Hu]]%lookup_insert_Some; rewrite reached_snoc.
    + rewrite bool_decide_eq_true_2 by done. cbn. split; [done|]. rewrite Hp. solve_Permutation.
    + rewrite bool_decide_eq_false_2, app_nil_r by congruence. by apply Ho'.
  - intros u [Hu Hne]%lookup_insert_None. rewrite reached_snoc, bool_decide_eq_false_2, app_nil_r by congruence. by apply Hn.
  - intros u j out [Hx|[= -> -> ->]%list_elem_of_singleton]%elem_of_app; [|eexists; by rewrite lookup_insert_eq].
    destruct (Htx u j out Hx) as (k & Hk & ->). destruct (decide (t = u)) as [->|Hne]; [|by exists k; rewrite lookup_insert_ne].
    rewrite Ht in Hk. injection Hk as <-. eexists. by rewrite lookup_insert_eq.
  - done.
  - done.
  - intros u k [[-> <-]|[Hne Hu]]%lookup_insert_Some; rewrite missed_snoc.
    + rewrite bool_decide_eq_true_2 by done. cbn. split; [done|]. rewrite Hp. by rewrite <- app_assoc.
    + rewrite bool_decide_eq_false_2, app_nil_r by done. by apply Ho'.
  - intros u [Hu Hne]%lookup_insert_None. rewrite missed_snoc, bool_decide_eq_false_2, app_nil_r by done. by apply Hn.
  - intros u j out Hx. destruct (Htx u j out Hx) as (k & Hk & ->). destruct (decide (t = u)) as [->|Hne]; [|by exists k; rewrite lookup_insert_ne].
    rewrite Ht in Hk. injection Hk as <-. eexists. by rewrite lookup_insert_eq.
Qed.

Lemma interleaved_step es e s s' : run_events es no_threads = Some s -> interleaved es s -> step e s = Some s' -> interleaved (es ++ [e]) s'.
Proof.
  intros Hrun Hi Hs. destruct e as [i c|i|i|i|i out|t text|t]; [| | | | | |by eapply interleaved_send]; cbn [step] in Hs.
  - case_bool_decide as H; [|done]. injection Hs as <-. destruct H as (Hfresh & Hc). destruct Hi as [Hop Hf Ho Hn Htx]. split; cbn; [| | |done|done].
    + intros j Hj. destruct (decide (j = i)) as [->|Hne]; [by apply elem_of_union_l, elem_of_singleton|]. apply elem_of_union_r, Hop.
      destruct Hj as [Hj|Hx]; [left|by right]. by rewrite lookup_insert_ne in Hj.
    + intros j d [[-> <-]|[Hne Hj]]%lookup_insert_Some; [|by apply Hf].
      unfold written. rewrite Hc, bytes_to_fresh; [done|]. apply Forall_forall. intros x Hx E. apply Hfresh, Hop. eauto.
    + intros t k Hk. destruct (Ho t k Hk). split; [by apply started_snoc|done].
  - destruct (objects s !! i) as [c|]; [|done]. injection Hs as <-. by eapply interleaved_same.
  - injection Hs as <-. by eapply interleaved_same.
  - injection Hs as <-. eapply interleaved_same; try done. apply delete_subseteq.
  - destruct (objects s !! i) as [c|] eqn:Ei; [|done]. injection Hs as <-. destruct Hi as [Hop Hf Ho Hn Htx]. split; cbn.
    + intros j [[d Hj]|(x & [Hx|Hx%list_elem_of_singleton]%elem_of_app & <-)].
      * apply lookup_insert_Some in Hj as [[-> _]|[_ Hj]]; apply Hop; eauto.
      * apply Hop. eauto.
      * subst x. apply Hop. eauto.
    + intros j d [[-> <-]|[Hne Hj]]%lookup_insert_Some; rewrite bytes_to_snoc.
      * rewrite bool_decide_eq_true_2 by done. destruct (conn_send_spec out c) as [_ W]. by rewrite W, (Hf j c Ei).
      * rewrite bool_decide_eq_false_2, app_nil_r by done. by apply Hf.
    + intros u k Hk. rewrite reached_snoc, app_nil_r. destruct (Ho u k Hk). split; [by apply started_snoc|done].
    + intros u Hu. rewrite reached_snoc, app_nil_r. by apply Hn.
    + intros u j o [Hx|Hx%list_elem_of_singleton]%elem_of_app; [by eapply Htx|done].
  - destruct (casts s !! t) eqn:Ht; [done|]. injection Hs as <-. destruct Hi as [Hop Hf Ho Hn Htx]. split; cbn; [done|done| | |].
    + intros u k [[-> <-]|[Hne Hu]]%lookup_insert_Some.
      * cbn. destruct (Hn u Ht) as [-> ->]. split; [|done]. exists es, []. split; [done|].
        split; [apply (NoDup_elements (conns_ (hub s)))|].
        intros i. etrans; [apply (elem_of_elements (conns_ (hub s)))|]. by apply hub_registered.
      * destruct (Ho u k Hu). split; [by apply started_snoc|done].
    + intros u [Hu _]%lookup_insert_None. by apply Hn.
    + intros u j out Hx. destruct (Htx u j out Hx) as (k & Hk & ->). exists k. by rewrite lookup_insert_ne by congruence.
Qed.

Lemma interleaved_run es : forall s, run_events es no_threads = Some s -> interleaved es s.
Proof.
  induction es as [|e es IH] using rev_ind; intros s H; [injection H as <-; apply interleaved_start|].
  rewrite run_events_app in H. destruct (run_events es no_threads) as [s1|] eqn:E; [|done]. cbn in H.
  destruct (step e s1) as [s2|] eqn:E2; [|done]. injection H as <-. by eapply interleaved_step; [done|apply IH|].
Qed.

(** ** The contract *)
(** "remove(c) before destroying/closing c": no object ends registered. *)
Definition removes_first (es : list Event) : Prop :=
  forall es1 i es2, es = es1 ++ Destroy i :: es2 -> ~ registered es1 i.

(** The connection [i] was torn down while the broadcast [t] still had it before it. *)
Definition torn_down_in_flight (es : list Event) (t i : nat) : Prop :=
  exists es1 es2 s1 k, es = es1 ++ Destroy i :: es2 /\ run_events es1 no_threads = Some s1 /\
    casts s1 !! t = Some k /\ i ∈ k_left k.
Lemma torn_down_snoc es e t i : torn_down_in_flight es t i -> torn_down_in_flight (es ++ [e]) t i.
Proof. intros (es1 & es2 & s1 & k & -> & H). exists es1, (es2 ++ [e]), s1, k. split; [by rewrite <- app_assoc|done]. Qed.

Record contract_kept (es : list Event) (s : Threads) : Prop := {
  ck_hub : forall i, i ∈ conns_ (hub s) -> is_Some (objects s !! i);
  ck_left : forall t k i, casts s !! t = Some k -> i ∈ k_left k -> is_Some (objects s !! i) \/ torn_down_in_flight es t i;
  ck_dangling : forall t i, (t, i) ∈ dangling s -> torn_down_in_flight es t i
}.

Lemma contract_step es e s s' : run_events es no_threads = Some s -> contract_kept es s -> step e s = Some s' ->
  (forall i, e = Destroy i -> i ∉ conns_ (hub s)) -> contract_kept (es ++ [e]) s'.
Proof.
  intros Hrun [Hh Hl Hd] Hs Hc.
  assert (Hl' : forall t k i, casts s !! t = Some k -> i ∈ k_left k -> is_Some (objects s !! i) \/ torn_down_in_flight (es ++ [e]) t i)
    by (intros t k i Hk Hi; destruct (Hl t k i Hk Hi); [by left|right; by apply torn_down_snoc]).
  assert (Hd' : forall t i, (t, i) ∈ dangling s -> torn_down_in_flight (es ++ [e]) t i) by (intros; by apply torn_down_snoc, Hd).
  destruct e as [i c|i|i|i|i out|t text|t]; cbn [step] in Hs.
  - case_bool_decide; [|done]. injection Hs as <-. split; cbn; [| |done].
    + intros j Hj. destruct (decide (i = j)) as [->|]; [by rewrite lookup_insert_eq|rewrite lookup_insert_ne by done; by apply Hh].
    + intros u k j Hk Hj. destruct (decide (i = j)) as [->|]; [left; by rewrite lookup_insert_eq|rewrite lookup_insert_ne by done; by eapply Hl'].
  - destruct (objects s !! i) as [c|] eqn:Ei; [|done]. injection Hs as <-. split; cbn; [|done..].
    intros j [->%elem_of_singleton|Hj]%elem_of_union; [by rewrite Ei|by apply Hh].
  - injection Hs as <-. split; cbn; [|done..]. intros j [Hj _]%elem_of_difference. by apply Hh.
  - injection Hs as <-. specialize (Hc i eq_refl). split; cbn; [| |done].
    + intros j Hj. rewrite lookup_delete_ne by congruence. by apply Hh.
    + intros u k j Hk Hj. destruct (decide (i = j)) as [->|]; [|rewrite lookup_delete_ne by done; by eapply Hl'].
      right. exists es, [], s, k. done.
  - destruct (objects s !! i) as [c|] eqn:Ei; [|done]. injection Hs as <-.
    assert (Hkeep : forall j, is_Some (objects s !! j) -> is_Some (<[i := (conn_send out c).2]> (objects s) !! j)).
    { intros j Hj. destruct (decide (i = j)) as [->|]; [by rewrite lookup_insert_eq|by rewrite lookup_insert_ne]. }
    split; cbn; [by intros j Hj; apply Hkeep, Hh| |done].
    intros u k j Hk Hj. destruct (Hl' u k j Hk Hj); [left; by apply Hkeep|by right].
  - destruct (casts s !! t) eqn:Ht; [done|]. injection Hs as <-. split; cbn; [done| |done].
    intros u k j [[-> <-]|[_ Hu]]%lookup_insert_Some Hj; [|by eapply Hl']. left. apply Hh. by apply elem_of_elements.
  - destruct (casts s !! t) as [[text sent [|i rest]]|] eqn:Ht; try done.
    destruct (objects s !! i) as [c|] eqn:Ei; injection Hs as <-; split; cbn.
    + intros j Hj%Hh. unfold send_to. rewrite Ei. destruct (decide (i = j)) as [->|]; [by rewrite lookup_insert_eq|by rewrite lookup_insert_ne].
    + intros u k j Hk Hj. assert (Hs : is_Some (objects s !! j) \/ torn_down_in_flight (es ++ [Send t]) u j).
      { apply lookup_insert_Some in Hk as [[-> <-]|[_ Hk]]; [|by eapply Hl']. eapply Hl'; [done|]. by right. }
      destruct Hs as [Hs|]; [left|by right]. unfold send_to. rewrite Ei.
      destruct (decide (i = j)) as [->|]; [by rewrite lookup_insert_eq|by rewrite lookup_insert_ne].
    + done.
    + done.
    + intros u k j [[-> <-]|[_ Hk]]%lookup_insert_Some Hj; [|by eapply Hl']. eapply Hl'; [done|]. by right.
    + intros u j [Hj|[= -> ->]%list_elem_of_singleton]%elem_of_app; [by apply Hd'|].
      destruct (Hl' t _ i Ht ltac:(by left)) as [[c Hx]|Hx]; [congruence|done].
Qed.

Lemma contract_run es : forall s, run_events es no_threads = Some s -> removes_first es -> contract_kept es s.
Proof.
  induction es as [|e es IH] using rev_ind; intros s H Hr.
  { injection H as <-. split; cbn; [set_solver|by intros t k i|]. intros t i Hi. by apply elem_of_nil in Hi. }
  rewrite run_events_app in H. destruct (run_events es no_threads) as [s1|] eqn:E; [|done].
  cbn in H. destruct (step e s1) as [s2|] eqn:E2; [|done]. injection H as <-.
  eapply contract_step; [done| |done|].
  - apply IH; [done|]. intros es1 i es2 ->. apply (Hr es1 i (es2 ++ [e])). by rewrite <- app_assoc.
  - intros i ->. rewrite (hub_registered es s1 E). by apply (Hr es i []).
Qed.

(** C24: The hub under threads.  However constructions, additions, removals, ends and any
    number of broadcasts interleave: a connection has been written what its own thread and
    the broadcasts sent it, each send whole and in their order; a broadcast goes once
    to every connection that was added and not removed before it started, and to no
    other, with its own frame; and when every connection is removed before its end, a
    broadcast can come to an object that is gone only where the object ended between the
    start of the broadcast and its turn: removing first does not wait for the broadcasts
    under way. *)
Theorem hub_threads (es : list Event) (s : Threads) :
  run_events es no_threads = Some s ->
  (forall i c, objects s !! i = Some c -> map w_out (c_log c) = bytes_to i (sends s)) /\
  (forall t k, casts s !! t = Some k ->
     exists es1 es2, es = es1 ++ Snapshot t (k_text k) :: es2 /\
       NoDup (k_sent k ++ k_left k) /\ (forall i, i ∈ k_sent k ++ k_left k <-> registered es1 i) /\
       k_sent k ≡ₚ reached t (sends s) ++ missed t (dangling s)) /\
  (forall t i out, (Some t, i, out) ∈ sends s -> exists k, casts s !! t = Some k /\ out = encode_text (k_text k)) /\
  (removes_first es -> forall t i, (t, i) ∈ dangling s -> torn_down_in_flight es t i).
Proof.
  intros H. pose proof (interleaved_run es s H) as [_ Hf Ho _ Htx]. split; [exact Hf|]. split.
  - intros t k Hk. destruct (Ho t k Hk) as [(es1 & es2 & E & Hnd & Hl) Hp]. by exists es1, es2.
  - split; [exact Htx|]. intros Hr. apply (contract_run es s H Hr).
Qed.

(** Two connections, two broadcasts that overlap; the first connection is removed and ended
    while the second broadcast is under way. *)
Definition blank_connection (fd : Z) : Connection := mkConnection fd "key" "" "" 1024 [] true [] [1000%Z; 1000%Z] [].
Definition overlap : list Event :=
  [Open 1 (blank_connection 5); Own 1 "101"; Add 1; Open 2 (blank_connection 6); Add 2; Snapshot 10 "a"; Send 10; Snapshot 11 "b";
   Own 2 (encode_pong "p"); Send 10; Remove 1; Destroy 1; Send 11; Send 11].
Definition after_overlap : Threads := default no_threads (run_events overlap no_threads).

Lemma overlap_removes_first : removes_first overlap.
Proof.
  intros es1 i es2 E. unfold overlap in E.
  do 11 (destruct es1 as [|? es1]; [discriminate E|injection E as <- E]).
  destruct es1 as [|? es1]; [|injection E as <- E; do 2 (destruct es1 as [|? es1]; [discriminate E|injection E as _ E]);
    destruct es1; discriminate E].
  injection E as <- _.
  match goal with |- ~ registered ?l _ =>
    rewrite <- (hub_registered l (default no_threads (run_events l no_threads))) by (vm_compute; reflexivity) end.
  by_eval.
Qed.

(** The header's contract is kept, and yet a connection that is gone is sent to. *)
Lemma contract_is_not_enough : exists es s,
  run_events es no_threads = Some s /\ removes_first es /\ dangling s = [(11, 1)].
Proof.
  exists overlap, after_overlap. split; [by vm_compute|]. split; [apply overlap_removes_first|by vm_compute].
Qed.

Lemma hub_threads_witness :
  removes_first overlap /\ dangling after_overlap = [(11, 1)] /\
  torn_down_in_flight overlap 11 1 /\
  (exists c, objects after_overlap !! 2 = Some c /\ map w_out (c_log c) = [encode_text "a"; encode_pong "p"; encode_text "b"]).
Proof.
  assert (H : run_events overlap no_threads = Some after_overlap) by (vm_compute; reflexivity).
  destruct (hub_threads overlap after_overlap H) as (Hf & _ & _ & Hd).
  split; [apply overlap_removes_first|]. split; [vm_compute; reflexivity|]. split.
  - apply Hd; [apply overlap_removes_first|]. replace (dangling after_overlap) with [(11, 1)] by (vm_compute; reflexivity). by left.
  - destruct (objects after_overlap !! 2) as [c|] eqn:E; [|vm_compute in E; discriminate]. exists c. split; [done|].
    rewrite (Hf 2 c E). vm_compute. reflexivity.
Defined.
