(* ===== verification/WasmProgram.v ===== *)
(** * wasm/host.cpp: the host's program

    [request] copies the three strings into the module's memory, calls it, reads the answer
    and the status, frees the blocks and prints a line.  The module's allocator is a
    parameter, and so is the place its answer is at; [Heap] is what is relied on of them.
    The program prints what calling the functions of wasm/main.cpp directly would answer. *)
From S2P Require Import Prelude CppString CppNum Container Wasm WasmCalls WasmHost.

(** ** The module's memory *)
(** [m_malloc n], [m_free p]; [m_publish text]: the memory once the library's [g_body] holds
    [text], and where its [c_str()] is. *)
Record WasmModule : Type := mkModule {
  m_malloc : nat -> LinearMemory -> nat * LinearMemory;
  m_free : nat -> LinearMemory -> LinearMemory;
  m_publish : string -> LinearMemory -> nat * LinearMemory
}.
(** [held mem p n]: a block of [n] bytes at [p] that was given and not freed.  A new block
    lies in the memory and apart from the blocks held, which it leaves as they are; writing
    to the memory does not change what is held; the answer ends with a zero. *)
Class Heap (md : WasmModule) (held : LinearMemory -> nat -> nat -> Prop) : Prop := {
  heap_inside mem p n : held mem p n -> p + n <= length mem;
  heap_malloc n mem p mem' : m_malloc md n mem = (p, mem') ->
    held mem' p n /\ forall q k, held mem q k -> held mem' q k /\ (p + n <= q \/ q + k <= p) /\
      forall i, i < k -> mem' !! (q + i) = mem !! (q + i);
  heap_write mem q k p bytes : held mem q k -> held (store_bytes p bytes mem) q k;
  heap_publish text mem : let '(p, mem') := m_publish md text mem in read_string mem' p = c_str text
}.

Section program.
Context (md : WasmModule) (demangle_type : Key -> string) (fuel : nat).
(** The host's view of the module: its memory and its globals. *)
Abbreviation Host := (LinearMemory * Globals)%type.
Definition on_globals {A} (m : M Globals A) : M Host A := on_part snd (fun g h => (h.1, g)) m.

(** [write_string]: a block of one byte more, the bytes and a zero. *)
Definition pass (s : string) : M Host nat := fun h =>
  let '(p, mem) := m_malloc md (len s + 1) h.1 in (Ok p, (write_string p s mem, h.2)).
(** [lipp_handle] on pointers: the module reads its arguments where they are. *)
Definition publish_answer : M Host nat := fun h =>
  let '(p, mem) := m_publish md (g_body h.2) h.1 in (Ok p, (mem, h.2)).
Definition call_handle (pm pp pb : nat) : M Host nat :=
  (mem ← gets fst;
  _ ← on_globals (lipp_handle demangle_type fuel (Some (read_string mem pm)) (Some (read_string mem pp))
                    (Some (read_string mem pb)));
  publish_answer
   : M Host nat).
Definition release (p : nat) : M Host unit := modify (fun h => (m_free md p h.1, h.2)).

(** "%-5s": to the left in a field of at least that many characters. *)
Definition padded (width : nat) (s : string) : string := s +:+ implode (repeat " "%char (width - len s)).
Definition line (m p : string) (st : Z) (out : string) : string :=
  padded 5 m +:+ " " +:+ padded 16 p +:+ " -> HTTP " +:+ to_string st +:+ "  " +:+ out +:+ lf.
Definition request (m p b : string) : M Host string :=
  pm ← pass m; pp ← pass p; pb ← pass b;
  res ← call_handle pm pp pb;
  mem ← gets fst;
  st ← on_globals lipp_status;
  _ ← release pm; _ ← release pp; _ ← release pb;
  mret (line (c_str m) (c_str p) st (read_string mem res)).
Fixpoint request_all (l : list (string * string * string)) : M Host (list string) :=
  match l with
  | [] => mret []
  | (m, p, b) :: l => x ← request m p b; xs ← request_all l; mret (x :: xs)
  end.
Definition host_banner : string := "C++ host -> Wasmtime -> the framework compiled to WASM (no JS):" +:+ lf +:+ lf.
(** What the program prints; a trap of the module ends it. *)
Definition host_main (l : list (string * string * string)) : M Host string :=
  lines ← request_all l; mret (host_banner +:+ s_concat lines).
End program.

(** ** Through the memory and back *)
Section passing.
Context (md : WasmModule) (held : LinearMemory -> nat -> nat -> Prop) `{!Heap md held} (demangle_type : Key -> string) (fuel : nat).
Definition holds (mem : LinearMemory) (p : nat) (s : string) : Prop :=
  held mem p (len s + 1) /\ forall i, i < len s + 1 -> mem !! (p + i) = (chars s ++ [zero]) !! i.

Lemma pass_spec s mem g : exists p mem', pass md s (mem, g) = (Ok p, (mem', g)) /\ holds mem' p s /\
  forall q t, holds mem q t -> holds mem' q t.
Proof.
  unfold pass. cbn [fst snd]. destruct (m_malloc md (len s + 1) mem) as [p mem1] eqn:E.
  destruct (heap_malloc _ _ _ _ E) as [Hp Hold]. exists p, (write_string p s mem1). split; [done|].
  assert (Hin : p + (len s + 1) <= length mem1) by (by eapply heap_inside).
  split; [split|].
  - by apply heap_write.
  - intros i Hi. unfold write_string. apply store_inside; rewrite length_app, length_chars; cbn; lia.
  - intros q t [Hq Ht]. destruct (Hold q _ Hq) as (Hq1 & Hapart & Hsame). split; [by apply heap_write|].
    intros i Hi. unfold write_string. rewrite store_outside, Hsame by (rewrite ?length_app, ?length_chars; cbn; lia). by apply Ht.
Qed.

Lemma holds_read mem p s : holds mem p s -> no_chr zero s -> read_string mem p = s.
Proof. intros [_ H] Hz. rewrite (read_at s) by done. by apply c_str_id. Qed.

(** The answer's text is what [g_body] holds, as a C string. *)
Lemma handle_body m p b g text g' : lipp_handle demangle_type fuel m p b g = (Ok text, g') -> text = c_str (g_body g').
Proof.
  unfold lipp_handle, mbind, M_bind. destruct (app demangle_type fuel g) as [[k|e] g1]; [|done].
  destruct (on_part _ _ _ _) as [[r|e] g2]; [|done]. by intros [= <- <-].
Qed.

Lemma request_spec m p b mem g : no_chr zero m -> no_chr zero p -> no_chr zero b -> exists mem',
  request md demangle_type fuel m p b (mem, g) =
  match lipp_handle demangle_type fuel (Some m) (Some p) (Some b) g with
  | (Ok text, g') => (Ok (line m p (g_status g') text), (mem', g'))
  | (Throw e, g') => (Throw e, (mem', g'))
  end.
Proof.
  intros Hm Hp Hb. unfold request, mbind, M_bind.
  destruct (pass_spec m mem g) as (pm & mem1 & -> & Hm1 & _).
  destruct (pass_spec p mem1 g) as (pp & mem2 & -> & Hp2 & H2).
  destruct (pass_spec b mem2 g) as (pb & mem3 & -> & Hb3 & H3).
  unfold call_handle, gets, mbind, M_bind, on_globals, on_part. cbn [fst snd].
  rewrite (holds_read mem3 pm m), (holds_read mem3 pp p), (holds_read mem3 pb b) by auto.
  destruct (lipp_handle demangle_type fuel (Some m) (Some p) (Some b) g) as [[text|e] g'] eqn:E; [|by eexists].
  apply handle_body in E. unfold publish_answer. cbn [fst snd].
  pose proof (heap_publish (g_body g') mem3) as Hpub. destruct (m_publish md (g_body g') mem3) as [q mem4].
  unfold lipp_status, gets, release, modify, mret, M_ret. cbn [fst snd]. rewrite Hpub, <- E, !c_str_id by done. by eexists.
Qed.
End passing.

(** ** What the program prints *)
Definition answer_line (c : Call) (a : Z * string) : string :=
  let '(m, p, _) := call_text c in line m p a.1 a.2.
Definition zero_free (c : Call) : Prop :=
  let '(m, p, b) := call_text c in no_chr zero m /\ no_chr zero p /\ no_chr zero b.

Section printed.
Context (md : WasmModule) (held : LinearMemory -> nat -> nat -> Prop) `{!Heap md held} (demangle_type : Key -> string).

Lemma request_all_lines fuel calls : Forall zero_free calls -> forall mem g,
  (request_all md demangle_type fuel (map call_text calls) (mem, g)).1 =
  (zip_with answer_line calls <$> (run_calls demangle_type fuel calls g).1).
Proof.
  induction 1 as [|c calls Hc _ IH]; intros mem g; [done|]. cbn [map request_all run_calls]. unfold zero_free in Hc.
  assert (Hline : answer_line c = fun a => let '(m, p, _) := call_text c in line m p a.1 a.2) by done.
  destruct (call_text c) as [[m p] b] eqn:Ec. destruct Hc as (Hm & Hp & Hb). unfold mbind, M_bind.
  destruct (request_spec md held demangle_type fuel m p b mem g Hm Hp Hb) as [mem' ->].
  destruct (lipp_handle demangle_type fuel (Some m) (Some p) (Some b) g) as [[text|e] g']; [|done].
  unfold lipp_status, gets. specialize (IH mem' g').
  destruct (request_all md demangle_type fuel (map call_text calls) (mem', g')) as [[xs|e] h'], (run_calls demangle_type fuel calls g') as [[as_|e'] g''];
    cbn in IH |- *; try done; injection IH as ->; by rewrite ?Hline.
Qed.

(** C38: The host's program prints, line by line, what the module's application answers: the
    strings of every request and every answer come through the linear memory as they are,
    whatever the module's allocator and wherever the answer is kept, and the answers are
    those of the list of articles, seeded and grown by the posts before. *)
Theorem host_prints calls mem :
  Forall well_formed calls -> (Z.of_nat (length calls) + 2 < 2 ^ 63)%Z ->
  exists enough, forall fuel, (enough <= fuel)%nat ->
    (host_main md demangle_type fuel (map call_text calls) (mem, fresh_globals)).1 =
    Ok (host_banner +:+ s_concat (zip_with answer_line calls (answers calls seeded_articles))).
Proof.
  intros Hw Hl. destruct (calls_from calls Hw seeded_articles) as [N HN]; [cbn [length seeded_articles]; lia|].
  exists N. intros fuel Hf. assert (Hz : Forall zero_free calls) by (eapply Forall_impl; [exact Hw|]; by intros c [? _]).
  pose proof (request_all_lines fuel calls Hz mem fresh_globals) as E. rewrite HN in E; [|done|by right].
  unfold host_main, mbind, M_bind. destruct (request_all _ _ _ _ _) as [[xs|e] h]; [|done]. cbn in E. injection E as ->. done.
Qed.
End printed.

(** ** A heap that only grows *)
Definition bump : WasmModule := {|
  m_malloc n mem := (length mem, mem ++ repeat zero n);
  m_free p mem := mem;
  m_publish text mem := (length mem, mem ++ chars text ++ [zero])
|}.
Definition within_bounds (mem : LinearMemory) (p n : nat) : Prop := p + n <= length mem.
#[export] Instance bump_heap : Heap bump within_bounds.
Proof.
  unfold within_bounds. split.
  - done.
  - intros n mem p mem' [= <- <-]. rewrite length_app, repeat_length. split; [lia|]. intros q k Hq. split; [lia|]. split; [lia|].
    intros i Hi. apply lookup_app_l. lia.
  - intros. by rewrite length_store.
  - intros text mem. cbn. apply read_at. intros i Hi. rewrite lookup_app_r by lia. f_equal. lia.
Qed.

(** The program of host.cpp itself. *)
Definition host_calls : list Call :=
  [Index; Show "2"; Store "title=Created from a C++ host&published=1"; Html; Store "published=1"; Other "GET" "/nope"].
Lemma host_prints_witness :
  map call_text host_calls = requests /\
  (exists enough, forall fuel, (enough <= fuel)%nat ->
    (host_main bump id fuel requests ([], fresh_globals)).1 =
    Ok (host_banner +:+ s_concat (zip_with answer_line host_calls (answers host_calls seeded_articles)))) /\
  nth 5 (zip_with answer_line host_calls (answers host_calls seeded_articles)) "" =
    "GET   /nope            -> HTTP 404  Not Found" +:+ lf.
Proof.
  split; [reflexivity|]. split; [|vm_compute; reflexivity]. change requests with (map call_text host_calls).
  apply (host_prints bump within_bounds id host_calls []); [|vm_compute; reflexivity].
  repeat (apply Forall_cons_2; [split; [by by_eval|first [done|by split; [done|by_eval]|by by_eval]]|]). apply Forall_nil_2.
Defined.
